(* ===== verification/_CoqProject ===== *)
-Q . S2P
Prelude.v
DecimalSpec.v
Account.v
Codec.v
EventsDb.v
EventStore.v
EventStoreFacts.v
BatchProcessor.v
FlushTasks.v
StoreHealth.v
Repository.v
Handlers.v
Concurrency.v
Projections.v
RedisGuard.v
RedisClient.v
Cache.v
Service.v
RateLimit.v
Sharding.v
Users.v
Auth.v
AuthFacts.v
Web.v
KafkaClient.v
KafkaDlq.v
KafkaRecovery.v
KafkaProcessor.v
KafkaMonitoring.v
KafkaTracing.v
KafkaSettings.v
Scaling.v
Reporters.v
Startup.v
Application.v
Running.v
Boot.v
Main.v
