(* ===== verification/Prelude.v ===== *)
(** * A verification of the banking event store

    The repository is an event-sourced banking service.  Clients issue commands
    on accounts; the domain turns a command into events; the events are appended
    to a PostgreSQL table with optimistic concurrency control; accounts are
    rebuilt by replaying their events; read models, a two-level cache over Redis
    and the guards around Redis serve the queries.  Kafka carries events and
    cache updates between instances, with a dead-letter queue and recovery;
    authentication, rate limits and the web handlers stand in front.  This
    library is a shallow embedding of those parts, with the theorems that say
    what they guarantee.

    ** The parts and their files

    - [Prelude]: results ([Ok], [Err], [Panic], [Hang]), the state-and-error
      effects [M] with their notation, machine integers, IEEE doubles, the hint
      database [bank] and the lemmas the other files share.
    - [DecimalSpec]: the interface of rust_decimal ([DecimalOps], [DecimalLaws]).
    - [Account]: src/src/domain/{account,commands,events}.rs.  [handle_command]
      decides, [apply_event] applies; [ledger] is the abstract account.
    - [Codec]: the serde encodings of accounts and events.
    - [EventsDb]: the statements of the event store and what PostgreSQL documents
      of them; [TableDb] is a database that satisfies the laws.
    - [EventStore], [EventStoreFacts]: src/src/infrastructure/event_store.rs, the
      write path ([flush_batch] down to [insert_attempt]), the reads, snapshots,
      validators, handlers and metrics; and the theorems about them.
    - [BatchProcessor]: [EventStore::batch_processor] with its callers and flush
      tasks, as the step relation [step].
    - [FlushTasks]: the flush tasks once more, statement by statement: programs
      over their atomic actions ([prog]), interleaved with one another and with
      other writers of the table ([sys_step]) over a database that transactions
      share ([SharedDb]).
    - [StoreHealth]: the store's retry helper, health report and the trait
      [EventStoreExt].
    - [Repository]: src/src/infrastructure/repository.rs between the two traits;
      [EventStoreContract] and [RepositoryContract] are the promises, and
      [repository_contract] and [event_store_contract] discharge them.
    - [Handlers]: src/src/application/handlers.rs over any repository.
    - [Concurrency]: the handlers running at the same time, interleaved at their
      awaits ([step]), against the abstract specification [serial] in which calls
      happen one at a time.
    - [Projections]: src/src/infrastructure/projections.rs, the read model, its
      caches and the batched writer.
    - [RedisGuard]: the circuit breaker and the load shedder of
      src/src/infrastructure/redis_abstraction.rs.
    - [RedisClient]: the clients, connection and pipeline of the same file over an
      abstract server, and the stack of both guards on a client.
    - [Cache]: src/src/infrastructure/cache_service.rs.
    - [Service]: src/src/application/services.rs over the repository, projection
      and cache interfaces; [projection_store] and [cache_service] put
      [Projections] and [Cache] behind them.
    - [RateLimit]: src/src/infrastructure/{middleware,rate_limiter}.rs.
    - [Sharding]: src/src/infrastructure/sharding.rs.
    - [Users]: src/src/infrastructure/user_repository.rs over the users table
      (class [UsersDb]).
    - [Auth], [AuthFacts]: src/src/infrastructure/auth.rs over [Users], Redis, the
      password hashes and the tokens; and the theorems about them.
    - [Web]: src/src/web/{handlers,routes}.rs and the routes of src/src/main.rs,
      over [Service], [RateLimit] and [Auth].
    - [KafkaClient]: src/src/infrastructure/{kafka_abstraction,kafka_metrics}.rs,
      the producer, the consumer and their messages over an abstract cluster.
    - [KafkaDlq]: src/src/infrastructure/kafka_dlq.rs; its [World] is the state
      the Kafka components share.
    - [KafkaRecovery]: src/src/infrastructure/{kafka_recovery,
      kafka_recovery_strategies}.rs.
    - [KafkaProcessor]: src/src/infrastructure/{kafka_event_processor,
      l1_cache_updater}.rs over the event store, the projections and the cache.
    - [KafkaMonitoring], [KafkaTracing]:
      src/src/infrastructure/{kafka_monitoring,kafka_tracing}.rs, the latter with
      the subscriber main.rs sets.
    - [KafkaSettings]: src/src/infrastructure/kafka_config.rs, its records,
      defaults and JSON.
    - [Scaling]: src/src/infrastructure/{scaling,config}.rs.
    - [Reporters]: the lines the metrics reporters of the event store, the
      projections, the repository and the service log.
    - [Startup]: src/src/infrastructure/init.rs and src/src/main.rs, the settings
      from the environment and the background tasks.
    - [Application]: the requests of [Web] on [Service] over the components
      themselves behind their traits, for a whole run ([serve_all]).
    - [Running]: those requests together with the background tasks, each shared
      component held once, as sequences of activities ([run]).
    - [Boot]: [init_all_services] of init.rs as one composition, with the pools
      that event_store.rs and projections.rs open.
    - [Main]: [main] of src/src/main.rs from the set-up of tracing to the
      shutdown, and the default constructors of the components.

    ** What the theorems show

    - Domain (C1, C13, C14): deciding and applying a command refines the ledger,
      error by error; replay conserves money; the stored JSON decodes to what
      was encoded.
    - Command handlers over any repository that keeps its contract (C2, C4, C5):
      handlers that run at the same time refine calls that happen one at a time,
      a handler records the one event of its own command, when it is permitted,
      or nothing, and no interleaving overdraws.
    - The whole application (C3, C40): over the event store of the source no
      request and no background task changes the events table or is reported as
      having done so; what a start-up that succeeds has opened and wired.
    - Flush tasks (C6-C8): C6 states that, however the statements of the tasks
      interleave, no save that carries events is acknowledged and no task adds a
      row: the version the insert expects in the table is that of the event it is
      about to write, so a matching version is a duplicate key.  Every request is
      answered at most once, and every task ends with a value or an error within a
      bound on its steps while its statements are answered and its handlers
      return.
    - Event store (C9-C12): under every interleaving of callers, processor and
      tasks requests are flushed once and in order, and can all be answered while
      the database answers and the handlers return; reads and snapshots agree with
      the history.
    - Service (C15-C17): what its commands do over a store that keeps the
      contract: deposits and withdrawals never succeed, a second command on an
      account is refused as a duplicate, and created accounts are recorded under
      another identifier.
    - Authentication (C18-C21): failed logins lock the account, the two types of
      token are not interchangeable, a revocation lasts until the token's expiry
      and no longer, a registered user can log in.
    - Kafka (C22-C27): a processed batch extends the history and publishes its
      replay, a polled batch is recorded or becomes a dead letter, a batch
      delivered again is not recorded again, what is polled was sent; a dead
      letter is retried a bounded number of times; one recovery strategy never
      completes.
    - Projections (C28), cache (C29, C30), Redis (C31-C33): what a failed flush
      loses, the shape of the cache under every operation, the round trip through
      Redis, when the breaker opens, that the guards are transparent while
      nothing fails and that what is stored through them is read back.
    - Sharding (C34), scaling (C35), rate limits and validation (C36, C37):
      routing is total and stable, scalings keep the cooldown, no window admits
      more than its burst, which payloads the middleware accepts.
    - Web (C38) and settings (C39): what a batch reports; every setting has the
      value its own variable of the environment gives it, or its default.

    The files hold further theorems that are not numbered, on the same subjects.

    ** Modelling choices

    Times, random identifiers and hashes are arguments of the operations that
    draw them.  Code of other crates and services (PostgreSQL, Redis, Kafka's
    client, rust_decimal, serde_json's text, argon2, jsonwebtoken, uuid, chrono's
    limits, DashMap's iteration order) is a class or a parameter, with laws that
    state documented behaviour and a concrete instance in the file's witness
    module.  Integer operators wrap, as in the release build.  A [DashMap]
    operation on a map into which the same task holds a reference, a trait
    method that only calls itself (in the binary it recurses until the stack or
    the memory is spent; either way it gives no answer) and a wait for what never
    comes are [Hang].  A flush that hangs keeps its callers waiting and its
    permits taken ([bp_stuck]; [Stuck] in [FlushTasks]); a panic aborts the process
    (the release profile), and a step that panics is no step of [BatchProcessor].
    A COMMIT that fails may or may not have taken effect.
    Tasks interleave as step relations where the source shares state between
    them ([BatchProcessor], the statements of [FlushTasks], the handlers of
    [Concurrency], the breaker, the shedder, the scaling manager); other
    operations are run one at a time.  In
    [Running] a request, or one turn of a task's loop, is one step.

    Some assumptions are narrower than what the services document, and the
    theorems that use them hold under them: a send that succeeds appends its
    record once ([k_send_ok]; librdkafka's retries without idempotence may repeat
    it); the text of a JSON value decodes to it ([json_round_trip], used on values
    the program itself encodes, whose numbers are integers of their Rust types;
    [as_i64] takes integers without testing a range for the same reason); Redis
    keeps its expiries in the whole seconds of the client's clock
    ([blacklist_token]); [start_scaling_manager] is started once, so that one
    loop runs [check_and_scale] ([scaling_step]); [SlidingWindow.request] is a
    caller that checks and then records with no other caller in between.

    Every function is total.  Loops recurse on the retries left
    ([insert_loop] and [insert_loop_task]: 3, [acquire_tries]: 3, [cache_update_loop]: 3, [retry_loop]), on the list
    they traverse, or on fuel: [chunks] takes the list's length, which is enough
    because every chunk is non-empty.  The endless loops ([process_dlq],
    [processing_loop], [update_loop], the stream of [last_version_loop]) are
    [Hang] when their fuel is spent; theorems about them hold for every fuel or
    are about one turn.  The self-recursive trait writers of the projection
    store never return whatever the fuel.

    ** Not modelled

    What the crates do behind a call: the Jaeger exporter, axum's extraction and
    layers, the sockets and signals under [main], whose outcome is an argument;
    the start page, which no route serves; the trait methods that only panic
    with [unimplemented!] in sharding.rs, and the [Clone] and [Debug] instances;
    src/src/infrastructure/locking.rs, which is commented out; the
    tests. *)
From stdpp Require Import base tactics numbers option list gmap strings pretty.
From Stdlib Require Import ZArith Lia SpecFloat.

(** ** Results

    A call of the program returns [Ok] or [Err] (Rust's [Result]), aborts the
    process ([Panic]: an [unwrap] on nothing, a division by zero, a date, duration
    or [Decimal] out of range, [unimplemented!()]), or never returns ([Hang]: a lock
    the calling task already holds, a call that only calls itself). *)
Inductive res (E A : Type) : Type :=
| Ok (a : A)
| Err (e : E)
| Panic
| Hang.
Arguments Ok {E A} a.
Arguments Err {E A} e.
Arguments Panic {E A}.
Arguments Hang {E A}.

Definition res_bind {E A B : Type} (r : res E A) (f : A -> res E B) : res E B :=
  match r with
  | Ok a => f a
  | Err e => Err e
  | Panic => Panic
  | Hang => Hang
  end.

(** [Result::map_err]. *)
Definition map_err {E F A : Type} (f : E -> F) (r : res E A) : res F A :=
  match r with
  | Ok a => Ok a
  | Err e => Err (f e)
  | Panic => Panic
  | Hang => Hang
  end.

(** [Option::ok_or]. *)
Definition ok_or {E A : Type} (e : E) (o : option A) : res E A :=
  match o with
  | Some a => Ok a
  | None => Err e
  end.

(** An operation whose only failure is a panic, as an option. *)
Definition or_panic {E A : Type} (o : option A) : res E A :=
  match o with
  | Some a => Ok a
  | None => Panic
  end.

Definition is_ok {E A : Type} (r : res E A) : bool :=
  match r with
  | Ok _ => true
  | _ => false
  end.

(** A call that returns. *)
Definition answered {E A : Type} (r : res E A) : Prop :=
  match r with
  | Ok _ | Err _ => True
  | Panic | Hang => False
  end.

(** ** Effects: explicit state passing with results *)
Definition M (S E A : Type) : Type := S -> res E A * S.

Definition ret {S E A : Type} (a : A) : M S E A := fun s => (Ok a, s).

Definition throw {S E A : Type} (e : E) : M S E A := fun s => (Err e, s).

Definition lift {S E A : Type} (r : res E A) : M S E A := fun s => (r, s).

Definition bind {S E A B : Type} (m : M S E A) (k : A -> M S E B) : M S E B :=
  fun s =>
    match m s with
    | (Ok a, s') => k a s'
    | (Err e, s') => (Err e, s')
    | (Panic, s') => (Panic, s')
    | (Hang, s') => (Hang, s')
    end.

Definition gets {S E A : Type} (f : S -> A) : M S E A := fun s => (Ok (f s), s).

Definition modify {S E : Type} (f : S -> S) : M S E unit := fun s => (Ok tt, f s).

(** [.await.map_err(f)]. *)
Definition on_err {S E F A : Type} (f : E -> F) (m : M S E A) : M S F A :=
  fun s => let '(r, s') := m s in (map_err f r, s').

(** [match m.await { Ok(a) => .., Err(e) => .. }]: the result as a value. *)
Definition attempt {S E F A : Type} (m : M S E A) : M S F (E + A) :=
  fun s =>
    match m s with
    | (Ok a, s') => (Ok (inr a), s')
    | (Err e, s') => (Ok (inl e), s')
    | (Panic, s') => (Panic, s')
    | (Hang, s') => (Hang, s')
    end.

(** Running an operation of a sub-component on its part of the state. *)
Definition zoom {S T E A : Type} (get : S -> T) (put : T -> S -> S) (m : M T E A) : M S E A :=
  fun s => let '(r, t) := m (get s) in (r, put t s).

Declare Scope eff_scope.
Delimit Scope eff_scope with eff.
Notation "'let!' x ':=' m 'in' k" := (bind m (fun x => k))
  (at level 10, x binder, m at level 100, k at level 200) : eff_scope.
Notation "m1 ;;; m2" := (bind m1 (fun _ => m2))
  (at level 100, m2 at level 200, right associativity) : eff_scope.
Notation "'let?' x ':=' r 'in' k" := (res_bind r (fun x => k))
  (at level 10, x binder, r at level 100, k at level 200) : eff_scope.
Open Scope eff_scope.

(** ** Machine integers

    Values in [Z].  The integer operators wrap around, as in the release build
    of Cargo.toml. *)
Definition u32_max : Z := 2 ^ 32 - 1.
Definition u64_max : Z := 2 ^ 64 - 1.
Definition i64_max : Z := 2 ^ 63 - 1.

Definition wrap_u32 (z : Z) : Z := z mod 2 ^ 32.
Definition wrap_u64 (z : Z) : Z := z mod 2 ^ 64.
Definition wrap_i64 (z : Z) : Z := (z + 2 ^ 63) mod 2 ^ 64 - 2 ^ 63.

Definition in_u64 (z : Z) : Prop := (0 <= z <= u64_max)%Z.
Definition in_i64 (z : Z) : Prop := (- 2 ^ 63 <= z <= i64_max)%Z.

(** [fetch_add(1)] on an [AtomicU64]: wraps. *)
Definition inc_u64 (z : Z) : Z := wrap_u64 (z + 1).

(** ** [f64]: IEEE 754 binary64, rounding to nearest even *)
Abbreviation f64 := spec_float.

Definition f64_of_u64 (z : Z) : f64 := binary_normalize 53 1024 z 0 false.

Definition f64_div : f64 -> f64 -> f64 := SFdiv 53 1024.

Definition f64_mul : f64 -> f64 -> f64 := SFmul 53 1024.

Definition f64_add : f64 -> f64 -> f64 := SFadd 53 1024.

Definition f64_sub : f64 -> f64 -> f64 := SFsub 53 1024.

Definition f64_abs : f64 -> f64 := SFabs.

Definition f64_ltb : f64 -> f64 -> bool := SFltb.

Definition f64_leb : f64 -> f64 -> bool := SFleb.

(** [(part as f64 / whole as f64) * 100.0], [0.0] when [whole] is 0. *)
Definition percentage (part whole : Z) : f64 :=
  if (0 <? whole)%Z
  then f64_mul (f64_div (f64_of_u64 part) (f64_of_u64 whole)) (f64_of_u64 100)
  else f64_of_u64 0.

(** The exact value [m * 2 ^ e] scaled by [k], rounded to an integer, ties to
    even. *)
Definition round_half_even (num den : Z) : Z :=
  let q := (num / den)%Z in
  let r := (2 * (num mod den))%Z in
  if (r <? den)%Z then q
  else if (den <? r)%Z then (q + 1)%Z
  else if Z.even q then q else (q + 1)%Z.

Definition scaled_round (k : Z) (m : positive) (e : Z) : Z :=
  if (0 <=? e)%Z then (Zpos m * 2 ^ e * k)%Z else round_half_even (Zpos m * k) (2 ^ (- e)).

(** The last [n] decimal digits. *)
Fixpoint digits (n : nat) (z : Z) : string :=
  match n with
  | O => EmptyString
  | S n' => digits n' (z / 10) +:+ pretty (z mod 10)%Z
  end.

(** The format [{:.n}], [n > 0], of an [f64]. *)
Definition fixed (n : nat) (f : f64) : string :=
  match f with
  | S754_nan => "NaN"
  | S754_infinity s => (if s then "-" else "") +:+ "inf"
  | S754_zero s => (if s then "-" else "") +:+ "0." +:+ digits n 0
  | S754_finite s m e =>
      let v := scaled_round (10 ^ Z.of_nat n) m e in
      (if s then "-" else "") +:+ pretty (v / 10 ^ Z.of_nat n)%Z +:+ "." +:+ digits n v
  end.

(** ** Identifiers

    A [Uuid] is its 128-bit value ([as_u128]). *)
Abbreviation Uuid := N.

(** Rust's [Display]: the program's own error types have instances; those of
    types from other crates are arguments of what uses them. *)
Class Display (A : Type) : Type := to_string : A -> string.

(** ** Automation *)
Create HintDb bank.
Create Rewrite HintDb bank_rw.

Ltac res_case :=
  repeat (case_match; simplify_eq/=).

(** Case analysis on every [match] of the hypotheses and the goal. *)
Ltac run :=
  repeat (first [ progress simplify_eq/= | case_match ]).

Ltac eff_unfold :=
  unfold bind, ret, throw, lift, gets, modify, on_err, attempt, zoom in *; simpl in *.

(** ** Lemmas on the effects *)
Lemma bind_ok {S E A B} (m : M S E A) (k : A -> M S E B) s b s' :
  bind m k s = (Ok b, s') ->
  exists a s1, m s = (Ok a, s1) /\ k a s1 = (Ok b, s').
Proof.
  unfold bind. destruct (m s) as [[a | e | | ] s1]; intros H; try congruence. eauto.
Qed.

(** Running an operation whose first part is known to succeed. *)
Lemma bind_step {S E A B} (m : M S E A) (k : A -> M S E B) s a s1 :
  m s = (Ok a, s1) -> bind m k s = k a s1.
Proof. intros Hm. unfold bind. by rewrite Hm. Qed.

Lemma modify_step {S E B} (f : S -> S) (k : unit -> M S E B) s : bind (modify f) k s = k tt (f s).
Proof. done. Qed.

Lemma on_err_ok {S E F A} (f : E -> F) (m : M S E A) s a s' :
  on_err f m s = (Ok a, s') -> m s = (Ok a, s').
Proof. unfold on_err. destruct (m s) as [[]]; simpl; congruence. Qed.

Lemma on_err_err {S E F A} (f : E -> F) (m : M S E A) s x s' :
  on_err f m s = (Err x, s') -> exists e, m s = (Err e, s') /\ x = f e.
Proof. unfold on_err. destruct (m s) as [[]]; simpl; intros; simplify_eq; eauto. Qed.

Lemma res_bind_ok {E A B} (r : res E A) (f : A -> res E B) b :
  res_bind r f = Ok b -> exists a, r = Ok a /\ f a = Ok b.
Proof. destruct r; simpl; intros; try congruence. eauto. Qed.

(** An operation that returns from every state. *)
Definition answers {S E A} (m : M S E A) : Prop := forall s, answered (fst (m s)).

Section Answers.
Context {S E A B : Type}.

Lemma answers_ret (a : A) : answers (ret a : M S E A).
Proof. done. Qed.

Lemma answers_throw (e : E) : answers (throw e : M S E A).
Proof. done. Qed.

Lemma answers_lift (r : res E A) : answered r -> answers (lift r : M S E A).
Proof. intros Hr s. exact Hr. Qed.

Lemma answers_modify (f : S -> S) : answers (modify f : M S E unit).
Proof. done. Qed.

Lemma answers_attempt {F} (m : M S E A) : answers m -> answers (attempt m : M S F _).
Proof. intros Hm s. specialize (Hm s). unfold attempt. by destruct (m s) as [[] ?]. Qed.

Lemma answers_on_err {F} (f : E -> F) (m : M S E A) : answers m -> answers (on_err f m).
Proof. intros Hm s. specialize (Hm s). unfold on_err. by destruct (m s) as [[] ?]. Qed.

Lemma answers_zoom {T} (get : T -> S) put (m : M S E A) : answers m -> answers (zoom get put m).
Proof. intros Hm s. specialize (Hm (get s)). unfold zoom. by destruct (m (get s)). Qed.

Lemma answers_bind (m : M S E A) (k : A -> M S E B) :
  answers m -> (forall a, answers (k a)) -> answers (bind m k).
Proof.
  intros Hm Hk s. specialize (Hm s). unfold bind. destruct (m s) as [[a | | |] s']; try done. apply Hk.
Qed.

End Answers.

#[export] Hint Resolve answers_ret answers_throw answers_lift answers_modify answers_attempt
  answers_on_err answers_zoom answers_bind : bank.

(** What every run of an operation does to the state. *)
Definition respects {S E A} (R : relation S) (m : M S E A) : Prop := forall s, R s (snd (m s)).

Section Respects.
Context {S E A B : Type} (R : relation S) `{!PreOrder R}.

Lemma respects_ret (a : A) : respects R (ret a : M S E A).
Proof. intros s. reflexivity. Qed.

Lemma respects_throw (e : E) : respects R (throw e : M S E A).
Proof. intros s. reflexivity. Qed.

Lemma respects_lift (r : res E A) : respects R (lift r).
Proof. intros s. reflexivity. Qed.

Lemma respects_gets (f : S -> A) : respects R (gets f : M S E A).
Proof. intros s. reflexivity. Qed.

Lemma respects_modify (f : S -> S) : (forall s, R s (f s)) -> respects R (modify f : M S E unit).
Proof. intros Hf s. apply Hf. Qed.

Lemma respects_attempt {F} (m : M S E A) : respects R m -> respects R (attempt m : M S F _).
Proof. intros Hm s. specialize (Hm s). unfold attempt. by destruct (m s) as [[] ?]. Qed.

Lemma respects_on_err {F} (f : E -> F) (m : M S E A) : respects R m -> respects R (on_err f m).
Proof. intros Hm s. specialize (Hm s). unfold on_err. by destruct (m s). Qed.

Lemma respects_bind (m : M S E A) (k : A -> M S E B) :
  respects R m -> (forall a, respects R (k a)) -> respects R (bind m k).
Proof.
  intros Hm Hk s. specialize (Hm s). unfold bind.
  destruct (m s) as [[a | e | | ] s1]; simpl in *; try done.
  transitivity s1; [ done | apply Hk ].
Qed.

(** As [respects_bind], with what the first operation says of its result. *)
Lemma respects_bind_post (P : A -> Prop) (m : M S E A) (k : A -> M S E B) :
  (forall s a s', m s = (Ok a, s') -> P a) ->
  respects R m -> (forall a, P a -> respects R (k a)) -> respects R (bind m k).
Proof.
  intros HP Hm Hk s. specialize (Hm s). specialize (HP s). unfold bind.
  destruct (m s) as [[a | e | | ] s1]; simpl in *; try done.
  transitivity s1; [ done | by eapply Hk, HP ].
Qed.

End Respects.

(** Walk through an operation; what it calls is left to [bank]. *)
Ltac respects_tac :=
  repeat (match goal with
    | |- respects _ (bind _ _) => apply respects_bind; [ apply _ | | intros ? ]
    | |- respects _ (ret _) => apply respects_ret; apply _
    | |- respects _ (throw _) => apply respects_throw; apply _
    | |- respects _ (lift _) => apply respects_lift; apply _
    | |- respects _ (gets _) => apply respects_gets; apply _
    | |- respects _ (attempt _) => apply respects_attempt
    | |- respects _ (on_err _ _) => apply respects_on_err
    | |- respects _ (modify _) => apply respects_modify; intros ?
    | |- respects _ (let _ := _ in _) => cbv zeta
    | |- _ => case_match
    end); auto with bank.

#[export] Hint Resolve respects_ret respects_throw respects_lift respects_gets respects_modify
  respects_attempt respects_on_err : bank.

(** ** Lemmas on machine integers *)
Lemma wrap_i64_id z : in_i64 z -> wrap_i64 z = z.
Proof. unfold in_i64, i64_max, wrap_i64. intros. rewrite Z.mod_small; lia. Qed.

Lemma wrap_i64_range z : in_i64 (wrap_i64 z).
Proof.
  unfold in_i64, i64_max, wrap_i64.
  pose proof (Z.mod_pos_bound (z + 2 ^ 63) (2 ^ 64)). lia.
Qed.

Lemma wrap_i64_add_l a b : wrap_i64 (wrap_i64 a + b) = wrap_i64 (a + b).
Proof.
  unfold wrap_i64.
  replace ((a + 2 ^ 63) mod 2 ^ 64 - 2 ^ 63 + b + 2 ^ 63)%Z
    with ((a + 2 ^ 63) mod 2 ^ 64 + b)%Z by lia.
  rewrite Zplus_mod_idemp_l. do 2 f_equal. lia.
Qed.

Lemma wrap_u64_id z : in_u64 z -> wrap_u64 z = z.
Proof. unfold in_u64, u64_max, wrap_u64. intros. rewrite Z.mod_small; lia. Qed.

Lemma wrap_u64_range z : in_u64 (wrap_u64 z).
Proof.
  unfold in_u64, u64_max, wrap_u64.
  pose proof (Z.mod_pos_bound z (2 ^ 64)). lia.
Qed.

#[export] Hint Resolve wrap_i64_range wrap_u64_range : bank.
#[export] Hint Rewrite @wrap_i64_add_l : bank_rw.

(** ** Lemmas on lists *)
Lemma foldl_app_one {A B} (f : A -> B -> A) l x a :
  foldl f a (l ++ [x]) = f (foldl f a l) x.
Proof. by rewrite foldl_app. Qed.

(** ** Sweeping a map: collect the keys of the entries a test selects, then
    remove them one by one *)
Definition collect_keys {K A} `{Countable K} (p : A -> bool) (m : gmap K A) : list K :=
  map fst (filter (fun kv => p kv.2 = true) (map_to_list m)).

Definition remove_keys {K A} `{Countable K} (keys : list K) (m : gmap K A) : gmap K A :=
  foldl (fun c key => delete key c) m keys.

Lemma lookup_remove_keys {K A} `{Countable K} (keys : list K) (m : gmap K A) k a :
  remove_keys keys m !! k = Some a <-> (k ∉ keys) /\ m !! k = Some a.
Proof.
  unfold remove_keys. revert m. induction keys as [| x keys IH]; intros m; simpl.
  - set_solver.
  - rewrite IH, lookup_delete_Some, not_elem_of_cons. naive_solver.
Qed.

Lemma elem_of_collect_keys {K A} `{Countable K} (p : A -> bool) (m : gmap K A) k :
  k ∈ collect_keys p m <-> exists a, m !! k = Some a /\ p a = true.
Proof.
  unfold collect_keys. rewrite list_elem_of_In, in_map_iff. split.
  - intros ([k' a] & <- & Hin). apply list_elem_of_In, list_elem_of_filter in Hin as [Hp Hin].
    exists a. split; [ by apply elem_of_map_to_list | done ].
  - intros (a & Hk & Hp). exists (k, a). split; [ done |].
    apply list_elem_of_In, list_elem_of_filter. split; [ done |]. by apply elem_of_map_to_list.
Qed.

(** A sweep keeps exactly the entries the test does not select. *)
Lemma lookup_sweep {K A} `{Countable K} (p : A -> bool) (m : gmap K A) k a :
  remove_keys (collect_keys p m) m !! k = Some a <-> m !! k = Some a /\ p a = false.
Proof.
  rewrite lookup_remove_keys, elem_of_collect_keys. split.
  - intros [Hno Hk]. split; [ done |]. apply not_true_is_false. intros Hp. apply Hno. eauto.
  - intros [Hk Hp]. split; [| done ]. intros (a' & Hk' & Hp'). congruence.
Qed.
