(* ===== verification/DecimalSpec.v ===== *)
(** The interface of the [rust_decimal] crate, which the domain computes
    money with and whose code is not part of this repository.

    [DecimalOps] lists the operations the source calls; [DecimalLaws] states
    what the crate documents of them.  A [Decimal] is a 96-bit coefficient
    with a scale between 0 and 28, so its value is a whole number of units of
    10^-28: [dec_units] is that number, and every law is about it.  [ScaleZero]
    is the sub-type of decimals with scale 0 (whole amounts), on which the
    crate's addition and subtraction are checked 96-bit integer arithmetic;
    it inhabits the interface. *)
From S2P Require Import Prelude.
From stdpp Require Import base numbers strings pretty.
From Stdlib Require Import ZArith Lia DecimalString DecimalZ.

(** The operations: [Decimal::ZERO], [<], [<=], [==], [+=], [-=] (which panic
    when the result does not fit, [None] here) and [Display]. *)
Class DecimalOps : Type := {
  Decimal : Type;
  dec_zero : Decimal;
  dec_ltb : Decimal -> Decimal -> bool;
  dec_leb : Decimal -> Decimal -> bool;
  dec_eqb : Decimal -> Decimal -> bool;
  dec_add : Decimal -> Decimal -> option Decimal;
  dec_sub : Decimal -> Decimal -> option Decimal;
  dec_display : Decimal -> string
}.

(** A number of units some decimal has as its value. *)
Definition dec_fits (u : Z) : Prop :=
  exists s m : Z, (0 <= s <= 28 /\ Z.abs m < 2 ^ 96 /\ u = m * 10 ^ (28 - s))%Z.

(** Comparison is numeric; addition and subtraction are exact when the exact
    result is a decimal; a result that had to be rounded keeps its sign. *)
Class DecimalLaws `{DecimalOps} : Type := {
  dec_units : Decimal -> Z;
  dec_units_zero : dec_units dec_zero = 0%Z;
  dec_ltb_units : forall a b, dec_ltb a b = (dec_units a <? dec_units b)%Z;
  dec_leb_units : forall a b, dec_leb a b = (dec_units a <=? dec_units b)%Z;
  dec_eqb_units : forall a b, dec_eqb a b = (dec_units a =? dec_units b)%Z;
  dec_add_exact : forall a b,
    dec_fits (dec_units a + dec_units b) ->
    exists c, dec_add a b = Some c /\ dec_units c = (dec_units a + dec_units b)%Z;
  dec_sub_exact : forall a b,
    dec_fits (dec_units a - dec_units b) ->
    exists c, dec_sub a b = Some c /\ dec_units c = (dec_units a - dec_units b)%Z;
  dec_add_sign : forall a b c,
    dec_add a b = Some c ->
    (0 <= dec_units a + dec_units b)%Z -> (0 <= dec_units c)%Z;
  dec_sub_sign : forall a b c,
    dec_sub a b = Some c ->
    (0 <= dec_units a - dec_units b)%Z -> (0 <= dec_units c)%Z
}.

(** ** Decimals of scale 0 *)
Module ScaleZero.

Definition limit : Z := 2 ^ 96.

Definition checked (z : Z) : option Z :=
  if (Z.abs z <? limit)%Z then Some z else None.

#[export] Instance ops : DecimalOps := {
  Decimal := Z;
  dec_zero := 0%Z;
  dec_ltb := Z.ltb;
  dec_leb := Z.leb;
  dec_eqb := Z.eqb;
  dec_add := fun a b => checked (a + b);
  dec_sub := fun a b => checked (a - b);
  dec_display := fun z => NilEmpty.string_of_int (Z.to_int z)
}.

(** A whole amount. *)
Definition amt (z : Z) : @Decimal ops := z.

Definition units (z : Z) : Z := z * 10 ^ 28.

Lemma units_pos : (0 < 10 ^ 28)%Z.
Proof. lia. Qed.

Lemma checked_fits z : dec_fits (units z) -> checked z = Some z.
Proof.
  intros (s & m & Hs & Hm & Heq). unfold checked, units, limit in *.
  assert (10 ^ 28 = 10 ^ (28 - s) * 10 ^ s)%Z as Hpow
    by (rewrite <- Z.pow_add_r; [ f_equal; lia | lia | lia ]).
  assert (0 < 10 ^ (28 - s))%Z by (apply Z.pow_pos_nonneg; lia).
  assert (0 < 10 ^ s)%Z by (apply Z.pow_pos_nonneg; lia).
  rewrite Hpow in Heq.
  assert (m = z * 10 ^ s)%Z as ->.
  { apply (Z.mul_cancel_r _ _ (10 ^ (28 - s))); lia. }
  rewrite Z.abs_mul, (Z.abs_eq (10 ^ s)) in Hm by lia.
  destruct (Z.ltb_spec (Z.abs z) (2 ^ 96)); [ done | nia ].
Qed.

Lemma units_fit z : (Z.abs z < limit)%Z -> dec_fits (units z).
Proof. intros. exists 0%Z, z. unfold limit in *. split_and!; [ lia | lia | done | done ]. Qed.

Lemma checked_some z c : checked z = Some c -> c = z.
Proof. unfold checked. case_match; congruence. Qed.

#[export] Instance laws : DecimalLaws.
Proof.
  refine {| dec_units := units : @Decimal ops -> Z |};
    pose proof units_pos as Hp; unfold units; simpl.
  - done.
  - intros a b. apply eq_true_iff_eq. rewrite !Z.ltb_lt. nia.
  - intros a b. apply eq_true_iff_eq. rewrite !Z.leb_le. nia.
  - intros a b. apply eq_true_iff_eq. rewrite !Z.eqb_eq. nia.
  - intros a b Hf. exists (a + b)%Z. split; [| lia ].
    apply checked_fits. unfold units. by rewrite Z.mul_add_distr_r.
  - intros a b Hf. exists (a - b)%Z. split; [| lia ].
    apply checked_fits. unfold units. by rewrite Z.mul_sub_distr_r.
  - intros a b c ->%checked_some. lia.
  - intros a b c ->%checked_some. lia.
Defined.

End ScaleZero.
