(* ===== verification/Account.v ===== *)
(** The domain: accounts, their commands and events
    (src/src/domain/{account,commands,events}.rs).

    [Account] is the aggregate; [handle_command] decides a command without
    changing the account and [apply_event] changes the account without
    deciding.  Identifiers the source draws from [Uuid::new_v4()] are
    arguments; money is the [Decimal] of [DecimalSpec].  [apply_event] is
    [None] where the [+=] or [-=] of the source panics.  [ledger] is the
    abstract account, on whole numbers of 10^-28 units, that the domain
    promises to implement. *)
From S2P Require Import Prelude.
From S2P Require Import DecimalSpec.
From stdpp Require Import base tactics list strings pretty.
From Stdlib Require Import ZArith Lia.

Section Domain.
Context `{DecimalOps}.

(** ** Data *)
Record Account : Type := {
  acc_id : Uuid;
  acc_owner_name : string;
  acc_balance : Decimal;
  acc_is_active : bool;
  acc_version : Z
}.

Inductive AccountError : Type :=
| NotFound
| InsufficientFunds (available requested : Decimal)
| AccountClosed
| InvalidAmount (amount : Decimal)
| EventDeserializationError (msg : string)
| InfrastructureError (msg : string)
| VersionConflict (expected actual : Z).

Inductive AccountCommand : Type :=
| CreateAccount (account_id : Uuid) (owner_name : string) (initial_balance : Decimal)
| DepositMoney (account_id : Uuid) (amount : Decimal)
| WithdrawMoney (account_id : Uuid) (amount : Decimal)
| CloseAccount (account_id : Uuid) (reason : string).

Inductive AccountEvent : Type :=
| EvAccountCreated (account_id : Uuid) (owner_name : string) (initial_balance : Decimal)
| EvMoneyDeposited (account_id : Uuid) (amount : Decimal) (transaction_id : Uuid)
| EvMoneyWithdrawn (account_id : Uuid) (amount : Decimal) (transaction_id : Uuid)
| EvAccountClosed (account_id : Uuid) (reason : string).

(** [AccountEvent::aggregate_id]. *)
Definition aggregate_id (e : AccountEvent) : Uuid :=
  match e with
  | EvAccountCreated account_id _ _ => account_id
  | EvMoneyDeposited account_id _ _ => account_id
  | EvMoneyWithdrawn account_id _ _ => account_id
  | EvAccountClosed account_id _ => account_id
  end.

(** [AccountEvent::event_type]. *)
Definition event_type (e : AccountEvent) : string :=
  match e with
  | EvAccountCreated _ _ _ => "AccountCreated"
  | EvMoneyDeposited _ _ _ => "MoneyDeposited"
  | EvMoneyWithdrawn _ _ _ => "MoneyWithdrawn"
  | EvAccountClosed _ _ => "AccountClosed"
  end.

(** The [#[error(..)]] texts of [AccountError]. *)
#[global] Instance AccountError_display : Display AccountError := fun e =>
  match e with
  | NotFound => "Account not found"
  | InsufficientFunds available requested =>
      "Insufficient funds: available " +:+ dec_display available
        +:+ ", requested " +:+ dec_display requested
  | AccountClosed => "Account is closed"
  | InvalidAmount amount => "Invalid amount: " +:+ dec_display amount
  | EventDeserializationError msg => "Event deserialization error: " +:+ msg
  | InfrastructureError msg => "Infrastructure error: " +:+ msg
  | VersionConflict expected actual =>
      "Version conflict: expected " +:+ pretty expected +:+ ", found " +:+ pretty actual
  end.

(** ** Operations *)

(** [Account::new]. *)
Definition Account_new (id : Uuid) (owner_name : string) (initial_balance : Decimal)
  : res AccountError Account :=
  if dec_ltb initial_balance dec_zero
  then Err (InvalidAmount initial_balance)
  else Ok {| acc_id := id; acc_owner_name := owner_name; acc_balance := initial_balance;
             acc_is_active := true; acc_version := 0 |}.

(** [Account::default], with the identifier it draws. *)
Definition Account_default (new_v4 : Uuid) : Account :=
  {| acc_id := new_v4; acc_owner_name := ""; acc_balance := dec_zero;
     acc_is_active := false; acc_version := 0 |}.

Definition set_id (id : Uuid) (a : Account) : Account :=
  {| acc_id := id; acc_owner_name := acc_owner_name a; acc_balance := acc_balance a;
     acc_is_active := acc_is_active a; acc_version := acc_version a |}.

(** [Account::apply_event]. *)
Definition apply_event (self : Account) (event : AccountEvent) : option Account :=
  let next owner balance active :=
    {| acc_id := acc_id self; acc_owner_name := owner; acc_balance := balance;
       acc_is_active := active; acc_version := wrap_i64 (acc_version self + 1) |} in
  match event with
  | EvAccountCreated _ owner_name initial_balance =>
      Some (next owner_name initial_balance true)
  | EvMoneyDeposited _ amount _ =>
      match dec_add (acc_balance self) amount with
      | Some b => Some (next (acc_owner_name self) b (acc_is_active self))
      | None => None
      end
  | EvMoneyWithdrawn _ amount _ =>
      match dec_sub (acc_balance self) amount with
      | Some b => Some (next (acc_owner_name self) b (acc_is_active self))
      | None => None
      end
  | EvAccountClosed _ _ =>
      Some (next (acc_owner_name self) (acc_balance self) false)
  end.

(** [for event in &events { account.apply_event(event); }]. *)
Fixpoint apply_events (self : Account) (events : list AccountEvent) : option Account :=
  match events with
  | [] => Some self
  | event :: rest =>
      match apply_event self event with
      | Some self' => apply_events self' rest
      | None => None
      end
  end.

Definition is_create (command : AccountCommand) : bool :=
  match command with
  | CreateAccount _ _ _ => true
  | _ => false
  end.

(** [Account::handle_command], with the transaction identifier it draws. *)
Definition handle_command (new_v4 : Uuid) (self : Account) (command : AccountCommand)
  : res AccountError (list AccountEvent) :=
  if negb (acc_is_active self) && negb (is_create command)
  then Err AccountClosed
  else
    match command with
    | CreateAccount account_id owner_name initial_balance =>
        if dec_ltb initial_balance dec_zero
        then Err (InvalidAmount initial_balance)
        else Ok [EvAccountCreated account_id owner_name initial_balance]
    | DepositMoney account_id amount =>
        if dec_leb amount dec_zero
        then Err (InvalidAmount amount)
        else Ok [EvMoneyDeposited account_id amount new_v4]
    | WithdrawMoney account_id amount =>
        if dec_leb amount dec_zero
        then Err (InvalidAmount amount)
        else if dec_ltb (acc_balance self) amount
        then Err (InsufficientFunds (acc_balance self) amount)
        else Ok [EvMoneyWithdrawn account_id amount new_v4]
    | CloseAccount account_id reason => Ok [EvAccountClosed account_id reason]
    end.

(** The decide-then-apply sequence every command of the service performs:
    [account.handle_command(&command)?] and the loop over the events. *)
Definition execute (new_v4 : Uuid) (self : Account) (command : AccountCommand)
  : res AccountError Account :=
  let? events := handle_command new_v4 self command in
  or_panic (apply_events self events).

(** [PartialEq for Account] (derived). *)
Definition account_eqb (a b : Account) : bool :=
  bool_decide (acc_id a = acc_id b)
  && bool_decide (acc_owner_name a = acc_owner_name b)
  && dec_eqb (acc_balance a) (acc_balance b)
  && Bool.eqb (acc_is_active a) (acc_is_active b)
  && (acc_version a =? acc_version b)%Z.

(** ** The abstract account *)
Record ledger : Type := {
  l_owner : string;
  l_open : bool;
  l_balance : Z;
  l_version : Z
}.

Inductive refusal : Type := RClosed | RInvalidAmount | RInsufficient.

Context `{!DecimalLaws}.

Definition ledger_exec (l : ledger) (c : AccountCommand) : refusal + ledger :=
  let next owner open balance :=
    {| l_owner := owner; l_open := open; l_balance := balance; l_version := l_version l + 1 |} in
  match c with
  | CreateAccount _ owner b =>
      if (dec_units b <? 0)%Z then inl RInvalidAmount else inr (next owner true (dec_units b))
  | DepositMoney _ amt =>
      if l_open l then
        if (0 <? dec_units amt)%Z
        then inr (next (l_owner l) true (l_balance l + dec_units amt)%Z)
        else inl RInvalidAmount
      else inl RClosed
  | WithdrawMoney _ amt =>
      if l_open l then
        if (0 <? dec_units amt)%Z then
          if (dec_units amt <=? l_balance l)%Z
          then inr (next (l_owner l) true (l_balance l - dec_units amt)%Z)
          else inl RInsufficient
        else inl RInvalidAmount
      else inl RClosed
  | CloseAccount _ _ =>
      if l_open l then inr (next (l_owner l) false (l_balance l)) else inl RClosed
  end.

(** The ledger an account stands for. *)
Definition abs_account (a : Account) : ledger :=
  {| l_owner := acc_owner_name a; l_open := acc_is_active a;
     l_balance := dec_units (acc_balance a); l_version := acc_version a |}.

Definition refusal_of (e : AccountError) : option refusal :=
  match e with
  | AccountClosed => Some RClosed
  | InvalidAmount _ => Some RInvalidAmount
  | InsufficientFunds _ _ => Some RInsufficient
  | _ => None
  end.

(** The command leaves the balance a decimal and the version an [i64]. *)
Definition in_range_after (a : Account) (c : AccountCommand) : Prop :=
  in_i64 (acc_version a + 1) /\
  match ledger_exec (abs_account a) c with
  | inl _ => True
  | inr l' => dec_fits (l_balance l')
  end.

(** Accounts the commands can lead to. *)
Inductive reachable : Account -> Prop :=
| reach_new id owner b a :
    Account_new id owner b = Ok a -> reachable a
| reach_default id :
    reachable (Account_default id)
| reach_execute a new_v4 c a' :
    reachable a -> execute new_v4 a c = Ok a' -> reachable a'.

(** What an event adds to the balance. *)
Definition delta (e : AccountEvent) : Z :=
  match e with
  | EvMoneyDeposited _ amt _ => dec_units amt
  | EvMoneyWithdrawn _ amt _ => - dec_units amt
  | _ => 0
  end.

Definition is_created (e : AccountEvent) : bool :=
  match e with
  | EvAccountCreated _ _ _ => true
  | _ => false
  end.

Definition total (es : list AccountEvent) : Z := foldr (fun e z => (delta e + z)%Z) 0%Z es.

(** ** Lemmas *)
Lemma apply_events_app a l1 l2 :
  apply_events a (l1 ++ l2) =
  match apply_events a l1 with
  | Some a' => apply_events a' l2
  | None => None
  end.
Proof.
  revert a. induction l1 as [| e l1 IH]; intros a; simpl; [ done |].
  destruct (apply_event a e); auto.
Qed.

Lemma apply_event_version a e a' :
  apply_event a e = Some a' -> acc_version a' = wrap_i64 (acc_version a + 1).
Proof. destruct e; simpl; intros; run; done. Qed.

Lemma apply_event_id a e a' : apply_event a e = Some a' -> acc_id a' = acc_id a.
Proof. destruct e; simpl; intros; run; done. Qed.

Lemma apply_events_id a es a' : apply_events a es = Some a' -> acc_id a' = acc_id a.
Proof.
  revert a. induction es as [| e es IH]; simpl; intros a Ha; [ congruence |].
  destruct (apply_event a e) as [a1 |] eqn:He; [| done ].
  rewrite (IH _ Ha). by eapply apply_event_id.
Qed.

Lemma apply_events_version a es a' :
  in_i64 (acc_version a) -> apply_events a es = Some a' ->
  acc_version a' = wrap_i64 (acc_version a + Z.of_nat (length es)).
Proof.
  revert a. induction es as [| e es IH]; simpl; intros a Hr Ha.
  - simplify_eq. by rewrite Z.add_0_r, wrap_i64_id.
  - destruct (apply_event a e) as [a1 |] eqn:He; [| done ].
    pose proof (apply_event_version _ _ _ He) as Hv.
    rewrite (IH a1) by (rewrite ?Hv; auto with bank). rewrite Hv, wrap_i64_add_l.
    f_equal. lia.
Qed.

Lemma handle_command_single new_v4 a c es :
  handle_command new_v4 a c = Ok es -> exists e, es = [e].
Proof. unfold handle_command. intros; run; eauto. Qed.

Ltac dec_arith :=
  rewrite ?dec_ltb_units, ?dec_leb_units, ?dec_units_zero in *;
  rewrite ?Z.ltb_ge, ?Z.leb_gt, ?Z.ltb_lt, ?Z.leb_le in *.

Lemma execute_ok_balance new_v4 a c a' :
  (0 <= dec_units (acc_balance a))%Z -> execute new_v4 a c = Ok a' ->
  (0 <= dec_units (acc_balance a'))%Z.
Proof.
  unfold execute, handle_command, or_panic. intros Hb Hx.
  destruct c; run; dec_arith; auto; try lia.
  - eapply dec_add_sign; [ eassumption | lia ].
  - eapply dec_sub_sign; [ eassumption | lia ].
Qed.

Lemma execute_version new_v4 a c a' :
  execute new_v4 a c = Ok a' -> acc_version a' = wrap_i64 (acc_version a + 1).
Proof. unfold execute, handle_command, or_panic. intros; run; done. Qed.

Lemma reachable_nonneg (a : Account) : reachable a -> (0 <= dec_units (acc_balance a))%Z.
Proof.
  induction 1 as [id owner b a Ha | id | a new_v4 c a' _ IH Hx].
  - unfold Account_new in Ha. run. dec_arith. done.
  - simpl. rewrite dec_units_zero. done.
  - by eapply execute_ok_balance.
Qed.

(** A replay step with a representable result. *)
Lemma apply_event_exact a e :
  is_created e = false -> dec_fits (dec_units (acc_balance a) + delta e) ->
  exists a', apply_event a e = Some a' /\
    dec_units (acc_balance a') = (dec_units (acc_balance a) + delta e)%Z.
Proof.
  destruct e as [| id amt tx | id amt tx |]; simpl; intros Hc Hf; [ done | | |].
  - destruct (dec_add_exact (acc_balance a) amt Hf) as (c & -> & Hc').
    eexists; split; [ reflexivity |]. simpl. lia.
  - destruct (dec_sub_exact (acc_balance a) amt) as (c & -> & Hc').
    { by rewrite <- Z.add_opp_r. }
    eexists; split; [ reflexivity |]. simpl. lia.
  - eexists; split; [ reflexivity |]. simpl. lia.
Qed.

(** ** Properties *)

(** C1. The domain implements the abstract account: when the new balance is a
    decimal and the new version an [i64], deciding a command and applying its
    events succeeds exactly when the ledger accepts the command, leads to the
    ledger's next state, and otherwise fails with the ledger's reason. *)
Theorem execute_refines_ledger (a : Account) (c : AccountCommand) (new_v4 : Uuid) :
  in_range_after a c ->
  match ledger_exec (abs_account a) c with
  | inr l' => exists a', execute new_v4 a c = Ok a' /\ abs_account a' = l'
  | inl r => exists e, execute new_v4 a c = Err e /\ refusal_of e = Some r
  end.
Proof.
  intros [Hv Hf]. unfold execute, handle_command, or_panic.
  destruct c as [id owner b | id amt | id amt | id reason]; simpl in *; dec_arith.
  - rewrite andb_false_r. destruct (dec_units b <? 0)%Z; simpl; eauto.
    eexists; split; [ reflexivity |]. unfold abs_account; simpl. by rewrite wrap_i64_id.
  - destruct (acc_is_active a) eqn:Ha; simpl in *; eauto.
    destruct (Z.ltb_spec 0 (dec_units amt)) as [Hp | Hp], (Z.leb_spec (dec_units amt) 0);
      simpl in *; eauto; try lia.
    destruct (dec_add_exact (acc_balance a) amt Hf) as (b & -> & Hb).
    eexists; split; [ reflexivity |]. unfold abs_account; simpl.
    by rewrite wrap_i64_id, Hb, Ha.
  - destruct (acc_is_active a) eqn:Ha; simpl in *; eauto.
    destruct (Z.ltb_spec 0 (dec_units amt)) as [Hp | Hp], (Z.leb_spec (dec_units amt) 0);
      simpl in *; eauto; try lia.
    destruct (Z.leb_spec (dec_units amt) (dec_units (acc_balance a))),
      (Z.ltb_spec (dec_units (acc_balance a)) (dec_units amt)); simpl in *; eauto; try lia.
    destruct (dec_sub_exact (acc_balance a) amt Hf) as (b & -> & Hb).
    eexists; split; [ reflexivity |]. unfold abs_account; simpl.
    by rewrite wrap_i64_id, Hb, Ha.
  - destruct (acc_is_active a) eqn:Ha; simpl in *; eauto.
    eexists; split; [ reflexivity |]. unfold abs_account; simpl. by rewrite wrap_i64_id.
Qed.

(** No sequence of accepted commands overdraws an account: the balance of
    every reachable account is at least zero. *)
Theorem reachable_balance_nonneg (a : Account) :
  reachable a -> (0 <= dec_units (acc_balance a))%Z.
Proof. apply reachable_nonneg. Qed.

(** C13. Replaying a stored history without creation events computes the initial
    balance plus the deposits minus the withdrawals, and counts the events in
    the version, as long as every intermediate balance is a decimal. *)
Theorem replay_conserves_money (a : Account) (es : list AccountEvent) :
  forallb (fun e => negb (is_created e)) es = true ->
  in_i64 (acc_version a) ->
  (forall n, (n <= length es)%nat ->
     dec_fits (dec_units (acc_balance a) + total (take n es))) ->
  exists a', apply_events a es = Some a' /\
    dec_units (acc_balance a') = (dec_units (acc_balance a) + total es)%Z /\
    acc_version a' = wrap_i64 (acc_version a + Z.of_nat (length es)).
Proof.
  intros Hc Hr Hf.
  enough (exists a', apply_events a es = Some a' /\
    dec_units (acc_balance a') = (dec_units (acc_balance a) + total es)%Z) as (a' & Ha & Hb).
  { exists a'. split_and!; auto. by apply apply_events_version. }
  clear Hr. revert a Hf Hc. induction es as [| e es IH]; simpl; intros a Hf Hc.
  { exists a. split; [ done |]. lia. }
  apply andb_true_iff in Hc as [Hce Hc]. apply negb_true_iff in Hce.
  destruct (apply_event_exact a e) as (a1 & -> & Hb1); [ done | |].
  { specialize (Hf 1%nat ltac:(lia)). simpl in Hf. by rewrite Z.add_0_r in Hf. }
  destruct (IH a1) as (a' & Ha & Hb); [| done |].
  - intros n Hn. specialize (Hf (S n) ltac:(lia)). simpl in Hf. by rewrite Hb1, <- Z.add_assoc.
  - exists a'. split; [ done | lia ].
Qed.

(** A closed account refuses deposits, withdrawals and closing, whatever
    their amounts; a creation command is the only one it accepts. *)
Theorem closed_account_refuses (a : Account) (new_v4 : Uuid) (c : AccountCommand) :
  acc_is_active a = false ->
  handle_command new_v4 a c =
    (match c with
     | CreateAccount id owner b =>
         if dec_ltb b dec_zero then Err (InvalidAmount b) else Ok [EvAccountCreated id owner b]
     | _ => Err AccountClosed
     end).
Proof. intros Hc. unfold handle_command. rewrite Hc. by destruct c. Qed.

End Domain.

(** ** Witnesses, on whole amounts *)
Module AccountWitness.
Import ScaleZero.

Definition alice_at (balance version : Z) : Account :=
  {| acc_id := 1%N; acc_owner_name := "alice"; acc_balance := balance;
     acc_is_active := true; acc_version := version |}.

Definition alice : Account := alice_at 100 3.

Definition history : list AccountEvent :=
  [EvMoneyDeposited 1%N 50%Z 7%N; EvMoneyWithdrawn 1%N 120%Z 8%N; EvAccountClosed 1%N "done"].

Lemma execute_refines_ledger_witness :
  exists a', execute 9%N alice (WithdrawMoney 1%N 30%Z) = Ok a' /\
    abs_account a' = {| l_owner := "alice"; l_open := true;
                        l_balance := units 70; l_version := 4 |}.
Proof.
  refine (execute_refines_ledger alice (WithdrawMoney 1%N 30%Z) 9%N _).
  split; [ vm_compute; split; discriminate | exact (units_fit 70 eq_refl) ].
Defined.

Lemma reachable_balance_nonneg_witness : (0 <= dec_units (acc_balance alice))%Z.
Proof.
  apply reachable_balance_nonneg.
  apply (reach_execute (alice_at 70 2) 8%N (DepositMoney 1%N (amt 30))); [| reflexivity ].
  apply (reach_execute (alice_at 100 1) 8%N (WithdrawMoney 1%N (amt 30))); [| reflexivity ].
  apply (reach_execute (Account_default 1%N) 8%N (CreateAccount 1%N "alice" (amt 100)));
    [ apply reach_default | reflexivity ].
Defined.

Lemma replay_conserves_money_witness :
  exists a', apply_events alice history = Some a' /\
    dec_units (acc_balance a') = (dec_units (acc_balance alice) + total history)%Z /\
    acc_version a' = 6%Z.
Proof.
  refine (replay_conserves_money alice history _ _ _);
    [ reflexivity | vm_compute; split; discriminate |].
  intros n Hn. simpl in Hn.
  do 4 (destruct n as [| n]; [ first [ exact (units_fit 100 eq_refl)
    | exact (units_fit 150 eq_refl) | exact (units_fit 30 eq_refl) ] |]). lia.
Defined.

Lemma closed_account_refuses_witness :
  handle_command 9%N (Account_default 1%N) (DepositMoney 1%N 5%Z) = Err AccountClosed.
Proof. exact (closed_account_refuses (Account_default 1%N) 9%N (DepositMoney 1%N 5%Z) eq_refl). Defined.

End AccountWitness.
