(* ===== verification/Codec.v ===== *)
(** JSON values and the serialisation of accounts and events
    (the serde attributes of src/src/domain/{account,events}.rs).

    [serde_json::Value] is [Value]; what the derived [Serialize] and
    [Deserialize] of [AccountEvent] (internally tagged, [tag = "type"]) and
    [Account] (a plain struct) write and read is [event_to_value],
    [event_from_value], [account_to_value] and [account_from_value].  The
    encodings of the leaf types [Uuid] and [Decimal] belong to their crates:
    they are the class [SerdeOps], with [SerdeLaws] stating that reading what
    was written gives the value back; dates are [DateTimeText] likewise. *)
From S2P Require Import Prelude.
From S2P Require Import DecimalSpec.
From S2P Require Import Account.
From stdpp Require Import base tactics list strings.
From Stdlib Require Import ZArith SpecFloat DecimalString DecimalN DecimalZ.

#[local] Set Warnings "-register-all".

(** [serde_json::Value]; a number is an integer or an [f64]. *)
Inductive Value : Type :=
| VNull
| VBool (b : bool)
| VNumber (z : Z)
| VFloat (f : f64)
| VString (s : string)
| VArray (l : list Value)
| VObject (fields : list (string * Value)).

(** [serde_json::Error]: the cases the derived code reports. *)
Inductive SerdeError : Type :=
| MissingField (name : string)
| UnknownVariant (name : string)
| InvalidType (expected : string).

Class SerdeOps `{DecimalOps} : Type := {
  uuid_to_string : Uuid -> string;
  uuid_from_string : string -> option Uuid;
  dec_from_value : Value -> option Decimal
}.

Class SerdeLaws `{SerdeOps} : Prop := {
  uuid_round_trip : forall u, uuid_from_string (uuid_to_string u) = Some u;
  dec_round_trip : forall d, dec_from_value (VString (dec_display d)) = Some d
}.

(** chrono's text of a date, an instant. *)
Class DateTimeText : Type := {
  dt_to_string : Z -> string;
  dt_from_string : string -> option Z
}.

Class DateTimeLaws `{DateTimeText} : Prop :=
  dt_round_trip : forall t, dt_from_string (dt_to_string t) = Some t.

Definition date_value `{DateTimeText} (t : Z) : Value := VString (dt_to_string t).

(** [serde_json::to_value] of an [f64]: a number when it is finite. *)
Definition f64_to_value (f : f64) : Value :=
  match f with
  | S754_zero _ | S754_finite _ _ _ => VFloat f
  | S754_infinity _ | S754_nan => VNull
  end.

Section Codec.
Context `{SerdeOps}.

(** ** Reading an object *)
Fixpoint get_field (name : string) (fields : list (string * Value)) : res SerdeError Value :=
  match fields with
  | [] => Err (MissingField name)
  | (k, v) :: rest => if String.eqb k name then Ok v else get_field name rest
  end.

Definition as_object (v : Value) : res SerdeError (list (string * Value)) :=
  match v with
  | VObject fields => Ok fields
  | _ => Err (InvalidType "object")
  end.

Definition as_str (v : Value) : res SerdeError string :=
  match v with
  | VString s => Ok s
  | _ => Err (InvalidType "string")
  end.

Definition as_bool (v : Value) : res SerdeError bool :=
  match v with
  | VBool b => Ok b
  | _ => Err (InvalidType "boolean")
  end.

Definition as_i64 (v : Value) : res SerdeError Z :=
  match v with
  | VNumber z => Ok z
  | _ => Err (InvalidType "i64")
  end.

Definition as_uuid (v : Value) : res SerdeError Uuid :=
  let? s := as_str v in ok_or (InvalidType "UUID") (uuid_from_string s).

Definition as_decimal (v : Value) : res SerdeError Decimal :=
  ok_or (InvalidType "Decimal") (dec_from_value v).

Definition uuid_value (u : Uuid) : Value := VString (uuid_to_string u).
Definition decimal_value (d : Decimal) : Value := VString (dec_display d).

(** ** Events: [#[serde(tag = "type")]] *)
Definition event_to_value (e : AccountEvent) : Value :=
  match e with
  | EvAccountCreated account_id owner_name initial_balance =>
      VObject [("type", VString "AccountCreated"); ("account_id", uuid_value account_id);
               ("owner_name", VString owner_name);
               ("initial_balance", decimal_value initial_balance)]
  | EvMoneyDeposited account_id amount transaction_id =>
      VObject [("type", VString "MoneyDeposited"); ("account_id", uuid_value account_id);
               ("amount", decimal_value amount); ("transaction_id", uuid_value transaction_id)]
  | EvMoneyWithdrawn account_id amount transaction_id =>
      VObject [("type", VString "MoneyWithdrawn"); ("account_id", uuid_value account_id);
               ("amount", decimal_value amount); ("transaction_id", uuid_value transaction_id)]
  | EvAccountClosed account_id reason =>
      VObject [("type", VString "AccountClosed"); ("account_id", uuid_value account_id);
               ("reason", VString reason)]
  end.

Definition event_from_value (v : Value) : res SerdeError AccountEvent :=
  let? o := as_object v in
  let? tag := get_field "type" o in
  let? name := as_str tag in
  let uuid k := (let? f := get_field k o in as_uuid f) in
  let dec k := (let? f := get_field k o in as_decimal f) in
  let str k := (let? f := get_field k o in as_str f) in
  if String.eqb name "AccountCreated" then
    let? account_id := uuid "account_id" in
    let? owner_name := str "owner_name" in
    let? initial_balance := dec "initial_balance" in
    Ok (EvAccountCreated account_id owner_name initial_balance)
  else if String.eqb name "MoneyDeposited" then
    let? account_id := uuid "account_id" in
    let? amount := dec "amount" in
    let? transaction_id := uuid "transaction_id" in
    Ok (EvMoneyDeposited account_id amount transaction_id)
  else if String.eqb name "MoneyWithdrawn" then
    let? account_id := uuid "account_id" in
    let? amount := dec "amount" in
    let? transaction_id := uuid "transaction_id" in
    Ok (EvMoneyWithdrawn account_id amount transaction_id)
  else if String.eqb name "AccountClosed" then
    let? account_id := uuid "account_id" in
    let? reason := str "reason" in
    Ok (EvAccountClosed account_id reason)
  else Err (UnknownVariant name).

(** ** Accounts: a plain struct *)
Definition account_to_value (a : Account) : Value :=
  VObject [("id", uuid_value (acc_id a)); ("owner_name", VString (acc_owner_name a));
           ("balance", decimal_value (acc_balance a)); ("is_active", VBool (acc_is_active a));
           ("version", VNumber (acc_version a))].

Definition account_from_value (v : Value) : res SerdeError Account :=
  let? o := as_object v in
  let? id := (let? f := get_field "id" o in as_uuid f) in
  let? owner_name := (let? f := get_field "owner_name" o in as_str f) in
  let? balance := (let? f := get_field "balance" o in as_decimal f) in
  let? is_active := (let? f := get_field "is_active" o in as_bool f) in
  let? version := (let? f := get_field "version" o in as_i64 f) in
  Ok {| acc_id := id; acc_owner_name := owner_name; acc_balance := balance;
        acc_is_active := is_active; acc_version := version |}.

(** ** Round trips *)
Context `{!SerdeLaws}.

Lemma as_uuid_value u : as_uuid (uuid_value u) = Ok u.
Proof. unfold as_uuid, uuid_value; simpl. by rewrite uuid_round_trip. Qed.

Lemma as_decimal_value d : as_decimal (decimal_value d) = Ok d.
Proof. unfold as_decimal, decimal_value; simpl. by rewrite dec_round_trip. Qed.

Ltac decode :=
  cbn; repeat (first [ rewrite uuid_round_trip | rewrite as_uuid_value | rewrite as_decimal_value ];
               cbn).

Lemma event_round_trip_eq e : event_from_value (event_to_value e) = Ok e.
Proof. destruct e; decode; reflexivity. Qed.

Lemma account_round_trip_eq a : account_from_value (account_to_value a) = Ok a.
Proof. destruct a; decode; reflexivity. Qed.

(** C14. Reading back a stored event or account gives what was written: the
    internally tagged encoding keeps every variant and every field. *)
Theorem stored_json_round_trip (e : AccountEvent) (a : Account) :
  event_from_value (event_to_value e) = Ok e /\
  account_from_value (account_to_value a) = Ok a.
Proof. split; [ apply event_round_trip_eq | apply account_round_trip_eq ]. Qed.

End Codec.

(** ** The leaf encodings for whole amounts and decimal identifiers *)
Module PlainSerde.
Import ScaleZero.

#[export] Instance serde : SerdeOps := {
  uuid_to_string := fun u => NilEmpty.string_of_uint (N.to_uint u);
  uuid_from_string := fun s => option_map N.of_uint (NilEmpty.uint_of_string s);
  dec_from_value := fun v =>
    match v with
    | VString s => option_map Z.of_int (NilEmpty.int_of_string s)
    | VNumber z => Some z
    | _ => None
    end
}.

#[export] Instance serde_laws : SerdeLaws.
Proof.
  split; simpl; intros x.
  - by rewrite NilEmpty.usu; simpl; rewrite DecimalN.Unsigned.of_to.
  - by rewrite NilEmpty.isi; simpl; rewrite DecimalZ.of_to.
Qed.

Lemma stored_json_round_trip_witness :
  event_from_value (event_to_value (EvMoneyDeposited 7%N (amt 25) 9%N))
    = Ok (EvMoneyDeposited 7%N (amt 25) 9%N) /\
  account_from_value (account_to_value AccountWitness.alice) = Ok AccountWitness.alice.
Proof. exact (stored_json_round_trip (EvMoneyDeposited 7%N (amt 25) 9%N) AccountWitness.alice). Defined.

End PlainSerde.
