(* ===== verification/EventsDb.v ===== *)
(** The database under the event store: its tables and the statements the
    event store sends (migrations/001 and 007; the SQL of
    src/src/infrastructure/event_store.rs).

    PostgreSQL is not part of the repository.  [EventsDb] lists one operation
    per statement; [EventsDbLaws] states what PostgreSQL documents of them, on
    the rows a connection or a transaction sees ([db_rows], [tx_rows]): a read
    changes nothing, a failed statement changes nothing, and a successful
    INSERT keeps the constraint [unique_aggregate_id_version].  [TableDb] is a
    concrete database that satisfies the laws, with a transaction that refuses
    every statement after an error and refuses SET TRANSACTION after a query. *)
From S2P Require Import Prelude.
From S2P Require Import DecimalSpec.
From S2P Require Import Account.
From S2P Require Import Codec.
From stdpp Require Import base tactics list sorting gmap strings.
From Stdlib Require Import ZArith Lia.

(** [sqlx::Error], as far as the event store looks into it: no row for
    [fetch_one], an error the server reports (SQLSTATE and constraint), or any
    other failure of the connection. *)
Inductive SqlxError : Type :=
| RowNotFound
| PgDatabaseError (code : string) (constraint : option string)
| OtherSqlxError (msg : string).

(** A row of the table [events]. *)
Record EventRow : Type := {
  er_id : Uuid;
  er_aggregate_id : Uuid;
  er_event_type : string;
  er_event_data : Value;
  er_version : Z;
  er_timestamp : Z;
  er_metadata : Value
}.

(** A row of the table [snapshots]. *)
Record SnapshotRow : Type := {
  sr_aggregate_id : Uuid;
  sr_data : Value;
  sr_version : Z;
  sr_created_at : Z
}.

(** A row of the query for snapshot candidates. *)
Record Candidate : Type := {
  cand_aggregate_id : Uuid;
  cand_max_version : option Z;
  cand_last_snapshot_version : option Z
}.

Class EventsDb : Type := {
  Db : Type;
  Tx : Type;
  (** [pool.begin()] *)
  db_begin : M Db SqlxError Tx;
  (** [SET TRANSACTION ISOLATION LEVEL SERIALIZABLE] *)
  tx_set_serializable : M Tx SqlxError unit;
  (** [WITH current_events AS (SELECT version .. ORDER BY version DESC LIMIT 1 FOR UPDATE)
      SELECT COALESCE(version, 0)]: the rows it returns *)
  tx_select_last_version : Uuid -> M Tx SqlxError (list (option Z));
  (** [INSERT INTO events (..) VALUES ..] *)
  tx_insert_events : list EventRow -> M Tx SqlxError unit;
  (** [tx.commit()] *)
  tx_commit : Tx -> M Db SqlxError unit;
  (** [SELECT .. WHERE aggregate_id = $1 AND version > $2 ORDER BY version ASC] *)
  db_select_events : Uuid -> Z -> M Db SqlxError (list EventRow);
  (** [SELECT .. WHERE aggregate_id = $1 ORDER BY version] *)
  db_select_all_events : Uuid -> M Db SqlxError (list EventRow);
  (** [SELECT COALESCE(MAX(version), 0) .. WHERE aggregate_id = $1] *)
  db_select_max_version : Uuid -> M Db SqlxError (option Z);
  (** [SELECT DISTINCT aggregate_id FROM events ORDER BY aggregate_id] *)
  db_select_aggregates : M Db SqlxError (list Uuid);
  (** [INSERT INTO snapshots .. ON CONFLICT (aggregate_id) DO UPDATE] *)
  db_upsert_snapshot : SnapshotRow -> M Db SqlxError unit;
  (** the query for snapshot candidates, with its threshold and limit *)
  db_select_candidates : Z -> Z -> M Db SqlxError (list Candidate)
}.

(** ** What the statements mean on the rows *)
Definition row_key (r : EventRow) : Uuid * Z := (er_aggregate_id r, er_version r).

Definition unique_keys (rows : list EventRow) : Prop := NoDup (map row_key rows).

Definition rows_of (agg : Uuid) (rows : list EventRow) : list EventRow :=
  filter (fun r => er_aggregate_id r = agg) rows.

Definition max_version (agg : Uuid) (rows : list EventRow) : option Z :=
  foldr (fun r acc => Some (match acc with
                            | Some v => Z.max (er_version r) v
                            | None => er_version r
                            end)) None (rows_of agg rows).

Definition last_version_rows (agg : Uuid) (rows : list EventRow) : list (option Z) :=
  match max_version agg rows with
  | Some v => [Some v]
  | None => []
  end.

Definition version_le (a b : EventRow) : Prop := (er_version a <= er_version b)%Z.

#[global] Instance version_le_dec : RelDecision version_le.
Proof. intros a b. unfold version_le. apply _. Defined.

#[global] Instance version_le_trans : Transitive version_le.
Proof. intros a b c. unfold version_le. lia. Qed.

#[global] Instance version_le_total : Total version_le.
Proof. intros a b. unfold version_le. lia. Qed.

Definition select_after (agg : Uuid) (from : Z) (rows : list EventRow) : list EventRow :=
  merge_sort version_le (filter (fun r => (from < er_version r)%Z) (rows_of agg rows)).

Definition select_all (agg : Uuid) (rows : list EventRow) : list EventRow :=
  merge_sort version_le (rows_of agg rows).

Definition aggregates (rows : list EventRow) : list Uuid :=
  merge_sort N.le (remove_dups (map er_aggregate_id rows)).

Class EventsDbLaws `{EventsDb} : Type := {
  db_rows : Db -> list EventRow;
  tx_rows : Tx -> list EventRow;
  db_snapshots : Db -> gmap Uuid SnapshotRow;
  db_begin_rows : forall d tx d', db_begin d = (Ok tx, d') -> tx_rows tx = db_rows d;
  db_begin_db : forall d, db_rows (snd (db_begin d)) = db_rows d;
  tx_set_serializable_rows : forall tx, tx_rows (snd (tx_set_serializable tx)) = tx_rows tx;
  tx_select_last_rows : forall agg tx, tx_rows (snd (tx_select_last_version agg tx)) = tx_rows tx;
  tx_select_last_ok : forall agg tx vs tx',
    tx_select_last_version agg tx = (Ok vs, tx') -> vs = last_version_rows agg (tx_rows tx);
  tx_insert_ok : forall new tx tx',
    tx_insert_events new tx = (Ok tt, tx') ->
    tx_rows tx' = tx_rows tx ++ new /\ unique_keys (tx_rows tx');
  tx_insert_failed : forall new tx,
    is_ok (fst (tx_insert_events new tx)) = false ->
    tx_rows (snd (tx_insert_events new tx)) = tx_rows tx;
  (** COMMIT makes the transaction's rows the table's, or rolls back *)
  tx_commit_rows : forall tx d,
    db_rows (snd (tx_commit tx d)) = tx_rows tx \/ db_rows (snd (tx_commit tx d)) = db_rows d;
  db_select_events_ok : forall agg from d rs d',
    db_select_events agg from d = (Ok rs, d') -> rs = select_after agg from (db_rows d);
  db_select_events_db : forall agg from d,
    db_rows (snd (db_select_events agg from d)) = db_rows d;
  db_select_all_events_ok : forall agg d rs d',
    db_select_all_events agg d = (Ok rs, d') ->
    rs = select_all agg (db_rows d) /\ db_rows d' = db_rows d /\ db_snapshots d' = db_snapshots d;
  db_select_max_version_ok : forall agg d v d',
    db_select_max_version agg d = (Ok v, d') ->
    v = Some (default 0%Z (max_version agg (db_rows d))) /\ db_rows d' = db_rows d;
  db_select_aggregates_ok : forall d ids d',
    db_select_aggregates d = (Ok ids, d') ->
    ids = aggregates (db_rows d) /\ db_rows d' = db_rows d;
  db_upsert_snapshot_ok : forall s d d',
    db_upsert_snapshot s d = (Ok tt, d') ->
    db_snapshots d' = <[sr_aggregate_id s := s]> (db_snapshots d) /\ db_rows d' = db_rows d;
  (** whether they succeed or not, the other statements leave the table alone *)
  db_select_all_events_db : forall agg d, db_rows (snd (db_select_all_events agg d)) = db_rows d;
  db_select_max_version_db : forall agg d, db_rows (snd (db_select_max_version agg d)) = db_rows d;
  db_select_aggregates_db : forall d, db_rows (snd (db_select_aggregates d)) = db_rows d;
  db_upsert_snapshot_db : forall s d, db_rows (snd (db_upsert_snapshot s d)) = db_rows d;
  db_select_candidates_db : forall threshold limit d,
    db_rows (snd (db_select_candidates threshold limit d)) = db_rows d
}.

(** Every statement is answered, by its result or by an error: the sessions have
    a [statement_timeout] (event_store.rs, [after_connect]), and sqlx reports a
    connection that is lost. *)
Class EventsDbAnswers `{EventsDb} : Prop := {
  db_begin_answers : answers db_begin;
  tx_set_serializable_answers : answers tx_set_serializable;
  tx_select_last_answers : forall agg, answers (tx_select_last_version agg);
  tx_insert_answers : forall new, answers (tx_insert_events new);
  tx_commit_answers : forall tx, answers (tx_commit tx)
}.

(** ** Facts on the rows *)
Lemma max_version_none agg rows : max_version agg rows = None -> rows_of agg rows = [].
Proof. unfold max_version. destruct (rows_of agg rows); simpl; congruence. Qed.

Lemma max_version_elem agg rows v :
  max_version agg rows = Some v ->
  exists r, r ∈ rows /\ er_aggregate_id r = agg /\ er_version r = v.
Proof.
  unfold max_version.
  assert (forall rs w,
    foldr (fun r acc => Some (match acc with
                              | Some v => Z.max (er_version r) v
                              | None => er_version r
                              end)) None rs = Some w ->
    exists r, r ∈ rs /\ er_version r = w) as Hmax.
  { induction rs as [| r rs IH]; simpl; intros w Hw; [ done |].
    destruct (foldr _ None rs) as [v' |]; simplify_eq.
    - destruct (Z.max_spec (er_version r) v') as [[_ ->] | [_ ->]].
      + destruct (IH v' eq_refl) as (r' & ? & ?). exists r'. split; [ by right | done ].
      + exists r. split; [ by left | done ].
    - exists r. split; [ by left | done ]. }
  intros Hv. destruct (Hmax _ _ Hv) as (r & Hr & Hvr). unfold rows_of in Hr.
  apply list_elem_of_filter in Hr as [? ?]. eauto.
Qed.

Lemma max_version_upper agg rows r :
  r ∈ rows -> er_aggregate_id r = agg ->
  exists v, max_version agg rows = Some v /\ (er_version r <= v)%Z.
Proof.
  intros Hr Ha. assert (r ∈ rows_of agg rows) as Hin
    by (apply list_elem_of_filter; done).
  unfold max_version. induction (rows_of agg rows) as [| x xs IH]; [ by apply not_elem_of_nil in Hin |].
  simpl. apply elem_of_cons in Hin as [-> | Hin].
  - destruct (foldr _ None xs); eexists; split; try reflexivity; lia.
  - destruct (IH Hin) as (v & -> & Hv). eexists; split; [ reflexivity | lia ].
Qed.

(** A key already in the table cannot be inserted again. *)
Lemma insert_duplicate rows r new :
  unique_keys (rows ++ new) -> r ∈ rows -> row_key r ∉ map row_key new.
Proof.
  unfold unique_keys. rewrite map_app. intros (_ & Hdisj & _)%NoDup_app Hr.
  apply Hdisj. apply list_elem_of_In, in_map, list_elem_of_In. done.
Qed.

(** ** A database that satisfies the laws *)
Module TableDb.

Record table : Type := {
  t_rows : list EventRow;
  t_snapshots : gmap Uuid SnapshotRow
}.

Record transaction : Type := {
  x_rows : list EventRow;
  x_queried : bool;
  x_aborted : bool
}.

Definition refused : SqlxError := PgDatabaseError "25P02" None.

(** A statement of an aborted transaction is refused. *)
Definition statement {A} (k : transaction -> res SqlxError A * transaction)
  : M transaction SqlxError A :=
  fun x => if x_aborted x then (Err refused, x) else k x.

Definition abort (x : transaction) : transaction :=
  {| x_rows := x_rows x; x_queried := true; x_aborted := true |}.

Definition queried (x : transaction) : transaction :=
  {| x_rows := x_rows x; x_queried := true; x_aborted := false |}.

Definition insert_rows (new : list EventRow) : M transaction SqlxError unit :=
  statement (fun x =>
    if decide (NoDup (map row_key (x_rows x ++ new)))
    then (Ok tt, {| x_rows := x_rows x ++ new; x_queried := true; x_aborted := false |})
    else (Err (PgDatabaseError "23505" (Some "unique_aggregate_id_version")), abort x)).

Definition candidate_rows (threshold limit : Z) (t : table) : list Candidate :=
  let last agg := match t_snapshots t !! agg with Some s => sr_version s | None => 0%Z end in
  let counted := filter
    (fun agg => (threshold < Z.of_nat (length (rows_of agg (t_rows t))))%Z
                /\ (last agg < default 0%Z (max_version agg (t_rows t)))%Z)
    (aggregates (t_rows t)) in
  take (Z.to_nat limit)
    (map (fun agg => {| cand_aggregate_id := agg;
                        cand_max_version := max_version agg (t_rows t);
                        cand_last_snapshot_version := Some (last agg) |}) counted).

#[export] Instance db : EventsDb := {
  Db := table;
  Tx := transaction;
  db_begin := fun t => (Ok {| x_rows := t_rows t; x_queried := false; x_aborted := false |}, t);
  tx_set_serializable := statement (fun x =>
    if x_queried x then (Err (PgDatabaseError "25001" None), abort x) else (Ok tt, x));
  tx_select_last_version := fun agg => statement (fun x =>
    (Ok (last_version_rows agg (x_rows x)), queried x));
  tx_insert_events := insert_rows;
  tx_commit := fun x t =>
    (Ok tt, if x_aborted x then t
            else {| t_rows := x_rows x; t_snapshots := t_snapshots t |});
  db_select_events := fun agg from t => (Ok (select_after agg from (t_rows t)), t);
  db_select_all_events := fun agg t => (Ok (select_all agg (t_rows t)), t);
  db_select_max_version := fun agg t => (Ok (Some (default 0%Z (max_version agg (t_rows t)))), t);
  db_select_aggregates := fun t => (Ok (aggregates (t_rows t)), t);
  db_upsert_snapshot := fun s t =>
    (Ok tt, {| t_rows := t_rows t; t_snapshots := <[sr_aggregate_id s := s]> (t_snapshots t) |});
  db_select_candidates := fun threshold limit t => (Ok (candidate_rows threshold limit t), t)
}.

#[export] Instance db_laws : EventsDbLaws.
Proof.
  refine {| db_rows := t_rows : @Db db -> _; tx_rows := x_rows : @Tx db -> _;
            db_snapshots := t_snapshots : @Db db -> _ |};
    simpl; unfold insert_rows, statement; intros; run; auto.
Defined.

#[export] Instance db_answers : EventsDbAnswers.
Proof.
  split; simpl; unfold insert_rows, statement, answers; intros; simpl; run; done.
Qed.

End TableDb.
