(* ===== verification/EventStoreFacts.v ===== *)
(** What the event store guarantees: theorems about [EventStore].

    Everything is proved against the interface [EventsDbLaws], so it holds for
    every database that behaves as PostgreSQL documents; [StoreWitness]
    instantiates it with the table of [EventsDb.TableDb].  The write path is
    described by what a flush answers and leaves in the table, the read path by
    the history a table holds ([history_rows]). *)
From S2P Require Import Prelude.
From S2P Require Import DecimalSpec.
From S2P Require Import Account.
From S2P Require Import Codec.
From S2P Require Import EventsDb.
From S2P Require Import EventStore.
From stdpp Require Import base tactics list sorting gmap fin_maps strings.
From Stdlib Require Import ZArith Lia.

Section Facts.
Context `{SerdeOps} `{EventsDbLaws}.
Context `{!Display SqlxError, !Display SerdeError}.

(** ** The write path *)

(** The transaction sees the same rows afterwards. *)
Definition same_rows (s s' : FlushState) : Prop := tx_rows (fs_tx s') = tx_rows (fs_tx s).

#[local] Instance same_rows_pre : PreOrder same_rows.
Proof. split; [ done | intros ???; unfold same_rows; congruence ]. Qed.

(** An operation that never reports success and adds no row. *)
Definition refuses {A} (m : M FlushState EventStoreError A) : Prop :=
  forall s, match m s with (r, s') => is_ok r = false /\ same_rows s s' end.

Lemma refuses_throw {A} e : refuses (throw e : M _ _ A).
Proof. done. Qed.

Lemma refuses_after {A B} (m : M FlushState EventStoreError A) (k : A -> M _ _ B) :
  respects same_rows m -> (forall a, refuses (k a)) -> refuses (bind m k).
Proof.
  intros Hm Hk s. specialize (Hm s). unfold bind.
  destruct (m s) as [[a | e | | ] s1]; simpl in *; try done.
  specialize (Hk a s1). destruct (k a s1) as [r s2], Hk. split; [ done |]. by transitivity s1.
Qed.

Lemma note_conflict_rows agg : respects same_rows (note_conflict agg).
Proof. by intros s. Qed.

Lemma on_tx_rows {A} (m : M Tx SqlxError A) :
  (forall tx, tx_rows (snd (m tx)) = tx_rows tx) -> respects same_rows (on_tx m).
Proof.
  intros Hm s. unfold same_rows, on_tx, on_err, zoom. specialize (Hm (fs_tx s)).
  by destruct (m (fs_tx s)).
Qed.

Lemma wrap_i64_succ_ne z : wrap_i64 (z + 1) <> z.
Proof.
  unfold wrap_i64. intros Heq.
  assert ((z + 1 + 2 ^ 63) mod 2 ^ 64 = z + 2 ^ 63)%Z as Hm by lia.
  pose proof (Z.mod_pos_bound (z + 1 + 2 ^ 63) (2 ^ 64) ltac:(lia)).
  pose proof (Z.div_mod (z + 1 + 2 ^ 63) (2 ^ 64) ltac:(lia)). lia.
Qed.

(** Two or more events are always out of the sequence the check asks for. *)
Lemma check_sequence_many first second rest :
  is_ok (check_sequence (ev_version first) (first :: second :: rest)) = false.
Proof.
  unfold check_sequence. cbn [length Nat.ltb Nat.leb bad_version].
  rewrite Z.add_0_r. destruct (Z.eqb_spec (ev_version first) (wrap_i64 (wrap_i64 (ev_version first) + 1)))
    as [Heq |]; [| done ].
  rewrite wrap_i64_add_l in Heq. by apply eq_sym, wrap_i64_succ_ne in Heq.
Qed.

(** The version the check asks for is in the table, so inserting it again
    breaks the uniqueness of (aggregate, version). *)
Lemma insert_taken_version first tx v :
  max_version (ev_aggregate_id first) (tx_rows tx) = Some v -> v = ev_version first ->
  is_ok (fst (tx_insert_events [to_row first] tx)) = false.
Proof.
  intros Hmax ->. destruct (tx_insert_events [to_row first] tx) as [[[] | e | | ] tx'] eqn:Hi;
    simpl; try done.
  destruct (tx_insert_ok _ _ _ Hi) as [Hrows Huniq]. rewrite Hrows in Huniq.
  destruct (max_version_elem _ _ _ Hmax) as (r & Hr & Ha & Hv).
  exfalso. apply (insert_duplicate _ _ _ Huniq Hr). simpl.
  apply list_elem_of_singleton. unfold row_key; simpl. congruence.
Qed.

Lemma insert_attempt_refuses again first rest last_version :
  (forall e, refuses (again e)) ->
  refuses (insert_attempt again (ev_aggregate_id first) (ev_version first) last_version
             (first :: rest)).
Proof.
  intros Hagain s. unfold insert_attempt, on_tx, on_err, zoom. unfold bind at 1. cbn beta.
  pose proof (tx_select_last_rows (ev_aggregate_id first) (fs_tx s)) as Hrows.
  destruct (tx_select_last_version _ (fs_tx s)) as [[vs | e | | ] tx1] eqn:Hsel; simpl in *;
    [| split; [ done | exact Hrows ] .. ].
  assert (forall s', tx_rows (fs_tx s') = tx_rows tx1 -> same_rows s s') as Hsame.
  { unfold same_rows. congruence. }
  apply tx_select_last_ok in Hsel. unfold last_version_rows in Hsel.
  destruct (max_version _ (tx_rows (fs_tx s))) as [v |] eqn:Hmax; subst vs;
    unfold bind at 1, lift at 1, fetch_one; cbn [ok_or head default id from_option]; [| split; [ done | by apply Hsame ] ].
  destruct (Z.eqb_spec v (ev_version first)) as [Hv | Hv]; cbn [negb];
    [| cbv [bind note_conflict modify throw]; split; [ done | by apply Hsame ] ].
  destruct rest as [| second rest].
  2:{ pose proof (check_sequence_many first second rest) as Hseq. unfold bind, lift.
      destruct (check_sequence _ _); try done; (split; [ done | by apply Hsame ]). }
  rewrite <- Hrows in Hmax. pose proof (insert_taken_version first tx1 v Hmax Hv) as Hfail.
  pose proof (tx_insert_failed [to_row first] tx1 Hfail) as Hkeep.
  unfold bind at 1, lift, check_sequence. cbn [length Nat.ltb Nat.leb].
  unfold bind at 1, attempt. cbn [fs_tx put_tx map].
  destruct (tx_insert_events [to_row first] tx1) as [[[] | e | | ] tx2]; simpl in *; try done;
    try (split; [ done | by apply Hsame ]).
  destruct e as [| code constraint | msg]; try (split; [ done | by apply Hsame ]).
  destruct (_ && _); [ cbv [bind note_conflict modify throw]; split; [ done | by apply Hsame ] |].
  destruct (is_transient_error code); [| split; [ done | by apply Hsame ] ].
  match goal with |- context [ again ?e ?st ] => specialize (Hagain e st); destruct (again e st) end.
  destruct Hagain. split; [ done |]. etransitivity; [| done ]. by apply Hsame.
Qed.

Lemma insert_loop_refuses left delay first rest last_version :
  refuses (insert_loop left delay (ev_aggregate_id first) (ev_version first) last_version
             (first :: rest)).
Proof.
  revert delay. induction left as [| left IH]; intros delay; simpl;
    apply insert_attempt_refuses; intros e; [ done |].
  apply refuses_after; [ by intros s | intros _; apply IH ].
Qed.

Lemma bulk_insert_refuses events :
  events <> [] -> refuses (bulk_insert_events_optimized events).
Proof.
  destruct events as [| first rest]; [ done |]. intros _. unfold bulk_insert_events_optimized.
  apply refuses_after; [ apply on_tx_rows, tx_set_serializable_rows |].
  intros _. apply insert_loop_refuses.
Qed.

(** Validating and handling touch the metrics only. *)
Section Metrics.
Context (R : relation FlushState) `{!PreOrder R}.
Context (Hmetrics : forall f s, R s (upd_metrics f s)).

Lemma validate_all_respects events : respects R (validate_all events).
Proof using All. induction events; simpl; respects_tac. Qed.

Lemma handle_all_respects handlers events : respects R (handle_all handlers events).
Proof using All. induction events; simpl; respects_tac. Qed.

(** Inserting also touches the transaction, the version cache and the clock. *)
Context (Htx : forall tx s, R s (put_tx tx s)).
Context (Hcache : forall f s, R s (upd_cache f s)).
Context (Hsleep : forall ms s, R s (sleep ms s)).

Lemma zoom_tx_respects {A} (m : M Tx SqlxError A) : respects R (zoom fs_tx put_tx m).
Proof using All. intros s. unfold zoom. destruct (m (fs_tx s)). apply Htx. Qed.

#[local] Hint Resolve zoom_tx_respects : bank.

Lemma insert_loop_respects left delay agg ev last events :
  respects R (insert_loop left delay agg ev last events).
Proof using All.
  revert delay. induction left as [| left IH]; intros delay; simpl;
    unfold insert_attempt, on_tx, note_conflict; respects_tac.
Qed.

Lemma bulk_insert_respects events : respects R (bulk_insert_events_optimized events).
Proof using All.
  unfold bulk_insert_events_optimized, on_tx. respects_tac. apply insert_loop_respects.
Qed.

End Metrics.

Lemma prepare_loop_nil new_v4 now agg v i events :
  prepare_loop new_v4 now agg v i events = [] -> events = [].
Proof. by destruct events. Qed.

(** ** One request *)
Definition same_answers (s s' : FlushState) : Prop := fs_responses s' = fs_responses s.

#[local] Instance same_answers_pre : PreOrder same_answers.
Proof. split; [ done | intros ???; unfold same_answers; congruence ]. Qed.

Lemma bulk_insert_rows events : respects same_rows (bulk_insert_events_optimized events).
Proof.
  destruct events as [| first rest]; [ by intros s |].
  intros s. pose proof (bulk_insert_refuses (first :: rest) ltac:(done) s) as Hs.
  by destruct (bulk_insert_events_optimized _ s), Hs.
Qed.

#[local] Hint Resolve bulk_insert_rows : bank.

Lemma flush_one_rows new_v4 now handlers b : respects same_rows (flush_one new_v4 now handlers b).
Proof.
  unfold flush_one. pose proof (validate_all_respects same_rows ltac:(done)).
  pose proof (handle_all_respects same_rows ltac:(done)). respects_tac; done.
Qed.

Lemma flush_one_answer new_v4 now handlers b s s' :
  flush_one new_v4 now handlers b s = (Ok tt, s') ->
  exists r, fs_responses s' = fs_responses s ++ [(be_response_tx b, r)] /\
    (be_events b <> [] -> is_ok r = false).
Proof.
  unfold flush_one. set (ed := prepare_events_for_insert_optimized _ _ _).
  assert (ed = [] -> be_events b = []) as Hnil by apply prepare_loop_nil.
  intros (v & s1 & Hv & Hk)%bind_ok.
  pose proof (validate_all_respects same_answers ltac:(done) ed s) as Ha1. rewrite Hv in Ha1.
  apply bind_ok in Hk as (h & s2 & Hh & Hk).
  assert (same_answers s1 s2) as Ha2.
  { destruct v; [ by unfold ret in Hh; simplify_eq |].
    pose proof (handle_all_respects same_answers ltac:(done) handlers ed s1) as Ha. by rewrite Hh in Ha. }
  apply bind_ok in Hk as (ins & s3 & Hins & Hk).
  assert (same_answers s2 s3 /\ (be_events b <> [] -> forall u, ins <> inr u)) as [Ha3 Hno].
  { destruct v as [e |]; [ by unfold ret in Hins; simplify_eq |].
    destruct h as [e |]; [ by unfold ret in Hins; simplify_eq |].
    pose proof (bulk_insert_respects same_answers ltac:(done) ltac:(done) ltac:(done) ltac:(done) ed s2) as Ha.
    unfold attempt in Hins. destruct (bulk_insert_events_optimized ed s2) as [r0 s4] eqn:Hbulk.
    split; [ by destruct r0; simplify_eq/= |]. intros Hb u ->.
    pose proof (bulk_insert_refuses ed ltac:(auto) s2) as Href. rewrite Hbulk in Href.
    by destruct r0; simplify_eq/=; destruct Href. }
  destruct ins as [e | []]; unfold bind, modify in Hk; simplify_eq/=; unfold same_answers in *.
  - exists (Err e). split; [ congruence | done ].
  - exists (Ok tt). split; [ congruence |]. intros Hb. by destruct (Hno Hb ()).
Qed.

(** ** A batch *)
Lemma flush_loop_rows new_v4 now handlers batch :
  respects same_rows (flush_loop new_v4 now handlers batch).
Proof. induction batch; simpl; pose proof flush_one_rows; respects_tac. Qed.

Lemma flush_loop_answers new_v4 now handlers batch s s' :
  flush_loop new_v4 now handlers batch s = (Ok tt, s') ->
  exists rs, fs_responses s' = fs_responses s ++ rs /\
    Forall2 (fun b p => p.1 = be_response_tx b /\ (be_events b <> [] -> is_ok p.2 = false)) batch rs.
Proof.
  revert s. induction batch as [| b batch IH]; simpl; intros s Hs.
  - unfold ret in Hs; simplify_eq. exists []. by rewrite app_nil_r.
  - apply bind_ok in Hs as ([] & s1 & Hone & Hs).
    destruct (flush_one_answer _ _ _ _ _ _ Hone) as (r & Hr & Hno).
    destruct (IH _ Hs) as (rs & Hrs & Hall).
    exists ((be_response_tx b, r) :: rs). split; [| by constructor ].
    by rewrite Hrs, Hr, <- app_assoc.
Qed.

(** Flushing never fails as a whole: every failure is somebody's answer. *)
Definition no_err {S E A} (m : M S E A) : Prop := forall s e, fst (m s) <> Err e.

Lemma no_err_bind {S E A B} (m : M S E A) (k : A -> M S E B) :
  no_err m -> (forall a, no_err (k a)) -> no_err (bind m k).
Proof.
  intros Hm Hk s e. specialize (Hm s). unfold bind.
  destruct (m s) as [[a | e' | | ] s1]; simpl in *; [ apply Hk | by destruct (Hm e') | done | done ].
Qed.

Lemma no_err_attempt {S E F A} (m : M S E A) : no_err (attempt m : M S F _).
Proof. intros s e. unfold attempt. by destruct (m s) as [[] ?]. Qed.

Lemma no_err_modify {S E} (f : S -> S) : no_err (modify f : M S E unit).
Proof. by intros s e. Qed.

Lemma no_err_ret {S E A} (a : A) : no_err (ret a : M S E A).
Proof. by intros s e. Qed.

#[local] Hint Resolve no_err_bind no_err_attempt no_err_modify no_err_ret : bank.

Lemma flush_loop_no_err new_v4 now handlers batch :
  no_err (flush_loop new_v4 now handlers batch).
Proof.
  assert (forall events, no_err (validate_all events)) as Hval.
  { induction events; simpl; [ auto with bank |]. case_match; auto with bank. }
  assert (forall events, no_err (handle_all handlers events)) as Hhan.
  { induction events; simpl; [ auto with bank |].
    apply no_err_bind; [ auto with bank |]. intros []; auto with bank. }
  induction batch; simpl; [ auto with bank |]. apply no_err_bind; [| auto ].
  unfold flush_one. repeat (apply no_err_bind; [| intros ?]); repeat case_match; auto with bank.
Qed.

Lemma flush_loop_total new_v4 now handlers batch s e s' :
  flush_loop new_v4 now handlers batch s <> (Err e, s').
Proof. intros Hs. pose proof (flush_loop_no_err new_v4 now handlers batch s e) as Hn. by rewrite Hs in Hn. Qed.

Lemma validate_prepared e :
  ev_event_type e <> "" -> (0 < ev_version e)%Z -> evr_is_valid (validate_event e) = true.
Proof.
  intros Ht Hv. unfold validate_event.
  destruct (String.eqb_spec (ev_event_type e) "") as [|]; [ done |].
  by destruct (Z.leb_spec (ev_version e) 0); [ lia |].
Qed.

(** ** The retry loop *)

(** The delays of [n] retries, each twice the one before. *)
Fixpoint backoff (n : nat) (delay : Z) : list Z :=
  match n with
  | O => []
  | S n' => delay :: backoff n' (delay * 2)
  end.

Lemma insert_attempt_slept (P : list Z -> list Z -> Prop) again agg ev last events :
  (forall l, P l l) ->
  (forall e s, P (fs_slept s) (fs_slept (snd (again e s)))) ->
  forall s, P (fs_slept s) (fs_slept (snd (insert_attempt again agg ev last events s))).
Proof.
  intros Hrefl Hagain s.
  unfold insert_attempt, on_tx, on_err, zoom, note_conflict, bind, attempt, lift, modify, throw.
  destruct (tx_select_last_version agg (fs_tx s)) as [[vs | e | | ] tx1]; simpl; auto.
  destruct (fetch_one vs) as [row | e | | ]; simpl; auto.
  destruct (negb _); simpl; auto.
  destruct (check_sequence ev events); simpl; auto.
  destruct (tx_insert_events (map to_row events) tx1) as [[u | e | | ] tx2]; simpl; auto.
  destruct e as [| code constraint | msg]; simpl; auto.
  destruct (_ && _); simpl; auto. destruct (is_transient_error code); simpl; auto.
  apply (Hagain _ (put_tx tx2 (put_tx tx1 s))).
Qed.

Lemma insert_loop_slept left delay agg ev last events s :
  exists k, (k <= left)%nat /\
    fs_slept (snd (insert_loop left delay agg ev last events s))
      = fs_slept s ++ take k (backoff left delay).
Proof.
  revert delay s. induction left as [| left IH]; intros delay s; simpl;
    apply (insert_attempt_slept (fun l l' => exists k, (k <= _)%nat /\ l' = l ++ take k _)).
  - intros l. exists 0%nat. by rewrite app_nil_r.
  - intros e s1. exists 0%nat. by rewrite app_nil_r.
  - intros l. exists 0%nat. split; [ lia |]. by rewrite app_nil_r.
  - intros e s1. destruct (IH (delay * 2)%Z (sleep delay s1)) as (k & Hk & Hs).
    exists (S k). split; [ lia |]. unfold bind, modify. rewrite Hs. simpl. by rewrite <- app_assoc.
Qed.

(** ** Reading a history back *)

(** Rows in strictly ascending versions. *)
Definition version_lt (a b : EventRow) : Prop := (er_version a < er_version b)%Z.

Lemma version_lt_inj l x y :
  StronglySorted version_lt l -> x ∈ l -> y ∈ l -> er_version x = er_version y -> x = y.
Proof.
  induction 1 as [| z l _ IH Hz]; intros Hx Hy Heq; [ by apply not_elem_of_nil in Hx |].
  rewrite Forall_forall in Hz. unfold version_lt in Hz.
  apply elem_of_cons in Hx as [-> | Hx]; apply elem_of_cons in Hy as [-> | Hy]; auto.
  - specialize (Hz _ Hy). lia.
  - specialize (Hz _ Hx). lia.
Qed.

Lemma version_lt_le l : StronglySorted version_lt l -> StronglySorted version_le l.
Proof.
  induction 1 as [| z l _ IH Hz]; constructor; [ done |].
  eapply Forall_impl; [ exact Hz |]. unfold version_lt, version_le. simpl. lia.
Qed.

(** Sorting by version any arrangement of such rows gives them back. *)
Lemma merge_sort_versions l l' :
  StronglySorted version_lt l -> l' ≡ₚ l -> merge_sort version_le l' = l.
Proof.
  intros Hl Hperm. apply (StronglySorted_unique_strong version_le).
  - intros x y Hx Hy Hxy Hyx. apply (version_lt_inj l); auto.
    + by rewrite <- Hperm, <- (merge_sort_Permutation version_le l').
    + unfold version_le in *. lia.
  - apply StronglySorted_merge_sort; apply _.
  - by apply version_lt_le.
  - by rewrite merge_sort_Permutation.
Qed.

Lemma prepare_loop_spec new_v4 now agg v i es :
  (0 <= v)%Z -> (v + Z.of_nat (length es) <= i64_max)%Z ->
  map ev_version (prepare_loop new_v4 now agg v i es) = seqZ (v + 1) (Z.of_nat (length es)) /\
  map ev_event_data (prepare_loop new_v4 now agg v i es) = map event_to_value es /\
  map ev_event_type (prepare_loop new_v4 now agg v i es) = map event_type es /\
  Forall (fun e => ev_aggregate_id e = agg) (prepare_loop new_v4 now agg v i es).
Proof.
  revert v i. induction es as [| e es IH]; intros v i Hv Hlen; [ done |].
  cbn [length] in Hlen. cbn [prepare_loop].
  assert (wrap_i64 (v + 1) = v + 1)%Z as -> by (apply wrap_i64_id; unfold in_i64, i64_max in *; lia).
  destruct (IH (v + 1)%Z (S i) ltac:(lia) ltac:(lia)) as (Hver & Hdata & Hty & Hagg).
  cbn [map ev_version ev_event_data ev_event_type length]. rewrite Hver, Hdata, Hty.
  split_and!; [| done | done | by constructor ].
  rewrite (seqZ_cons (v + 1)) by lia.
  by replace (Z.pred (Z.of_nat (S (length es)))) with (Z.of_nat (length es)) by lia.
Qed.

Lemma seqZ_sorted rows v n :
  map er_version rows = seqZ v n -> StronglySorted version_lt rows.
Proof.
  revert v n. induction rows as [| r rows IH]; intros v n Hr; [ constructor |].
  destruct (Z.le_gt_cases n 0) as [Hn | Hn]; [ by rewrite seqZ_nil in Hr by lia |].
  rewrite seqZ_cons in Hr by lia. simpl in Hr. injection Hr as Hrv Hrs. constructor; [ by eapply IH |].
  apply Forall_forall. intros x Hx. unfold version_lt.
  assert (er_version x ∈ seqZ (Z.succ v) (Z.pred n)) as Hin.
  { rewrite <- Hrs. apply list_elem_of_In, in_map, list_elem_of_In. done. }
  apply elem_of_seqZ in Hin. lia.
Qed.

(** The table holds the history [es] of [agg], in any order. *)
Definition history_rows (agg : Uuid) (es : list AccountEvent) (rows : list EventRow) : Prop :=
  exists new_v4 now, rows_of agg rows ≡ₚ map to_row (prepare_loop new_v4 now agg 0 0 es).

Lemma history_select_all agg es rows :
  (Z.of_nat (length es) <= i64_max)%Z -> history_rows agg es rows ->
  map er_event_data (select_all agg rows) = map event_to_value es /\
  map er_version (select_all agg rows) = seqZ 1 (Z.of_nat (length es)).
Proof.
  intros Hlen (new_v4 & now & Hperm).
  destruct (prepare_loop_spec new_v4 now agg 0 0 es ltac:(lia) ltac:(lia)) as (Hver & Hdata & _ & _).
  assert (map er_version (map to_row (prepare_loop new_v4 now agg 0 0 es))
            = seqZ 1 (Z.of_nat (length es))) as Hv by (rewrite map_map; exact Hver).
  unfold select_all. rewrite (merge_sort_versions _ _ (seqZ_sorted _ _ _ Hv) Hperm).
  split; [| done ]. rewrite map_map. exact Hdata.
Qed.

(** With no negative versions, reading from -1 reads everything. *)
Lemma select_after_all agg rows :
  Forall (fun r => (0 <= er_version r)%Z) (rows_of agg rows) ->
  select_after agg (-1) rows = select_all agg rows.
Proof.
  intros Hpos. unfold select_after, select_all. f_equal.
  induction Hpos as [| r l Hr _ IH]; [ done |].
  rewrite filter_cons_True by lia. by rewrite IH.
Qed.

Lemma history_positive agg es rows :
  (Z.of_nat (length es) <= i64_max)%Z -> history_rows agg es rows ->
  Forall (fun r => (0 <= er_version r)%Z) (rows_of agg rows).
Proof.
  intros Hlen Hh. destruct (history_select_all agg es rows Hlen Hh) as [_ Hv].
  apply Forall_forall. intros r Hr.
  assert (er_version r ∈ seqZ 1 (Z.of_nat (length es))) as Hin.
  { rewrite <- Hv. apply list_elem_of_In, in_map, list_elem_of_In. unfold select_all.
    by rewrite (merge_sort_Permutation version_le). }
  apply elem_of_seqZ in Hin. lia.
Qed.

Context `{!SerdeLaws}.

Lemma replay_encoded a es : replay a (map event_to_value es) = or_panic (apply_events a es).
Proof.
  revert a. induction es as [| e es IH]; intros a; simpl; [ done |].
  rewrite event_round_trip_eq. simpl. destruct (apply_event a e); simpl; auto.
Qed.

(** The newest row is the one with the highest version. *)
Lemma select_all_newest agg rows older newest :
  select_all agg rows = older ++ [newest] -> max_version agg rows = Some (er_version newest).
Proof.
  intros Hsel. unfold select_all in Hsel.
  assert (StronglySorted version_le (older ++ [newest])) as Hsort
    by (rewrite <- Hsel; apply StronglySorted_merge_sort; apply _).
  assert (forall r, r ∈ rows_of agg rows <-> r ∈ older ++ [newest]) as Hin.
  { intros r. by rewrite <- Hsel, (merge_sort_Permutation version_le). }
  assert (newest ∈ rows_of agg rows) as Hnew by (apply Hin; set_solver).
  apply list_elem_of_filter in Hnew as [Hagg Hnew].
  destruct (max_version_upper agg rows newest Hnew Hagg) as (v & Hv & Hle).
  destruct (max_version_elem agg rows v Hv) as (r & Hr & Hra & <-).
  rewrite Hv. f_equal. apply Z.le_antisymm; [| done ].
  assert (r ∈ older ++ [newest]) as Hro by (apply Hin, list_elem_of_filter; done).
  apply elem_of_app in Hro as [Hro | Hro%list_elem_of_singleton]; [| by subst ].
  apply (StronglySorted_app_1_elem_of _ _ _ r newest Hsort); [ done | set_solver ].
Qed.

Lemma get_account_some_rows new_v4 elapsed id s a s' :
  get_account new_v4 elapsed id s = (Ok (Some a), s') ->
  Forall (fun r => (0 <= er_version r)%Z) (rows_of id (db_rows (es_pool s))) ->
  select_all id (db_rows (es_pool s)) <> [].
Proof.
  unfold get_account, get_events, on_pool, on_err, zoom, bind, modify, ret, lift.
  cbn [default from_option]. intros Hget Hpos Hnil.
  destruct (db_select_events id (-1) (es_pool s)) as [[rows | | | ] d'] eqn:Hsel; try done.
  apply db_select_events_ok in Hsel. rewrite select_after_all, Hnil in Hsel by done. by subst rows.
Qed.

Lemma get_account_value new_v4 elapsed id s a s' :
  get_account new_v4 elapsed id s = (Ok (Some a), s') ->
  Forall (fun r => (0 <= er_version r)%Z) (rows_of id (db_rows (es_pool s))) ->
  replay (set_id id (Account_default new_v4))
    (map er_event_data (select_all id (db_rows (es_pool s)))) = Ok a.
Proof.
  unfold get_account, get_events, on_pool, on_err, zoom, bind, modify, ret, lift.
  cbn [default from_option]. intros Hget Hpos.
  destruct (db_select_events id (-1) (es_pool s)) as [[rows | | | ] d'] eqn:Hsel; try done.
  apply db_select_events_ok in Hsel. rewrite select_after_all in Hsel by done. subst rows.
  cbn [map_err] in Hget.
  destruct (map row_to_event _) as [| e es] eqn:Hrows; [ done |]. rewrite <- Hrows in Hget.
  rewrite map_map in Hget. cbn in Hget.
  by destruct (replay _ _); simplify_eq/=.
Qed.

(** Answers are only added, and every new one is a refusal. *)
Definition only_refusals (s s' : FlushState) : Prop :=
  exists rs, fs_responses s' = fs_responses s ++ rs /\ Forall (fun p => is_ok p.2 = false) rs.

#[local] Instance only_refusals_pre : PreOrder only_refusals.
Proof.
  split.
  - intros s. exists []. by rewrite app_nil_r.
  - intros s1 s2 s3 (r1 & H12 & Hr1) (r2 & H23 & Hr2). exists (r1 ++ r2).
    rewrite H23, H12, <- app_assoc. split; [ done | by apply Forall_app ].
Qed.

Lemma same_answers_refusals s s' : same_answers s s' -> only_refusals s s'.
Proof. intros Hs. exists []. by rewrite app_nil_r. Qed.

#[local] Hint Resolve same_answers_refusals : bank.

Lemma flush_one_refusals new_v4 now handlers b :
  be_events b <> [] -> respects only_refusals (flush_one new_v4 now handlers b).
Proof.
  intros Hb. unfold flush_one. set (ed := prepare_events_for_insert_optimized _ _ _).
  assert (ed <> []) as Hed by (intros Hnil; by apply Hb, (prepare_loop_nil _ _ _ _ _ _ Hnil)).
  assert (forall s s', fs_responses s' = fs_responses s -> only_refusals s s') as Hquiet
    by (intros; by apply same_answers_refusals).
  apply respects_bind; [ apply _ | apply validate_all_respects; [ apply _ | auto ] |].
  intros v. apply respects_bind; [ apply _ | |].
  { destruct v; [ respects_tac | apply handle_all_respects; [ apply _ | auto ] ]. }
  intros h. apply (respects_bind_post _ (fun ins => is_Some (match ins with inl e => Some e | inr _ => None end))).
  - intros s ins s' Hins. destruct v as [e |]; [ by unfold ret in Hins; simplify_eq |].
    destruct h as [e |]; [ by unfold ret in Hins; simplify_eq |].
    pose proof (bulk_insert_refuses ed Hed s) as Href. unfold attempt in Hins.
    destruct (bulk_insert_events_optimized ed s) as [[] ?]; simplify_eq/=; [ by destruct Href | done ].
  - destruct v; [ respects_tac |]. destruct h; [ respects_tac |].
    apply respects_attempt, bulk_insert_respects; auto; apply _.
  - intros [e | u] Hins; [| by destruct Hins ].
    apply respects_modify. intros s. exists [(be_response_tx b, Err e)]. by split; [| repeat constructor ].
Qed.

Lemma flush_loop_refusals new_v4 now handlers batch :
  Forall (fun b => be_events b <> []) batch ->
  respects only_refusals (flush_loop new_v4 now handlers batch).
Proof.
  induction 1; simpl; respects_tac. by apply flush_one_refusals.
Qed.

(** No request that carries events is ever acknowledged, and no flush changes
    the table. *)
Lemma flush_batch_refuses new_v4 now handlers batch d metrics versions :
  Forall (fun b => be_events b <> []) batch ->
  Forall (fun p => is_ok p.2 = false)
    (fo_responses (flush_batch new_v4 now handlers batch d metrics versions)) /\
  db_rows (fo_db (flush_batch new_v4 now handlers batch d metrics versions)) = db_rows d.
Proof.
  intros Hne. unfold flush_batch. pose proof (db_begin_db d) as Hd.
  destruct (db_begin d) as [[tx | e | | ] d1] eqn:Hbegin; simpl in *; try done.
  set (s0 := {| fs_tx := tx |}).
  pose proof (flush_loop_rows new_v4 now handlers batch s0) as Hrows.
  destruct (flush_loop_refusals new_v4 now handlers batch Hne s0) as (rs & Hrs & Hall).
  destruct (flush_loop _ _ _ _ s0) as [r s]. simpl in *.
  pose proof (tx_commit_rows (fs_tx s) d1) as Hcommit.
  unfold same_rows, s0 in Hrows; simpl in Hrows. rewrite (db_begin_rows _ _ _ Hbegin) in Hrows.
  destruct r as [[] | e | | ]; simpl; rewrite ?Hrs; try done.
  destruct (tx_commit _ _) as [c d2]. simpl in *. rewrite ?Hrs.
  split; [ done | destruct Hcommit; congruence ].
Qed.

(** What each caller of a flushed batch receives. *)
Lemma received_refused new_v4 now handlers batch d metrics versions tx :
  Forall (fun b => be_events b <> []) batch ->
  is_ok (received tx (flush_batch new_v4 now handlers batch d metrics versions)) = false.
Proof.
  intros Hne. destruct (flush_batch_refuses new_v4 now handlers batch d metrics versions Hne) as [Hall _].
  revert Hall. generalize (flush_batch new_v4 now handlers batch d metrics versions). intros o Hall.
  unfold received. destruct (list_find _ (fo_responses o)) as [[i [tx' r]] |] eqn:Hf;
    [| by destruct (fo_result o) ].
  apply list_find_Some in Hf as (Hi & _ & _). rewrite Forall_forall in Hall.
  pose proof (Hall _ (list_elem_of_lookup_2 _ _ _ Hi)) as Hr. by destruct (fo_result o).
Qed.

(** A save that carries events never reports success. *)
Lemma save_events_refused new_v4 now channel at_ agg events expected s :
  events <> [] ->
  is_ok (fst (save_events new_v4 now channel at_ agg events expected s)) = false /\
  db_rows (es_pool (snd (save_events new_v4 now channel at_ agg events expected s)))
    = db_rows (es_pool s).
Proof.
  intros Hne. unfold save_events, save_events_with_priority. destruct events as [| e events]; [ done |].
  destruct (_ =? 0)%nat; [ done |]. simpl.
  set (b := {| be_aggregate_id := agg |}).
  assert (Forall (fun b => be_events b <> []) [b]) as Hb by (repeat constructor; done).
  split; [ by apply received_refused | by apply flush_batch_refuses ].
Qed.

(** ** Properties of the write path *)

(** A flush answers every request of its batch exactly once, in the order
    of the batch; when the transaction cannot be opened it answers nobody. *)
Theorem flush_answers_each_request_once new_v4 now handlers batch d metrics versions :
  let o := flush_batch new_v4 now handlers batch d metrics versions in
  fo_result o <> Panic -> fo_result o <> Hang ->
  map fst (fo_responses o)
    = (if is_ok (fst (db_begin d)) then map be_response_tx batch else []).
Proof.
  simpl. unfold flush_batch. destruct (db_begin d) as [[tx | e | | ] d1]; simpl; try done.
  destruct (flush_loop _ _ _ _ _) as [r s] eqn:Hloop. intros Hp Hh.
  destruct r as [[] | e | | ]; simpl in *; try done.
  - apply flush_loop_answers in Hloop as (rs & -> & Hall). simpl in *.
    destruct (tx_commit _ _) as [c d2]. simpl. clear -Hall.
    induction Hall as [| b p bs rs [Hp _] _ IH]; [ done |]. simpl. by rewrite Hp, IH.
  - by apply flush_loop_total in Hloop.
Qed.

(** A bulk insert waits at most three times, 100, 200 and 400 milliseconds,
    before it gives up on transient failures. *)
Theorem insert_retries_bounded events s :
  exists k, (k <= 3)%nat /\
    fs_slept (snd (bulk_insert_events_optimized events s)) = fs_slept s ++ take k [100; 200; 400]%Z.
Proof.
  destruct events as [| first rest].
  { exists 0%nat. split; [ lia |]. by rewrite app_nil_r. }
  unfold bulk_insert_events_optimized, on_tx, on_err, zoom, bind.
  destruct (tx_set_serializable (fs_tx s)) as [[[] | e | | ] tx]; simpl map_err; cbv iota;
    try (exists 0%nat; split; [ lia | by rewrite app_nil_r ]).
  destruct (insert_loop_slept max_retries 100 (ev_aggregate_id first) (ev_version first)
    (ev_version (List.last (first :: rest) first)) (first :: rest) (put_tx tx s)) as (k & Hk & Hs).
  exists k. split; [ exact Hk | exact Hs ].
Qed.

(** Preparing a request numbers its events consecutively from the version
    after the expected one, keeps their types and aggregate, and stores a value
    that reads back as the event. *)
Theorem prepared_events_read_back new_v4 now b :
  let prepared := prepare_events_for_insert_optimized new_v4 now b in
  (0 <= be_expected_version b)%Z ->
  (be_expected_version b + Z.of_nat (length (be_events b)) <= i64_max)%Z ->
  map ev_version prepared = seqZ (be_expected_version b + 1) (Z.of_nat (length (be_events b))) /\
  map (fun e => event_from_value (ev_event_data e)) prepared = map Ok (be_events b) /\
  map ev_event_type prepared = map event_type (be_events b) /\
  Forall (fun e => ev_aggregate_id e = be_aggregate_id b /\ evr_is_valid (validate_event e) = true)
    prepared.
Proof.
  simpl. intros Hv Hlen. unfold prepare_events_for_insert_optimized.
  destruct (prepare_loop_spec new_v4 now (be_aggregate_id b) _ 0 _ Hv Hlen) as (Hver & Hdata & Hty & Hagg).
  split_and!; [ done | | done |].
  - rewrite <- (map_map ev_event_data event_from_value), Hdata, map_map.
    apply map_ext. intros e. apply event_round_trip_eq.
  - apply Forall_forall. intros e He. split; [ rewrite Forall_forall in Hagg; auto |].
    assert (ev_version e ∈ map ev_version (prepare_loop new_v4 now (be_aggregate_id b)
              (be_expected_version b) 0 (be_events b))) as Hin
      by (apply list_elem_of_In, in_map, list_elem_of_In; done).
    rewrite Hver in Hin. apply elem_of_seqZ in Hin. apply validate_prepared; [| lia ].
    assert (ev_event_type e ∈ map event_type (be_events b)) as Ht.
    { rewrite <- Hty. apply list_elem_of_In, in_map, list_elem_of_In; done. }
    apply list_elem_of_In, in_map_iff in Ht as (x & <- & _). by destruct x.
Qed.

(** ** Properties of the read path *)

(** C11. Reading an account replays its stored history: whatever order the
    table keeps the rows in, [get_account] returns what applying the events in
    their order to a fresh account gives, and nothing for an empty history. *)
Theorem get_account_replays_history new_v4 elapsed id es s :
  (Z.of_nat (length es) <= i64_max)%Z ->
  history_rows id es (db_rows (es_pool s)) ->
  is_ok (fst (db_select_events id (-1) (es_pool s))) = true ->
  fst (get_account new_v4 elapsed id s) =
    (match es with
     | [] => Ok None
     | _ => or_panic (option_map Some (apply_events (set_id id (Account_default new_v4)) es))
     end) /\
  db_rows (es_pool (snd (get_account new_v4 elapsed id s))) = db_rows (es_pool s).
Proof.
  intros Hlen Hh Hok. pose proof (db_select_events_db id (-1) (es_pool s)) as Hkeep.
  unfold get_account, get_events, on_pool, on_err, zoom, bind, modify, ret, lift. cbn [default from_option].
  destruct (db_select_events id (-1) (es_pool s)) as [[rows | | | ] d'] eqn:Hsel; try done.
  apply db_select_events_ok in Hsel. cbn [map_err].
  rewrite select_after_all in Hsel by (by eapply history_positive).
  destruct (history_select_all id es _ Hlen Hh) as [Hdata _]. rewrite <- Hsel in Hdata.
  assert (map ev_event_data (map row_to_event rows) = map event_to_value es) as Hvals
    by (by rewrite map_map).
  destruct rows as [| r rows], es as [| e es]; try done. cbn [map] in *.
  rewrite Hvals. change (event_to_value e :: map event_to_value es) with (map event_to_value (e :: es)).
  rewrite replay_encoded. by destruct (apply_events _ _).
Qed.

(** C12. A snapshot holds the account a reader sees: when a snapshot is taken of
    an account that [get_account] returns, the row written and the cached copy
    decode to that account and carry the highest version of its events. *)
Theorem snapshot_is_the_account new_v4 elapsed now id s s' a s'' :
  Forall (fun r => (0 <= er_version r)%Z) (rows_of id (db_rows (es_pool s))) ->
  create_snapshot new_v4 now id s = (Ok tt, s') ->
  get_account new_v4 elapsed id s = (Ok (Some a), s'') ->
  exists row cached,
    db_snapshots (es_pool s') !! id = Some row /\ es_snapshot_cache s' !! id = Some cached /\
    account_from_value (sr_data row) = Ok a /\ cs_data cached = sr_data row /\
    max_version id (db_rows (es_pool s)) = Some (sr_version row) /\
    cs_version cached = sr_version row.
Proof.
  intros Hpos Hsnap Hget. pose proof (get_account_value _ _ _ _ _ _ Hget Hpos) as Hval.
  unfold create_snapshot, on_err, zoom, bind, lift, modify, ret in Hsnap.
  destruct (db_select_all_events id (es_pool s)) as [[rows | | | ] d1] eqn:Hsel; try done.
  apply db_select_all_events_ok in Hsel as (-> & Hrows1 & Hsnaps1). cbn [map_err] in Hsnap.
  destruct (List.rev (select_all id (db_rows (es_pool s)))) as [| newest older] eqn:Hrev.
  { apply (f_equal (@List.rev _)) in Hrev. rewrite rev_involutive in Hrev.
    rewrite Hrev in Hval. exfalso. clear Hsnap. eapply get_account_some_rows; eauto. }
  apply (f_equal (@List.rev _)) in Hrev. rewrite rev_involutive in Hrev. simpl in Hrev.
  pose proof (select_all_newest _ _ _ _ Hrev) as Hmax.
  rewrite Hval in Hsnap. cbn [map_err] in Hsnap.
  cbn [es_pool put_pool] in Hsnap.
  destruct (db_upsert_snapshot _ d1) as [[[] | | | ] d2] eqn:Hups; simplify_eq/=.
  apply db_upsert_snapshot_ok in Hups as [Hups _]. cbn [sr_aggregate_id] in Hups.
  eexists _, _. rewrite Hups, !lookup_insert_eq. cbn.
  split_and!; eauto. apply account_round_trip_eq.
Qed.

(** A cleanup pass removes exactly the cached snapshots whose time to live
    has passed. *)
Theorem cleanup_removes_exactly_expired now cache id c :
  cache_cleanup_pass now cache !! id = Some c <->
  cache !! id = Some c /\ (now - cs_created_at c < cs_ttl c)%Z.
Proof.
  unfold cache_cleanup_pass. rewrite lookup_sweep. unfold snapshot_expired.
  rewrite Z.leb_gt. done.
Qed.

End Facts.

(** ** A flush ends

    when the database answers every statement and the registered handlers
    return. *)
Section Ends.
Context `{SerdeOps} `{EventsDbAnswers}.
Context `{!Display SqlxError, !Display SerdeError}.

Lemma check_sequence_answered ev events : answered (check_sequence ev events).
Proof. unfold check_sequence. repeat case_match; done. Qed.

Lemma fetch_one_answered {A} (rows : list A) : answered (fetch_one rows).
Proof. by destruct rows. Qed.

#[local] Hint Resolve check_sequence_answered fetch_one_answered tx_set_serializable_answers
  tx_select_last_answers tx_insert_answers : bank.

Lemma on_tx_answers {A} (m : M Tx SqlxError A) : answers m -> answers (on_tx m).
Proof. intros Hm. unfold on_tx. auto with bank. Qed.

#[local] Hint Resolve on_tx_answers : bank.

Lemma note_conflict_answers {A} agg e : answers (note_conflict agg ;;; throw e : M FlushState EventStoreError A).
Proof. unfold note_conflict. auto with bank. Qed.

#[local] Hint Resolve note_conflict_answers : bank.

Lemma insert_attempt_answers again agg ev last events :
  (forall e, answers (again e)) -> answers (insert_attempt again agg ev last events).
Proof.
  intros Hagain. unfold insert_attempt. apply answers_bind; [ auto with bank |]. intros rows.
  apply answers_bind; [ auto with bank |]. intros row.
  destruct (negb _); [ auto with bank |].
  apply answers_bind; [ auto with bank |]. intros _.
  apply answers_bind; [ auto with bank |].
  intros [[| code constraint | msg] | u]; auto with bank.
  destruct (_ && _); [ auto with bank |]. destruct (is_transient_error code); auto with bank.
Qed.

Lemma insert_loop_answers left delay agg ev last events :
  answers (insert_loop left delay agg ev last events).
Proof.
  revert delay. induction left as [| left IH]; intros delay; simpl;
    apply insert_attempt_answers; intros e; auto with bank.
Qed.

Lemma bulk_insert_answers events : answers (bulk_insert_events_optimized events).
Proof.
  destruct events as [| first rest]; [ apply answers_ret |].
  apply answers_bind; [ auto with bank | intros _; apply insert_loop_answers ].
Qed.

Lemma validate_all_answers events : answers (validate_all events).
Proof. induction events; simpl; [ apply answers_ret |]. destruct (negb _); auto with bank. Qed.

Context (handlers : gmap string (list EventHandler)).
Context (Hhandlers : forall event, answered (handle_event event handlers)).

Lemma handle_all_answers events : answers (handle_all handlers events).
Proof using Hhandlers.
  induction events as [| event rest IH]; simpl; [ apply answers_ret |].
  apply answers_bind; [ auto with bank |]. intros [e | u]; auto with bank.
Qed.

Lemma flush_one_answers_all new_v4 now b : answers (flush_one new_v4 now handlers b).
Proof using All.
  unfold flush_one. apply answers_bind; [ apply validate_all_answers |]. intros v.
  apply answers_bind; [ destruct v; [ apply answers_ret | apply handle_all_answers ] |]. intros h.
  apply answers_bind.
  - destruct v; [ apply answers_ret |]. destruct h; [ apply answers_ret |].
    apply answers_attempt, bulk_insert_answers.
  - intros [e | u]; auto with bank.
Qed.

Lemma flush_loop_answers_all new_v4 now batch : answers (flush_loop new_v4 now handlers batch).
Proof using All.
  induction batch as [| b batch IH]; simpl; [ apply answers_ret |].
  apply answers_bind; [ apply flush_one_answers_all | intros _; exact IH ].
Qed.

Lemma flush_batch_answers new_v4 now batch d metrics versions :
  answered (fo_result (flush_batch new_v4 now handlers batch d metrics versions)).
Proof using All.
  unfold flush_batch. pose proof (db_begin_answers d) as Hb.
  destruct (db_begin d) as [[tx | e | |] d1]; simpl in *; try done.
  match goal with |- context [ flush_loop _ _ _ _ ?s0 ] =>
    pose proof (flush_loop_answers_all new_v4 now batch s0) as Hl;
    destruct (flush_loop new_v4 now handlers batch s0) as [[[] | e | |] s1] end; simpl in *; try done.
  pose proof (tx_commit_answers (fs_tx s1) d1) as Hc.
  by destruct (tx_commit (fs_tx s1) d1) as [[[] | e | |] d2].
Qed.

End Ends.

(** ** Witnesses: a table with two events of account 1 *)
Module StoreWitness.
Import ScaleZero PlainSerde TableDb.

#[export] Instance sqlx_display : Display SqlxError := fun e =>
  match e with
  | RowNotFound => "no rows returned"
  | PgDatabaseError code _ => code
  | OtherSqlxError msg => msg
  end.

#[export] Instance serde_display : Display SerdeError := fun e =>
  match e with
  | MissingField name => name
  | UnknownVariant name => name
  | InvalidType expected => expected
  end.

Definition ids (request event : nat) : Uuid := N.of_nat (10 * request + event).
Definition clock (request event : nat) : Z := 1000.

Definition opening : list AccountEvent :=
  [EvAccountCreated 1%N "alice" (amt 100); EvMoneyDeposited 1%N (amt 50) 7%N].

(** The newest row comes first in the table. *)
Definition rows : list EventRow :=
  List.rev (map to_row (prepare_loop (ids 0) (clock 0) 1%N 0 0 opening)).

Definition table : @Db db := {| t_rows := rows; t_snapshots := ∅ |}.

Definition store : EventStore := new_with_config_and_pool table default_in_memory_for_tests.

Definition request (channel : nat) (expected : Z) (events : list AccountEvent) : BatchedEvent :=
  {| be_aggregate_id := 1%N; be_events := events; be_expected_version := expected;
     be_response_tx := channel; be_created_at := 0; be_priority := Normal |}.

(** The second request takes the version of the last row. *)
Definition batch : list BatchedEvent :=
  [request 1 2 [EvMoneyWithdrawn 1%N (amt 30) 8%N]; request 2 1 [EvMoneyDeposited 1%N (amt 5) 9%N]].

Definition outcome : FlushOutcome := flush_batch ids clock ∅ batch table EventStoreMetrics_new ∅.

Lemma flush_answers_each_request_once_witness : map fst (fo_responses outcome) = [1; 2]%nat.
Proof.
  pose proof (flush_answers_each_request_once ids clock ∅ batch table EventStoreMetrics_new ∅) as Hw.
  cbv zeta in Hw. fold outcome in Hw.
  rewrite Hw by (vm_compute; discriminate). reflexivity.
Defined.

Lemma prepared_events_read_back_witness :
  map ev_version (prepare_events_for_insert_optimized (ids 3) (clock 3) (request 3 2 opening))
    = [3; 4]%Z.
Proof.
  apply (prepared_events_read_back (ids 3) (clock 3) (request 3 2 opening));
    vm_compute; discriminate.
Defined.

Lemma rows_hold_opening : history_rows 1%N opening rows.
Proof. exists (ids 0), (clock 0). vm_compute. apply Permutation_swap. Defined.

Lemma get_account_replays_history_witness :
  fst (get_account 5%N 1 1%N store)
    = Ok (Some (AccountWitness.alice_at 150 2)) /\ t_rows (es_pool (snd (get_account 5%N 1 1%N store))) = rows.
Proof.
  refine (get_account_replays_history 5%N 1 1%N opening store _ rows_hold_opening _);
    [ vm_compute; discriminate | reflexivity ].
Defined.

Definition snapped : EventStore := snd (create_snapshot 5%N 2000 1%N store).

Lemma snapshot_is_the_account_witness :
  exists row cached,
    db_snapshots (es_pool snapped) !! 1%N = Some row /\
    es_snapshot_cache snapped !! 1%N = Some cached /\
    account_from_value (sr_data row) = Ok (AccountWitness.alice_at 150 2) /\
    cs_data cached = sr_data row /\
    max_version 1%N (db_rows (es_pool store)) = Some (sr_version row) /\
    cs_version cached = sr_version row.
Proof.
  apply (snapshot_is_the_account 5%N 1 2000 1%N store snapped (AccountWitness.alice_at 150 2)
           (snd (get_account 5%N 1 1%N store))).
  - vm_compute. repeat constructor; discriminate.
  - vm_compute. reflexivity.
  - reflexivity.
Defined.

End StoreWitness.
