(* ===== verification/BatchProcessor.v ===== *)
(** The batch processor of the event store
    ([EventStore::batch_processor] and the sending half of [save_events],
    src/src/infrastructure/event_store.rs), as a step relation.

    Callers, the processor and the flush tasks it spawns run concurrently.  A
    state [Processor] holds the store they share, the channel, the batch being
    gathered, the spawned tasks and the requests of tasks that never end
    ([bp_stuck]); [step] lets any of them move: a caller with a permit sends, the
    processor receives or its timer fires, a task runs its transaction and the
    callers it serves resume and return their permits.  A flush task is one step
    here; [FlushTasks] takes it apart into its statements.  Callers are not
    cancelled while they wait.  [bp_sent], [bp_spawned] and [bp_answers] record
    what has happened. *)
From S2P Require Import Prelude.
From S2P Require Import DecimalSpec.
From S2P Require Import Account.
From S2P Require Import Codec.
From S2P Require Import EventsDb.
From S2P Require Import EventStore.
From S2P Require Import EventStoreFacts.
From stdpp Require Import base tactics list relations gmap strings.
From Stdlib Require Import ZArith Lia.

Section Processor.
Context `{SerdeOps} `{EventsDb}.
Context `{!Display SqlxError, !Display SerdeError}.
Context (new_v4 : nat -> nat -> Uuid) (now : nat -> nat -> Z).

Record Processor : Type := {
  bp_store : EventStore;
  bp_receiver : list BatchedEvent;
  bp_batch : list BatchedEvent;
  bp_tasks : list (list BatchedEvent);
  bp_stuck : list BatchedEvent;
  bp_sent : list BatchedEvent;
  bp_spawned : list (list BatchedEvent);
  bp_answers : list (nat * res EventStoreError unit)
}.

Definition put_permits (n : nat) (s : EventStore) : EventStore :=
  {| es_pool := es_pool s; es_snapshot_cache := es_snapshot_cache s; es_config := es_config s;
     es_batch_semaphore := n; es_metrics := es_metrics s;
     es_event_validators := es_event_validators s; es_event_handlers := es_event_handlers s;
     es_version_cache := es_version_cache s |}.

Definition start (s : EventStore) : Processor :=
  {| bp_store := s; bp_receiver := []; bp_batch := []; bp_tasks := []; bp_stuck := []; bp_sent := [];
     bp_spawned := []; bp_answers := [] |}.

(** [save_events] up to the wait: [None] when the list is empty (it returns at
    once) or no permit is free (it waits). *)
Definition send (request : BatchedEvent) (p : Processor) : option Processor :=
  match be_events request, es_batch_semaphore (bp_store p) with
  | _ :: _, S permits =>
      Some {| bp_store := put_permits permits (bp_store p);
              bp_receiver := bp_receiver p ++ [request]; bp_batch := bp_batch p;
              bp_tasks := bp_tasks p; bp_stuck := bp_stuck p; bp_sent := bp_sent p ++ [request];
              bp_spawned := bp_spawned p; bp_answers := bp_answers p |}
  | _, _ => None
  end.

(** [std::mem::replace(&mut batch, Vec::new())] and [tokio::spawn]. *)
Definition spawn_flush (p : Processor) : Processor :=
  {| bp_store := bp_store p; bp_receiver := bp_receiver p; bp_batch := [];
     bp_tasks := bp_tasks p ++ [bp_batch p]; bp_stuck := bp_stuck p; bp_sent := bp_sent p;
     bp_spawned := bp_spawned p ++ [bp_batch p]; bp_answers := bp_answers p |}.

(** [Some(event) = receiver.recv() => ..]. *)
Definition recv (p : Processor) : option Processor :=
  match bp_receiver p with
  | [] => None
  | event :: rest =>
      let p' := {| bp_store := bp_store p; bp_receiver := rest;
                   bp_batch := bp_batch p ++ [event]; bp_tasks := bp_tasks p;
                   bp_stuck := bp_stuck p; bp_sent := bp_sent p; bp_spawned := bp_spawned p;
                   bp_answers := bp_answers p |} in
      Some (if (cfg_batch_size (es_config (bp_store p)) <=? length (bp_batch p'))%nat
            then spawn_flush p' else p')
  end.

(** [_ = timeout => ..]. *)
Definition on_timeout (p : Processor) : Processor :=
  match bp_batch p with
  | [] => p
  | _ :: _ => spawn_flush p
  end.

(** The callers of a batch a flush has served: all of them once it has ended, and
    those it has sent a response to when a handler or a statement never returns. *)
Definition served (o : FlushOutcome) (b : BatchedEvent) : bool :=
  match fo_result o with
  | Hang => bool_decide (be_response_tx b ∈ map fst (fo_responses o))
  | _ => true
  end.

(** The [i]-th spawned task runs [flush_batch]; the callers it serves receive
    their responses and drop their permits, the others wait on.  A panic aborts
    the process, which then takes no step. *)
Definition run_task (i : nat) (p : Processor) : option Processor :=
  match bp_tasks p !! i with
  | None => None
  | Some batch =>
      let s := bp_store p in
      let o := flush_batch new_v4 now (es_event_handlers s) batch (es_pool s) (es_metrics s)
                 (es_version_cache s) in
      let s' := put_shared (fo_metrics o) (fo_version_cache o) (put_pool (fo_db o) s) in
      let done := filter (fun b => served o b = true) batch in
      match fo_result o with
      | Panic => None
      | _ =>
          Some {| bp_store := put_permits (es_batch_semaphore s + length done) s';
                  bp_receiver := bp_receiver p; bp_batch := bp_batch p;
                  bp_tasks := delete i (bp_tasks p);
                  bp_stuck := bp_stuck p ++ filter (fun b => served o b <> true) batch;
                  bp_sent := bp_sent p; bp_spawned := bp_spawned p;
                  bp_answers := bp_answers p ++
                    map (fun b => (be_response_tx b, received (be_response_tx b) o)) done |}
      end
  end.

Inductive step : Processor -> Processor -> Prop :=
| step_send request p p' : send request p = Some p' -> step p p'
| step_recv p p' : recv p = Some p' -> step p p'
| step_timeout p : step p (on_timeout p)
| step_task i p p' : run_task i p = Some p' -> step p p'.

Definition reachable_from (s : EventStore) (p : Processor) : Prop := rtc step (start s) p.

(** Requests whose callers still wait. *)
Definition in_flight (p : Processor) : list BatchedEvent :=
  bp_stuck p ++ concat (bp_tasks p) ++ bp_batch p ++ bp_receiver p.

(** ** The invariant, for a gathered batch of at most [k] requests *)
Record inv_upto (k : nat) (s0 : EventStore) (p : Processor) : Prop := {
  inv_config : es_config (bp_store p) = es_config s0;
  inv_order : concat (bp_spawned p) ++ bp_batch p ++ bp_receiver p = bp_sent p;
  inv_tasks : bp_tasks p ⊆+ bp_spawned p;
  inv_permits : (es_batch_semaphore (bp_store p) + length (in_flight p))%nat = es_batch_semaphore s0;
  inv_answers :
    map fst (bp_answers p) ++ map be_response_tx (in_flight p) ≡ₚ map be_response_tx (bp_sent p);
  inv_nonempty : Forall (fun b => be_events b <> []) (bp_sent p);
  inv_batch : (length (bp_batch p) <= k)%nat;
  inv_sizes : Forall (fun b => (1 <= length b <= Nat.max 1 (cfg_batch_size (es_config s0)))%nat)
                (bp_spawned p)
}.

Definition processor_inv (s0 : EventStore) : Processor -> Prop :=
  inv_upto (cfg_batch_size (es_config s0) - 1) s0.

Lemma start_inv s0 : processor_inv s0 (start s0).
Proof. split; simpl; auto; lia. Qed.

Lemma send_inv s0 r p p' : processor_inv s0 p -> send r p = Some p' -> processor_inv s0 p'.
Proof.
  intros [Hc Ho Ht Hp Ha Hn Hb Hs] Hsend. unfold send in Hsend.
  destruct (be_events r) as [| e es] eqn:He; [ done |].
  destruct (es_batch_semaphore (bp_store p)) as [| permits] eqn:Hperm; [ done |].
  simplify_eq. unfold in_flight in *. split; simpl; auto.
  - rewrite <- Ho. by rewrite !app_assoc.
  - unfold in_flight; simpl. rewrite !length_app in *. simpl. lia.
  - unfold in_flight; simpl. rewrite (map_app _ (bp_sent p)), <- Ha.
    by rewrite !app_assoc, map_app, <- !app_assoc.
  - apply Forall_app. split; [ done |]. constructor; [ by rewrite He | constructor ].
Qed.

Lemma spawn_inv s0 p :
  inv_upto (Nat.max 1 (cfg_batch_size (es_config s0))) s0 p -> bp_batch p <> [] ->
  processor_inv s0 (spawn_flush p).
Proof.
  intros [Hc Ho Ht Hp Ha Hn Hb Hs] Hne.
  assert (in_flight (spawn_flush p) = in_flight p) as Hfl.
  { unfold in_flight; simpl. rewrite concat_app; simpl. by rewrite app_nil_r, <- app_assoc. }
  split; rewrite ?Hfl; simpl; auto.
  - rewrite concat_app; simpl. by rewrite app_nil_r, <- app_assoc.
  - by apply submseteq_app.
  - lia.
  - apply Forall_app. split; [ done |]. constructor; [| constructor ].
    split; [| done ]. destruct (bp_batch p); simpl; [ done | lia ].
Qed.

Lemma recv_inv s0 p p' : processor_inv s0 p -> recv p = Some p' -> processor_inv s0 p'.
Proof.
  intros [Hc Ho Ht Hp Ha Hn Hb Hs] Hrecv. unfold recv in Hrecv.
  destruct (bp_receiver p) as [| r rest] eqn:Hr; [ done |]. simplify_eq Hrecv. intros <-. clear Hrecv.
  set (p1 := {| bp_store := bp_store p |}).
  assert (in_flight p1 = in_flight p) as Hfl.
  { unfold in_flight, p1; simpl. rewrite Hr. by rewrite <- app_assoc. }
  assert (inv_upto (length (bp_batch p1)) s0 p1) as Hinv.
  { split; rewrite ?Hfl; simpl; auto. rewrite <- Ho. by rewrite <- !app_assoc. }
  rewrite Hc. change (bp_batch p ++ [r]) with (bp_batch p1).
  destruct (Nat.leb_spec (cfg_batch_size (es_config s0)) (length (bp_batch p1))) as [Hle | Hlt].
  - apply spawn_inv; [| unfold p1; simpl; by destruct (bp_batch p) ].
    destruct Hinv. split; auto. unfold p1; simpl. rewrite length_app; simpl. lia.
  - destruct Hinv. split; auto. lia.
Qed.

Lemma timeout_inv s0 p : processor_inv s0 p -> processor_inv s0 (on_timeout p).
Proof.
  intros Hinv. unfold on_timeout. destruct (bp_batch p) as [| b bs] eqn:Hb; [ done |].
  apply spawn_inv; [| by rewrite Hb ]. destruct Hinv. split; auto. lia.
Qed.

Lemma concat_delete_perm {A} (ls : list (list A)) i l :
  ls !! i = Some l -> concat ls ≡ₚ l ++ concat (delete i ls).
Proof.
  revert i. induction ls as [| x ls IH]; intros [| i] Hi; simplify_eq/=; [ done |].
  rewrite (IH i Hi), !app_assoc. by rewrite (Permutation_app_comm x l).
Qed.

Lemma filter_split {A} (f : A -> bool) l :
  filter (fun x => f x = true) l ++ filter (fun x => f x <> true) l ≡ₚ l.
Proof.
  induction l as [| x l IH]; [ done |]. rewrite !filter_cons.
  destruct (decide (f x = true)) as [Hx | Hx].
  - rewrite decide_False by auto. simpl. by rewrite IH.
  - rewrite decide_True by done. by rewrite <- Permutation_middle, IH.
Qed.

Lemma filter_none {A} (f : A -> bool) l :
  (forall x, f x = true) -> filter (fun x => f x <> true) l = [].
Proof.
  intros Hf. induction l as [| x l IH]; [ done |]. rewrite filter_cons, decide_False; [ exact IH | auto ].
Qed.

(** What is left of the requests in flight when a task has run. *)
Lemma run_task_flight i p p' :
  run_task i p = Some p' ->
  exists batch o, bp_tasks p !! i = Some batch /\ fo_result o <> Panic /\
    o = flush_batch new_v4 now (es_event_handlers (bp_store p)) batch (es_pool (bp_store p))
          (es_metrics (bp_store p)) (es_version_cache (bp_store p)) /\
    bp_tasks p' = delete i (bp_tasks p) /\ bp_batch p' = bp_batch p /\ bp_receiver p' = bp_receiver p /\
    bp_sent p' = bp_sent p /\ bp_spawned p' = bp_spawned p /\
    es_config (bp_store p') = es_config (bp_store p) /\
    es_event_handlers (bp_store p') = es_event_handlers (bp_store p) /\
    es_pool (bp_store p') = fo_db o /\
    bp_stuck p' = bp_stuck p ++ filter (fun b => served o b <> true) batch /\
    es_batch_semaphore (bp_store p')
      = (es_batch_semaphore (bp_store p) + length (filter (fun b => served o b = true) batch))%nat /\
    bp_answers p' = bp_answers p ++
      map (fun b => (be_response_tx b, received (be_response_tx b) o))
        (filter (fun b => served o b = true) batch).
Proof.
  unfold run_task. destruct (bp_tasks p !! i) as [batch |]; [| done ].
  set (o := flush_batch _ _ _ _ _ _ _). intros Hrun. exists batch, o.
  destruct (fo_result o); simplify_eq/=; split_and!; done.
Qed.

Lemma run_task_perm i p p' batch o :
  bp_tasks p !! i = Some batch -> bp_tasks p' = delete i (bp_tasks p) ->
  bp_batch p' = bp_batch p -> bp_receiver p' = bp_receiver p ->
  bp_stuck p' = bp_stuck p ++ filter (fun b => served o b <> true) batch ->
  in_flight p ≡ₚ filter (fun b => served o b = true) batch ++ in_flight p'.
Proof.
  intros Hi Ht Hb Hr Hs. unfold in_flight. rewrite Ht, Hb, Hr, Hs, (concat_delete_perm _ _ _ Hi).
  rewrite <- (filter_split (served o) batch) at 1. solve_Permutation.
Qed.

Lemma task_inv s0 i p p' : processor_inv s0 p -> run_task i p = Some p' -> processor_inv s0 p'.
Proof.
  intros [Hc Ho Ht Hp Ha Hn Hb Hs] Hrun.
  destruct (run_task_flight _ _ _ Hrun) as (batch & o & Hi & _ & _ & Et & Eb & Er & Es & Ep & Ec & _ & _ & Ek & Em & Ean).
  pose proof (run_task_perm i p p' batch o Hi Et Eb Er Ek) as Hperm.
  split; rewrite ?Et, ?Eb, ?Er, ?Es, ?Ep, ?Ec, ?Em, ?Ean; auto.
  - etransitivity; [| done ]. apply sublist_submseteq, sublist_delete.
  - rewrite <- Hp, Hperm, length_app. lia.
  - rewrite <- Ha, Hperm, !map_app, map_map, <- app_assoc. done.
Qed.

Lemma reachable_inv s0 p : reachable_from s0 p -> processor_inv s0 p.
Proof.
  unfold reachable_from. intros Hr.
  apply (rtc_ind_r (R := step) (fun p => processor_inv s0 p) (start s0));
    [ apply start_inv | | done ].
  intros p1 p2 _ Hstep Hinv. destruct Hstep; eauto using send_inv, recv_inv, timeout_inv, task_inv.
Qed.

(** ** Draining: the processor and its tasks, without new senders *)
Inductive work : Processor -> Processor -> Prop :=
| work_recv p p' : recv p = Some p' -> work p p'
| work_timeout p : work p (on_timeout p)
| work_task i p p' : run_task i p = Some p' -> work p p'.

Lemma work_step p p' : work p p' -> step p p'.
Proof. destruct 1; eauto using step. Qed.

Lemma work_sent p p' : work p p' -> bp_sent p' = bp_sent p.
Proof.
  destruct 1 as [p p' Hr | p | i p p' Hr].
  - unfold recv in Hr. destruct (bp_receiver p); [ done |]. simplify_eq. by case_match.
  - unfold on_timeout. by case_match.
  - by destruct (run_task_flight _ _ _ Hr) as (batch & o & _ & _ & _ & _ & _ & _ & Hs & _).
Qed.

Lemma recv_all p : exists p', rtc work p p' /\ bp_receiver p' = [].
Proof.
  remember (length (bp_receiver p)) as n eqn:Hn. revert p Hn.
  induction n as [| n IH]; intros p Hn.
  - exists p. split; [ reflexivity | by apply nil_length_inv ].
  - destruct (bp_receiver p) as [| r rest] eqn:Hr; [ done |].
    destruct (recv p) as [p1 |] eqn:Hp1; [| unfold recv in Hp1; by rewrite Hr in Hp1 ].
    destruct (IH p1) as (p' & Hrtc & Hp').
    { unfold recv in Hp1. rewrite Hr in Hp1. simplify_eq/=. by case_match. }
    exists p'. split; [| done ]. eapply rtc_l; [ by apply work_recv | done ].
Qed.

(** What no step of the processor changes. *)
Definition same_handlers (p p' : Processor) : Prop :=
  es_event_handlers (bp_store p') = es_event_handlers (bp_store p).

Lemma step_handlers p p' : step p p' -> same_handlers p p'.
Proof.
  unfold same_handlers. destruct 1 as [r p p' Hs | p p' Hs | p | i p p' Hs].
  - unfold send in Hs. repeat case_match; by simplify_eq/=.
  - unfold recv in Hs. repeat case_match; by simplify_eq/=.
  - unfold on_timeout. by case_match.
  - by destruct (run_task_flight _ _ _ Hs) as (batch & o & _ & _ & _ & _ & _ & _ & _ & _ & _ & Hh & _).
Qed.

Lemma reachable_handlers s0 p :
  reachable_from s0 p -> es_event_handlers (bp_store p) = es_event_handlers s0.
Proof.
  unfold reachable_from. intros Hr.
  apply (rtc_ind_r (R := step) (fun p => es_event_handlers (bp_store p) = es_event_handlers s0) (start s0));
    [ done | | done ].
  intros p1 p2 _ Hstep Heq. by rewrite (step_handlers _ _ Hstep).
Qed.

(** ** When the database answers and the handlers return *)
Section Answering.
Context `{!EventsDbAnswers}.

Definition handlers_return (s : EventStore) : Prop :=
  forall event, answered (handle_event event (es_event_handlers s)).

(** A task can run, and it serves its whole batch. *)
Lemma run_task_serves i p batch :
  handlers_return (bp_store p) -> bp_tasks p !! i = Some batch ->
  exists p', run_task i p = Some p' /\ bp_stuck p' = bp_stuck p /\
    bp_tasks p' = delete i (bp_tasks p) /\ bp_batch p' = bp_batch p /\ bp_receiver p' = bp_receiver p.
Proof.
  intros Hh Hi. unfold run_task. rewrite Hi.
  pose proof (flush_batch_answers (es_event_handlers (bp_store p)) Hh new_v4 now batch (es_pool (bp_store p))
                (es_metrics (bp_store p)) (es_version_cache (bp_store p))) as Ha.
  set (o := flush_batch _ _ _ _ _ _ _) in *.
  assert (filter (fun b => served o b <> true) batch = []) as Hnil.
  { apply filter_none. intros b. unfold served. by destruct (fo_result o). }
  destruct (fo_result o); try done; eexists; (split; [ reflexivity |]); simpl; by rewrite Hnil, app_nil_r.
Qed.

Lemma run_task_unstuck i p p' :
  handlers_return (bp_store p) -> run_task i p = Some p' -> bp_stuck p' = bp_stuck p.
Proof.
  intros Hh Hrun. destruct (run_task_flight _ _ _ Hrun) as (batch & o & Hi & _).
  destruct (run_task_serves i p batch Hh Hi) as (p1 & Hrun1 & Hs & _). congruence.
Qed.

Lemma reachable_unstuck s0 p : handlers_return s0 -> reachable_from s0 p -> bp_stuck p = [].
Proof.
  unfold reachable_from. intros Hh Hr.
  apply (rtc_ind_r (R := step) (fun p => bp_stuck p = []) (start s0)); [ done | | done ].
  intros p1 p2 Hp1 Hstep Heq. pose proof (reachable_handlers s0 p1 Hp1) as Hsame.
  destruct Hstep as [r p1 p2 Hs | p1 p2 Hs | p1 | i p1 p2 Hs].
  - unfold send in Hs. repeat case_match; by simplify_eq/=.
  - unfold recv in Hs. repeat case_match; by simplify_eq/=.
  - unfold on_timeout. by case_match.
  - rewrite (run_task_unstuck i p1 p2); [ done | | done ]. unfold handlers_return. by rewrite Hsame.
Qed.

Lemma run_all p :
  handlers_return (bp_store p) -> bp_stuck p = [] -> bp_batch p = [] -> bp_receiver p = [] ->
  exists p', rtc work p p' /\ in_flight p' = [].
Proof.
  remember (length (bp_tasks p)) as n eqn:Hn. revert p Hn.
  induction n as [| n IH]; intros p Hn Hh Hs Hb Hr.
  - exists p. split; [ reflexivity |]. unfold in_flight.
    rewrite (nil_length_inv (bp_tasks p)), Hs, Hb, Hr by done. done.
  - destruct (bp_tasks p) as [| b rest] eqn:Ht; [ done |].
    destruct (run_task_serves 0 p b Hh) as (p1 & Hrun & Es & Et & Eb & Er); [ by rewrite Ht |].
    destruct (IH p1) as (p' & Hrtc & Hp').
    + rewrite Et, Ht. simpl in *. lia.
    + unfold handlers_return. by rewrite (step_handlers p p1 (step_task 0 p p1 Hrun)).
    + congruence.
    + congruence.
    + congruence.
    + exists p'. split; [| done ]. eapply rtc_l; [ by apply (work_task 0) | done ].
Qed.

Lemma rtc_work_step p p' : rtc work p p' -> rtc step p p'.
Proof. apply rtc_subrel. intros ??; apply work_step. Qed.

Lemma drain s0 p :
  handlers_return s0 -> reachable_from s0 p ->
  exists p', rtc work p p' /\ in_flight p' = [] /\ bp_sent p' = bp_sent p.
Proof.
  intros Hh Hreach. destruct (recv_all p) as (p1 & H1' & Hr1).
  assert (rtc work p (on_timeout p1)) as Hw
    by (etransitivity; [ exact H1' |]; apply rtc_once, work_timeout).
  assert (reachable_from s0 (on_timeout p1)) as Hreach1
    by (unfold reachable_from; etransitivity; [ exact Hreach | by apply rtc_work_step ]).
  destruct (run_all (on_timeout p1)) as (p2 & H2' & Hf2).
  { unfold handlers_return. by rewrite (reachable_handlers s0 _ Hreach1). }
  { by apply (reachable_unstuck s0). }
  { unfold on_timeout. by destruct (bp_batch p1) eqn:Hb. }
  { unfold on_timeout. by destruct (bp_batch p1). }
  assert (rtc work p p2) as Hrtc by (etransitivity; [ exact Hw | exact H2' ]).
  exists p2. split_and!; [ done | done |].
  clear -Hrtc. induction Hrtc as [| x y z Hxy _ IH]; [ done |].
  rewrite IH. by apply work_sent.
Qed.

End Answering.

(** ** Properties *)

(** C9. Whatever the interleaving, the requests reach the flush tasks in the
    order they were sent, none is lost and none is flushed twice: the batches
    spawned so far, the batch being gathered and the channel, in this order, are
    the requests sent; and every request is either in flight or answered once. *)
Theorem requests_flushed_once_in_order s0 p :
  reachable_from s0 p ->
  concat (bp_spawned p) ++ bp_batch p ++ bp_receiver p = bp_sent p /\
  map fst (bp_answers p) ++ map be_response_tx (in_flight p) ≡ₚ map be_response_tx (bp_sent p).
Proof. intros Hr. destruct (reachable_inv s0 p Hr). auto. Qed.

(** The semaphore bounds the memory of the processor: the requests in
    flight and the free permits always add up to the permits the store started
    with, no spawned batch is empty and none exceeds the configured batch size. *)
Theorem requests_in_flight_bounded s0 p :
  reachable_from s0 p ->
  (es_batch_semaphore (bp_store p) + length (in_flight p))%nat = es_batch_semaphore s0 /\
  Forall (fun b => (1 <= length b <= Nat.max 1 (cfg_batch_size (es_config s0)))%nat) (bp_spawned p).
Proof. intros Hr. destruct (reachable_inv s0 p Hr). auto. Qed.


(** ** Against the laws of the database *)
Context `{!EventsDbLaws}.

(** Tasks only flush requests that carry events. *)
Lemma task_nonempty s0 p i batch :
  processor_inv s0 p -> bp_tasks p !! i = Some batch -> Forall (fun b => be_events b <> []) batch.
Proof.
  intros [_ Ho Ht _ _ Hn _ _] Hi. rewrite <- Ho in Hn. apply Forall_app in Hn as [Hn _].
  assert (batch ∈ bp_spawned p) as Hin.
  { eapply elem_of_submseteq; [| exact Ht ]. by eapply list_elem_of_lookup_2. }
  clear -Hn Hin. induction (bp_spawned p) as [| x l IH]; [ by apply not_elem_of_nil in Hin |].
  simpl in Hn. apply Forall_app in Hn as [Hx Hl]. apply elem_of_cons in Hin as [-> |]; auto.
Qed.

(** No caller that hands events to the store is ever told they were saved,
    and the table of events never changes, whatever the interleaving of callers,
    batches and flushes.  The version check asks the table to hold already the
    version the first new event is about to take: a new aggregate has no row, an
    existing one is usually at another version, and where they agree the INSERT
    repeats an existing (aggregate, version). *)
Theorem no_request_acknowledged s0 p :
  reachable_from s0 p ->
  Forall (fun a => is_ok a.2 = false) (bp_answers p) /\
  db_rows (es_pool (bp_store p)) = db_rows (es_pool s0).
Proof.
  intros Hr. apply (rtc_ind_r (R := step)
    (fun p => Forall (fun a => is_ok a.2 = false) (bp_answers p) /\
              db_rows (es_pool (bp_store p)) = db_rows (es_pool s0)) (start s0)); [ done | | done ].
  intros p1 p2 Hp1 Hstep [Hall Hrows]. pose proof (reachable_inv _ _ Hp1) as Hinv.
  destruct Hstep as [r p1 p2 Hs | p1 p2 Hs | p1 | i p1 p2 Hs].
  - unfold send in Hs. repeat case_match; simplify_eq/=; auto.
  - unfold recv in Hs. repeat case_match; simplify_eq/=; auto.
  - unfold on_timeout. by case_match.
  - destruct (run_task_flight _ _ _ Hs)
      as (batch & o & Hi & _ & Ho & _ & _ & _ & _ & _ & _ & _ & Hpool & _ & _ & Hans).
    pose proof (task_nonempty _ _ _ _ Hinv Hi) as Hne. rewrite Hans, Hpool, Ho. split.
    + apply Forall_app. split; [ done |]. apply Forall_map, Forall_forall.
      intros b _. simpl. by apply received_refused.
    + rewrite <- Hrows. by apply flush_batch_refuses.
Qed.

End Processor.

(** ** Witnesses: two callers, one batch flushed, one still gathered *)
Module ProcessorWitness.
Import ScaleZero PlainSerde TableDb StoreWitness.

Definition first_request : BatchedEvent := request 1 2 [EvMoneyWithdrawn 1%N (amt 30) 8%N].
Definition second_request : BatchedEvent := request 2 1 [EvMoneyDeposited 1%N (amt 5) 9%N].

Definition p0 : Processor := start store.
Definition p1 : Processor := default p0 (send first_request p0).
Definition p2 : Processor := default p1 (recv p1).
Definition p3 : Processor := on_timeout p2.
Definition p4 : Processor := default p3 (send second_request p3).
Definition p5 : Processor := default p4 (run_task ids clock 0 p4).
Definition p6 : Processor := default p5 (recv p5).

Lemma p6_reachable : reachable_from ids clock store p6.
Proof.
  unfold reachable_from.
  eapply rtc_l; [ apply (step_send _ _ first_request p0 p1); reflexivity |].
  eapply rtc_l; [ apply (step_recv _ _ p1 p2); reflexivity |].
  eapply rtc_l; [ apply (step_timeout _ _ p2) |].
  eapply rtc_l; [ apply (step_send _ _ second_request p3 p4); reflexivity |].
  eapply rtc_l; [ apply (step_task _ _ 0 p4 p5); reflexivity |].
  eapply rtc_l; [ apply (step_recv _ _ p5 p6); reflexivity |].
  apply rtc_refl.
Defined.

Lemma requests_flushed_once_in_order_witness :
  concat (bp_spawned p6) ++ bp_batch p6 ++ bp_receiver p6 = bp_sent p6 /\
  map fst (bp_answers p6) ++ map be_response_tx (in_flight p6) ≡ₚ map be_response_tx (bp_sent p6).
Proof. exact (requests_flushed_once_in_order ids clock store p6 p6_reachable). Defined.

Lemma requests_in_flight_bounded_witness :
  (es_batch_semaphore (bp_store p6) + length (in_flight p6))%nat = es_batch_semaphore store /\
  Forall (fun b => (1 <= length b <= Nat.max 1 (cfg_batch_size (es_config store)))%nat) (bp_spawned p6).
Proof. exact (requests_in_flight_bounded ids clock store p6 p6_reachable). Defined.


Lemma no_request_acknowledged_witness :
  Forall (fun a => is_ok a.2 = false) (bp_answers p6) /\
  db_rows (es_pool (bp_store p6)) = db_rows (es_pool store).
Proof. exact (no_request_acknowledged ids clock store p6 p6_reachable). Defined.

(** The first caller is told there is a conflict: the check asked for version 3. *)
Example first_caller_refused :
  bp_answers p6 = [(1%nat, Err (OptimisticConcurrencyConflict 1%N 3 (Some 2%Z)))].
Proof. reflexivity. Qed.

End ProcessorWitness.
