(* ===== verification/FlushTasks.v ===== *)
(** The flush tasks of the event store, statement by statement
    ([EventStore::flush_batch] and the functions it calls,
    src/src/infrastructure/event_store.rs).

    [EventStore.flush_batch] runs a batch from BEGIN to COMMIT in one go.  The
    batch processor spawns one task per batch, and at every [.await] another
    task, another worker or another process may go on.  Here the loop of
    [flush_batch] is a program ([prog]) over its atomic actions: a statement of
    the open transaction, an update of the metrics or of the version cache, a
    response, a pause.  [task_step] performs one action of one task; [sys_step]
    lets any task act, spawns tasks at any time, and lets other writers append
    rows and touch metrics and cache between any two actions.

    The database is [SharedDb]: a statement sees its own transaction and what
    the others have committed so far.  [SharedDbLaws] states what PostgreSQL
    documents of it under every isolation level: a read returns rows that are
    committed or the transaction's own, the index
    [unique_aggregate_id_version] refuses a key that is committed or the
    transaction's own, COMMIT adds the transaction's rows or none.  A statement
    that waits for a lock is a task that is not scheduled until then.
    [Alone] runs a task over the interface of [EventsDb]; there a task does
    exactly what [EventStore.flush_batch] does. *)
From S2P Require Import Prelude.
From S2P Require Import DecimalSpec.
From S2P Require Import Account.
From S2P Require Import Codec.
From S2P Require Import EventsDb.
From S2P Require Import EventStore.
From S2P Require Import EventStoreFacts.
From stdpp Require Import base tactics list relations gmap strings.
From Stdlib Require Import ZArith Lia.

(** ** The database, shared *)
Class SharedDb : Type := {
  SDb : Type;
  STx : Type;
  s_begin : M SDb SqlxError STx;
  s_set_serializable : M (STx * SDb) SqlxError unit;
  s_select_last_version : Uuid -> M (STx * SDb) SqlxError (list (option Z));
  s_insert_events : list EventRow -> M (STx * SDb) SqlxError unit;
  s_commit : STx -> M SDb SqlxError unit;
  (** a [Transaction] dropped without [commit] *)
  s_rollback : STx -> SDb -> SDb
}.

Definition Key : Type := Uuid * Z.

Class SharedDbLaws `{SharedDb} : Type := {
  committed : SDb -> list EventRow;
  pending : STx -> list EventRow;
  taken : STx * SDb -> list Key := fun c => map row_key (committed c.2 ++ pending c.1);
  s_begin_committed : forall d, committed (snd (s_begin d)) = committed d;
  s_begin_pending : forall d tx d', s_begin d = (Ok tx, d') -> pending tx = [];
  s_set_serializable_rows : forall c,
    let c' := snd (s_set_serializable c) in
    committed c'.2 = committed c.2 /\ pending c'.1 = pending c.1;
  s_select_rows : forall agg c,
    let c' := snd (s_select_last_version agg c) in
    committed c'.2 = committed c.2 /\ pending c'.1 = pending c.1;
  s_select_ok : forall agg c vs c',
    s_select_last_version agg c = (Ok vs, c') ->
    forall row, row ∈ vs -> exists v, row = Some v /\ (agg, v) ∈ taken c;
  s_insert_committed : forall new c, committed (snd (s_insert_events new c)).2 = committed c.2;
  s_insert_ok : forall new c c',
    s_insert_events new c = (Ok tt, c') ->
    pending c'.1 = pending c.1 ++ new /\ (forall r, r ∈ new -> row_key r ∉ taken c);
  s_insert_failed : forall new c,
    is_ok (fst (s_insert_events new c)) = false ->
    pending (snd (s_insert_events new c)).1 = pending c.1;
  s_commit_rows : forall tx d,
    committed (snd (s_commit tx d)) = committed d \/
    committed (snd (s_commit tx d)) ≡ₚ committed d ++ pending tx;
  s_rollback_rows : forall tx d, committed (s_rollback tx d) = committed d
}.

(** A database that answers: no statement panics or waits for ever. *)
Class SharedDbAnswers `{SharedDb} : Prop := {
  s_begin_answers : answers s_begin;
  s_set_serializable_answers : answers s_set_serializable;
  s_select_answers : forall agg, answers (s_select_last_version agg);
  s_insert_answers : forall rows, answers (s_insert_events rows);
  s_commit_answers : forall tx, answers (s_commit tx)
}.

Section Tasks.
Context `{SerdeOps}.
Context `{!Display SqlxError, !Display SerdeError}.

(** ** Programs *)

(** What a flush task does in one uninterrupted step, with the type of what it
    gets back. *)
Inductive action : Type -> Type :=
| ASetSerializable : action (res SqlxError unit)
| ASelectLast (agg : Uuid) : action (res SqlxError (list (option Z)))
| AInsert (rows : list EventRow) : action (res SqlxError unit)
| AMetrics (f : EventStoreMetrics -> EventStoreMetrics) : action unit
| ACache (f : gmap Uuid Z -> gmap Uuid Z) : action unit
| ARespond (tx : nat) (r : res EventStoreError unit) : action unit
| ASleep (ms : Z) : action unit.

Inductive prog (R : Type) : Type :=
| Done (r : R)
| Do {X : Type} (a : action X) (k : X -> prog R).
Arguments Done {R} r.
Arguments Do {R X} a k.

Fixpoint pbind {R S} (p : prog R) (f : R -> prog S) : prog S :=
  match p with
  | Done r => f r
  | Do a k => Do a (fun x => pbind (k x) f)
  end.

Definition act {X} (a : action X) : prog X := Do a Done.

(** Programs that may fail, as [M] has them. *)
Definition task (A : Type) : Type := prog (res EventStoreError A).

Definition tret {A} (a : A) : task A := Done (Ok a).

Definition tthrow {A} (e : EventStoreError) : task A := Done (Err e).

Definition tlift {A} (r : res EventStoreError A) : task A := Done r.

Definition tbind {E A B} (m : prog (res E A)) (k : A -> prog (res E B)) : prog (res E B) :=
  pbind m (fun r =>
    match r with
    | Ok a => k a
    | Err e => Done (Err e)
    | Panic => Done Panic
    | Hang => Done Hang
    end).

Definition tattempt {E F A} (m : prog (res E A)) : prog (res F (E + A)) :=
  pbind m (fun r => Done
    match r with
    | Ok a => Ok (inr a)
    | Err e => Ok (inl e)
    | Panic => Panic
    | Hang => Hang
    end).

(** A statement whose error the caller maps to [DatabaseError]. *)
Definition tstatement {A} (a : action (res SqlxError A)) : task A :=
  Do a (fun r => Done (map_err DatabaseError r)).

Definition tdo (a : action unit) : task unit := Do a (fun _ => Done (Ok tt)).

#[local] Notation "'do!' x ':=' m 'in' k" := (tbind m (fun x => k))
  (at level 10, x binder, m at level 100, k at level 200).
#[local] Notation "m1 ;>> m2" := (tbind m1 (fun _ => m2))
  (at level 100, m2 at level 200, right associativity).

(** ** [bulk_insert_events_optimized] *)
Definition note_conflict_task (agg : Uuid) : task unit :=
  tdo (AMetrics EventStore.count_occ) ;>> tdo (ACache (delete agg)).

Definition insert_attempt_task (again : SqlxError -> task unit) (agg : Uuid)
    (expected_version last_version : Z) (events : list Event) : task unit :=
  do! rows := tstatement (ASelectLast agg) in
  do! row := tlift (fetch_one rows) in
  let current_version := default 0%Z row in
  if negb (current_version =? expected_version)%Z then
    note_conflict_task agg ;>> tthrow (conflict agg expected_version current_version)
  else
    do! _ := tlift (check_sequence expected_version events) in
    do! inserted := tattempt (act (AInsert (map to_row events))) in
    match inserted with
    | inr _ => tdo (ACache (insert agg last_version))
    | inl (PgDatabaseError code constraint as e) =>
        if String.eqb code "23505"
           && bool_decide (constraint = Some "unique_aggregate_id_version") then
          note_conflict_task agg ;>> tthrow (conflict agg expected_version current_version)
        else if is_transient_error code then again e
        else tthrow (DatabaseError e)
    | inl e => tthrow (DatabaseError e)
    end.

Fixpoint insert_loop_task (left : nat) (delay : Z) (agg : Uuid)
    (expected_version last_version : Z) (events : list Event) : task unit :=
  insert_attempt_task
    (fun e =>
       match left with
       | S left' =>
           tdo (ASleep delay) ;>>
           insert_loop_task left' (delay * 2) agg expected_version last_version events
       | O => tthrow (DatabaseError e)
       end)
    agg expected_version last_version events.

Definition bulk_insert_task (events : list Event) : task unit :=
  match events with
  | [] => tret tt
  | first_event :: _ =>
      tstatement ASetSerializable ;>>
      insert_loop_task max_retries 100 (ev_aggregate_id first_event) (ev_version first_event)
        (ev_version (List.last events first_event)) events
  end.

(** ** The loop of [flush_batch] *)
Fixpoint validate_all_task (events : list Event) : task (option EventStoreError) :=
  match events with
  | [] => tret None
  | event :: rest =>
      let v := validate_event event in
      if negb (evr_is_valid v)
      then tdo (AMetrics count_failed) ;>> tret (Some (ValidationError (evr_errors v)))
      else validate_all_task rest
  end.

Fixpoint handle_all_task (event_handlers : gmap string (list EventHandler)) (events : list Event)
  : task (option EventStoreError) :=
  match events with
  | [] => tret None
  | event :: rest =>
      do! r := tattempt (tlift (handle_event event event_handlers)) in
      match r with
      | inl e => tdo (AMetrics count_failed) ;>> tret (Some e)
      | inr _ => handle_all_task event_handlers rest
      end
  end.

Context (new_v4 : nat -> nat -> Uuid) (now : nat -> nat -> Z).
Context (event_handlers : gmap string (list EventHandler)).

Definition flush_one_task (batched_event : BatchedEvent) : task unit :=
  let tx := be_response_tx batched_event in
  let event_data := prepare_events_for_insert_optimized (new_v4 tx) (now tx) batched_event in
  do! validation_error := validate_all_task event_data in
  do! handling_error :=
    (match validation_error with
     | None => handle_all_task event_handlers event_data
     | Some _ => tret None
     end) in
  do! insert_result :=
    (match validation_error, handling_error with
     | None, None => tattempt (bulk_insert_task event_data)
     | Some e, _ => tret (inl e)
     | None, Some e => tret (inl e)
     end) in
  match insert_result with
  | inr _ =>
      tdo (AMetrics (count_processed (Z.of_nat (length event_data)))) ;>>
      tdo (ARespond tx (Ok tt))
  | inl e => tdo (ARespond tx (Err e))
  end.

Fixpoint flush_loop_task (batch : list BatchedEvent) : task unit :=
  match batch with
  | [] => tret tt
  | batched_event :: rest => flush_one_task batched_event ;>> flush_loop_task rest
  end.

(** ** Running *)
Section Running.
Context `{SharedDb}.

(** What the tasks share: the pool, the metrics, the version cache, and the
    responses sent so far. *)
Record Shared : Type := {
  sh_db : SDb;
  sh_metrics : EventStoreMetrics;
  sh_version_cache : gmap Uuid Z;
  sh_responses : list (nat * res EventStoreError unit)
}.

Definition put_db (d : SDb) (sh : Shared) : Shared :=
  {| sh_db := d; sh_metrics := sh_metrics sh; sh_version_cache := sh_version_cache sh;
     sh_responses := sh_responses sh |}.

Definition on_shared {A} (m : M (STx * SDb) SqlxError A) (tx : STx) (sh : Shared)
  : res SqlxError A * (STx * Shared) :=
  let '(r, (tx', d)) := m (tx, sh_db sh) in (r, (tx', put_db d sh)).

Definition perform {X} (a : action X) (tx : STx) (sh : Shared) : X * (STx * Shared) :=
  match a with
  | ASetSerializable => on_shared s_set_serializable tx sh
  | ASelectLast agg => on_shared (s_select_last_version agg) tx sh
  | AInsert rows => on_shared (s_insert_events rows) tx sh
  | AMetrics f =>
      (tt, (tx, {| sh_db := sh_db sh; sh_metrics := f (sh_metrics sh);
                   sh_version_cache := sh_version_cache sh; sh_responses := sh_responses sh |}))
  | ACache f =>
      (tt, (tx, {| sh_db := sh_db sh; sh_metrics := sh_metrics sh;
                   sh_version_cache := f (sh_version_cache sh);
                   sh_responses := sh_responses sh |}))
  | ARespond c r =>
      (tt, (tx, {| sh_db := sh_db sh; sh_metrics := sh_metrics sh;
                   sh_version_cache := sh_version_cache sh;
                   sh_responses := sh_responses sh ++ [(c, r)] |}))
  | ASleep _ => (tt, (tx, sh))
  end.

(** A spawned task: before BEGIN, inside its transaction, ended with what
    [flush_batch] returns, or waiting for ever, its transaction open, on a handler
    or a statement that never returns.  [Finished Panic] is a task that has
    panicked: where the profile unwinds, its transaction is dropped and the others
    go on; where it aborts ([panic = "abort"]), that is the end of the schedule. *)
Inductive Task : Type :=
| Spawned (batch : list BatchedEvent)
| Running (tx : STx) (p : task unit)
| Finished (r : res EventStoreError unit)
| Stuck.

Definition returned (r : res EventStoreError unit) : Task :=
  match r with
  | Hang => Stuck
  | _ => Finished r
  end.

Definition task_step (t : Task) (sh : Shared) : Task * Shared :=
  match t with
  | Spawned batch =>
      match s_begin (sh_db sh) with
      | (Ok tx, d) => (Running tx (flush_loop_task batch), put_db d sh)
      | (r, d) => (returned (map_err DatabaseError (res_bind r (fun _ => Ok tt))), put_db d sh)
      end
  | Running tx (Do a k) =>
      let '(x, (tx', sh')) := perform a tx sh in (Running tx' (k x), sh')
  | Running tx (Done (Ok _)) =>
      let '(c, d) := s_commit tx (sh_db sh) in (returned (map_err DatabaseError c), put_db d sh)
  | Running tx (Done Hang) => (Stuck, sh)
  | Running tx (Done r) => (Finished r, put_db (s_rollback tx (sh_db sh)) sh)
  | Finished _ | Stuck => (t, sh)
  end.

(** [n] steps of a task that nobody interrupts. *)
Fixpoint task_steps (n : nat) (t : Task) (sh : Shared) : Task * Shared :=
  match n with
  | O => (t, sh)
  | S n => let '(t', sh') := task_step t sh in task_steps n t' sh'
  end.

(** ** The number of steps of a task *)

(** [p] performs at most [n] more actions, whatever the others do meanwhile. *)
Inductive within {R} : nat -> prog R -> Prop :=
| within_done n r : within n (Done r)
| within_do n {X} (a : action X) k : (forall x, within n (k x)) -> within (S n) (Do a k).
#[local] Hint Constructors within : bank.

Lemma within_mono {R} n m (p : prog R) : within n p -> (n <= m)%nat -> within m p.
Proof.
  intros Hp. revert m. induction Hp as [| n X a k _ IH]; intros m Hm; [ constructor |].
  destruct m as [| m]; [ lia |]. constructor. intros x. apply IH. lia.
Qed.

Lemma within_pbind {R S} n m (p : prog R) (f : R -> prog S) :
  within n p -> (forall r, within m (f r)) -> within (n + m) (pbind p f).
Proof.
  intros Hp Hf. induction Hp as [n r | n X a k _ IH]; simpl.
  - eapply within_mono; [ apply Hf | lia ].
  - constructor. exact IH.
Qed.

Lemma within_tbind {E A B} n m (p : prog (res E A)) (f : A -> prog (res E B)) :
  within n p -> (forall a, within m (f a)) -> within (n + m) (tbind p f).
Proof. intros Hp Hf. apply within_pbind; [ done |]. intros [a | | |]; auto with bank. Qed.

Lemma within_tattempt {E F A} n (p : prog (res E A)) : within n p -> within n (tattempt (F := F) p).
Proof.
  intros Hp. eapply within_mono; [ apply (within_pbind n 0); [ done | constructor ] | lia ].
Qed.

Lemma within_tdo a : within 1 (tdo a).
Proof. unfold tdo. auto with bank. Qed.

#[local] Hint Resolve within_tdo : bank.

Lemma within_note_conflict {A} agg e : within 2 (note_conflict_task agg ;>> tthrow e : task A).
Proof.
  unfold note_conflict_task.
  apply (within_tbind 2 0); [ apply (within_tbind 1 1) |]; intros; unfold tthrow; auto with bank.
Qed.

#[local] Hint Resolve within_note_conflict : bank.

Lemma within_insert_attempt n again agg ev last events :
  (2 <= n)%nat -> (forall e, within n (again e)) ->
  within (2 + n) (insert_attempt_task again agg ev last events).
Proof.
  intros Hn Hagain. unfold insert_attempt_task.
  apply (within_tbind 1 (1 + n)); [ unfold tstatement; auto with bank |]. intros rows.
  apply (within_tbind 0 (1 + n)); [ constructor |]. intros row.
  destruct (negb _); [ apply (within_mono 2); [ auto with bank | lia ] |].
  apply (within_tbind 0 (1 + n)); [ constructor |]. intros _.
  apply (within_tbind 1 n); [ apply within_tattempt; unfold act; auto with bank |].
  intros [e | u]; [| apply (within_mono 1); [ auto with bank | lia ] ].
  destruct e as [| code constraint | msg]; try constructor.
  destruct (_ && _); [ apply (within_mono 2); [ auto with bank | lia ] |].
  destruct (is_transient_error code); [ done | constructor ].
Qed.

Lemma within_insert_loop left delay agg ev last events :
  within (4 + 3 * left) (insert_loop_task left delay agg ev last events).
Proof.
  revert delay. induction left as [| left IH]; intros delay; simpl insert_loop_task.
  - apply (within_insert_attempt 2); [ lia |]. intros e. constructor.
  - replace (4 + 3 * S left)%nat with (2 + (1 + (4 + 3 * left)))%nat by lia.
    apply within_insert_attempt; [ lia |]. intros e.
    apply within_tbind; [ auto with bank |]. intros _. apply IH.
Qed.

Lemma within_bulk_insert events : within 14 (bulk_insert_task events).
Proof.
  destruct events as [| first rest]; [ constructor |]. unfold bulk_insert_task.
  apply (within_tbind 1 13); [ unfold tstatement; auto with bank |].
  intros _. eapply within_mono; [ apply within_insert_loop | unfold max_retries; simpl; lia ].
Qed.

Lemma within_validate_all events : within 1 (validate_all_task events).
Proof.
  induction events as [| event rest IH]; simpl; [ constructor |].
  destruct (negb _); [| done ]. apply (within_tbind 1 0); [ auto with bank | constructor ].
Qed.

Lemma within_handle_all events : within 1 (handle_all_task event_handlers events).
Proof.
  induction events as [| event rest IH]; simpl; [ constructor |].
  apply (within_tbind 0 1); [ apply within_tattempt; constructor |].
  intros [e | u]; [| done ]. apply (within_tbind 1 0); [ auto with bank | constructor ].
Qed.

(** Actions of a task on one request: at most two for the counters of failures,
    fourteen for the insertion with its retries, one for the counter of events
    and one for the response. *)
Definition request_actions : nat := 18.

Lemma within_flush_one b : within request_actions (flush_one_task b).
Proof.
  unfold flush_one_task. set (ed := prepare_events_for_insert_optimized _ _ _).
  apply (within_tbind 1 17); [ apply within_validate_all |]. intros v.
  apply (within_tbind 1 16); [ destruct v; [ constructor | apply within_handle_all ] |]. intros h.
  apply (within_tbind 14 2).
  { destruct v; [ constructor |]. destruct h; [ constructor |].
    apply within_tattempt, within_bulk_insert. }
  intros [e | u]; [ apply (within_mono 1); [ auto with bank | lia ] |].
  apply (within_tbind 1 1); auto with bank.
Qed.

Lemma within_flush_loop batch :
  within (length batch * request_actions) (flush_loop_task batch).
Proof.
  induction batch as [| b batch IH]; simpl flush_loop_task; [ constructor |].
  cbn [length Nat.mul]. apply within_tbind; [ apply within_flush_one |]. intros _. exact IH.
Qed.

(** At most [n] more steps, BEGIN and COMMIT included. *)
Definition task_within (n : nat) (t : Task) : Prop :=
  match t with
  | Spawned batch => (2 + length batch * request_actions <= n)%nat
  | Running _ p => exists m, (m < n)%nat /\ within m p
  | Finished _ | Stuck => True
  end.

Lemma returned_within n r : task_within n (returned r).
Proof. by destruct r. Qed.

Lemma task_step_within n t sh : task_within (S n) t -> task_within n (task_step t sh).1.
Proof.
  destruct t as [batch | tx p | r |]; simpl; [| | done .. ].
  - intros Hn. destruct (s_begin (sh_db sh)) as [[tx | | |] d]; simpl; try done.
    eexists. split; [| apply within_flush_loop ]. lia.
  - intros (m & Hm & Hp). destruct Hp as [m r | m X a k Hk].
    + destruct r as [[] | | |]; simpl; [| done .. ].
      destruct (s_commit tx (sh_db sh)). apply returned_within.
    + destruct (perform a tx sh) as [x [tx' sh']]. simpl. exists m. split; [ lia | apply Hk ].
Qed.

Lemma task_within_0 t : task_within 0 t -> (exists r, t = Finished r) \/ t = Stuck.
Proof. destruct t as [batch | tx p | r |]; simpl; [ lia | intros (m & ? & _); lia | eauto | by right ]. Qed.

(** ** The system *)

(** [sy_spawned]: the batches handed to tasks so far; [sy_foreign]: the rows
    other writers have committed. *)
Record Sys : Type := {
  sy_shared : Shared;
  sy_tasks : list Task;
  sy_spawned : list (list BatchedEvent);
  sy_foreign : list EventRow
}.

Inductive label : Type :=
| LSpawn (batch : list BatchedEvent)
| LTask (i : nat)
| LOther (rows : list EventRow).

#[global] Instance label_eq_task i : forall l, Decision (l = LTask i).
Proof.
  intros [b | j | rows]; [ right; discriminate | | right; discriminate ].
  destruct (decide (j = i)) as [-> | Hne]; [ left | right; congruence ]; done.
Defined.

Definition start_sys (d : SDb) (m : EventStoreMetrics) (cache : gmap Uuid Z) : Sys :=
  {| sy_shared := {| sh_db := d; sh_metrics := m; sh_version_cache := cache; sh_responses := [] |};
     sy_tasks := []; sy_spawned := []; sy_foreign := [] |}.

(** [tokio::spawn] of a gathered batch. *)
Definition spawn (batch : list BatchedEvent) (s : Sys) : Sys :=
  {| sy_shared := sy_shared s; sy_tasks := sy_tasks s ++ [Spawned batch];
     sy_spawned := sy_spawned s ++ [batch]; sy_foreign := sy_foreign s |}.

Definition run_task_step (i : nat) (t : Task) (s : Sys) : Sys :=
  let '(t', sh) := task_step t (sy_shared s) in
  {| sy_shared := sh; sy_tasks := <[i := t']> (sy_tasks s);
     sy_spawned := sy_spawned s; sy_foreign := sy_foreign s |}.

Context `{!SharedDbLaws}.

(** A task acts, the batch processor spawns one for a batch of requests that
    carry events ([save_events] sends no other), or anything else happens: the
    readers and writers of metrics and cache, other writers of the table. *)
Inductive sys_step : label -> Sys -> Sys -> Prop :=
| sys_spawn batch s :
    Forall (fun b => be_events b <> []) batch -> sys_step (LSpawn batch) s (spawn batch s)
| sys_task i t s :
    sy_tasks s !! i = Some t -> sys_step (LTask i) s (run_task_step i t s)
| sys_other rows sh s :
    committed (sh_db sh) ≡ₚ committed (sh_db (sy_shared s)) ++ rows ->
    sh_responses sh = sh_responses (sy_shared s) ->
    sys_step (LOther rows) s
      {| sy_shared := sh; sy_tasks := sy_tasks s; sy_spawned := sy_spawned s;
         sy_foreign := sy_foreign s ++ rows |}.

Inductive sys_run : list label -> Sys -> Sys -> Prop :=
| sys_run_nil s : sys_run [] s s
| sys_run_cons l ls s1 s2 s3 : sys_step l s1 s2 -> sys_run ls s2 s3 -> sys_run (l :: ls) s1 s3.

(** The turns task [i] gets in a schedule. *)
Definition turns (i : nat) (ls : list label) : nat := length (filter (fun l => l = LTask i) ls).

Lemma sys_step_task_within l s s' i t n :
  sys_step l s s' -> sy_tasks s !! i = Some t -> task_within n t ->
  exists t', sy_tasks s' !! i = Some t' /\ task_within (n - turns i [l]) t'.
Proof.
  intros Hstep Ht Hn. destruct Hstep as [batch s _ | j t0 s Hj | rows sh s _ _].
  - exists t. cbn. rewrite Nat.sub_0_r. split; [| done ]. by apply lookup_app_l_Some.
  - unfold run_task_step, turns. destruct (task_step t0 (sy_shared s)) as [t1 sh] eqn:Hs. simpl.
    pose proof (lookup_lt_Some _ _ _ Ht) as Hlt. rewrite filter_cons, filter_nil.
    destruct (decide (LTask j = LTask i)) as [Heq | Hne]; simpl.
    + injection Heq as ->. rewrite Hj in Ht. injection Ht as ->.
      exists t1. split; [ by apply list_lookup_insert_eq |].
      destruct n as [| n].
      * destruct (task_within_0 _ Hn) as [[r ->] | ->]; simpl in Hs; by simplify_eq.
      * replace (S n - 1)%nat with n by lia.
        pose proof (task_step_within n t (sy_shared s) Hn) as Hw. by rewrite Hs in Hw.
    + exists t. rewrite Nat.sub_0_r. split; [| done ].
      rewrite list_lookup_insert_ne; [ done | congruence ].
  - exists t. cbn. by rewrite Nat.sub_0_r.
Qed.

Lemma sys_run_task_within ls s s' i t n :
  sys_run ls s s' -> sy_tasks s !! i = Some t -> task_within n t ->
  exists t', sy_tasks s' !! i = Some t' /\ task_within (n - turns i ls) t'.
Proof.
  intros Hrun. revert t n. induction Hrun as [s | l ls s1 s2 s3 Hstep Hrun IH]; intros t n Ht Hn.
  - exists t. cbn. by rewrite Nat.sub_0_r.
  - destruct (sys_step_task_within _ _ _ _ _ _ Hstep Ht Hn) as (t2 & Ht2 & Hn2).
    destruct (IH _ _ Ht2 Hn2) as (t3 & Ht3 & Hn3). exists t3. split; [ done |].
    replace (n - turns i (l :: ls))%nat with (n - turns i [l] - turns i ls)%nat; [ done |].
    unfold turns. rewrite (filter_cons _ l ls), (filter_cons _ l []).
    destruct (decide _); simpl; lia.
Qed.

(** ** What a task may do *)

(** From [known] keys, all of them taken, [p] only inserts rows of which one
    repeats a known key, and acknowledges nothing; a SELECT adds the keys it
    returns.  [Q] holds of the result. *)
Fixpoint cautious {R} (Q : list Key -> R -> Prop) (known : list Key) (p : prog R) : Prop :=
  match p with
  | Done r => Q known r
  | Do a k =>
      match a in action X return (X -> prog R) -> Prop with
      | ASetSerializable => fun k => forall r, cautious Q known (k r)
      | ASelectLast agg => fun k =>
          (forall r, is_ok r = false -> cautious Q known (k r)) /\
          (forall vs, cautious Q (map (pair agg) vs ++ known) (k (Ok (map Some vs))))
      | AInsert rows => fun k =>
          (exists key, key ∈ known /\ key ∈ map row_key rows) /\
          (forall r, is_ok r = false -> cautious Q known (k r))
      | AMetrics _ | ACache _ | ASleep _ => fun k => cautious Q known (k tt)
      | ARespond _ r => fun k => is_ok r = false /\ cautious Q known (k tt)
      end k
  end.

Lemma cautious_pbind {R S} (Q : list Key -> R -> Prop) (Q' : list Key -> S -> Prop) known p f :
  cautious Q known p -> (forall known' r, Q known' r -> cautious Q' known' (f r)) ->
  cautious Q' known (pbind p f).
Proof.
  revert known. induction p as [r | X a k IH]; intros known Hp Hf; simpl in *; [ auto |].
  destruct a; simpl in *; naive_solver.
Qed.

(** The post-conditions used below: anything, or a failure. *)
Definition any {A} (known : list Key) (r : A) : Prop := True.

Definition failed {E A} (known : list Key) (r : res E A) : Prop := is_ok r = false.

Lemma cautious_tbind {E A B} (Q : list Key -> res E B -> Prop) known
    (m : prog (res E A)) (k : A -> prog (res E B)) :
  cautious any known m -> (forall known' a, cautious Q known' (k a)) ->
  (forall known' r, is_ok r = false -> Q known' r) -> cautious Q known (tbind m k).
Proof.
  intros Hm Hk HQ. eapply cautious_pbind; [ exact Hm |].
  intros known' [a | e | |] _; [ apply Hk | by apply HQ .. ].
Qed.

Lemma cautious_failed_any {E A} known (p : prog (res E A)) :
  cautious failed known p -> cautious any known p.
Proof.
  revert known. induction p as [r | X a k IH]; intros known Hp; simpl in *; [ done |].
  destruct a; simpl in *; naive_solver.
Qed.

Lemma note_conflict_cautious {A} agg e known :
  cautious failed known (note_conflict_task agg ;>> tthrow e : task A).
Proof. done. Qed.

Lemma insert_attempt_cautious again first rest last known :
  (forall e known, cautious failed known (again e)) ->
  cautious failed known
    (insert_attempt_task again (ev_aggregate_id first) (ev_version first) last (first :: rest)).
Proof.
  intros Hagain. unfold insert_attempt_task, tstatement. cbn [tbind pbind cautious]. split.
  { by intros [vs | e | |]. }
  intros [| v vs]; cbn [map map_err tbind pbind fetch_one ok_or head tlift]; [ done |].
  cbn [default from_option id]. destruct (Z.eqb_spec v (ev_version first)) as [-> | Hv]; cbn [negb];
    [| apply note_conflict_cautious ].
  destruct rest as [| second rest].
  2:{ pose proof (check_sequence_many first second rest) as Hseq.
      destruct (check_sequence _ _) eqn:Hc; try done. }
  unfold check_sequence. cbn [length Nat.ltb Nat.leb]. unfold tattempt, act.
  cbn [tbind pbind cautious map]. split.
  { exists (ev_aggregate_id first, ev_version first). split; apply elem_of_cons; by left. }
  intros [u | e | |] Hr; try done. cbn [pbind tbind].
  destruct e as [| code constraint | msg]; try done.
  destruct (_ && _); [ apply note_conflict_cautious |]. by destruct (is_transient_error code).
Qed.

Lemma insert_loop_cautious left delay first rest last known :
  cautious failed known
    (insert_loop_task left delay (ev_aggregate_id first) (ev_version first) last (first :: rest)).
Proof.
  revert delay known. induction left as [| left IH]; intros delay known; simpl;
    apply insert_attempt_cautious; intros e known'; [ done |]. exact (IH _ known').
Qed.

Lemma bulk_insert_cautious events known :
  events <> [] -> cautious failed known (bulk_insert_task events).
Proof.
  destruct events as [| first rest]; [ done |]. intros _. unfold bulk_insert_task, tstatement.
  cbn [tbind pbind cautious]. intros [u | e | |]; try done.
  apply insert_loop_cautious.
Qed.

Lemma validate_all_cautious events known : cautious any known (validate_all_task events).
Proof. induction events as [| event rest IH]; simpl; [ done |]. by destruct (negb _). Qed.

Lemma handle_all_cautious events known : cautious any known (handle_all_task event_handlers events).
Proof.
  induction events as [| event rest IH]; simpl; [ done |].
  by destruct (handle_event event event_handlers).
Qed.

Lemma flush_one_cautious b known :
  be_events b <> [] -> cautious any known (flush_one_task b).
Proof.
  intros Hb. unfold flush_one_task. set (ed := prepare_events_for_insert_optimized _ _ _).
  assert (ed <> []) as Hed by (intros Hnil; by apply Hb, (prepare_loop_nil _ _ _ _ _ _ Hnil)).
  apply cautious_tbind; [ apply validate_all_cautious | | done ]. intros known1 v.
  apply cautious_tbind; [ destruct v; [ done | apply handle_all_cautious ] | | done ].
  intros known2 h. destruct v as [e |]; [ done |]. destruct h as [e |]; [ done |].
  unfold tbind at 1. eapply cautious_pbind.
  - eapply cautious_pbind; [ by apply bulk_insert_cautious |].
    intros known3 r Hr. instantiate (1 := fun _ r => match r with Ok (inr _) => False | _ => True end).
    by destruct r.
  - intros known3 [[e | u] | e | |] Hr; done.
Qed.

Lemma flush_loop_cautious batch known :
  Forall (fun b => be_events b <> []) batch -> cautious any known (flush_loop_task batch).
Proof.
  intros Hne. revert known. induction Hne as [| b batch Hb _ IH]; intros known; simpl; [ done |].
  apply cautious_tbind; [ by apply flush_one_cautious | auto | done ].
Qed.

(** ** The invariant of the system *)
Definition task_ok (d : SDb) (t : Task) : Prop :=
  match t with
  | Spawned batch => Forall (fun b => be_events b <> []) batch
  | Running tx p =>
      pending tx = [] /\
      exists known, (forall key, key ∈ known -> key ∈ map row_key (committed d)) /\
        cautious any known p
  | Finished _ | Stuck => True
  end.

Lemma returned_ok d r : task_ok d (returned r).
Proof. by destruct r. Qed.

(** The table holds at least the keys it held. *)
Definition grows (d d' : SDb) : Prop :=
  forall key, key ∈ map row_key (committed d) -> key ∈ map row_key (committed d').

Lemma grows_rows d d' rows : committed d' ≡ₚ committed d ++ rows -> grows d d'.
Proof.
  intros Hp key Hk. rewrite Hp, map_app. apply elem_of_app. by left.
Qed.

Lemma task_ok_grows d d' t : task_ok d t -> grows d d' -> task_ok d' t.
Proof. destruct t as [| tx p | |]; simpl; naive_solver. Qed.

(** The keys a SELECT returns are taken. *)
Lemma select_known agg tx d vs c :
  s_select_last_version agg (tx, d) = (Ok vs, c) -> pending tx = [] ->
  exists zs, vs = map Some zs /\
    forall key, key ∈ map (pair agg) zs -> key ∈ map row_key (committed d).
Proof.
  intros Hsel Hpend. pose proof (s_select_ok _ _ _ _ Hsel) as Hvs. unfold taken in Hvs. simpl in Hvs.
  rewrite Hpend, app_nil_r in Hvs. clear Hsel.
  induction vs as [| v vs IH].
  - exists []. split; [ done |]. intros key Hkey. by apply not_elem_of_nil in Hkey.
  - destruct (Hvs v) as (z & -> & Hz); [ by left |].
    destruct IH as (zs & -> & Hzs); [ intros row Hrow; apply Hvs; by right |].
    exists (z :: zs). split; [ done |]. intros key [-> | Hkey]%elem_of_cons; auto.
Qed.

(** An INSERT that repeats a committed key is refused. *)
Lemma insert_known rows tx d key :
  key ∈ map row_key (committed d) -> key ∈ map row_key rows ->
  is_ok (fst (s_insert_events rows (tx, d))) = false.
Proof.
  intros Hin Hrow. destruct (s_insert_events rows (tx, d)) as [[[] | | |] c] eqn:Hins; try done.
  destruct (s_insert_ok _ _ _ Hins) as [_ Hfree]. exfalso.
  apply list_elem_of_In, in_map_iff in Hrow as (row & <- & Hr).
  apply (Hfree row); [ by apply list_elem_of_In |]. unfold taken. simpl.
  rewrite map_app. apply elem_of_app. by left.
Qed.

Definition refusals (sh : Shared) : Prop :=
  Forall (fun p => is_ok p.2 = false) (sh_responses sh).

(** One action of a cautious program: the table and the transaction stay as
    they are, and only refusals are sent. *)
Lemma perform_ok {X} (a : action X) k tx sh x tx' sh' :
  task_ok (sh_db sh) (Running tx (Do a k)) -> perform a tx sh = (x, (tx', sh')) -> refusals sh ->
  task_ok (sh_db sh') (Running tx' (k x)) /\
  committed (sh_db sh') = committed (sh_db sh) /\ refusals sh'.
Proof.
  intros (Hpend & known & Hknown & Hc) Hperf Hresp.
  destruct a as [| agg | rows | f | f | c r | ms]; simpl in Hperf, Hc; unfold on_shared in Hperf;
    simplify_eq/=; try by eauto 10.
  - pose proof (s_set_serializable_rows (tx, sh_db sh)) as [Hd Hp].
    destruct (s_set_serializable _) as [r [tx1 d1]]. simplify_eq/=. rewrite Hd, Hp. eauto 10.
  - pose proof (s_select_rows agg (tx, sh_db sh)) as [Hd Hp].
    destruct (s_select_last_version _ _) as [r [tx1 d1]] eqn:Hsel. simplify_eq/=. rewrite Hd, Hp.
    split; [| done ]. split; [ done |]. destruct Hc as [Hfail Hok].
    destruct x as [vs | e | |]; [| exists known; split; [ done | by apply Hfail ] .. ].
    destruct (select_known _ _ _ _ _ Hsel Hpend) as (zs & -> & Hzs).
    eexists. split; [| apply Hok ]. intros key [Hkey | Hkey]%elem_of_app; auto.
  - pose proof (s_insert_committed rows (tx, sh_db sh)) as Hd.
    pose proof (s_insert_failed rows (tx, sh_db sh)) as Hp.
    destruct Hc as [(key & Hin & Hrow) Hfail].
    pose proof (insert_known rows tx (sh_db sh) key (Hknown _ Hin) Hrow) as Hx.
    destruct (s_insert_events _ _) as [r [tx1 d1]]. simplify_eq/=. rewrite Hd, (Hp Hx). eauto 10.
  - split; [ naive_solver |]. split; [ done |]. apply Forall_app. split; [ done |].
    constructor; [ naive_solver | constructor ].
Qed.

Lemma task_step_ok t sh :
  task_ok (sh_db sh) t -> refusals sh ->
  task_ok (sh_db (task_step t sh).2) (task_step t sh).1 /\
  committed (sh_db (task_step t sh).2) ≡ₚ committed (sh_db sh) /\ refusals (task_step t sh).2.
Proof.
  intros Ht Hresp. destruct t as [batch | tx p | r |]; simpl; [| | done .. ].
  - pose proof (s_begin_committed (sh_db sh)) as Hd.
    destruct (s_begin (sh_db sh)) as [[tx | | |] d] eqn:Hb; simpl in *; rewrite Hd; try done.
    split; [| done ]. split; [ by eapply s_begin_pending |]. exists []. split.
    + intros key Hkey. by apply not_elem_of_nil in Hkey.
    + by apply flush_loop_cautious.
  - destruct p as [r | X a k].
    + destruct Ht as [Hpend _]. pose proof (s_rollback_rows tx (sh_db sh)) as Hrb.
      destruct r as [u | | |]; simpl; rewrite ?Hrb; try done.
      pose proof (s_commit_rows tx (sh_db sh)) as Hcommit. rewrite Hpend, app_nil_r in Hcommit.
      destruct (s_commit tx (sh_db sh)) as [c d]. simpl in *.
      split; [ apply returned_ok |]. split; [| done ]. by destruct Hcommit as [-> | ->].
    + destruct (perform a tx sh) as [x [tx' sh']] eqn:Hp. simpl.
      destruct (perform_ok _ _ _ _ _ _ _ Ht Hp Hresp) as (Hok & Hd & Hr).
      split; [ exact Hok |]. split; [ by rewrite Hd | exact Hr ].
Qed.

Record sys_ok (d0 : SDb) (s : Sys) : Prop := {
  ok_tasks : Forall (task_ok (sh_db (sy_shared s))) (sy_tasks s);
  ok_rows : committed (sh_db (sy_shared s)) ≡ₚ committed d0 ++ sy_foreign s;
  ok_responses : refusals (sy_shared s)
}.

Lemma tasks_ok_grow d d' ts : Forall (task_ok d) ts -> grows d d' -> Forall (task_ok d') ts.
Proof. intros Hts Hg. eapply Forall_impl; [ exact Hts |]. intros t Ht. by eapply task_ok_grows. Qed.

Lemma sys_step_ok d0 l s s' : sys_step l s s' -> sys_ok d0 s -> sys_ok d0 s'.
Proof.
  intros Hstep [Hts Hrows Hresp]. destruct Hstep as [batch s Hne | i t s Hi | rows sh s Hsh Hr].
  - split; simpl; [| done .. ]. apply Forall_app. by split; [| repeat constructor ].
  - unfold run_task_step. rewrite Forall_forall in Hts.
    pose proof (task_step_ok t (sy_shared s) (Hts _ (list_elem_of_lookup_2 _ _ _ Hi)) Hresp)
      as (Hok & Hsame & Hr).
    destruct (task_step t (sy_shared s)) as [t' sh]. simpl in *.
    split; simpl; [| by rewrite Hsame | done ].
    apply Forall_insert; [| done ]. apply (tasks_ok_grow (sh_db (sy_shared s))).
    + by apply Forall_forall.
    + apply (grows_rows _ _ []). by rewrite app_nil_r.
  - split; simpl.
    + eapply tasks_ok_grow; [ done | by eapply grows_rows ].
    + by rewrite Hsh, Hrows, app_assoc.
    + unfold refusals. by rewrite Hr.
Qed.

Lemma sys_run_ok d0 ls s s' : sys_run ls s s' -> sys_ok d0 s -> sys_ok d0 s'.
Proof. induction 1 as [| l ls s1 s2 s3 Hstep _ IH]; [ done |]. intros Hok. by eapply IH, sys_step_ok. Qed.

Lemma start_sys_ok d m cache : sys_ok d (start_sys d m cache).
Proof. split; simpl; [ constructor | by rewrite app_nil_r | constructor ]. Qed.

(** C6. However the statements of any number of flush tasks interleave with one
    another and with other writers of the same table, no task ever adds a row
    and no caller is told that its events were saved. *)
Theorem interleaved_flushes_save_nothing d m cache ls s :
  sys_run ls (start_sys d m cache) s ->
  Forall (fun p => is_ok p.2 = false) (sh_responses (sy_shared s)) /\
  committed (sh_db (sy_shared s)) ≡ₚ committed d ++ sy_foreign s.
Proof.
  intros Hrun. destruct (sys_run_ok d _ _ _ Hrun (start_sys_ok d m cache)) as [_ Hrows Hresp].
  by split.
Qed.

(** ** Every request is answered at most once *)

(** [p] still owes the channels [owed] an answer each, in this order; [Q] holds
    of what it owes when it ends. *)
Fixpoint settles {R} (Q : list nat -> R -> Prop) (owed : list nat) (p : prog R) : Prop :=
  match p with
  | Done r => Q owed r
  | Do a k =>
      match a in action X return (X -> prog R) -> Prop with
      | ARespond c _ => fun k => exists rest, owed = c :: rest /\ settles Q rest (k tt)
      | _ => fun k => forall x, settles Q owed (k x)
      end k
  end.

(** A program that sends no response. *)
Definition quiet {R} (p : prog R) : Prop := forall owed, settles (fun o _ => o = owed) owed p.

Lemma settles_pbind {R S} Q (Q' : list nat -> S -> Prop) owed (p : prog R) f :
  settles Q owed p -> (forall o r, Q o r -> settles Q' o (f r)) -> settles Q' owed (pbind p f).
Proof.
  revert owed. induction p as [r | X a k IH]; intros owed Hp Hf; simpl in *; [ auto |].
  destruct a; simpl in *; naive_solver.
Qed.

Lemma quiet_pbind {R S} Q owed (p : prog R) (f : R -> prog S) :
  quiet p -> (forall r, settles Q owed (f r)) -> settles Q owed (pbind p f).
Proof. intros Hp Hf. eapply settles_pbind; [ apply Hp |]. by intros o r ->. Qed.

Lemma quiet_tbind {E A B} (p : prog (res E A)) (f : A -> prog (res E B)) :
  quiet p -> (forall a, quiet (f a)) -> quiet (tbind p f).
Proof.
  intros Hp Hf owed. apply quiet_pbind; [ done |]. intros [a | | |]; [ apply Hf | done .. ].
Qed.

Lemma quiet_tattempt {E F A} (p : prog (res E A)) : quiet p -> quiet (tattempt (F := F) p).
Proof. intros Hp owed. by apply quiet_pbind. Qed.

Lemma quiet_insert_attempt again agg ev last events :
  (forall e, quiet (again e)) -> quiet (insert_attempt_task again agg ev last events).
Proof.
  intros Hagain. unfold insert_attempt_task. apply quiet_tbind; [ by intros owed |]. intros rows.
  apply quiet_tbind; [ by intros owed |]. intros row. destruct (negb _); [ by intros owed |].
  apply quiet_tbind; [ by intros owed |]. intros _.
  apply quiet_tbind; [ apply quiet_tattempt; by intros owed |]. intros [e | u]; [| by intros owed ].
  destruct e as [| code constraint | msg]; try by intros owed.
  destruct (_ && _); [ by intros owed |]. destruct (is_transient_error code); [ done | by intros owed ].
Qed.

Lemma quiet_insert_loop left delay agg ev last events :
  quiet (insert_loop_task left delay agg ev last events).
Proof.
  revert delay. induction left as [| left IH]; intros delay; simpl; apply quiet_insert_attempt; intros e.
  - by intros owed.
  - apply quiet_tbind; [ by intros owed | auto ].
Qed.

Lemma quiet_bulk_insert events : quiet (bulk_insert_task events).
Proof.
  destruct events as [| first rest]; [ by intros owed |]. unfold bulk_insert_task.
  apply quiet_tbind; [ by intros owed | intros _; apply quiet_insert_loop ].
Qed.

Lemma quiet_validate_all events : quiet (validate_all_task events).
Proof. induction events as [| e rest IH]; simpl; [ by intros owed |]. destruct (negb _); [ by intros owed | done ]. Qed.

Lemma quiet_handle_all events : quiet (handle_all_task event_handlers events).
Proof.
  induction events as [| e rest IH]; simpl; [ by intros owed |].
  apply quiet_tbind; [ by apply quiet_tattempt |]. intros [e' | u]; [ by intros owed | done ].
Qed.

(** A task that ends well owes nothing. *)
Definition settled {E A} (owed : list nat) (r : res E A) : Prop := is_ok r = true -> owed = [].

Lemma flush_one_settles b rest :
  settles (fun o r => is_ok r = true -> o = rest) (be_response_tx b :: rest) (flush_one_task b).
Proof.
  unfold flush_one_task. set (ed := prepare_events_for_insert_optimized _ _ _).
  apply quiet_pbind; [ apply quiet_validate_all |]. intros [v | | |]; try done.
  apply quiet_pbind; [ destruct v; [ by intros owed | apply quiet_handle_all ] |].
  intros [h | | |]; try done.
  apply quiet_pbind.
  { destruct v; [ by intros owed |]. destruct h; [ by intros owed |].
    apply quiet_tattempt, quiet_bulk_insert. }
  intros [[e | u] | | |]; try done; [| intros _ ]; by exists rest.
Qed.

Lemma flush_task_settles batch :
  settles settled (map be_response_tx batch) (flush_loop_task batch).
Proof.
  induction batch as [| b batch IH]; simpl; [ done |].
  eapply settles_pbind; [ apply flush_one_settles |].
  intros o [u | | |] Ho; simpl in *; try done. by rewrite Ho.
Qed.

Definition owes (owed : list nat) (t : Task) : Prop :=
  match t with
  | Spawned batch => owed = map be_response_tx batch
  | Running _ p => settles settled owed p
  | Finished r => settled owed r
  | Stuck => True
  end.

Lemma returned_owes owed r : settled owed r -> owes owed (returned r).
Proof. by destruct r. Qed.

Lemma perform_responses {X} (a : action X) k tx sh x tx' sh' owed :
  settles settled owed (Do a k : task unit) -> perform a tx sh = (x, (tx', sh')) ->
  exists owed', settles settled owed' (k x) /\
    map fst (sh_responses sh') ++ owed' = map fst (sh_responses sh) ++ owed.
Proof.
  intros Ha Hp. destruct a as [| agg | rows | f | f | c r | ms]; simpl in *; unfold on_shared in Hp;
    repeat case_match; simplify_eq/=; eauto.
  destruct Ha as (rest & -> & Ha). exists rest. split; [ done |].
  by rewrite map_app, <- app_assoc.
Qed.

Lemma task_step_owes owed t sh :
  owes owed t ->
  exists owed', owes owed' (task_step t sh).1 /\
    map fst (sh_responses (task_step t sh).2) ++ owed' = map fst (sh_responses sh) ++ owed.
Proof.
  destruct t as [batch | tx p | r |]; simpl; [| | by eauto .. ].
  - intros ->. exists (map be_response_tx batch).
    destruct (s_begin (sh_db sh)) as [[tx | | |] d]; simpl; split; try done.
    apply flush_task_settles.
  - intros Hp. destruct p as [r | X a k].
    + exists owed. destruct r as [u | | |]; simpl in *; try done.
      destruct (s_commit tx (sh_db sh)) as [c d]. split; [| done ].
      apply returned_owes. intros _. by apply Hp.
    + destruct (perform a tx sh) as [x [tx' sh']] eqn:Hperf. simpl.
      by eapply perform_responses.
Qed.

(** The channels of a system: answered, and still owed by each task. *)
Definition ledger (s : Sys) : Prop :=
  exists owed, Forall2 owes owed (sy_tasks s) /\
    map fst (sh_responses (sy_shared s)) ++ concat owed
      ≡ₚ map be_response_tx (concat (sy_spawned s)).

Lemma concat_insert {A} (ls : list (list A)) i l l' :
  ls !! i = Some l -> exists rest, concat ls ≡ₚ l ++ rest /\ concat (<[i := l']> ls) ≡ₚ l' ++ rest.
Proof.
  revert i. induction ls as [| x ls IH]; intros [| i] Hi; simplify_eq/=; [ by eexists |].
  destruct (IH i Hi) as (rest & Hr & Hr'). exists (x ++ rest).
  rewrite Hr, Hr'. split; apply Permutation_app_swap_app.
Qed.

Lemma sys_step_ledger l s s' : sys_step l s s' -> ledger s -> ledger s'.
Proof.
  intros Hstep (owed & Hall & Hperm). destruct Hstep as [batch s _ | i t s Hi | rows sh s _ Hr].
  - exists (owed ++ [map be_response_tx batch]). simpl. split.
    + apply Forall2_app; [ done | by repeat constructor ].
    + rewrite !concat_app, map_app, app_assoc. simpl. rewrite !app_nil_r. by rewrite Hperm.
  - destruct (Forall2_lookup_r _ _ _ _ _ Hall Hi) as (o & Ho & Howes).
    destruct (task_step_owes o t (sy_shared s) Howes) as (o' & Howes' & Heq).
    exists (<[i := o']> owed). unfold run_task_step, ledger.
    destruct (task_step t (sy_shared s)) as [t' sh]. simpl in *.
    split; [ by apply Forall2_insert |].
    destruct (concat_insert owed i o o' Ho) as (rest & Hc & Hc').
    rewrite <- Hperm, Hc, Hc', !app_assoc. by rewrite Heq.
  - exists owed. simpl. by rewrite Hr.
Qed.

Lemma sys_run_ledger ls s s' : sys_run ls s s' -> ledger s -> ledger s'.
Proof. induction 1; eauto using sys_step_ledger. Qed.

Lemma start_sys_ledger d m cache : ledger (start_sys d m cache).
Proof. by exists []. Qed.

Lemma settled_concat owed ts :
  Forall2 owes owed ts -> Forall (fun t => exists u, t = Finished (Ok u)) ts -> concat owed = [].
Proof.
  induction 1 as [| o t owed ts Ho _ IH]; [ done |]. intros (Ht & Hts)%Forall_cons.
  destruct Ht as [u ->]. simpl in *. rewrite (Ho eq_refl). by apply IH.
Qed.

(** C7. In every interleaving each request handed to a flush task is answered at
    most once, and exactly once when every task has committed. *)
Theorem interleaved_flushes_answer_once d m cache ls s :
  sys_run ls (start_sys d m cache) s ->
  map fst (sh_responses (sy_shared s)) ⊆+ map be_response_tx (concat (sy_spawned s)) /\
  (Forall (fun t => exists u, t = Finished (Ok u)) (sy_tasks s) ->
   map fst (sh_responses (sy_shared s)) ≡ₚ map be_response_tx (concat (sy_spawned s))).
Proof.
  intros Hrun. destruct (sys_run_ledger _ _ _ Hrun (start_sys_ledger d m cache)) as (owed & Hall & Hperm).
  split.
  - rewrite <- Hperm. by apply submseteq_inserts_r.
  - intros Hfin. rewrite <- Hperm, (settled_concat _ _ Hall Hfin). by rewrite app_nil_r.
Qed.

(** ** Every task ends, when its statements are answered and its handlers return *)
(** What an action may give back. *)
Definition reply {X} (a : action X) : X -> Prop :=
  match a in action X return X -> Prop with
  | ASetSerializable | ASelectLast _ | AInsert _ => answered
  | _ => fun _ => True
  end.

(** [p] ends with a value or an error, whatever the answers to its statements. *)
Fixpoint returns {E A} (p : prog (res E A)) : Prop :=
  match p with
  | Done r => answered r
  | Do a k => forall x, reply a x -> returns (k x)
  end.

Lemma returns_tbind {E A B} (p : prog (res E A)) (f : A -> prog (res E B)) :
  returns p -> (forall a, returns (f a)) -> returns (tbind p f).
Proof.
  intros Hp Hf. unfold tbind. induction p as [r | X a k IH]; simpl in *; [| auto ].
  destruct r; simpl; auto.
Qed.

Lemma returns_tattempt {E F A} (p : prog (res E A)) : returns p -> returns (tattempt (F := F) p).
Proof. intros Hp. unfold tattempt. induction p as [r | X a k IH]; simpl in *; [ by destruct r | auto ]. Qed.

Lemma returns_tstatement {A} (a : action (res SqlxError A)) :
  (forall r, reply a r -> answered r) -> returns (tstatement a).
Proof. intros Ha r Hr. specialize (Ha r Hr). simpl. by destruct r. Qed.

Lemma returns_tdo a : returns (tdo a).
Proof. by intros x _. Qed.

Lemma returns_insert_attempt again agg ev last events :
  (forall e, returns (again e)) -> returns (insert_attempt_task again agg ev last events).
Proof.
  intros Hagain. unfold insert_attempt_task.
  apply returns_tbind; [ by apply returns_tstatement |]. intros rows.
  apply returns_tbind; [ by destruct rows |]. intros row.
  destruct (negb _); [ by intros ? ? ? ? |].
  apply returns_tbind; [ apply check_sequence_answered |]. intros _.
  apply returns_tbind; [ apply returns_tattempt; by intros r |]. intros [e | u]; [| apply returns_tdo ].
  destruct e as [| code constraint | msg]; try exact I.
  destruct (_ && _); [ by intros ? ? ? ? |]. by destruct (is_transient_error code).
Qed.

Lemma returns_insert_loop left delay agg ev last events :
  returns (insert_loop_task left delay agg ev last events).
Proof.
  revert delay. induction left as [| left IH]; intros delay; simpl; apply returns_insert_attempt; intros e.
  - exact I.
  - apply returns_tbind; [ apply returns_tdo | auto ].
Qed.

Lemma returns_bulk_insert events : returns (bulk_insert_task events).
Proof.
  destruct events as [| first rest]; [ exact I |].
  apply returns_tbind; [ by apply returns_tstatement | intros _; apply returns_insert_loop ].
Qed.

Lemma returns_validate_all events : returns (validate_all_task events).
Proof. induction events as [| e rest IH]; simpl; [ exact I |]. destruct (negb _); [ by intros ? ? | done ]. Qed.

Section Ends.
Context (handlers_return : forall event, answered (handle_event event event_handlers)).

Lemma returns_handle_all events : returns (handle_all_task event_handlers events).
Proof.
  induction events as [| e rest IH]; simpl; [ exact I |].
  apply returns_tbind; [ apply returns_tattempt; apply handlers_return |].
  intros [e' | u]; [ by intros ? ? | done ].
Qed.

Lemma returns_flush_loop batch : returns (flush_loop_task batch).
Proof.
  induction batch as [| b batch IH]; simpl; [ exact I |].
  apply returns_tbind; [| auto ]. unfold flush_one_task.
  apply returns_tbind; [ apply returns_validate_all |]. intros v.
  apply returns_tbind; [ destruct v; [ exact I | apply returns_handle_all ] |]. intros h.
  apply returns_tbind.
  { destruct v; [ exact I |]. destruct h; [ exact I |]. apply returns_tattempt, returns_bulk_insert. }
  intros [e | u]; [ apply returns_tdo |]. apply returns_tbind; [ apply returns_tdo | intros _; apply returns_tdo ].
Qed.

Context `{!SharedDbAnswers}.

Definition task_returns (t : Task) : Prop :=
  match t with
  | Spawned _ => True
  | Running _ p => returns p
  | Finished r => answered r
  | Stuck => False
  end.

Lemma returned_returns r : answered r -> task_returns (returned r).
Proof. by destruct r. Qed.

Lemma perform_reply {X} (a : action X) tx sh : reply a (fst (perform a tx sh)).
Proof.
  destruct a as [| agg | rows | f | f | c r | ms]; simpl; unfold on_shared; try done.
  - pose proof (s_set_serializable_answers (tx, sh_db sh)). by destruct (s_set_serializable _) as [? []].
  - pose proof (s_select_answers agg (tx, sh_db sh)). by destruct (s_select_last_version _ _) as [? []].
  - pose proof (s_insert_answers rows (tx, sh_db sh)). by destruct (s_insert_events _ _) as [? []].
Qed.

Lemma task_step_returns t sh : task_returns t -> task_returns (task_step t sh).1.
Proof.
  destruct t as [batch | tx p | r |]; simpl; [| | done .. ].
  - intros _. pose proof (s_begin_answers (sh_db sh)) as Hb.
    destruct (s_begin (sh_db sh)) as [[tx | | |] d]; simpl in *; try done. apply returns_flush_loop.
  - intros Hp. destruct p as [r | X a k]; simpl in Hp.
    + destruct r; simpl; try done. pose proof (s_commit_answers tx (sh_db sh)) as Hc.
      destruct (s_commit tx (sh_db sh)) as [c d]. apply returned_returns. by destruct c.
    + pose proof (perform_reply a tx sh) as Hr. destruct (perform a tx sh) as [x [tx' sh']]. by apply Hp.
Qed.

Lemma sys_run_returns ls s s' i t :
  sys_run ls s s' -> sy_tasks s !! i = Some t -> task_returns t ->
  forall t', sy_tasks s' !! i = Some t' -> task_returns t'.
Proof.
  intros Hrun. revert t. induction Hrun as [s | l ls s1 s2 s3 Hstep _ IH]; intros t Ht Hr t' Ht'.
  - congruence.
  - destruct Hstep as [batch s1 _ | j t0 s1 Hj | rows sh s1 _ _]; simpl in *.
    + eapply (IH t); [ by apply lookup_app_l_Some | done | done ].
    + unfold run_task_step in *. pose proof (task_step_returns t0 (sy_shared s1)) as Hstep.
      destruct (task_step t0 (sy_shared s1)) as [t1 sh]. simpl in *.
      pose proof (lookup_lt_Some _ _ _ Ht) as Hlt. destruct (decide (j = i)) as [-> | Hne].
      * eapply (IH t1); [ by apply list_lookup_insert_eq | | done ]. apply Hstep. congruence.
      * eapply (IH t); [ by rewrite list_lookup_insert_ne | done | done ].
    + eapply (IH t); done.
Qed.

(** C8. While the statements of the database are answered and the registered
    handlers return, a flush task ends with a value or an error after a bounded
    number of its own steps, however the other tasks, workers and writers
    interleave with it and whatever the answers are: BEGIN, at most
    [request_actions] for each request of its batch, COMMIT. *)
Theorem flush_task_ends ls s s' i batch :
  sys_run ls s s' -> sy_tasks s !! i = Some (Spawned batch) ->
  (2 + length batch * request_actions <= turns i ls)%nat ->
  exists r, sy_tasks s' !! i = Some (Finished r) /\ answered r.
Proof.
  intros Hrun Hi Hturns.
  destruct (sys_run_task_within ls s s' i _ (2 + length batch * request_actions) Hrun Hi) as (t' & Ht' & Hw).
  { simpl. lia. }
  replace (_ - turns i ls)%nat with 0%nat in Hw by lia.
  pose proof (sys_run_returns ls s s' i _ Hrun Hi I t' Ht') as Hret.
  destruct (task_within_0 _ Hw) as [[r ->] | ->]; [ eauto | done ].
Qed.

End Ends.

End Running.

(** ** A task alone *)
Section Alone.
Context `{EventsDb}.

(** Transactions that see the table as it was at BEGIN. *)
Definition own {A} (m : M Tx SqlxError A) : M (Tx * Db) SqlxError A :=
  zoom fst (fun tx c => (tx, c.2)) m.

#[local] Instance alone : SharedDb := {|
  s_begin := db_begin;
  s_set_serializable := own tx_set_serializable;
  s_select_last_version := fun agg => own (tx_select_last_version agg);
  s_insert_events := fun rows => own (tx_insert_events rows);
  s_commit := tx_commit;
  s_rollback := fun _ d => d
|}.

Fixpoint run_prog {R} (p : prog R) (tx : STx) (sh : Shared) : R * (STx * Shared) :=
  match p with
  | Done r => (r, (tx, sh))
  | Do a k => let '(x, (tx', sh')) := perform a tx sh in run_prog (k x) tx' sh'
  end.

Lemma run_prog_pbind {R S} (p : prog R) (f : R -> prog S) tx sh :
  run_prog (pbind p f) tx sh
    = let '(r, (tx', sh')) := run_prog p tx sh in run_prog (f r) tx' sh'.
Proof.
  revert tx sh. induction p as [r | X a k IH]; intros tx sh; simpl; [ done |].
  destruct (perform a _ _) as [x [tx' sh']]. apply IH.
Qed.

(** What a task shares, from the state of [EventStore.flush_batch]: the table
    at BEGIN and the responses sent before. *)
Definition share (d : Db) (before : list (nat * res EventStoreError unit)) (s : FlushState) : Shared :=
  {| sh_db := d : @SDb alone; sh_metrics := fs_metrics s; sh_version_cache := fs_version_cache s;
     sh_responses := before ++ fs_responses s |}.

(** The program [p] does what the operation [m] does. *)
Definition implements {E A} (p : prog (res E A)) (m : M FlushState E A) : Prop :=
  forall d before s,
    run_prog p (fs_tx s) (share d before s)
      = let '(r, s') := m s in (r, (fs_tx s', share d before s')).

Lemma implements_lift {E A} (r : res E A) : implements (Done r) (lift r).
Proof. by intros d before s. Qed.

Lemma implements_bind {E A B} p (m : M FlushState E A) f (k : A -> M FlushState E B) :
  implements p m -> (forall a, implements (f a) (k a)) -> implements (tbind p f) (bind m k).
Proof.
  intros Hp Hf d before s. unfold tbind, bind. rewrite run_prog_pbind, Hp.
  destruct (m s) as [[a | | |] s']; [ apply Hf | done .. ].
Qed.

Lemma implements_attempt {E F A} p (m : M FlushState E A) :
  implements p m -> implements (tattempt (F := F) p) (attempt m).
Proof.
  intros Hp d before s. unfold tattempt, attempt. rewrite run_prog_pbind, Hp.
  by destruct (m s) as [[a | | |] s'].
Qed.

Lemma implements_statement {A} (a : action (res SqlxError A)) (m : M Tx SqlxError A) :
  (forall (tx : STx) sh, perform a tx sh = on_shared (own m) tx sh) ->
  implements (act a) (zoom fs_tx put_tx m) /\ implements (tstatement a) (on_tx m).
Proof.
  intros Ha. split; intros d before s; unfold act, tstatement, on_tx, on_err, zoom;
    cbn [run_prog]; rewrite Ha; unfold on_shared, own, zoom; simpl; by destruct (m (fs_tx s)).
Qed.

Lemma implements_do a f :
  (forall d before s, perform a (fs_tx s : STx) (share d before s) = (tt, (fs_tx (f s), share d before (f s)))) ->
  implements (tdo a) (modify f).
Proof. intros Ha d before s. unfold tdo. cbn [run_prog]. by rewrite Ha. Qed.

Lemma implements_metrics f : implements (tdo (AMetrics f)) (modify (upd_metrics f)).
Proof. by apply implements_do. Qed.

Lemma implements_cache f : implements (tdo (ACache f)) (modify (upd_cache f)).
Proof. by apply implements_do. Qed.

Lemma implements_sleep ms : implements (tdo (ASleep ms)) (modify (sleep ms)).
Proof. by apply implements_do. Qed.

Lemma implements_respond c r : implements (tdo (ARespond c r)) (modify (respond c r)).
Proof.
  apply implements_do. intros d before s. simpl. unfold share. simpl. by rewrite app_assoc.
Qed.

#[local] Hint Resolve implements_lift implements_bind implements_attempt implements_metrics
  implements_cache implements_sleep implements_respond : bank.

Lemma note_conflict_implements agg : implements (note_conflict_task agg) (note_conflict agg).
Proof. unfold note_conflict_task, note_conflict. auto with bank. Qed.

Lemma conflict_implements {A} agg e :
  implements (note_conflict_task agg ;>> tthrow e : task A) (note_conflict agg ;;; throw e).
Proof.
  apply implements_bind; [ apply note_conflict_implements |]. intros _. apply (implements_lift (Err e)).
Qed.

Lemma insert_attempt_implements again again' agg ev last events :
  (forall e, implements (again e) (again' e)) ->
  implements (insert_attempt_task again agg ev last events)
    (insert_attempt again' agg ev last events).
Proof.
  intros Hagain. unfold insert_attempt_task, insert_attempt.
  apply implements_bind; [ by apply implements_statement |]. intros rows.
  apply implements_bind; [ apply implements_lift |]. intros row.
  destruct (negb _); [ apply conflict_implements |].
  apply implements_bind; [ apply implements_lift |]. intros _.
  apply implements_bind; [ apply implements_attempt; by apply implements_statement |].
  intros [e | u]; [| auto with bank ].
  destruct e as [| code constraint | msg]; try apply (implements_lift (Err _)).
  destruct (_ && _); [ apply conflict_implements |].
  destruct (is_transient_error code); [ done | apply (implements_lift (Err _)) ].
Qed.

Lemma insert_loop_implements left delay agg ev last events :
  implements (insert_loop_task left delay agg ev last events)
    (insert_loop left delay agg ev last events).
Proof.
  revert delay. induction left as [| left IH]; intros delay; simpl;
    apply insert_attempt_implements; intros e.
  - apply (implements_lift (Err _)).
  - apply implements_bind; [ auto with bank | intros _; apply IH ].
Qed.

Lemma bulk_insert_implements events :
  implements (bulk_insert_task events) (bulk_insert_events_optimized events).
Proof.
  destruct events as [| first rest]; [ apply (implements_lift (Ok tt)) |].
  apply implements_bind; [ by apply implements_statement | intros _; apply insert_loop_implements ].
Qed.

Lemma validate_all_implements events :
  implements (validate_all_task events) (validate_all events).
Proof.
  induction events as [| event rest IH]; simpl; [ apply (implements_lift (Ok None)) |].
  destruct (negb _); [| done ].
  apply implements_bind; [ auto with bank | intros _; apply (implements_lift (Ok _)) ].
Qed.

Lemma handle_all_implements events :
  implements (handle_all_task event_handlers events) (handle_all event_handlers events).
Proof.
  induction events as [| event rest IH]; simpl; [ apply (implements_lift (Ok None)) |].
  apply implements_bind; [ apply implements_attempt, implements_lift |].
  intros [e | u]; [| done ].
  apply implements_bind; [ auto with bank | intros _; apply (implements_lift (Ok _)) ].
Qed.

Lemma flush_one_implements b :
  implements (flush_one_task b) (flush_one new_v4 now event_handlers b).
Proof.
  unfold flush_one_task, flush_one. set (ed := prepare_events_for_insert_optimized _ _ _).
  apply implements_bind; [ apply validate_all_implements |]. intros v.
  apply implements_bind.
  { destruct v; [ apply (implements_lift (Ok None)) | apply handle_all_implements ]. }
  intros h. apply implements_bind.
  { destruct v; [ apply (implements_lift (Ok _)) |]. destruct h; [ apply (implements_lift (Ok _)) |].
    apply implements_attempt, bulk_insert_implements. }
  intros [e | u]; auto with bank.
Qed.

Lemma flush_loop_implements batch :
  implements (flush_loop_task batch) (flush_loop new_v4 now event_handlers batch).
Proof.
  induction batch as [| b batch IH]; simpl; [ apply (implements_lift (Ok tt)) |].
  apply implements_bind; [ apply flush_one_implements | intros _; exact IH ].
Qed.

(** A program run step by step. *)
Lemma task_steps_running n k tx (p : task unit) sh :
  within n p ->
  let '(r, (tx', sh')) := run_prog p tx sh in
  exists k', (k <= k')%nat /\
    task_steps (n + k) (Running tx p) sh = task_steps k' (Running tx' (Done r)) sh'.
Proof.
  intros Hp. revert tx sh. induction Hp as [n r | n X a f _ IH]; intros tx sh; simpl.
  - exists (n + k)%nat. split; [ lia | done ].
  - destruct (perform a _ _) as [x [tx' sh']]. apply IH.
Qed.

Lemma task_steps_finished n r sh : task_steps n (returned r) sh = (returned r, sh).
Proof. induction n as [| n IH]; [ done |]. by destruct r. Qed.

Lemma task_steps_finish n t sh r sh' :
  (1 <= n)%nat -> task_step t sh = (returned r, sh') -> task_steps n t sh = (returned r, sh').
Proof.
  intros Hn Hs. destruct n as [| n]; [ lia |]. cbn [task_steps]. rewrite Hs. apply task_steps_finished.
Qed.

(** The two models of the flush agree: a task that nobody interrupts ends, within
    the bound on its steps, as [EventStore.flush_batch] ends, with the same table,
    metrics, version cache and responses. *)
Theorem flush_task_alone batch sh n :
  (2 + length batch * request_actions <= n)%nat ->
  let o := flush_batch new_v4 now event_handlers batch (sh_db sh) (sh_metrics sh)
             (sh_version_cache sh) in
  task_steps n (Spawned batch) sh
    = (returned (fo_result o),
       {| sh_db := fo_db o; sh_metrics := fo_metrics o; sh_version_cache := fo_version_cache o;
          sh_responses := sh_responses sh ++ fo_responses o |}).
Proof.
  intros Hn. cbv zeta. unfold flush_batch.
  destruct n as [| n]; [ lia |]. cbn [task_steps task_step].
  change (s_begin (sh_db sh)) with (db_begin (sh_db sh)).
  destruct (db_begin (sh_db sh)) as [[tx | e | |] d1];
    [| rewrite task_steps_finished; simpl; by rewrite app_nil_r .. ].
  set (s0 := {| fs_tx := tx |}).
  pose proof (task_steps_running _ (n - length batch * request_actions) tx _ (put_db d1 sh)
                (within_flush_loop batch)) as Hrun.
  pose proof (flush_loop_implements batch d1 (sh_responses sh) s0) as Himpl.
  assert (share d1 (sh_responses sh) s0 = put_db d1 sh) as Hshare
    by (unfold share, put_db; simpl; by rewrite app_nil_r).
  rewrite Hshare in Himpl. change (fs_tx s0) with tx in Himpl. rewrite Himpl in Hrun.
  destruct (flush_loop _ _ _ _ s0) as [r s]. destruct Hrun as (k & Hk & Hsteps).
  replace (length batch * request_actions + (n - length batch * request_actions))%nat with n in Hsteps by lia.
  rewrite Hsteps. apply task_steps_finish; [ lia |].
  destruct r as [[] | | |]; simpl; try done.
  by destruct (tx_commit (fs_tx s) d1) as [c d2].
Qed.

End Alone.
End Tasks.

(** ** A shared table that satisfies the laws

    Transactions take their snapshot at their first query, see their own rows,
    are checked against the index by every INSERT and once more by COMMIT, and
    refuse every statement after an error. *)
Module Mvcc.

Record transaction : Type := {
  x_snapshot : option nat;
  x_pending : list EventRow;
  x_aborted : bool
}.

Definition refused : SqlxError := PgDatabaseError "25P02" None.

Definition statement {A} (k : transaction -> list EventRow -> res SqlxError A * transaction)
  : M (transaction * list EventRow) SqlxError A :=
  fun c =>
    if x_aborted c.1 then (Err refused, c)
    else let '(r, x) := k c.1 c.2 in (r, (x, c.2)).

Definition abort (x : transaction) : transaction :=
  {| x_snapshot := x_snapshot x; x_pending := x_pending x; x_aborted := true |}.

Definition view_length (x : transaction) (d : list EventRow) : nat := default (length d) (x_snapshot x).

Definition set_serializable : M (transaction * list EventRow) SqlxError unit :=
  statement (fun x d =>
    match x_snapshot x with
    | Some _ => (Err (PgDatabaseError "25001" None), abort x)
    | None => (Ok tt, x)
    end).

Definition select_last (agg : Uuid) : M (transaction * list EventRow) SqlxError (list (option Z)) :=
  statement (fun x d =>
    (Ok (last_version_rows agg (take (view_length x d) d ++ x_pending x)),
     {| x_snapshot := Some (view_length x d); x_pending := x_pending x; x_aborted := false |})).

Definition free (new rows : list EventRow) : Prop :=
  Forall (fun r => row_key r ∉ map row_key rows) new.

#[export] Instance free_dec new rows : Decision (free new rows).
Proof. unfold free. apply _. Defined.

Definition insert_rows (new : list EventRow) : M (transaction * list EventRow) SqlxError unit :=
  statement (fun x d =>
    if decide (NoDup (map row_key new) /\ free new (d ++ x_pending x))
    then (Ok tt, {| x_snapshot := Some (view_length x d); x_pending := x_pending x ++ new;
                    x_aborted := false |})
    else (Err (PgDatabaseError "23505" (Some "unique_aggregate_id_version")), abort x)).

#[export] Instance shared_db : SharedDb := {|
  SDb := list EventRow;
  STx := transaction;
  s_begin := fun d => (Ok {| x_snapshot := None; x_pending := []; x_aborted := false |}, d);
  s_set_serializable := set_serializable;
  s_select_last_version := select_last;
  s_insert_events := insert_rows;
  s_commit := fun x d =>
    if x_aborted x then (Ok tt, d)
    else if decide (free (x_pending x) d) then (Ok tt, d ++ x_pending x)
    else (Err (PgDatabaseError "40001" None), d);
  s_rollback := fun _ d => d
|}.

Lemma last_version_taken agg rows row :
  row ∈ last_version_rows agg rows -> exists v, row = Some v /\ (agg, v) ∈ map row_key rows.
Proof.
  unfold last_version_rows. destruct (max_version agg rows) as [v |] eqn:Hmax; intros Hrow.
  - apply list_elem_of_singleton in Hrow as ->. exists v. split; [ done |].
    destruct (max_version_elem _ _ _ Hmax) as (r & Hr & <- & <-).
    apply list_elem_of_In, (in_map row_key), list_elem_of_In, Hr.
  - by apply not_elem_of_nil in Hrow.
Qed.

Lemma keys_take n (d p : list EventRow) key :
  key ∈ map row_key (take n d ++ p) -> key ∈ map row_key (d ++ p).
Proof.
  rewrite !map_app, !elem_of_app. intros [Hk | Hk]; [ left | by right ].
  rewrite <- (take_drop n d), map_app. apply elem_of_app. by left.
Qed.

#[export] Instance shared_laws : SharedDbLaws.
Proof.
  refine {| committed := fun d : @SDb shared_db => d : list EventRow;
            pending := fun x : @STx shared_db => x_pending x |}; simpl.
  - done.
  - intros d tx d' Hb. by simplify_eq.
  - intros [x d]. unfold set_serializable, statement. simpl. by repeat case_match; simplify_eq/=.
  - intros agg [x d]. unfold select_last, statement. simpl. by repeat case_match; simplify_eq/=.
  - intros agg [x d] vs c' Hs row Hrow. unfold select_last, statement in Hs. simpl in Hs.
    destruct (x_aborted x); simplify_eq/=.
    destruct (last_version_taken _ _ _ Hrow) as (v & -> & Hv). exists v. split; [ done |].
    by eapply keys_take.
  - intros new [x d]. unfold insert_rows, statement. simpl. by repeat case_match; simplify_eq/=.
  - intros new [x d] c' Hs. unfold insert_rows, statement in Hs. simpl in Hs.
    destruct (x_aborted x); simplify_eq/=. destruct (decide _) as [[_ Hfree] |]; simplify_eq/=.
    split; [ done |]. by apply Forall_forall.
  - intros new [x d] Hs. unfold insert_rows, statement in *. simpl in *.
    by repeat case_match; simplify_eq/=.
  - intros x d. repeat case_match; simplify_eq/=; auto.
  - done.
Defined.

#[export] Instance shared_answers : SharedDbAnswers.
Proof.
  split; simpl; [ done | intros [x d] | intros agg [x d] | intros new [x d] | intros x d ];
    unfold set_serializable, select_last, insert_rows, statement; simpl;
    by repeat case_match; simplify_eq/=.
Qed.

End Mvcc.

(** ** Witnesses: two tasks overlap on one aggregate while another process
    appends an event to it *)
Module TasksWitness.
Import ScaleZero PlainSerde StoreWitness Mvcc.

Definition sys_task_step := run_task_step ids clock (∅ : gmap string (list EventHandler)).

(** A schedule, executed. *)
Definition exec1 (l : label) (s : Sys) : option Sys :=
  match l with
  | LSpawn b => if decide (Forall (fun r => be_events r <> []) b) then Some (spawn b s) else None
  | LTask i => match sy_tasks s !! i with Some t => Some (sys_task_step i t s) | None => None end
  | LOther rows =>
      Some {| sy_shared := put_db (sh_db (sy_shared s) ++ rows : @SDb shared_db) (sy_shared s);
              sy_tasks := sy_tasks s; sy_spawned := sy_spawned s;
              sy_foreign := sy_foreign s ++ rows |}
  end.

Fixpoint exec (ls : list label) (s : Sys) : option Sys :=
  match ls with
  | [] => Some s
  | l :: ls => match exec1 l s with Some s' => exec ls s' | None => None end
  end.

Definition final (ls : list label) (s : Sys) : Sys := default s (exec ls s).

Lemma exec_run ls s : bool_decide (is_Some (exec ls s)) = true -> sys_run ids clock ∅ ls s (final ls s).
Proof.
  unfold final. intros Hx%bool_decide_eq_true. revert s Hx. induction ls as [| l ls IH]; intros s Hx; simpl in *; [ constructor |].
  destruct (exec1 l s) as [s1 |] eqn:H1; [| by destruct Hx ]. specialize (IH s1 Hx).
  destruct (exec ls s1) as [s2 |]; [| by destruct Hx ]. econstructor; [| exact IH ].
  destruct l as [b | i | rows]; simpl in H1; repeat case_match; simplify_eq; by econstructor.
Defined.

Definition deposit (channel : nat) (expected : Z) : BatchedEvent :=
  request channel expected [EvMoneyDeposited 1%N (amt 5) 9%N].

Definition foreign_row : EventRow :=
  {| er_id := 77%N; er_aggregate_id := 1%N; er_event_type := "MoneyDeposited";
     er_event_data := VNull; er_version := 3; er_timestamp := 0; er_metadata := VNull |}.

(** Both tasks are inside their transaction when the other process commits;
    the first has read version 2, the second reads version 3. *)
Definition schedule : list label :=
  [LSpawn [deposit 1 1]; LTask 0; LTask 0; LTask 0; LSpawn [deposit 2 1]; LTask 1; LTask 1;
   LOther [foreign_row]] ++ repeat (LTask 1) 20 ++ repeat (LTask 0) 20.

Definition before : @SDb shared_db := rows.

Definition begun : Sys := start_sys before EventStoreMetrics_new ∅.

Definition ended : Sys := final schedule begun.

Lemma ended_run : sys_run ids clock ∅ schedule begun ended.
Proof. apply exec_run. reflexivity. Defined.

(** The INSERT of the first task repeats the key it has read; the second task
    finds a version it does not expect. *)
Example ended_responses :
  sh_responses (sy_shared ended)
    = [(2, Err (OptimisticConcurrencyConflict 1%N 2 (Some 3%Z)));
       (1, Err (OptimisticConcurrencyConflict 1%N 2 (Some 2%Z)))]%nat.
Proof. vm_compute. reflexivity. Qed.

Lemma interleaved_flushes_save_nothing_witness :
  Forall (fun p => is_ok p.2 = false) (sh_responses (sy_shared ended)) /\
  committed (sh_db (sy_shared ended)) ≡ₚ rows ++ [foreign_row].
Proof. exact (interleaved_flushes_save_nothing ids clock ∅ before EventStoreMetrics_new ∅ schedule ended ended_run). Defined.

Lemma interleaved_flushes_answer_once_witness :
  map fst (sh_responses (sy_shared ended)) ≡ₚ [1; 2]%nat.
Proof.
  apply (interleaved_flushes_answer_once ids clock ∅ before EventStoreMetrics_new ∅ schedule ended ended_run).
  change (sy_tasks ended) with [Finished (Ok tt); Finished (Ok tt)] at 1.
  repeat constructor; by exists tt.
Defined.

(** A request alone: twenty steps are enough. *)
Definition one_spawned : Sys := spawn [deposit 1 1] begun.

Definition twenty_turns : list label := repeat (LTask 0) 20.

Lemma flush_task_ends_witness :
  exists r, sy_tasks (final twenty_turns one_spawned) !! 0%nat = Some (Finished r) /\ answered r.
Proof.
  apply (flush_task_ends ids clock ∅) with (ls := twenty_turns) (s := one_spawned) (batch := [deposit 1 1]).
  - intros event. unfold handle_event. by rewrite lookup_empty.
  - apply shared_answers.
  - apply exec_run. reflexivity.
  - reflexivity.
  - vm_compute. lia.
Defined.

End TasksWitness.

(** The batch of [StoreWitness], run to its end over the table of [EventsDb]. *)
Module AloneWitness.
Import ScaleZero PlainSerde TableDb StoreWitness.
#[local] Existing Instance alone.

Definition shared : Shared :=
  {| sh_db := table; sh_metrics := EventStoreMetrics_new; sh_version_cache := ∅; sh_responses := [] |}.

Lemma flush_task_alone_witness :
  (task_steps ids clock ∅ 50 (Spawned batch) shared).1 = Finished (fo_result outcome).
Proof. rewrite (flush_task_alone ids clock ∅ batch shared 50); [ reflexivity | vm_compute; lia ]. Defined.

End AloneWitness.
