(* ===== verification/StoreHealth.v ===== *)
(** The retry helper and the health report of the event store
    (src/src/infrastructure/event_store.rs: [with_retry], [RetryConfig],
    [health_check], [pool_stats], and the trait [EventStoreExt] with its
    implementation).

    [with_retry] runs any operation; its state is the operation's and the delays
    slept, in nanoseconds, and it recurses on the retries left.  The pool's
    counters and the query on pg_stat_activity are parameters. *)
From S2P Require Import Prelude.
From S2P Require Import DecimalSpec.
From S2P Require Import Account.
From S2P Require Import Codec.
From S2P Require Import EventsDb.
From S2P Require Import EventStore.
From S2P Require Import EventStoreFacts.
From S2P Require Import BatchProcessor.
From stdpp Require Import base tactics list gmap strings pretty.
From Stdlib Require Import ZArith Lia SpecFloat.

(** ** Durations, in nanoseconds *)
Definition second : Z := 1000000000.

(** [Duration::as_secs_f64]. *)
Definition as_secs_f64 (d : Z) : f64 :=
  f64_add (f64_of_u64 (d / second)) (f64_div (f64_of_u64 (d mod second)) (f64_of_u64 second)).

(** [Duration::from_secs_f64]: rounds to the nearest nanosecond, panics on what is
    negative, not a number or too large. *)
Definition from_secs_f64 {E} (f : f64) : res E Z :=
  match f with
  | S754_zero _ => Ok 0%Z
  | S754_finite false m e =>
      let n := scaled_round second m e in
      if (n <? 2 ^ 64 * second)%Z then Ok n else Panic
  | S754_finite true _ _ | S754_infinity _ | S754_nan => Panic
  end.

(** ** Retrying *)
Record RetryConfig : Type := {
  rc_max_retries : Z;
  rc_initial_delay : Z;
  rc_max_delay : Z;
  rc_backoff_factor : f64
}.

Definition RetryConfig_default : RetryConfig :=
  {| rc_max_retries := 3; rc_initial_delay := 100000000; rc_max_delay := 5 * second;
     rc_backoff_factor := f64_of_u64 2 |}.

Section Retry.
Context {S E A : Type} `{!Display E} (operation : M S E A) (config : RetryConfig).

(** The next delay. *)
Definition next_delay (delay : Z) : res string Z :=
  let? d := from_secs_f64 (f64_mul (as_secs_f64 delay) (rc_backoff_factor config)) in
  Ok (Z.min d (rc_max_delay config)).

Definition slept (d : Z) (s : S * list Z) : S * list Z := (fst s, snd s ++ [d]).

(** The loop: [left] retries are left, [retries] are done. *)
Fixpoint retry_loop (left : nat) (retries delay : Z) : M (S * list Z) string A :=
  let! result := attempt (zoom fst (fun s p => (s, snd p)) operation) in
  match (result : E + A) with
  | inr a => ret a
  | inl e =>
      match left with
      | O => throw ("Operation failed after " +:+ pretty retries +:+ " retries: " +:+ to_string e)
      | Datatypes.S left' =>
          modify (slept delay) ;;;
          let! delay' := lift (next_delay delay) in
          retry_loop left' (retries + 1) delay'
      end
  end.

(** [EventStore::with_retry]. *)
Definition with_retry : M (S * list Z) string A :=
  retry_loop (Z.to_nat (rc_max_retries config)) 0 (rc_initial_delay config).

(** [n] runs of the operation in a row that all fail. *)
Inductive failures : nat -> S -> S -> Prop :=
| no_failure s : failures 0 s s
| one_failure n s e s1 s2 : operation s = (Err e, s1) -> failures n s1 s2 -> failures (Datatypes.S n) s s2.

(** How a run ends after [n] failures, with [left] retries allowed: with the first
    success, or with the error of the last run. *)
Definition ends (left n : nat) (retries : Z) (s1 s' : S) (r : res string A) : Prop :=
  (exists a, r = Ok a /\ n <= left /\ operation s1 = (Ok a, s')) \/
  (exists e, r = Err ("Operation failed after " +:+ pretty (retries + Z.of_nat left)%Z +:+ " retries: "
                        +:+ to_string e) /\ n = left /\ operation s1 = (Err e, s')).

Lemma ends_later left n retries s1 s' r :
  ends left n (retries + 1) s1 s' r -> ends (Datatypes.S left) (Datatypes.S n) retries s1 s' r.
Proof.
  intros [ (a & -> & Hn & Hop) | (e & -> & -> & Hop) ]; [ left; eauto with lia | right ].
  exists e. split_and!; [| done.. ]. do 4 f_equal. lia.
Qed.

Lemma next_delay_bound d d' : next_delay d = Ok d' -> (d' <= rc_max_delay config)%Z.
Proof. unfold next_delay. destruct (from_secs_f64 _); intros; simplify_eq/=. lia. Qed.

Lemma next_delay_no_err d e : next_delay d <> Err e.
Proof. unfold next_delay, from_secs_f64. repeat case_match; done. Qed.

Lemma retry_loop_runs left retries delay s ds r s' ds' :
  retry_loop left retries delay (s, ds) = (r, (s', ds')) -> r <> Panic -> r <> Hang ->
  exists s1 waits, failures (length waits) s s1 /\ ds' = ds ++ waits /\
    Forall (fun d => (d <= Z.max delay (rc_max_delay config))%Z) waits /\
    ends left (length waits) retries s1 s' r.
Proof.
  revert retries delay s ds. induction left as [| left IH]; intros retries delay s ds Hrun Hp Hh;
    simpl in Hrun; unfold bind, attempt, zoom, ret, throw, lift in Hrun; simpl in Hrun;
    destruct (operation s) as [ [a | e | | ] s1] eqn:Hop; simplify_eq/=; try congruence.
  - exists s, []. rewrite app_nil_r. split_and!; [ constructor | done | done | left; eauto ].
  - exists s, []. rewrite app_nil_r. split_and!; [ constructor | done | done | right ].
    exists e. by rewrite Z.add_0_r.
  - exists s, []. rewrite app_nil_r. split_and!; [ constructor | done | done | left; exists a; simpl; split_and!; lia || done ].
  - destruct (next_delay delay) as [d | e' | | ] eqn:Hd; simplify_eq/=;
      [| by apply next_delay_no_err in Hd | congruence.. ].
    destruct (IH _ _ _ _ Hrun Hp Hh) as (s2 & waits & Hf & -> & Hall & Hr).
    apply next_delay_bound in Hd. exists s2, (delay :: waits). rewrite <- app_assoc.
    split_and!; [ by econstructor | done | | by apply ends_later ].
    constructor; [ lia |]. eapply Forall_impl; [ exact Hall |]. intros x Hx; cbv beta in *; lia.
Qed.

(** A retried operation is run until it first succeeds, at most [max_retries]
    times more than once: success is the answer of the first run that succeeds,
    failure means that all [max_retries + 1] runs failed and reports the last
    error; there is one wait before each further run, and no wait is longer
    than the larger of the initial and the maximal delay. *)
Theorem with_retry_runs_until_success s r s' ds :
  with_retry (s, []) = (r, (s', ds)) -> r <> Panic -> r <> Hang ->
  Forall (fun d => (d <= Z.max (rc_initial_delay config) (rc_max_delay config))%Z) ds /\
  exists s1, failures (length ds) s s1 /\
    ends (Z.to_nat (rc_max_retries config)) (length ds) 0 s1 s' r.
Proof.
  intros Hrun Hp Hh. destruct (retry_loop_runs _ _ _ _ _ _ _ _ Hrun Hp Hh) as (s1 & waits & Hf & -> & Hall & Hr).
  eauto.
Qed.

End Retry.

(** With the default settings an operation that keeps failing is run four times,
    after waits of 100, 200 and 400 milliseconds. *)
Definition always_failing : M nat string unit := fun n => (Err "down", S n).

Example default_retries :
  @with_retry _ _ _ (fun e => e) always_failing RetryConfig_default (0, []) =
    (Err "Operation failed after 3 retries: down", (4, [100000000; 200000000; 400000000]%Z)).
Proof. vm_compute. reflexivity. Qed.

Lemma with_retry_runs_until_success_witness :
  exists s1, failures always_failing 3 0 s1 /\
    @ends _ _ _ (fun e => e) always_failing 3 3 0 s1 4 (Err "Operation failed after 3 retries: down").
Proof.
  destruct (@with_retry_runs_until_success _ _ _ (fun e => e) always_failing RetryConfig_default 0
              (Err "Operation failed after 3 retries: down") 4 [100000000; 200000000; 400000000]%Z)
    as [_ Hend]; [ exact default_retries | discriminate | discriminate |].
  exact Hend.
Defined.

(** ** The health report *)
Record EventStoreHealth : Type := {
  eh_database_status : string;
  eh_total_connections : Z;
  eh_idle_connections : Z;
  eh_cache_size : nat;
  eh_batch_queue_permits : nat;
  eh_metrics : EventStoreMetrics;
  eh_batch_queue_metrics : string;
  eh_health_check_duration : Z
}.

(** The row of the query on pg_stat_activity. *)
Record Activity : Type := {
  active_connections : Z;
  idle_connections : Z;
  active_queries : Z;
  idle_transactions : Z
}.

Section Health.
Context `{SerdeOps} `{EventsDb}.
Context `{!Display SqlxError, !Display SerdeError}.
Context (pool_size pool_num_idle : Db -> Z) (db_activity : M Db SqlxError Activity).

(** [EventStore::pool_stats]; [num_idle] is a [usize] read as a [u32]. *)
Definition pool_stats (s : EventStore) : Z * Z := (pool_size (es_pool s), wrap_u32 (pool_num_idle (es_pool s))).

Definition database_status (row : SqlxError + Activity) : string :=
  match row with
  | inr a =>
      "healthy (active: " +:+ pretty (active_connections a) +:+ ", idle: " +:+ pretty (idle_connections a)
        +:+ ", queries: " +:+ pretty (active_queries a) +:+ ", idle_tx: " +:+ pretty (idle_transactions a) +:+ ")"
  | inl e => "unhealthy: " +:+ to_string e
  end.

(** [used_permits]: a subtraction of [usize]. *)
Definition used_permits (s : EventStore) : Z :=
  wrap_u64 (Z.of_nat (cfg_max_batch_queue_size (es_config s)) - Z.of_nat (es_batch_semaphore s)).

Definition queue_status (used total : Z) : string :=
  "Queue: " +:+ pretty used +:+ "/" +:+ pretty total +:+ " permits used ("
    +:+ fixed 1 (f64_mul (f64_div (f64_of_u64 used) (f64_of_u64 total)) (f64_of_u64 100)) +:+ "% utilization)".

(** [EventStore::health_check]; [elapsed] is how long it took. *)
Definition health_check (elapsed : Z) : M EventStore EventStoreError EventStoreHealth :=
  let! stats := gets pool_stats in
  let! row := attempt (zoom es_pool put_pool db_activity) in
  let! s := gets (fun s => s) in
  ret {| eh_database_status := database_status row;
         eh_total_connections := fst stats; eh_idle_connections := snd stats;
         eh_cache_size := size (es_snapshot_cache s); eh_batch_queue_permits := es_batch_semaphore s;
         eh_metrics := get_metrics s;
         eh_batch_queue_metrics :=
           queue_status (used_permits s) (Z.of_nat (cfg_max_batch_queue_size (es_config s)));
         eh_health_check_duration := elapsed |}.

(** The health report is truthful about the queue: in every state the batch
    processor of a fresh store can reach, it reports as used exactly the permits
    of the requests in flight; a database that fails makes the report unhealthy
    and never makes it fail. *)
Theorem health_report_counts_in_flight new_v4 now pool config p elapsed row :
  reachable_from new_v4 now (new_with_config_and_pool pool config) p ->
  (Z.of_nat (cfg_max_batch_queue_size config) <= u64_max)%Z ->
  fst (db_activity (es_pool (bp_store p))) = match row with inr a => Ok a | inl e => Err e end ->
  exists h, fst (health_check elapsed (bp_store p)) = Ok h /\
    eh_batch_queue_metrics h =
      queue_status (Z.of_nat (length (in_flight p))) (Z.of_nat (cfg_max_batch_queue_size config)) /\
    eh_database_status h = database_status row.
Proof.
  intros Hr Hmax Ha. destruct (reachable_inv _ _ _ _ Hr) as [Hc _ _ Hfl _ _ _ _]. simpl in Hc, Hfl.
  unfold health_check, bind, attempt, zoom, gets, ret. simpl.
  destruct (db_activity (es_pool (bp_store p))) as [answer d]. simpl in Ha. subst answer.
  destruct row as [e | a]; simpl; eexists; (split; [ reflexivity |]); simpl; (split; [| done ]);
    unfold used_permits; simpl; rewrite Hc, wrap_u64_id by (unfold in_u64; lia); f_equal; lia.
Qed.

(** ** [EventStoreExt] *)

(** The trait; a call that draws identifiers or times takes them as arguments. *)
Record EventStoreExt : Type := {
  ext_save_events_with_priority :
    (nat -> nat -> Uuid) -> (nat -> nat -> Z) -> nat -> Z ->
    Uuid -> list AccountEvent -> Z -> EventPriority -> M EventStore EventStoreError unit;
  ext_update_version : Uuid -> Z -> M EventStore EventStoreError unit;
  ext_health_check : Z -> M EventStore EventStoreError EventStoreHealth;
  ext_get_metrics : EventStore -> EventStoreMetrics;
  ext_pool_stats : EventStore -> Z * Z
}.

(** [impl EventStoreExt for EventStore]. *)
Definition event_store_ext : EventStoreExt := {|
  ext_save_events_with_priority := save_events_with_priority;
  ext_update_version := update_version;
  ext_health_check := health_check;
  ext_get_metrics := get_metrics;
  ext_pool_stats := pool_stats
|}.

(** A request of another priority. *)
Definition with_priority (p : EventPriority) (b : BatchedEvent) : BatchedEvent :=
  {| be_aggregate_id := be_aggregate_id b; be_events := be_events b;
     be_expected_version := be_expected_version b; be_response_tx := be_response_tx b;
     be_created_at := be_created_at b; be_priority := p |}.

Lemma flush_loop_priority new_v4 now handlers p batch s :
  flush_loop new_v4 now handlers (map (with_priority p) batch) s = flush_loop new_v4 now handlers batch s.
Proof.
  revert s. induction batch as [| b batch IH]; intros s; simpl; [ done |]. unfold bind.
  change (flush_one new_v4 now handlers (with_priority p b)) with (flush_one new_v4 now handlers b).
  destruct (flush_one new_v4 now handlers b s) as [[] s1]; auto.
Qed.

(** The priority of a request decides nothing: a batch is flushed the same
    whatever the priorities of its requests, and a save through the trait is the
    plain save. *)
Theorem priority_is_ignored new_v4 now handlers batch d metrics versions p :
  flush_batch new_v4 now handlers (map (with_priority p) batch) d metrics versions
    = flush_batch new_v4 now handlers batch d metrics versions /\
  (forall channel at_ id events expected s,
     ext_save_events_with_priority event_store_ext new_v4 now channel at_ id events expected p s
       = save_events new_v4 now channel at_ id events expected s).
Proof.
  split.
  - unfold flush_batch. destruct (db_begin d) as [[tx | | |] d1]; try done. by rewrite flush_loop_priority.
  - intros channel at_ id events expected s. by destruct events.
Qed.

End Health.

Module HealthWitness.
Import ScaleZero PlainSerde TableDb StoreWitness ProcessorWitness.

(** The run of [ProcessorWitness], one request of which is in flight, with a
    database that refuses the query. *)
Definition refused : M Db SqlxError Activity := fun d => (Err RowNotFound, d).

Lemma health_report_counts_in_flight_witness :
  exists h, fst (health_check (fun _ => 5%Z) (fun _ => 1%Z) refused 7 (bp_store p6)) = Ok h /\
    eh_batch_queue_metrics h = "Queue: 1/1000 permits used (0.1% utilization)".
Proof.
  destruct (health_report_counts_in_flight (fun _ => 5%Z) (fun _ => 1%Z) refused ids clock table
              default_in_memory_for_tests p6 7 (inl RowNotFound)) as (h & Hh & Hq & _);
    [ exact p6_reachable | vm_compute; discriminate | reflexivity |].
  exists h. split; [ exact Hh |]. rewrite Hq. vm_compute. reflexivity.
Defined.

End HealthWitness.
