(* ===== verification/Repository.v ===== *)
(** The repository (src/src/infrastructure/repository.rs) and the interface to
    the event store it is written against ([EventStoreTrait],
    src/src/infrastructure/event_store.rs).

    [EventStoreTrait] and [AccountRepositoryTrait] are the source's traits.
    [EventStoreContract] says what a client of the store relies on, on the
    histories the store holds; [RepositoryContract] the same one level up.
    [repository_contract] derives the second from the first, and
    [event_store_contract] shows that the event store keeps the first. *)
From S2P Require Import Prelude.
From S2P Require Import DecimalSpec.
From S2P Require Import Account.
From S2P Require Import Codec.
From S2P Require Import EventsDb.
From S2P Require Import EventStore.
From S2P Require Import EventStoreFacts.
From stdpp Require Import base tactics list functions gmap strings.
From Stdlib Require Import ZArith Lia.

(** The histories of all accounts. *)
Definition Log `{DecimalOps} : Type := Uuid -> list AccountEvent.

Definition append `{DecimalOps} (id : Uuid) (es : list AccountEvent) (L : Log) : Log :=
  fun id' => if decide (id' = id) then L id ++ es else L id'.

(** [Account::default()] with its identifier set: where every replay starts. *)
Definition blank `{DecimalOps} (id : Uuid) : Account := set_id id (Account_default id).

Section Repository.
Context `{SerdeOps}.
Context `{!Display SqlxError, !Display SerdeError}.

(** ** The store's trait *)
Class EventStoreTrait : Type := {
  Store : Type;
  st_save_events : Uuid -> list AccountEvent -> Z -> M Store EventStoreError unit;
  st_get_events : Uuid -> option Z -> M Store EventStoreError (list Event);
  st_get_current_version : Uuid -> M Store EventStoreError Z;
  st_get_account : Uuid -> M Store EventStoreError (option Account);
  st_get_all_accounts : M Store EventStoreError (list Account)
}.

(** What its clients rely on: [holds s L] when the store's histories are [L].
    A read gives the history in order, numbered from 1, and a save that reports success has
    appended the events to a history of the expected length; what fails
    changes nothing. *)
Class EventStoreContract `{EventStoreTrait} : Type := {
  holds : Store -> Log -> Prop;
  get_events_sound : forall s L id evs s',
    holds s L -> st_get_events id None s = (Ok evs, s') ->
    map ev_event_data evs = map event_to_value (L id);
  get_events_versions : forall s L id evs s',
    holds s L -> st_get_events id None s = (Ok evs, s') -> (Z.of_nat (length (L id)) <= i64_max)%Z ->
    map ev_version evs = seqZ 1 (Z.of_nat (length (L id)));
  get_events_keeps : forall s L id from,
    holds s L -> holds (snd (st_get_events id from s)) L;
  save_events_sound : forall s L id es v s',
    holds s L -> es <> [] -> st_save_events id es v s = (Ok tt, s') ->
    v = Z.of_nat (length (L id)) /\ holds s' (append id es L);
  save_events_keeps : forall s L id es v,
    holds s L -> es = [] \/ is_ok (fst (st_save_events id es v s)) = false ->
    holds (snd (st_save_events id es v s)) L
}.

(** ** The repository *)
Inductive RepositoryError : Type :=
| RepoNotFound (id : Uuid)
| RepoVersionConflict (expected actual : Z)
| RepoInfrastructureError (e : string).

Record RepoCacheEntry : Type := {
  rce_data : Account;
  rce_created_at : Z;
  rce_last_accessed : Z;
  rce_version : Z
}.

Record RepositoryMetrics : Type := {
  rm_cache_hits : Z;
  rm_cache_misses : Z;
  rm_batch_flushes : Z;
  rm_events_processed : Z;
  rm_errors : Z
}.

Record AccountRepository `{EventStoreTrait} : Type := {
  repo_event_store : Store;
  repo_pending_events : gmap Uuid (list AccountEvent);
  repo_account_cache : gmap Uuid RepoCacheEntry;
  repo_flush_interval_ms : Z;
  repo_metrics : RepositoryMetrics
}.

(** The methods of [AccountRepositoryTrait] the application calls, and those
    the repository leaves unimplemented. *)
Class AccountRepositoryTrait : Type := {
  Repo : Type;
  rp_create_account : string -> Decimal -> M Repo EventStoreError Account;
  rp_get_account : Uuid -> M Repo EventStoreError (option Account);
  rp_deposit_money : Uuid -> Decimal -> M Repo EventStoreError Account;
  rp_withdraw_money : Uuid -> Decimal -> M Repo EventStoreError Account;
  rp_save_immediate : Account -> list AccountEvent -> M Repo EventStoreError unit;
  rp_save : Account -> list AccountEvent -> M Repo EventStoreError unit;
  rp_get_by_id : Uuid -> M Repo AccountError (option Account);
  rp_save_batched : Uuid -> Z -> list AccountEvent -> M Repo EventStoreError unit;
  rp_flush_all : M Repo EventStoreError unit
}.

Class RepositoryContract `{AccountRepositoryTrait} : Type := {
  rholds : Repo -> Log -> Prop;
  get_by_id_sound : forall r L id o r',
    rholds r L -> rp_get_by_id id r = (Ok o, r') ->
    match o with
    | None => L id = []
    | Some a => L id <> [] /\ apply_events (blank id) (L id) = Some a
    end;
  get_by_id_keeps : forall r L id, rholds r L -> rholds (snd (rp_get_by_id id r)) L;
  save_sound : forall r L a es r',
    rholds r L -> es <> [] -> rp_save a es r = (Ok tt, r') ->
    acc_version a = Z.of_nat (length (L (acc_id a))) /\ rholds r' (append (acc_id a) es L);
  save_keeps : forall r L a es,
    rholds r L -> is_ok (fst (rp_save a es r)) = false -> rholds (snd (rp_save a es r)) L
}.

Section Implementation.
Context `{EventStoreTrait}.

(** [AccountRepository::new]. *)
Definition AccountRepository_new (event_store : Store) : AccountRepository :=
  {| repo_event_store := event_store; repo_pending_events := ∅; repo_account_cache := ∅;
     repo_flush_interval_ms := 50;
     repo_metrics := {| rm_cache_hits := 0; rm_cache_misses := 0; rm_batch_flushes := 0;
                        rm_events_processed := 0; rm_errors := 0 |} |}.

Definition put_store (s : Store) (r : AccountRepository) : AccountRepository :=
  {| repo_event_store := s; repo_pending_events := repo_pending_events r;
     repo_account_cache := repo_account_cache r;
     repo_flush_interval_ms := repo_flush_interval_ms r; repo_metrics := repo_metrics r |}.

Definition on_store {A} (m : M Store EventStoreError A) : M AccountRepository EventStoreError A :=
  zoom repo_event_store put_store m.

(** [AccountRepository::save]. *)
Definition save (account : Account) (events : list AccountEvent)
  : M AccountRepository EventStoreError unit :=
  on_store (st_save_events (acc_id account) events (acc_version account)).

(** [AccountRepository::get_by_id], with the identifier [Account::default] draws. *)
Definition get_by_id (new_v4 id : Uuid) : M AccountRepository AccountError (option Account) :=
  let! stored_events :=
    on_err (fun e => InfrastructureError ("Event store error: " +:+ to_string e))
      (on_store (st_get_events id None)) in
  match stored_events with
  | [] => ret None
  | _ :: _ =>
      let account := set_id id (Account_default new_v4) in
      let! account :=
        lift (map_err (fun e => InfrastructureError ("Deserialization error: " +:+ to_string e))
                (replay account (map ev_event_data stored_events))) in
      ret (Some account)
  end.

(** [AccountRepositoryTrait::save_immediate], [save_batched] and [flush_all]. *)
Definition save_immediate (account : Account) (events : list AccountEvent)
  : M AccountRepository EventStoreError unit :=
  on_store (st_save_events (acc_id account) events (acc_version account)).

Definition save_batched (account_id : Uuid) (expected_version : Z) (events : list AccountEvent)
  : M AccountRepository EventStoreError unit :=
  on_store (st_save_events account_id events expected_version).

Definition flush_all : M AccountRepository EventStoreError unit := ret tt.

(** [unimplemented!()]. *)
Definition unimplemented {A} : M AccountRepository EventStoreError A := lift Panic.

#[local] Instance account_repository (new_v4 : Uuid) : AccountRepositoryTrait := {
  Repo := AccountRepository;
  rp_create_account := fun _ _ => unimplemented;
  rp_get_account := fun _ => unimplemented;
  rp_deposit_money := fun _ _ => unimplemented;
  rp_withdraw_money := fun _ _ => unimplemented;
  rp_save_immediate := save_immediate;
  rp_save := save;
  rp_get_by_id := get_by_id new_v4;
  rp_save_batched := save_batched;
  rp_flush_all := flush_all
}.

(** ** The repository keeps its contract over any store that keeps its own *)
Context `{!SerdeLaws} `{!EventStoreContract}.

Lemma get_by_id_value new_v4 id r L o r' :
  holds (repo_event_store r) L -> get_by_id new_v4 id r = (Ok o, r') ->
  match o with
  | None => L id = []
  | Some a => L id <> [] /\ apply_events (blank id) (L id) = Some a
  end.
Proof.
  intros Hh Hget. unfold get_by_id in Hget.
  apply bind_ok in Hget as (evs & r1 & Hevs%on_err_ok & Hk).
  unfold on_store, zoom in Hevs. destruct (st_get_events id None _) as [re s1] eqn:Hs. simplify_eq.
  pose proof (get_events_sound _ _ _ _ _ Hh Hs) as Hdata.
  destruct evs as [| e evs].
  { unfold ret in Hk; simplify_eq. by destruct (L id). }
  apply bind_ok in Hk as (a & r2 & Ha & Hk). unfold ret in Hk; simplify_eq.
  unfold lift in Ha. rewrite Hdata, replay_encoded in Ha. simplify_eq.
  split; [ by intros Hnil; rewrite Hnil in Hdata |].
  unfold blank, set_id, Account_default in *. simpl in *. by destruct (apply_events _ _); simplify_eq/=.
Qed.

Lemma get_by_id_store new_v4 id r :
  repo_event_store (snd (get_by_id new_v4 id r)) = snd (st_get_events id None (repo_event_store r)).
Proof.
  unfold get_by_id, on_err, on_store, zoom, bind, lift, ret.
  destruct (st_get_events id None _) as [[evs | e | | ] s1]; simpl; try done.
  destruct evs as [| e evs]; simpl; [ done |]. by destruct (map_err _ _).
Qed.

#[local] Instance repository_contract (new_v4 : Uuid) :
  @RepositoryContract (account_repository new_v4).
Proof.
  refine {| rholds := fun (r : @Repo (account_repository new_v4)) L => holds (repo_event_store r) L |}.
  - intros r L id o r' Hh Hget. exact (get_by_id_value new_v4 id r L o r' Hh Hget).
  - intros r L id Hh. simpl. rewrite get_by_id_store. by apply get_events_keeps.
  - simpl. intros r L a es r' Hh Hne Hs. unfold save, on_store, zoom in Hs.
    destruct (st_save_events _ _ _ _) as [x s1] eqn:Hsave. simplify_eq. simpl.
    by eapply save_events_sound.
  - simpl. intros r L a es Hh Hno. unfold save, on_store, zoom in *.
    pose proof (save_events_keeps (repo_event_store r) L (acc_id a) es (acc_version a) Hh) as Hk.
    destruct (st_save_events _ _ _ _) as [x s1] eqn:Hsave. simpl in *. auto.
Defined.

End Implementation.

(** ** The event store behind the trait *)
Section RealStore.
Context `{EventsDb}.
Context (new_v4 : nat -> nat -> Uuid) (now : nat -> nat -> Z) (draw : Uuid) (elapsed : Z).

(** [impl EventStoreTrait for EventStore]. *)
#[local] Instance event_store : EventStoreTrait := {
  Store := EventStore;
  st_save_events := save_events new_v4 now 0 0;
  st_get_events := get_events elapsed;
  st_get_current_version := get_current_version;
  st_get_account := get_account draw elapsed;
  st_get_all_accounts := get_all_accounts draw elapsed
}.

Context `{!EventsDbLaws}.

(** The table holds the histories, each short enough for an [i64] version. *)
Definition table_holds (s : EventStore) (L : Log) : Prop :=
  forall id, history_rows id (L id) (db_rows (es_pool s)) /\
             (Z.of_nat (length (L id)) <= i64_max)%Z.

Lemma get_events_table s id from :
  db_rows (es_pool (snd (get_events elapsed id from s))) = db_rows (es_pool s).
Proof.
  unfold get_events, on_pool, on_err, zoom, bind, modify, ret.
  pose proof (db_select_events_db id (default (-1)%Z from) (es_pool s)) as Hk.
  by destruct (db_select_events _ _ _) as [[] ?].
Qed.

Lemma get_events_history s L id evs s' :
  table_holds s L -> get_events elapsed id None s = (Ok evs, s') ->
  map ev_event_data evs = map event_to_value (L id) /\
  map ev_version evs = seqZ 1 (Z.of_nat (length (L id))).
Proof.
  intros Hh Hget. destruct (Hh id) as [Hrows Hlen].
  unfold get_events, on_pool, on_err, zoom, bind, modify, ret in Hget. cbn [default from_option] in Hget.
  destruct (db_select_events id (-1) (es_pool s)) as [[rows | | | ] d] eqn:Hsel; simplify_eq/=.
  apply db_select_events_ok in Hsel.
  rewrite select_after_all in Hsel by (by eapply history_positive).
  rewrite !map_map, Hsel. exact (history_select_all id _ _ Hlen Hrows).
Qed.

#[local] Instance event_store_contract : @EventStoreContract event_store.
Proof.
  refine {| holds := (table_holds : @Store event_store -> Log -> Prop) |}; simpl.
  - intros s L id evs s' Hh Hget. apply (get_events_history s L id evs s' Hh Hget).
  - intros s L id evs s' Hh Hget _. apply (get_events_history s L id evs s' Hh Hget).
  - intros s L id from Hh id'. rewrite get_events_table. apply Hh.
  - intros s L id es v s' Hh Hne Hs.
    destruct (save_events_refused new_v4 now 0 0 id es v s Hne) as [Hno _]. by rewrite Hs in Hno.
  - intros s L id es v Hh _ id'. destruct es as [| e es]; [ apply Hh |].
    destruct (save_events_refused new_v4 now 0 0 id (e :: es) v s ltac:(done)) as [_ ->]. apply Hh.
Defined.

End RealStore.

End Repository.
