(* ===== verification/Handlers.v ===== *)
(** The command and query handlers (src/src/application/handlers.rs), over any
    repository.

    Every command handler reads an account, decides, and saves with the version
    it read; the theorems are proved against [RepositoryContract], on the
    histories [Log] the repository holds.  [LogStore] is a store in memory that
    keeps [EventStoreContract] and accepts a save with the right version: the
    witnesses run the handlers over it. *)
From S2P Require Import Prelude.
From S2P Require Import DecimalSpec.
From S2P Require Import Account.
From S2P Require Import Codec.
From S2P Require Import EventsDb.
From S2P Require Import EventStore.
From S2P Require Import EventStoreFacts.
From S2P Require Import Repository.
From stdpp Require Import base tactics list functions gmap strings.
From Stdlib Require Import ZArith Lia.

Section Handlers.
Context `{SerdeOps}.
Context `{!Display SqlxError, !Display SerdeError}.
Context `{!AccountRepositoryTrait}.

(** [.map_err(|e| AccountError::InfrastructureError(e.to_string()))]. *)
Definition infrastructure {A} (m : M Repo EventStoreError A) : M Repo AccountError A :=
  on_err (fun e => InfrastructureError (to_string e)) m.

(** [AccountCommandHandler::handle_create_account]; [draw] is the identifier of
    the default account and [tx] the one [handle_command] could draw. *)
Definition handle_create_account (account_id draw tx : Uuid) (owner_name : string)
    (initial_balance : Decimal) : M Repo AccountError Uuid :=
  let command := CreateAccount account_id owner_name initial_balance in
  let! events := lift (handle_command tx (Account_default draw) command) in
  let temp_account_for_save :=
    {| acc_id := account_id; acc_owner_name := ""; acc_balance := dec_zero;
       acc_is_active := false; acc_version := 0 |} in
  infrastructure (rp_save temp_account_for_save events) ;;;
  ret account_id.

(** [self.repository.get_by_id(account_id).await?.ok_or(AccountError::NotFound)?]. *)
Definition load (account_id : Uuid) : M Repo AccountError Account :=
  let! o := rp_get_by_id account_id in
  lift (ok_or NotFound o).

(** [AccountCommandHandler::handle_deposit_money]. *)
Definition handle_deposit_money (tx account_id : Uuid) (amount : Decimal)
  : M Repo AccountError (list AccountEvent) :=
  let! account := load account_id in
  let! events := lift (handle_command tx account (DepositMoney account_id amount)) in
  infrastructure (rp_save account events) ;;;
  ret events.

(** [AccountCommandHandler::handle_withdraw_money]. *)
Definition handle_withdraw_money (tx account_id : Uuid) (amount : Decimal)
  : M Repo AccountError (list AccountEvent) :=
  let! account := load account_id in
  let! events := lift (handle_command tx account (WithdrawMoney account_id amount)) in
  infrastructure (rp_save account events) ;;;
  ret events.

(** [AccountCommandHandler::handle_close_account]. *)
Definition handle_close_account (tx account_id : Uuid) (reason : string)
  : M Repo AccountError (list AccountEvent) :=
  let! account := load account_id in
  let! events := lift (handle_command tx account (CloseAccount account_id reason)) in
  infrastructure (rp_save account events) ;;;
  ret events.

(** [AccountQueryHandler]. *)
Definition get_account_by_id (account_id : Uuid) : M Repo AccountError (option Account) :=
  rp_get_by_id account_id.

Definition get_account_balance (account_id : Uuid) : M Repo AccountError Decimal :=
  let! account := load account_id in ret (acc_balance account).

Definition is_account_active (account_id : Uuid) : M Repo AccountError bool :=
  let! account := load account_id in ret (acc_is_active account).

(** ** The calls of a client *)
Inductive call : Type :=
| CallCreate (account_id : Uuid) (owner_name : string) (initial_balance : Decimal)
| CallDeposit (account_id : Uuid) (amount : Decimal)
| CallWithdraw (account_id : Uuid) (amount : Decimal)
| CallClose (account_id : Uuid) (reason : string).

Definition call_id (c : call) : Uuid :=
  match c with
  | CallCreate id _ _ | CallDeposit id _ | CallWithdraw id _ | CallClose id _ => id
  end.

(** The command a handler makes of its arguments. *)
Definition command_of (c : call) : AccountCommand :=
  match c with
  | CallCreate id owner b => CreateAccount id owner b
  | CallDeposit id amount => DepositMoney id amount
  | CallWithdraw id amount => WithdrawMoney id amount
  | CallClose id reason => CloseAccount id reason
  end.

Definition run_call (draw tx : Uuid) (c : call) : M Repo AccountError unit :=
  match c with
  | CallCreate id owner b => handle_create_account id draw tx owner b ;;; ret tt
  | CallDeposit id amount => handle_deposit_money tx id amount ;;; ret tt
  | CallWithdraw id amount => handle_withdraw_money tx id amount ;;; ret tt
  | CallClose id reason => handle_close_account tx id reason ;;; ret tt
  end.

(** Histories that commands, decided on the account so far, have produced. *)
Inductive valid_history (id : Uuid) : list AccountEvent -> Prop :=
| vh_nil : valid_history id []
| vh_step es a tx c evs :
    valid_history id es -> apply_events (blank id) es = Some a ->
    handle_command tx a c = Ok evs -> valid_history id (es ++ evs).

Definition valid_log (L : Log) : Prop := forall id, valid_history id (L id).

Context `{!DecimalLaws}.

(** ** Lemmas *)
Lemma valid_history_reachable id es a :
  valid_history id es -> apply_events (blank id) es = Some a -> reachable a.
Proof.
  intros Hv. revert a. induction Hv as [| es a tx c evs Hv IH Ha Hc]; intros a' Ha'.
  - simpl in Ha'. simplify_eq. apply reach_default.
  - rewrite apply_events_app, Ha in Ha'. apply (reach_execute a tx c); [ by apply IH |].
    unfold execute. rewrite Hc. simpl. by rewrite Ha'.
Qed.

Lemma handle_command_nonempty tx a c es : handle_command tx a c = Ok es -> es <> [].
Proof. intros Hc. by destruct (handle_command_single _ _ _ _ Hc) as [e ->]. Qed.

Lemma append_valid id es L a tx c :
  valid_log L -> apply_events (blank id) (L id) = Some a -> handle_command tx a c = Ok es ->
  valid_log (append id es L).
Proof.
  intros Hv Ha Hc id'. unfold append. case_decide as Hid; [ subst id' | done ]. by eapply vh_step.
Qed.

Context `{!RepositoryContract}.

Lemma load_sound id r L a r' :
  rholds r L -> load id r = (Ok a, r') ->
  L id <> [] /\ apply_events (blank id) (L id) = Some a /\ rholds r' L.
Proof.
  intros Hh Hl. unfold load in Hl. apply bind_ok in Hl as (o & r1 & Hg & Hk).
  pose proof (get_by_id_sound _ _ _ _ _ Hh Hg) as Hs.
  pose proof (get_by_id_keeps r L id Hh) as Hkeep. rewrite Hg in Hkeep.
  unfold lift, ok_or in Hk. destruct o as [a' |]; simplify_eq. by destruct Hs.
Qed.

Lemma load_keeps id r L : rholds r L -> rholds (snd (load id r)) L.
Proof.
  intros Hh. pose proof (get_by_id_keeps r L id Hh) as Hk. unfold load, bind, lift.
  by destruct (rp_get_by_id id r) as [[] ?].
Qed.

(** The body shared by the handlers of an existing account. *)
Definition handle_existing (tx account_id : Uuid) (command : AccountCommand)
  : M Repo AccountError (list AccountEvent) :=
  let! account := load account_id in
  let! events := lift (handle_command tx account command) in
  infrastructure (rp_save account events) ;;;
  ret events.

Lemma blank_id id : acc_id (blank id) = id.
Proof. done. Qed.

Lemma save_events_ok r L a es r' :
  rholds r L -> es <> [] -> infrastructure (rp_save a es) r = (Ok tt, r') ->
  acc_version a = Z.of_nat (length (L (acc_id a))) /\ rholds r' (append (acc_id a) es L).
Proof. intros Hh Hne Hs%on_err_ok. by apply save_sound with (r := r). Qed.

Lemma save_events_err r L a es :
  rholds r L -> is_ok (fst (infrastructure (rp_save a es) r)) = false ->
  rholds (snd (infrastructure (rp_save a es) r)) L.
Proof.
  intros Hh. pose proof (save_keeps r L a es Hh) as Hk. unfold infrastructure, on_err.
  destruct (rp_save a es r) as [[] ?]; simpl in *; auto.
Qed.

Lemma handle_existing_log tx id c r L :
  rholds r L ->
  match handle_existing tx id c r with
  | (Ok es, r') =>
      exists a, apply_events (blank id) (L id) = Some a /\ handle_command tx a c = Ok es /\
        acc_version a = Z.of_nat (length (L id)) /\ rholds r' (append id es L)
  | (_, r') => rholds r' L
  end.
Proof.
  intros Hh. unfold handle_existing. pose proof (load_keeps id r L Hh) as Hkeep. unfold bind at 1.
  destruct (load id r) as [[a | e | | ] r1] eqn:Hl; simpl in *; try done.
  destruct (load_sound _ _ _ _ _ Hh Hl) as (_ & Ha & _).
  unfold bind at 1, lift. destruct (handle_command tx a c) as [es | e | | ] eqn:Hc; try done.
  pose proof (handle_command_nonempty _ _ _ _ Hc) as Hne.
  pose proof (save_events_err r1 L a es Hkeep) as Herr. unfold bind.
  destruct (infrastructure (rp_save a es) r1) as [[[] | e | | ] r2] eqn:Hs; simpl in *; auto.
  destruct (save_events_ok _ _ _ _ _ Hkeep Hne Hs) as [Hv Hr].
  assert (acc_id a = id) as Hid by (rewrite (apply_events_id _ _ _ Ha); apply blank_id).
  rewrite Hid in *. eauto.
Qed.

Lemma handle_create_log id draw tx owner b r L :
  rholds r L ->
  match handle_create_account id draw tx owner b r with
  | (Ok id', r') =>
      id' = id /\ L id = [] /\
      exists es, handle_command tx (blank id) (CreateAccount id owner b) = Ok es /\
        rholds r' (append id es L)
  | (_, r') => rholds r' L
  end.
Proof.
  intros Hh. unfold handle_create_account, bind at 1, lift.
  destruct (handle_command tx (Account_default draw) _) as [es | e | | ] eqn:Hc; try done.
  pose proof (handle_command_nonempty _ _ _ _ Hc) as Hne.
  set (a := {| acc_id := id |}). pose proof (save_events_err r L a es Hh) as Herr. unfold bind.
  destruct (infrastructure (rp_save a es) r) as [[[] | e | | ] r2] eqn:Hs; simpl in *; auto.
  destruct (save_events_ok _ _ _ _ _ Hh Hne Hs) as [Hv Hr]. simpl in *.
  split_and!; [ done | by destruct (L id) | by exists es ].
Qed.

(** What a call does to the histories, in all its outcomes. *)
Definition call_effect (id : Uuid) (L : Log) (o : res AccountError unit * Repo) : Prop :=
  exists L', rholds (snd o) L' /\ valid_log L' /\
    (if is_ok (fst o) then exists e, L' = append id [e] L else L' = L).

Lemma existing_effect tx id c r L :
  rholds r L -> valid_log L ->
  call_effect id L ((handle_existing tx id c ;;; ret tt) r).
Proof.
  intros Hh Hv. pose proof (handle_existing_log tx id c r L Hh) as Hc. unfold call_effect, bind, ret.
  destruct (handle_existing _ _ _ r) as [[es | e | | ] r']; simpl; eauto.
  destruct Hc as (a & Ha & Hcmd & _ & Hr'). exists (append id es L). split_and!; auto.
  - by eapply append_valid.
  - destruct (handle_command_single _ _ _ _ Hcmd) as [e ->]. eauto.
Qed.

Lemma create_effect id draw tx owner b r L :
  rholds r L -> valid_log L ->
  call_effect id L ((handle_create_account id draw tx owner b ;;; ret tt) r).
Proof.
  intros Hh Hv. pose proof (handle_create_log id draw tx owner b r L Hh) as Hc.
  unfold call_effect, bind, ret.
  destruct (handle_create_account _ _ _ _ _ r) as [[id' | e | | ] r']; simpl; eauto.
  destruct Hc as (-> & Hnil & es & Hcmd & Hr'). exists (append id es L). split_and!; auto.
  - eapply append_valid; eauto. by rewrite Hnil.
  - destruct (handle_command_single _ _ _ _ Hcmd) as [e ->]. eauto.
Qed.

Lemma call_effect_any draw tx c r L :
  rholds r L -> valid_log L -> call_effect (call_id c) L (run_call draw tx c r).
Proof.
  destruct c; [ apply create_effect | apply existing_effect .. ].
Qed.

(** A client session: calls one after the other, whatever they return. *)
Fixpoint run_calls (draw tx : nat -> Uuid) (i : nat) (cs : list call) (r : Repo) : Repo :=
  match cs with
  | [] => r
  | c :: rest => run_calls draw tx (S i) rest (snd (run_call (draw i) (tx i) c r))
  end.

(** ** Properties *)

(** The answer of a handler: the identifier of a new account, or the events. *)
Definition answer_call (draw tx : Uuid) (c : call) : M Repo AccountError (Uuid + list AccountEvent) :=
  match c with
  | CallCreate id owner b => let! id := handle_create_account id draw tx owner b in ret (inl id)
  | CallDeposit id amount => let! es := handle_deposit_money tx id amount in ret (inr es)
  | CallWithdraw id amount => let! es := handle_withdraw_money tx id amount in ret (inr es)
  | CallClose id reason => let! es := handle_close_account tx id reason in ret (inr es)
  end.

(** What a call is meant to record: one event, with the call's own data and the
    transaction identifier it drew. *)
Definition recorded (tx : Uuid) (c : call) : AccountEvent :=
  match c with
  | CallCreate id owner b => EvAccountCreated id owner b
  | CallDeposit id amount => EvMoneyDeposited id amount tx
  | CallWithdraw id amount => EvMoneyWithdrawn id amount tx
  | CallClose id reason => EvAccountClosed id reason
  end.

Definition meant_answer (tx : Uuid) (c : call) : Uuid + list AccountEvent :=
  match c with
  | CallCreate id _ _ => inl id
  | _ => inr [recorded tx c]
  end.

(** When it may: on an account without history a creation with a balance that is
    not negative; on the account [a] its history gives, while it is open, a
    deposit of a positive amount, a withdrawal of a positive amount the balance
    covers, a closing. *)
Definition permitted (c : call) (es : list AccountEvent) : Prop :=
  match c with
  | CallCreate _ _ b => es = [] /\ (0 <= dec_units b)%Z
  | _ =>
      es <> [] /\ exists a, apply_events (blank (call_id c)) es = Some a /\ acc_is_active a = true /\
        match c with
        | CallDeposit _ amount => (0 < dec_units amount)%Z
        | CallWithdraw _ amount => (0 < dec_units amount <= dec_units (acc_balance a))%Z
        | _ => True
        end
  end.

(** What the domain decides for each command, in the units of the amounts. *)
Ltac decided Hc :=
  unfold handle_command in Hc; simpl in Hc; run;
  repeat match goal with
         | Hx : dec_ltb _ _ = false |- _ => rewrite dec_ltb_units in Hx; apply Z.ltb_ge in Hx
         | Hx : dec_leb _ _ = false |- _ => rewrite dec_leb_units in Hx; apply Z.leb_gt in Hx
         end;
  rewrite ?dec_units_zero in *.

Lemma create_decision tx a id owner b es :
  handle_command tx a (CreateAccount id owner b) = Ok es ->
  es = [EvAccountCreated id owner b] /\ (0 <= dec_units b)%Z.
Proof. intros Hc. decided Hc; split; auto; lia. Qed.

Lemma deposit_decision tx id amount a es :
  handle_command tx a (DepositMoney id amount) = Ok es ->
  es = [EvMoneyDeposited id amount tx] /\ acc_is_active a = true /\ (0 < dec_units amount)%Z.
Proof. intros Hc. decided Hc; split_and!; auto; destruct (acc_is_active a); done. Qed.

Lemma withdraw_decision tx id amount a es :
  handle_command tx a (WithdrawMoney id amount) = Ok es ->
  es = [EvMoneyWithdrawn id amount tx] /\ acc_is_active a = true /\
  (0 < dec_units amount <= dec_units (acc_balance a))%Z.
Proof. intros Hc. decided Hc; split_and!; auto; destruct (acc_is_active a); done. Qed.

Lemma close_decision tx id reason a es :
  handle_command tx a (CloseAccount id reason) = Ok es ->
  es = [EvAccountClosed id reason] /\ acc_is_active a = true /\ True.
Proof. intros Hc. decided Hc; split_and!; auto; destruct (acc_is_active a); done. Qed.

Lemma existing_answer tx id c r L e (Q : Account -> Prop) :
  rholds r L ->
  (forall a es, handle_command tx a c = Ok es -> es = [e] /\ acc_is_active a = true /\ Q a) ->
  match (let! es := handle_existing tx id c in ret (inr es : Uuid + _)) r with
  | (Ok ans, r') =>
      ans = inr [e] /\
      (L id <> [] /\ exists a, apply_events (blank id) (L id) = Some a /\ acc_is_active a = true /\ Q a) /\
      rholds r' (append id [e] L)
  | (_, r') => rholds r' L
  end.
Proof.
  intros Hh Hc. pose proof (handle_existing_log tx id c r L Hh) as Hlog. unfold bind at 1.
  destruct (handle_existing tx id c r) as [[es | | |] r'] eqn:Hx; try done.
  destruct Hlog as (a & Ha & Hcmd & _ & Hr'). destruct (Hc a es Hcmd) as (-> & Hact & HQ).
  split; [ done |]. split; [| done ]. split; [| eauto ].
  apply bind_ok in Hx as (a' & r1 & Hl & _). by destruct (load_sound _ _ _ _ _ Hh Hl).
Qed.

(** A permitted command is decided, and a decision the repository takes is
    answered. *)
Lemma permitted_decided tx c es a :
  permitted c es ->
  (is_create (command_of c) = false -> apply_events (blank (call_id c)) es = Some a) ->
  handle_command tx a (command_of c) = Ok [recorded tx c].
Proof.
  unfold handle_command. destruct c as [id owner b | id amount | id amount | id reason]; simpl.
  - intros [_ Hb] _. rewrite andb_false_r, dec_ltb_units, dec_units_zero.
    by rewrite (proj2 (Z.ltb_ge _ _)) by lia.
  - intros (_ & a' & Ha' & Hact & Hm) Ha. specialize (Ha eq_refl). simplify_eq. rewrite Hact, dec_leb_units, dec_units_zero. simpl.
    by rewrite (proj2 (Z.leb_gt _ _)) by lia.
  - intros (_ & a' & Ha' & Hact & Hm) Ha. specialize (Ha eq_refl). simplify_eq.
    rewrite Hact, dec_leb_units, dec_ltb_units, dec_units_zero. simpl.
    by rewrite (proj2 (Z.leb_gt _ _)), (proj2 (Z.ltb_ge _ _)) by lia.
  - intros (_ & a' & Ha' & Hact & _) Ha. specialize (Ha eq_refl). simplify_eq. by rewrite Hact.
Qed.

(** The repository reads the account of a call and takes its event. *)
Definition carried_out (tx : Uuid) (c : call) (r r2 : Repo) : Prop :=
  match c with
  | CallCreate id _ _ => rp_save (blank id) [recorded tx c] r = (Ok tt, r2)
  | _ => exists a r1, rp_get_by_id (call_id c) r = (Ok (Some a), r1) /\
           rp_save a [recorded tx c] r1 = (Ok tt, r2)
  end.

Lemma existing_answered tx id c e r a r1 r2 :
  rp_get_by_id id r = (Ok (Some a), r1) -> handle_command tx a c = Ok [e] ->
  rp_save a [e] r1 = (Ok tt, r2) ->
  (let! es := handle_existing tx id c in ret (inr es : Uuid + _)) r = (Ok (inr [e]), r2).
Proof.
  intros Hg Hc Hs. unfold handle_existing, load, infrastructure, on_err, bind, lift, ok_or, ret.
  by rewrite Hg, Hc, Hs.
Qed.

Lemma permitted_answered draw tx c r r2 L :
  rholds r L -> permitted c (L (call_id c)) -> carried_out tx c r r2 ->
  answer_call draw tx c r = (Ok (meant_answer tx c), r2).
Proof.
  intros Hh Hp Hc.
  assert (forall a r1, rp_get_by_id (call_id c) r = (Ok (Some a), r1) ->
    handle_command tx a (command_of c) = Ok [recorded tx c]) as Hdec.
  { intros a r1 Hg. eapply permitted_decided; [ exact Hp |]. intros _. by destruct (get_by_id_sound _ _ _ _ _ Hh Hg). }
  destruct c as [id owner b | id amount | id amount | id reason]; simpl in *.
  2-4: destruct Hc as (a & r1 & Hg & Hs); by apply (existing_answered _ _ _ _ _ a r1 r2 Hg (Hdec _ _ Hg)).
  assert (handle_command tx (Account_default draw) (CreateAccount id owner b) = Ok [EvAccountCreated id owner b]) as Hcmd.
  { by apply (permitted_decided tx (CallCreate id owner b) (L id)). }
  unfold handle_create_account, infrastructure, on_err, bind, lift, ret. rewrite Hcmd.
  change {| acc_id := id |} with (blank id). by rewrite Hc.
Qed.

(** C4. What a command handler records is its own decision.  When it succeeds,
    its command was permitted on the account that replaying the history gives,
    the history has grown by exactly the event the call is meant to record, with
    the call's account, amount, owner or reason, and the answer is that event (or
    the new identifier); in every other outcome of the reads and writes below it
    the histories are as they were.  And it does succeed when the command is
    permitted and the repository reads the account and takes the event. *)
Theorem handler_call_records_its_decision draw tx c r L :
  rholds r L ->
  (match answer_call draw tx c r with
   | (Ok ans, r') =>
       ans = meant_answer tx c /\ permitted c (L (call_id c)) /\
       rholds r' (append (call_id c) [recorded tx c] L)
   | (_, r') => rholds r' L
   end) /\
  (forall r2, permitted c (L (call_id c)) -> carried_out tx c r r2 ->
     answer_call draw tx c r = (Ok (meant_answer tx c), r2)).
Proof.
  intros Hh. split; [| intros r2 Hp Hc; by apply (permitted_answered _ _ _ _ _ L) ].
  destruct c as [id owner b | id amount | id amount | id reason]; simpl.
  - pose proof (handle_create_log id draw tx owner b r L Hh) as Hlog. unfold bind, ret.
    destruct (handle_create_account id draw tx owner b r) as [[id' | | |] r']; try done.
    destruct Hlog as (-> & Hnil & es & Hcmd & Hr'). apply create_decision in Hcmd as [-> Hb]. auto.
  - exact (existing_answer tx id _ r L _ _ Hh (deposit_decision tx id amount)).
  - exact (existing_answer tx id _ r L _ (fun a => 0 < dec_units amount <= dec_units (acc_balance a))%Z
             Hh (withdraw_decision tx id amount)).
  - exact (existing_answer tx id _ r L _ (fun _ => True) Hh (close_decision tx id reason)).
Qed.

(** No session of command-handler calls overdraws an account: afterwards
    every account a query returns has a balance of at least zero. *)
Theorem sessions_never_overdraw draw tx cs r L id a r' :
  rholds r L -> valid_log L ->
  get_account_by_id id (run_calls draw tx 0 cs r) = (Ok (Some a), r') ->
  (0 <= dec_units (acc_balance a))%Z.
Proof.
  generalize 0%nat. intros i. revert i r L.
  induction cs as [| c cs IH]; simpl; intros i r L Hh Hv Hget.
  - destruct (get_by_id_sound _ _ _ _ _ Hh Hget) as [_ Ha].
    apply reachable_nonneg. by apply (valid_history_reachable id (L id)).
  - destruct (call_effect_any (draw i) (tx i) c r L Hh Hv) as (L' & Hh' & Hv' & _). by eapply IH.
Qed.

(** The queries answer from the history: balance and activity are those of
    the account replaying it gives, an account without history is not found, and
    no query changes a history. *)
Theorem queries_answer_from_history id r L :
  rholds r L ->
  (forall b r', get_account_balance id r = (Ok b, r') ->
     option_map acc_balance (apply_events (blank id) (L id)) = Some b /\ rholds r' L) /\
  (forall x r', is_account_active id r = (Ok x, r') ->
     option_map acc_is_active (apply_events (blank id) (L id)) = Some x /\ rholds r' L) /\
  (forall r', get_account_balance id r = (Err NotFound, r') ->
     is_ok (fst (rp_get_by_id id r)) = true -> L id = []).
Proof.
  intros Hh. split_and!.
  - intros b r' (a & r1 & Hl & Hk)%bind_ok. unfold ret in Hk; simplify_eq.
    destruct (load_sound _ _ _ _ _ Hh Hl) as (_ & Ha & Hr). by rewrite Ha.
  - intros x r' (a & r1 & Hl & Hk)%bind_ok. unfold ret in Hk; simplify_eq.
    destruct (load_sound _ _ _ _ _ Hh Hl) as (_ & Ha & Hr). by rewrite Ha.
  - intros r' Hb Hok. unfold get_account_balance, load, bind, lift, ret in Hb.
    destruct (rp_get_by_id id r) as [[o | e | | ] r1] eqn:Hg; try done.
    pose proof (get_by_id_sound _ _ _ _ _ Hh Hg) as Hs. by destruct o.
Qed.

End Handlers.

(** ** A store in memory that keeps the contract *)
Module LogStore.
Section LogStore.
Context `{SerdeOps}.

#[local] Abbreviation memory := (gmap Uuid (list AccountEvent)).

Definition stored (m : memory) (id : Uuid) : list AccountEvent := default [] (m !! id).

Definition log_save (id : Uuid) (es : list AccountEvent) (v : Z) : M memory EventStoreError unit :=
  fun m =>
    match es with
    | [] => (Ok tt, m)
    | _ :: _ =>
        if (v =? Z.of_nat (length (stored m id)))%Z
        then (Ok tt, <[id := stored m id ++ es]> m)
        else (Err (conflict id v (Z.of_nat (length (stored m id)))), m)
    end.

Definition log_events (id : Uuid) (from : option Z) : M memory EventStoreError (list Event) :=
  gets (fun m =>
    let all := prepare_loop N.of_nat Z.of_nat id 0 0 (stored m id) in
    match from with
    | None => all
    | Some v => filter (fun e => (v < ev_version e)%Z) all
    end).

#[export] Instance log_store : EventStoreTrait := {
  Store := memory;
  st_save_events := log_save;
  st_get_events := log_events;
  st_get_current_version := fun id => gets (fun m => Z.of_nat (length (stored m id)));
  st_get_account := fun id => gets (fun m =>
    match stored m id with [] => None | es => apply_events (blank id) es end);
  st_get_all_accounts := gets (fun m =>
    omap (fun id => apply_events (blank id) (stored m id)) (map fst (map_to_list m)))
}.

Lemma prepare_loop_data id v i (es : list AccountEvent) :
  map ev_event_data (prepare_loop N.of_nat Z.of_nat id v i es) = map event_to_value es.
Proof. revert v i. induction es as [| e es IH]; intros v i; simpl; [ done |]. by rewrite IH. Qed.

Lemma stored_append m id es id' :
  stored (<[id := stored m id ++ es]> m) id' = append id es (stored m) id'.
Proof.
  unfold stored, append. case_decide as Hid; [ subst; by rewrite lookup_insert_eq |].
  by rewrite lookup_insert_ne.
Qed.

#[export] Instance log_contract : @EventStoreContract _ _ log_store.
Proof.
  refine {| holds := (fun m L => forall id, L id = stored m id) : @Store _ log_store -> Log -> Prop |};
    simpl.
  - intros m L id evs m' Hh Hg. unfold log_events, gets in Hg. simplify_eq.
    rewrite Hh. apply prepare_loop_data.
  - intros m L id evs m' Hh Hg Hlen. unfold log_events, gets in Hg. simplify_eq.
    rewrite Hh in *. apply prepare_loop_spec; lia.
  - intros m L id from Hh. exact Hh.
  - intros m L id es v m' Hh Hne Hs. unfold log_save in Hs. destruct es as [| e es]; [ done |].
    destruct (Z.eqb_spec v (Z.of_nat (length (stored m id)))) as [Hv |]; simplify_eq.
    split; [ by rewrite Hh |]. intros id'. rewrite stored_append. unfold append. by rewrite !Hh.
  - intros m L id es v Hh Hno. unfold log_save in *. destruct es as [| e es]; [ done |].
    destruct (_ =? _)%Z; [| done ]. by destruct Hno.
Defined.

End LogStore.
End LogStore.

(** ** Witnesses: sessions over the store in memory *)
Module HandlersWitness.
Import ScaleZero PlainSerde StoreWitness LogStore.

Definition memory0 : gmap Uuid (list AccountEvent) := {[ 1%N := opening ]}.

#[export] Instance repo_trait : AccountRepositoryTrait := account_repository 5%N.

#[export] Instance repo_contract : RepositoryContract := repository_contract 5%N.

Definition repo : Repo := AccountRepository_new (memory0 : @Store _ log_store).

Definition log0 : Log := stored memory0.

(** The account of the history. *)
Definition alice : Account := AccountWitness.alice_at (amt 150) 2.

Lemma log0_held : rholds repo log0.
Proof. intros id. reflexivity. Defined.

Lemma log0_valid : valid_log log0.
Proof.
  intros id. unfold log0, stored, memory0. destruct (decide (id = 1%N)) as [-> | Hne].
  - rewrite lookup_singleton_eq. simpl. unfold opening.
    apply (vh_step 1%N [EvAccountCreated 1%N "alice" (amt 100)] (AccountWitness.alice_at 100 1) 7%N
             (DepositMoney 1%N (amt 50))); [| reflexivity | reflexivity ].
    apply (vh_step 1%N [] (blank 1%N) 7%N (CreateAccount 1%N "alice" (amt 100)));
      [ constructor | reflexivity | reflexivity ].
  - rewrite lookup_singleton_ne by done. constructor.
Defined.

Lemma handler_call_records_its_decision_witness :
  permitted (CallWithdraw 1%N (amt 30)) (log0 1%N) /\
  rholds (snd (answer_call 3%N 8%N (CallWithdraw 1%N (amt 30)) repo))
    (append 1%N [EvMoneyWithdrawn 1%N (amt 30) 8%N] log0).
Proof.
  pose proof (proj1 (handler_call_records_its_decision 3%N 8%N (CallWithdraw 1%N (amt 30)) repo log0 log0_held)) as Hw.
  exact (proj2 Hw).
Defined.

Definition session : list call :=
  [CallWithdraw 1%N (amt 30); CallWithdraw 1%N (amt 130); CallCreate 2%N "bob" (amt 10);
   CallClose 1%N "bye"; CallDeposit 1%N (amt 5)].

Lemma sessions_never_overdraw_witness :
  (0 <= dec_units (amt 120))%Z.
Proof.
  apply (sessions_never_overdraw
           N.of_nat N.of_nat session repo log0 1%N
           {| acc_id := 1%N; acc_owner_name := "alice"; acc_balance := amt 120;
              acc_is_active := false; acc_version := 4 |}
           (run_calls N.of_nat N.of_nat 0 session repo));
    first [ exact log0_held | exact log0_valid | reflexivity ].
Defined.

Lemma queries_answer_from_history_witness :
  option_map acc_balance (apply_events (blank 1%N) (log0 1%N)) = Some (amt 150).
Proof.
  apply (proj1 (queries_answer_from_history
                  1%N repo log0 log0_held) (amt 150) repo).
  reflexivity.
Defined.

End HandlersWitness.
