(* ===== verification/Concurrency.v ===== *)
(** Command handlers that run at the same time
    (src/src/application/handlers.rs).

    A handler awaits the repository twice, to read the account and to save its
    events, and other handlers run in between.  [begin_call] and [finish_call]
    are the two halves of a call of [Handlers], [System] is the repository with
    the calls in progress, and [step] interleaves them.  [serial] is the abstract
    specification: calls that happen one at a time, each whole.  The theorems
    are proved against [RepositoryContract]. *)
From S2P Require Import Prelude.
From S2P Require Import DecimalSpec.
From S2P Require Import Account.
From S2P Require Import Codec.
From S2P Require Import EventsDb.
From S2P Require Import EventStore.
From S2P Require Import EventStoreFacts.
From S2P Require Import Repository.
From S2P Require Import Handlers.
From stdpp Require Import base tactics list relations functions gmap strings.
From Stdlib Require Import ZArith Lia.

Section Concurrency.
Context `{SerdeOps}.
Context `{!Display SqlxError, !Display SerdeError}.
Context `{!AccountRepositoryTrait}.

(** ** The two halves of a handler *)
(** Up to the save: the account saved for and the events decided. *)
Definition begin_call (draw tx : Uuid) (c : call) : M Repo AccountError (Account * list AccountEvent) :=
  match c with
  | CallCreate id _ _ =>
      let! events := lift (handle_command tx (Account_default draw) (command_of c)) in
      ret ({| acc_id := id; acc_owner_name := ""; acc_balance := dec_zero;
              acc_is_active := false; acc_version := 0 |}, events)
  | _ =>
      let! account := load (call_id c) in
      let! events := lift (handle_command tx account (command_of c)) in
      ret (account, events)
  end.

(** The save. *)
Definition finish_call (p : Account * list AccountEvent) : M Repo AccountError unit :=
  infrastructure (rp_save (fst p) (snd p)).

(** A call of [Handlers] is its halves, one after the other. *)
Lemma run_call_halves draw tx c r :
  run_call draw tx c r = (let! p := begin_call draw tx c in finish_call p) r.
Proof.
  destruct c as [ id owner b | id amount | id amount | id reason ];
    cbn [run_call begin_call call_id command_of];
    unfold handle_create_account, handle_deposit_money, handle_withdraw_money, handle_close_account,
      finish_call, bind, lift, ret.
  1: by destruct (handle_command _ _ _); simpl; try destruct (infrastructure _ r) as [ [ [] | | | ] ].
  all: destruct (load id r) as [ [a | | | ] r1]; try done;
    destruct (handle_command _ _ _); simpl; try destruct (infrastructure _ r1) as [ [ [] | | | ] ]; done.
Qed.

(** ** Calls in progress *)
Inductive progress : Type :=
| Waiting (c : call)
| Saving (c : call) (account : Account) (events : list AccountEvent)
| Answered (c : call) (answer : res AccountError unit).

Record System : Type := {
  sys_repo : Repo;
  sys_calls : list progress
}.

Definition start (r : Repo) : System := {| sys_repo := r; sys_calls := [] |}.

Definition after_begin (c : call) (r : res AccountError (Account * list AccountEvent)) : progress :=
  match r with
  | Ok (account, events) => Saving c account events
  | Err e => Answered c (Err e)
  | Panic => Answered c Panic
  | Hang => Answered c Hang
  end.

(** A call arrives, runs its first half, or runs its second half and answers. *)
Inductive step : System -> System -> Prop :=
| step_arrive c s : step s {| sys_repo := sys_repo s; sys_calls := sys_calls s ++ [Waiting c] |}
| step_begin i c draw tx s o r' :
    sys_calls s !! i = Some (Waiting c) -> begin_call draw tx c (sys_repo s) = (o, r') ->
    step s {| sys_repo := r'; sys_calls := <[i := after_begin c o]> (sys_calls s) |}
| step_finish i c account events s answer r' :
    sys_calls s !! i = Some (Saving c account events) ->
    finish_call (account, events) (sys_repo s) = (answer, r') ->
    step s {| sys_repo := r'; sys_calls := <[i := Answered c answer]> (sys_calls s) |}.

(** ** One call at a time *)

(** The account a call decides on when the histories are [L]. *)
Definition sees (L : Log) (c : call) (a : Account) : Prop :=
  match c with
  | CallCreate id _ _ => a = blank id
  | _ => L (call_id c) <> [] /\ apply_events (blank (call_id c)) (L (call_id c)) = Some a
  end.

(** The call succeeds on [L] and leaves [L']. *)
Definition succeeds (L : Log) (c : call) (L' : Log) : Prop :=
  exists tx a es, sees L c a /\ handle_command tx a (command_of c) = Ok es /\
    (if is_create (command_of c) then L (call_id c) = [] else True) /\ L' = append (call_id c) es L.

(** The call is refused with [e] on [L]. *)
Definition refused (L : Log) (c : call) (e : AccountError) : Prop :=
  (exists tx a, sees L c a /\ handle_command tx a (command_of c) = Err e) \/
  (L (call_id c) = [] /\ e = NotFound).

Inductive serial : Log -> list call -> Log -> Prop :=
| serial_nil L : serial L [] L
| serial_snoc L cs L1 c L2 : serial L cs L1 -> succeeds L1 c L2 -> serial L (cs ++ [c]) L2.

(** Why a call failed: the repository failed, or it was refused at a moment of
    the serial execution [done] of [L0]. *)
Definition explained (L0 : Log) (done : list call) (c : call) (e : AccountError) : Prop :=
  (exists r, fst (rp_get_by_id (call_id c) r) = Err e) \/
  (exists m, e = InfrastructureError m) \/
  (exists cs L, cs `prefix_of` done /\ serial L0 cs L /\ refused L c e).

Context `{!DecimalLaws} `{!RepositoryContract}.

(** The system is where the serial execution of the calls [done] leads: they are
    the calls answered with success, each once, and every failure is explained. *)
Record serialised (L0 : Log) (s : System) (done : list (nat * call)) (L : Log) : Prop := {
  ser_holds : rholds (sys_repo s) L;
  ser_serial : serial L0 (done.*2) L;
  ser_once : NoDup (done.*1);
  ser_done : forall i c, (i, c) ∈ done <-> sys_calls s !! i = Some (Answered c (Ok tt));
  ser_failed : forall i c e, sys_calls s !! i = Some (Answered c (Err e)) -> explained L0 (done.*2) c e
}.

(** ** The simulation *)

(** The state of a call that waits for its save: it was decided on a history that
    has since only grown. *)
Definition decided_before (L : Log) (p : progress) : Prop :=
  match p with
  | Saving c a es =>
      exists tx L1, (forall id, L1 id `prefix_of` L id) /\ sees L1 c a /\
        handle_command tx a (command_of c) = Ok es
  | _ => True
  end.

Definition simulated (L0 : Log) (s : System) (done : list (nat * call)) (L : Log) : Prop :=
  serialised L0 s done L /\ forall i p, sys_calls s !! i = Some p -> decided_before L p.

Lemma append_prefix id es L id' : L id' `prefix_of` append id es L id'.
Proof. unfold append. case_decide; subst; [ by apply prefix_app_r | done ]. Qed.

Lemma serial_grows L cs L' id :
  serial L cs L' -> L id `prefix_of` L' id /\ length (L' id) <= length (L id) + length cs.
Proof.
  induction 1 as [L | L cs L1 c L2 _ [IHp IHl] (tx & a & es & _ & Hc & _ & ->) ]; [ split; [ done | lia ] |].
  split; [ etransitivity; [ exact IHp | apply append_prefix ] |].
  destruct (handle_command_single _ _ _ _ Hc) as [e ->]. unfold append.
  case_decide; subst; rewrite ?length_app; simpl in *; lia.
Qed.

Lemma sees_id L c a : sees L c a -> acc_id a = call_id c.
Proof. destruct c; simpl; [ by intros -> | intros [_ Ha]; by rewrite (apply_events_id _ _ _ Ha) .. ]. Qed.

(** A decision saved with the version it was taken on was taken on the history as
    it is. *)
Lemma sees_still L1 L c a :
  sees L1 c a -> (forall id, L1 id `prefix_of` L id) -> (Z.of_nat (length (L (call_id c))) <= i64_max)%Z ->
  acc_version a = Z.of_nat (length (L (call_id c))) ->
  sees L c a /\ (if is_create (command_of c) then L (call_id c) = [] else True).
Proof.
  intros Hs Hgrow Hmax Hv. destruct c; simpl in *;
    [ subst; split; [ done | by apply nil_length_inv; simpl in Hv; lia ] | .. ];
    (destruct Hs as [Hne Ha]; split; [| done ]; destruct (Hgrow account_id) as [more Hmore];
     assert (in_i64 (acc_version (blank account_id))) as Hz by (unfold in_i64, i64_max; simpl; lia);
     rewrite (apply_events_version _ _ _ Hz Ha), Hmore, length_app in Hv; rewrite Hmore, length_app in Hmax;
     simpl in Hv; rewrite wrap_i64_id in Hv by (unfold in_i64, i64_max in *; lia);
     assert (more = []) as -> by (apply nil_length_inv; lia); rewrite Hmore, app_nil_r; done).
Qed.

Lemma begin_call_outcome draw tx c r L o r' :
  rholds r L -> begin_call draw tx c r = (o, r') ->
  rholds r' L /\
  match o with
  | Ok (a, es) => sees L c a /\ handle_command tx a (command_of c) = Ok es
  | Err e => (exists r, fst (rp_get_by_id (call_id c) r) = Err e) \/ refused L c e
  | _ => True
  end.
Proof.
  intros Hh. unfold begin_call. destruct (decide (is_create (command_of c))) as [Hcr | Hcr].
  - destruct c; try done. unfold bind, lift, ret.
    destruct (handle_command _ _ _) as [es | e | | ] eqn:Hc; intros; simplify_eq; split; try done.
    right. left. exists tx, (blank account_id). done.
  - intros Hb. assert ((let! account := load (call_id c) in
      let! events := lift (handle_command tx account (command_of c)) in ret (account, events)) r = (o, r')) as Hr
      by (destruct c; [ by destruct Hcr | exact Hb .. ]). clear Hb.
    assert (forall a, L (call_id c) <> [] -> apply_events (blank (call_id c)) (L (call_id c)) = Some a -> sees L c a)
      as Hsees by (destruct c; [ by destruct Hcr | done .. ]).
    pose proof (load_keeps (call_id c) r L Hh) as Hk. unfold bind, lift, ret in Hr.
    destruct (load (call_id c) r) as [ [a | e | | ] r1] eqn:Hl; simpl in Hk; simplify_eq; try done.
    + destruct (load_sound _ _ _ _ _ Hh Hl) as (Hne & Ha & _).
      destruct (handle_command tx a _) as [es | e | | ] eqn:Hc; simplify_eq; split; auto.
      right. left. eauto.
    + split; [ done |]. unfold load, bind, lift, ok_or in Hl. destruct (rp_get_by_id _ r) as [ [x | e' | | ] r2] eqn:Hg; simplify_eq.
      * destruct x; simplify_eq. right. right. split; [| done ].
        exact (get_by_id_sound _ _ _ _ _ Hh Hg).
      * left. exists r. by rewrite Hg.
Qed.


Lemma done_within L0 s done L : serialised L0 s done L -> length done <= length (sys_calls s).
Proof.
  intros [_ _ Hnd Hd _].
  assert (length done = length (done.*1)) as -> by (by rewrite length_fmap).
  assert (length (sys_calls s) = length (seq 0 (length (sys_calls s)))) as -> by (by rewrite length_seq).
  apply submseteq_length, NoDup_submseteq; [ exact Hnd |].
  intros i ((j, c) & -> & Hin%Hd)%list_elem_of_fmap. apply lookup_lt_Some in Hin.
  apply elem_of_seq. simpl. lia.
Qed.

(** Replacing a call that had no answer yet by [p]. *)
Lemma replaced_answer s i p0 p j c o :
  sys_calls s !! i = Some p0 -> (forall c' o', p0 <> Answered c' o') ->
  <[i := p]> (sys_calls s) !! j = Some (Answered c o) <->
  (j = i /\ p = Answered c o) \/ (j <> i /\ sys_calls s !! j = Some (Answered c o)).
Proof.
  intros Hi Hp0. pose proof (lookup_lt_Some _ _ _ Hi) as Hlt. destruct (decide (j = i)) as [-> | Hne].
  - rewrite list_lookup_insert_eq by done. naive_solver.
  - rewrite list_lookup_insert_ne by done. naive_solver.
Qed.

Lemma explained_later L0 done more c e : explained L0 done c e -> explained L0 (done ++ more) c e.
Proof.
  intros [Hr | [Hm | (cs & L & Hp & Hs & Hr)]]; [ by left | by right; left | right; right ].
  exists cs, L. split_and!; [ by apply prefix_app_r | done | done ].
Qed.

Lemma decided_later L L' p : (forall id, L id `prefix_of` L' id) -> decided_before L p -> decided_before L' p.
Proof.
  intros Hgrow. destruct p as [ | c a es | ]; [ done | | done ].
  intros (tx & L1 & Hg & Hs & Hc). exists tx, L1. split_and!; [| done.. ]. intros id. etransitivity; [ apply Hg | apply Hgrow ].
Qed.

(** A call that answers without success, or goes on to its save, takes no effect. *)
Lemma silent_step L0 s done L i p0 p r' :
  simulated L0 s done L -> sys_calls s !! i = Some p0 -> (forall c o, p0 <> Answered c o) -> rholds r' L ->
  decided_before L p -> (forall c, p <> Answered c (Ok tt)) ->
  (forall c e, p = Answered c (Err e) -> explained L0 (done.*2) c e) ->
  simulated L0 {| sys_repo := r'; sys_calls := <[i := p]> (sys_calls s) |} done L.
Proof.
  intros [ [Hh Hser Hnd Hd Hf] Hdec] Hi Hp0 Hr Hp Hno Herr.
  pose proof (lookup_lt_Some _ _ _ Hi) as Hlt.
  pose proof (fun j c o => replaced_answer s i p0 p j c o Hi Hp0) as Hrep. split; [ split |]; simpl; auto.
  - intros j c. rewrite Hrep, Hd. split; [| naive_solver ].
    intros Hj. right. split; [| done ]. intros ->. rewrite Hi in Hj. simplify_eq. by destruct (Hp0 c (Ok tt)).
  - intros j c e. rewrite Hrep. intros [[-> ->] | [_ Hj]]; eauto.
  - intros j q. destruct (decide (j = i)) as [-> | Hne].
    + rewrite list_lookup_insert_eq by done. intros; simplify_eq. done.
    + rewrite list_lookup_insert_ne by done. eauto.
Qed.

(** A save that succeeds is the call happening whole, now. *)
Lemma commit_step L0 s done L i c a es r' :
  simulated L0 s done L -> sys_calls s !! i = Some (Saving c a es) ->
  finish_call (a, es) (sys_repo s) = (Ok tt, r') ->
  (forall id, Z.of_nat (length (L id)) <= i64_max)%Z ->
  exists L', simulated L0 {| sys_repo := r'; sys_calls := <[i := Answered c (Ok tt)]> (sys_calls s) |}
    (done ++ [(i, c)]) L'.
Proof.
  intros [ [Hh Hser Hnd Hd Hf] Hdec] Hi Hfin Hmax.
  destruct (Hdec _ _ Hi) as (tx & L1 & Hgrow & Hs & Hc). pose proof (sees_id _ _ _ Hs) as Hid.
  destruct (save_events_ok _ _ _ _ _ Hh (handle_command_nonempty _ _ _ _ Hc) Hfin) as [Hv Hr]. simpl in *.
  rewrite Hid in *. destruct (sees_still _ _ _ _ Hs Hgrow (Hmax _) Hv) as [Hnow Hfresh].
  pose proof (fun j c' o => replaced_answer s i _ (Answered c (Ok tt)) j c' o Hi ltac:(done)) as Hrep.
  exists (append (call_id c) es L). split; [ split |]; simpl; auto.
  - rewrite fmap_app. eapply serial_snoc; [ exact Hser |]. exists tx, a, es. done.
  - rewrite fmap_app. apply NoDup_app. split_and!; [ done | | apply NoDup_singleton ].
    intros j ((j', c') & -> & Hin%Hd)%list_elem_of_fmap Hj%list_elem_of_singleton. simpl in Hj. subst j'.
    by rewrite Hi in Hin.
  - intros j c'. rewrite Hrep, elem_of_app, list_elem_of_singleton, Hd. split.
    + intros [Hj | [= -> ->]]; [ right; split; [| done ] | by left ]. intros ->. by rewrite Hi in Hj.
    + intros [[-> [= ->]] | [_ Hj]]; auto.
  - intros j c' e. rewrite Hrep, fmap_app. intros [[-> [=]] | [_ Hj]]. by apply explained_later, Hf with j.
  - pose proof (lookup_lt_Some _ _ _ Hi) as Hlt. intros j q. destruct (decide (j = i)) as [-> | Hne].
    + rewrite list_lookup_insert_eq by done. by intros [= <-].
    + rewrite list_lookup_insert_ne by done. intros Hj%Hdec. eapply decided_later, Hj. intros; apply append_prefix.
Qed.


Lemma simulated_start r L : rholds r L -> simulated L (start r) [] L.
Proof.
  intros Hh. split; [ split |]; simpl; try done; [ constructor | constructor |].
  intros i c. rewrite elem_of_nil. done.
Qed.

Lemma simulated_step L0 s s' done L :
  simulated L0 s done L -> step s s' ->
  (forall id, Z.of_nat (length (L0 id)) + Z.of_nat (length (sys_calls s')) <= i64_max)%Z ->
  exists more L', simulated L0 s' (done ++ more) L'.
Proof.
  intros Hsim Hstep Hmax. pose proof (done_within _ _ _ _ (proj1 Hsim)) as Hwithin.
  pose proof Hsim as [ [Hh Hser Hnd Hd Hf] Hdec].
  destruct Hstep as [c s | i c draw tx s o r' Hi Hb | i c a es s answer r' Hi Hfin]; simpl in Hmax.
  - exists [], L. rewrite app_nil_r. split; [ split |]; simpl; auto.
    + intros i c'. rewrite Hd, lookup_snoc_Some. split; [| by intros [ [_ Hi] | [_ [=]] ] ].
      intros Hi. left. split; [ by eapply lookup_lt_Some | done ].
    + intros i c' e [ [_ Hi] | [_ Hi] ]%lookup_snoc_Some; [ eauto | done ].
    + intros i p [ [_ Hi] | [_ <-] ]%lookup_snoc_Some; [ eauto | done ].
  - destruct (begin_call_outcome _ _ _ _ _ _ _ Hh Hb) as [Hr Ho]. exists [], L. rewrite app_nil_r.
    eapply silent_step; eauto; destruct o as [ [a es] | e | | ]; simpl; try done.
    + destruct Ho. exists tx, L. done.
    + intros c' e' [= <- <-]. destruct Ho as [Hread | Href]; [ by left | right; right ].
      exists (done.*2), L. done.
  - assert (forall id, (Z.of_nat (length (L id)) <= i64_max)%Z) as Hlen.
    { intros id. destruct (serial_grows _ _ _ id Hser) as [_ Hle]. rewrite length_fmap in Hle.
      specialize (Hmax id). rewrite length_insert in Hmax. lia. }
    assert (answer = Ok tt \/ is_ok answer = false) as [-> | Hno]
      by (destruct answer as [ [] | | | ]; auto).
    { destruct (commit_step _ _ _ _ _ _ _ _ _ Hsim Hi Hfin Hlen) as [L' HL']. eauto. }
    exists [], L. rewrite app_nil_r. eapply silent_step; eauto; try done.
    + pose proof (save_events_err _ _ a es Hh) as Hk. unfold finish_call in Hfin. simpl in Hfin.
      rewrite Hfin in Hk. by apply Hk.
    + by intros c' [= _ ->].
    + intros c' e [= <- ->]. right. left. unfold finish_call, infrastructure, on_err in Hfin.
      destruct (rp_save _ _ _) as [ [] ]; simplify_eq/=. eauto.
Qed.

Lemma step_calls s s' : step s s' -> length (sys_calls s) <= length (sys_calls s').
Proof. destruct 1; simpl; rewrite ?length_app, ?length_insert; lia. Qed.

Lemma steps_calls s s' : rtc step s s' -> length (sys_calls s) <= length (sys_calls s').
Proof. induction 1 as [| s s1 s' Hs _ IH]; [ done |]. pose proof (step_calls _ _ Hs). lia. Qed.

Lemma simulated_steps L0 s s' done L :
  simulated L0 s done L -> rtc step s s' ->
  (forall id, Z.of_nat (length (L0 id)) + Z.of_nat (length (sys_calls s')) <= i64_max)%Z ->
  exists more L', simulated L0 s' (done ++ more) L'.
Proof.
  intros Hsim Hsteps Hmax. revert done L Hsim. induction Hsteps as [s | s s1 s' Hs Hrest IH]; intros done L Hsim.
  { exists [], L. by rewrite app_nil_r. }
  destruct (simulated_step _ _ _ _ _ Hsim Hs) as (m1 & L1 & Hsim1).
  { intros id. specialize (Hmax id). pose proof (steps_calls _ _ Hrest). lia. }
  destruct (IH Hmax _ _ Hsim1) as (m2 & L2 & Hsim2). exists (m1 ++ m2), L2. by rewrite app_assoc.
Qed.

Lemma serial_valid L cs L' : serial L cs L' -> valid_log L -> valid_log L'.
Proof.
  intros Hs Hv. induction Hs as [ | L cs L1 c L2 _ IH (tx & a & es & Hsees & Hc & Hfresh & ->)]; [ done |].
  eapply append_valid; [ by apply IH | | exact Hc ]. destruct c; simpl in *; [| by destruct Hsees .. ].
  by rewrite Hfresh, Hsees.
Qed.

(** ** Properties *)

(** C2. Handlers that run at the same time behave as if each call happened at
    one moment: from a repository that holds [L0], in every state the interleaved
    calls can reach the histories are those of a serial execution of exactly the
    calls answered with success, each of them once; every call that failed was
    failed by the repository or refused at a moment of that execution; and the
    order respects time, since what has succeeded in an earlier state [s1] comes
    before what succeeds from there on. *)
Theorem concurrent_calls_serialise r L0 s1 s2 :
  rholds r L0 -> rtc step (start r) s1 -> rtc step s1 s2 ->
  (forall id, Z.of_nat (length (L0 id)) + Z.of_nat (length (sys_calls s2)) <= i64_max)%Z ->
  exists done1 L1 more L2, serialised L0 s1 done1 L1 /\ serialised L0 s2 (done1 ++ more) L2.
Proof.
  intros Hh Hr1 Hr2 Hmax.
  destruct (simulated_steps _ _ _ _ _ (simulated_start r L0 Hh) Hr1) as (done1 & L1 & Hs1).
  { intros id. specialize (Hmax id). pose proof (steps_calls _ _ Hr2). lia. }
  destruct (simulated_steps _ _ _ _ _ Hs1 Hr2 Hmax) as (more & L2 & Hs2).
  exists done1, L1, more, L2. split; [ apply Hs1 | apply Hs2 ].
Qed.

(** C5. No interleaving of command handlers overdraws an account: in every
    reachable state every account the repository returns has a balance of at
    least zero. *)
Theorem concurrent_calls_never_overdraw r L0 s id a r' :
  rholds r L0 -> valid_log L0 -> rtc step (start r) s ->
  (forall id, Z.of_nat (length (L0 id)) + Z.of_nat (length (sys_calls s)) <= i64_max)%Z ->
  get_account_by_id id (sys_repo s) = (Ok (Some a), r') ->
  (0 <= dec_units (acc_balance a))%Z.
Proof.
  intros Hh Hv Hr Hmax Hget.
  destruct (simulated_steps _ _ _ _ _ (simulated_start r L0 Hh) Hr Hmax) as (done & L & [Hs Hser _ _ _] & _).
  destruct (get_by_id_sound _ _ _ _ _ Hs Hget) as [_ Ha].
  apply reachable_nonneg, (valid_history_reachable id (L id)); [| done ]. exact (serial_valid _ _ _ Hser Hv id).
Qed.

End Concurrency.

(** ** Witnesses: two withdrawals from one account at the same time *)
Module ConcurrencyWitness.
Import ScaleZero PlainSerde StoreWitness LogStore HandlersWitness.

Definition first_call : call := CallWithdraw 1%N (amt 100).
Definition second_call : call := CallWithdraw 1%N (amt 80).

Definition paid : list AccountEvent := [EvMoneyWithdrawn 1%N (amt 100) 8%N].
Definition unpaid : list AccountEvent := [EvMoneyWithdrawn 1%N (amt 80) 9%N].

(** Both have read the account, with 150 on it; the first saves, then the second
    tries to. *)
Definition s_both : System :=
  {| sys_repo := repo; sys_calls := [Saving first_call alice paid; Saving second_call alice unpaid] |}.
Definition s_one : System :=
  {| sys_repo := snd (finish_call (alice, paid) repo);
     sys_calls := [Answered first_call (Ok tt); Saving second_call alice unpaid] |}.
Definition s_end : System :=
  {| sys_repo := snd (finish_call (alice, unpaid) (sys_repo s_one));
     sys_calls := [Answered first_call (Ok tt);
                   Answered second_call (fst (finish_call (alice, unpaid) (sys_repo s_one)))] |}.

Lemma both_reached : rtc step (start repo) s_both.
Proof.
  eapply rtc_l; [ apply (step_arrive first_call) |].
  eapply rtc_l; [ apply (step_arrive second_call) |].
  eapply rtc_l; [ apply (step_begin 0 first_call 3%N 8%N); reflexivity |].
  eapply rtc_l; [ apply (step_begin 1 second_call 3%N 9%N); reflexivity |].
  apply rtc_refl.
Defined.

Lemma end_reached : rtc step s_both s_end.
Proof.
  eapply rtc_l; [ apply (step_finish 0 first_call alice paid s_both (Ok tt) (sys_repo s_one)); reflexivity |].
  eapply rtc_l;
    [ apply (step_finish 1 second_call alice unpaid s_one
               (fst (finish_call (alice, unpaid) (sys_repo s_one))) (sys_repo s_end)); reflexivity |].
  apply rtc_refl.
Defined.

Lemma calls_bound id : (Z.of_nat (length (log0 id)) + Z.of_nat (length (sys_calls s_end)) <= i64_max)%Z.
Proof.
  unfold log0, stored, memory0. destruct (decide (id = 1%N)) as [-> | Hne]; [ vm_compute; discriminate |].
  rewrite lookup_singleton_ne by done. vm_compute. discriminate.
Defined.

Lemma concurrent_calls_serialise_witness :
  is_ok (fst (finish_call (alice, unpaid) (sys_repo s_one))) = false /\
  exists done1 L1 more L2,
    serialised log0 s_both done1 L1 /\ serialised log0 s_end (done1 ++ more) L2.
Proof.
  split; [ reflexivity |].
  exact (concurrent_calls_serialise repo log0 s_both s_end log0_held both_reached end_reached calls_bound).
Defined.

Lemma concurrent_calls_never_overdraw_witness : (0 <= dec_units (amt 50))%Z.
Proof.
  refine (concurrent_calls_never_overdraw repo log0 s_end 1%N
           {| acc_id := 1%N; acc_owner_name := "alice"; acc_balance := amt 50;
              acc_is_active := true; acc_version := 3 |} (sys_repo s_end)
           log0_held log0_valid _ calls_bound _);
    [ etransitivity; [ exact both_reached | exact end_reached ] | reflexivity ].
Defined.

End ConcurrencyWitness.
