(* ===== verification/Projections.v ===== *)
(** The read model (src/src/infrastructure/projections.rs): account and
    transaction projections, their caches and the batched writer.

    [ProjectionsDb] is the database, one operation per statement;
    [ProjectionsDbLaws] states what PostgreSQL documents of them, among it that
    INSERT .. ON CONFLICT DO UPDATE refuses a command that would touch a row
    twice.  [ProjectionStore] holds the caches, [UpdateProcessor] the state of
    the background task; times are arguments, in seconds for the caches and in
    milliseconds for the batch timeout. *)
From S2P Require Import Prelude.
From S2P Require Import DecimalSpec.
From S2P Require Import Account.
From S2P Require Import EventsDb.
From stdpp Require Import base tactics list gmap strings.
From Stdlib Require Import ZArith Lia.

Section Projections.
Context `{DecimalOps}.

(** ** Data *)
Record AccountProjection : Type := {
  ap_id : Uuid;
  ap_owner_name : string;
  ap_balance : Decimal;
  ap_is_active : bool;
  ap_created_at : Z;
  ap_updated_at : Z
}.

Record TransactionProjection : Type := {
  tp_id : Uuid;
  tp_account_id : Uuid;
  tp_transaction_type : string;
  tp_amount : Decimal;
  tp_timestamp : Z
}.

Record ProjectionMetrics : Type := {
  pm_cache_hits : Z;
  pm_cache_misses : Z;
  pm_batch_updates : Z;
  pm_events_processed : Z;
  pm_errors : Z;
  pm_query_duration : Z
}.

Record ProjCacheEntry (T : Type) : Type := {
  pce_data : T;
  pce_last_accessed : Z;
  pce_version : Z;
  pce_ttl : Z
}.

Record ProjectionConfig : Type := {
  pc_cache_ttl_secs : Z;
  pc_batch_size : nat;
  pc_batch_timeout_ms : Z;
  pc_max_connections : Z;
  pc_min_connections : Z;
  pc_acquire_timeout_secs : Z;
  pc_idle_timeout_secs : Z;
  pc_max_lifetime_secs : Z
}.

(** [ProjectionConfig::default] and the configuration of [new_test]. *)
Definition ProjectionConfig_default : ProjectionConfig :=
  {| pc_cache_ttl_secs := 300; pc_batch_size := 5 * 1000; pc_batch_timeout_ms := 20;
     pc_max_connections := 100; pc_min_connections := 20; pc_acquire_timeout_secs := 30;
     pc_idle_timeout_secs := 600; pc_max_lifetime_secs := 1800 |}.

Definition test_config : ProjectionConfig :=
  {| pc_cache_ttl_secs := 300; pc_batch_size := 1; pc_batch_timeout_ms := 0;
     pc_max_connections := 100; pc_min_connections := 20; pc_acquire_timeout_secs := 30;
     pc_idle_timeout_secs := 600; pc_max_lifetime_secs := 1800 |}.

Inductive ProjectionUpdate : Type :=
| AccountBatch (accounts : list AccountProjection)
| TransactionBatch (transactions : list TransactionProjection).

(** [AccountProjection::apply_event]: [None] where the arithmetic panics. *)
Definition projection_apply_event (self : AccountProjection) (event : AccountEvent)
  : option AccountProjection :=
  let with_ owner balance active :=
    {| ap_id := ap_id self; ap_owner_name := owner; ap_balance := balance;
       ap_is_active := active; ap_created_at := ap_created_at self;
       ap_updated_at := ap_updated_at self |} in
  match event with
  | EvAccountCreated _ owner_name initial_balance => Some (with_ owner_name initial_balance true)
  | EvMoneyDeposited _ amount _ =>
      option_map (fun b => with_ (ap_owner_name self) b (ap_is_active self))
        (dec_add (ap_balance self) amount)
  | EvMoneyWithdrawn _ amount _ =>
      option_map (fun b => with_ (ap_owner_name self) b (ap_is_active self))
        (dec_sub (ap_balance self) amount)
  | EvAccountClosed _ _ => Some (with_ (ap_owner_name self) (ap_balance self) false)
  end.

Fixpoint projection_apply_events (self : AccountProjection) (events : list AccountEvent)
  : option AccountProjection :=
  match events with
  | [] => Some self
  | event :: rest =>
      match projection_apply_event self event with
      | Some self' => projection_apply_events self' rest
      | None => None
      end
  end.

(** ** The database *)
Class ProjectionsDb : Type := {
  PDb : Type;
  PTx : Type;
  (** [pool.begin()] *)
  pdb_begin : M PDb SqlxError PTx;
  (** [INSERT INTO account_projections .. ON CONFLICT (id) DO UPDATE] *)
  ptx_upsert_accounts : list AccountProjection -> M PTx SqlxError unit;
  (** [INSERT INTO transaction_projections .. ON CONFLICT (id) DO NOTHING] *)
  ptx_insert_transactions : list TransactionProjection -> M PTx SqlxError unit;
  (** [tx.commit()] and [tx.rollback()] *)
  ptx_commit : PTx -> M PDb SqlxError unit;
  ptx_rollback : PTx -> M PDb SqlxError unit;
  (** [SELECT .. FROM account_projections WHERE id = $1] *)
  pdb_select_account : Uuid -> M PDb SqlxError (option AccountProjection);
  (** [SELECT .. WHERE account_id = $1 ORDER BY timestamp DESC LIMIT 1000] *)
  pdb_select_transactions : Uuid -> M PDb SqlxError (list TransactionProjection);
  (** [SELECT .. WHERE is_active = true ORDER BY created_at DESC LIMIT 10000] *)
  pdb_select_active : M PDb SqlxError (list AccountProjection)
}.

(** The row ON CONFLICT DO UPDATE leaves: everything but [created_at] is new;
    [column] is what the column type DECIMAL(20,2) keeps of a balance. *)
Definition upsert_row (column : Decimal -> Decimal) (old : option AccountProjection)
    (a : AccountProjection) : AccountProjection :=
  {| ap_id := ap_id a; ap_owner_name := ap_owner_name a; ap_balance := column (ap_balance a);
     ap_is_active := ap_is_active a;
     ap_created_at := match old with Some o => ap_created_at o | None => ap_created_at a end;
     ap_updated_at := ap_updated_at a |}.

Definition upsert_rows (column : Decimal -> Decimal) (accounts : list AccountProjection)
    (t : gmap Uuid AccountProjection) : gmap Uuid AccountProjection :=
  foldl (fun t a => <[ap_id a := upsert_row column (t !! ap_id a) a]> t) t accounts.

Class ProjectionsDbLaws `{ProjectionsDb} : Type := {
  pdb_accounts : PDb -> gmap Uuid AccountProjection;
  ptx_accounts : PTx -> gmap Uuid AccountProjection;
  balance_column : Decimal -> Decimal;
  (** no statement of the transaction has failed *)
  ptx_alive : PTx -> Prop;
  pdb_begin_ok : forall d tx d',
    pdb_begin d = (Ok tx, d') -> ptx_accounts tx = pdb_accounts d /\ ptx_alive tx;
  pdb_begin_db : forall d, pdb_accounts (snd (pdb_begin d)) = pdb_accounts d;
  ptx_upsert_ok : forall accounts tx tx',
    ptx_upsert_accounts accounts tx = (Ok tt, tx') -> ptx_alive tx ->
    NoDup (map ap_id accounts) /\ ptx_accounts tx' = upsert_rows balance_column accounts (ptx_accounts tx) /\
    ptx_alive tx';
  ptx_insert_transactions_ok : forall ts tx tx',
    ptx_insert_transactions ts tx = (Ok tt, tx') -> ptx_alive tx ->
    ptx_accounts tx' = ptx_accounts tx /\ ptx_alive tx';
  ptx_commit_ok : forall tx d d',
    ptx_commit tx d = (Ok tt, d') -> ptx_alive tx -> pdb_accounts d' = ptx_accounts tx;
  (** a COMMIT that reports an error has rolled back, or has committed and the
      answer was lost *)
  ptx_commit_failed : forall tx d,
    is_ok (fst (ptx_commit tx d)) = false ->
    pdb_accounts (snd (ptx_commit tx d)) = pdb_accounts d \/
    pdb_accounts (snd (ptx_commit tx d)) = ptx_accounts tx;
  ptx_rollback_db : forall tx d, pdb_accounts (snd (ptx_rollback tx d)) = pdb_accounts d;
  pdb_select_account_ok : forall id d o d',
    pdb_select_account id d = (Ok o, d') -> o = pdb_accounts d !! id;
  pdb_select_account_db : forall id d,
    pdb_accounts (snd (pdb_select_account id d)) = pdb_accounts d
}.

Context `{ProjectionsDb}.

(** ** The store *)
Record ProjectionStore : Type := {
  ps_pool : PDb;
  ps_account_cache : gmap Uuid (ProjCacheEntry AccountProjection);
  ps_transaction_cache : gmap Uuid (ProjCacheEntry (list TransactionProjection));
  ps_cache_version : Z;
  ps_metrics : ProjectionMetrics;
  ps_config : ProjectionConfig
}.

Definition ProjectionMetrics_default : ProjectionMetrics :=
  {| pm_cache_hits := 0; pm_cache_misses := 0; pm_batch_updates := 0; pm_events_processed := 0;
     pm_errors := 0; pm_query_duration := 0 |}.

(** [ProjectionStore::from_pool_with_config]; its task is [UpdateProcessor]. *)
Definition from_pool_with_config (pool : PDb) (config : ProjectionConfig) : ProjectionStore :=
  {| ps_pool := pool; ps_account_cache := ∅; ps_transaction_cache := ∅; ps_cache_version := 0;
     ps_metrics := ProjectionMetrics_default; ps_config := config |}.

Definition put_pdb (d : PDb) (s : ProjectionStore) : ProjectionStore :=
  {| ps_pool := d; ps_account_cache := ps_account_cache s;
     ps_transaction_cache := ps_transaction_cache s; ps_cache_version := ps_cache_version s;
     ps_metrics := ps_metrics s; ps_config := ps_config s |}.

Definition put_caches (ac : gmap Uuid (ProjCacheEntry AccountProjection))
    (tc : gmap Uuid (ProjCacheEntry (list TransactionProjection))) (s : ProjectionStore)
  : ProjectionStore :=
  {| ps_pool := ps_pool s; ps_account_cache := ac; ps_transaction_cache := tc;
     ps_cache_version := ps_cache_version s; ps_metrics := ps_metrics s; ps_config := ps_config s |}.

Definition put_metrics (m : ProjectionMetrics) (s : ProjectionStore) : ProjectionStore :=
  {| ps_pool := ps_pool s; ps_account_cache := ps_account_cache s;
     ps_transaction_cache := ps_transaction_cache s; ps_cache_version := ps_cache_version s;
     ps_metrics := m; ps_config := ps_config s |}.

(** [fetch_add] on the counters. *)
Definition add_metrics (hits misses batches duration : Z) (m : ProjectionMetrics) : ProjectionMetrics :=
  {| pm_cache_hits := wrap_u64 (pm_cache_hits m + hits);
     pm_cache_misses := wrap_u64 (pm_cache_misses m + misses);
     pm_batch_updates := wrap_u64 (pm_batch_updates m + batches);
     pm_events_processed := pm_events_processed m; pm_errors := pm_errors m;
     pm_query_duration := wrap_u64 (pm_query_duration m + duration) |}.

Definition count (hits misses batches duration : Z) : M ProjectionStore SqlxError unit :=
  modify (fun s => put_metrics (add_metrics hits misses batches duration (ps_metrics s)) s).

(** The cached value, while [entry.last_accessed.elapsed() < entry.ttl]. *)
Definition cached {T} (now : Z) (cache : gmap Uuid (ProjCacheEntry T)) (id : Uuid) : option T :=
  match cache !! id with
  | Some entry =>
      if (now - pce_last_accessed T entry <? pce_ttl T entry)%Z then Some (pce_data T entry) else None
  | None => None
  end.

Definition entry_of {T} (now version ttl : Z) (data : T) : ProjCacheEntry T :=
  {| pce_data := data; pce_last_accessed := now; pce_version := version; pce_ttl := ttl |}.

(** [ProjectionStore::get_account]. *)
Definition get_account (now micros : Z) (account_id : Uuid)
  : M ProjectionStore SqlxError (option AccountProjection) :=
  let! hit := gets (fun s => cached now (ps_account_cache s) account_id) in
  match hit with
  | Some data => count 1 0 0 0 ;;; ret (Some data)
  | None =>
      count 0 1 0 0 ;;;
      let! account := zoom ps_pool put_pdb (pdb_select_account account_id) in
      (match account with
       | Some a =>
           modify (fun s => put_caches
             (<[account_id := entry_of now (ps_cache_version s) (pc_cache_ttl_secs (ps_config s)) a]>
                (ps_account_cache s)) (ps_transaction_cache s) s)
       | None => ret tt
       end) ;;;
      count 0 0 0 micros ;;;
      ret account
  end.

(** [ProjectionStore::get_account_transactions]. *)
Definition get_account_transactions (now micros : Z) (account_id : Uuid)
  : M ProjectionStore SqlxError (list TransactionProjection) :=
  let! hit := gets (fun s => cached now (ps_transaction_cache s) account_id) in
  match hit with
  | Some data => count 1 0 0 0 ;;; ret data
  | None =>
      count 0 1 0 0 ;;;
      let! transactions := zoom ps_pool put_pdb (pdb_select_transactions account_id) in
      modify (fun s => put_caches (ps_account_cache s)
        (<[account_id := entry_of now (ps_cache_version s) (pc_cache_ttl_secs (ps_config s))
                           transactions]> (ps_transaction_cache s)) s) ;;;
      count 0 0 0 micros ;;;
      ret transactions
  end.

(** [ProjectionStore::get_all_accounts]. *)
Definition get_all_accounts (micros : Z) : M ProjectionStore SqlxError (list AccountProjection) :=
  let! accounts := zoom ps_pool put_pdb pdb_select_active in
  count 0 0 0 micros ;;;
  ret accounts.

(** One turn of [ProjectionStore::cache_cleanup_worker]. *)
Definition retain {T} (now : Z) (cache : gmap Uuid (ProjCacheEntry T)) : gmap Uuid (ProjCacheEntry T) :=
  filter (fun kv => (now - 1800 < pce_last_accessed T kv.2)%Z) cache.

Definition projection_cleanup (now : Z) (s : ProjectionStore) : ProjectionStore :=
  put_caches (retain now (ps_account_cache s)) (retain now (ps_transaction_cache s)) s.

(** [ProjectionStoreTrait::upsert_accounts_batch] and
    [insert_transactions_batch]: there is no inherent method of that name, so
    each call is a call of itself. *)
Fixpoint upsert_accounts_batch (fuel : nat) (accounts : list AccountProjection)
  : M ProjectionStore SqlxError unit :=
  match fuel with
  | O => lift Hang
  | S fuel' => upsert_accounts_batch fuel' accounts
  end.

Fixpoint insert_transactions_batch (fuel : nat) (transactions : list TransactionProjection)
  : M ProjectionStore SqlxError unit :=
  match fuel with
  | O => lift Hang
  | S fuel' => insert_transactions_batch fuel' transactions
  end.

(** ** The background task *)
Record UpdateProcessor : Type := {
  up_store : ProjectionStore;
  up_account_batch : list AccountProjection;
  up_transaction_batch : list TransactionProjection;
  up_last_flush : Z;
  up_cache_version : Z;
  up_metrics : ProjectionMetrics
}.

Definition up_with (s : ProjectionStore) (ab : list AccountProjection)
    (tb : list TransactionProjection) (version : Z) (metrics : ProjectionMetrics)
    (p : UpdateProcessor) : UpdateProcessor :=
  {| up_store := s; up_account_batch := ab; up_transaction_batch := tb;
     up_last_flush := up_last_flush p; up_cache_version := version; up_metrics := metrics |}.

(** [bulk_upsert_accounts] and [bulk_insert_transactions]. *)
Definition bulk_upsert_accounts (accounts : list AccountProjection) : M PTx SqlxError unit :=
  match accounts with
  | [] => ret tt
  | _ :: _ => ptx_upsert_accounts accounts
  end.

Definition bulk_insert_transactions (transactions : list TransactionProjection) : M PTx SqlxError unit :=
  match transactions with
  | [] => ret tt
  | _ :: _ => ptx_insert_transactions transactions
  end.

(** Rolling back ends the flush with the statement's failure. *)
Definition abandon {A} (r : res SqlxError A) (tx : PTx) (p : UpdateProcessor)
  : res SqlxError unit * UpdateProcessor :=
  let s := up_store p in
  let d := snd (ptx_rollback tx (ps_pool s)) in
  (res_bind r (fun _ => Ok tt),
   up_with (put_pdb d s) (up_account_batch p) (up_transaction_batch p) (up_cache_version p)
     (up_metrics p) p).

(** The account half of [flush_batches] after its statement succeeded: the
    drained accounts are cached. *)
Definition cache_accounts (now : Z) (p : UpdateProcessor) : UpdateProcessor :=
  let s := up_store p in
  let version := up_cache_version p in
  let cache := foldl (fun c a => <[ap_id a := entry_of now version 300 a]> c)
                 (ps_account_cache s) (up_account_batch p) in
  up_with (put_caches cache (ps_transaction_cache s) s) [] (up_transaction_batch p)
    (inc_u64 version) (add_metrics 0 0 1 0 (up_metrics p)) p.

(** The transaction half: the histories of the accounts touched are dropped. *)
Definition drop_transactions (p : UpdateProcessor) : UpdateProcessor :=
  let s := up_store p in
  let cache := foldl (fun c t => delete (tp_account_id t) c)
                 (ps_transaction_cache s) (up_transaction_batch p) in
  up_with (put_caches (ps_account_cache s) cache s) (up_account_batch p) []
    (up_cache_version p) (add_metrics 0 0 1 0 (up_metrics p)) p.

Definition flush_accounts (now : Z) (tx : PTx) (p : UpdateProcessor)
  : res SqlxError unit * PTx * UpdateProcessor :=
  match up_account_batch p with
  | [] => (Ok tt, tx, p)
  | _ :: _ =>
      match bulk_upsert_accounts (up_account_batch p) tx with
      | (Ok _, tx') => (Ok tt, tx', cache_accounts now p)
      | (r, tx') => let '(r', p') := abandon r tx' p in (r', tx', p')
      end
  end.

Definition flush_transactions (tx : PTx) (p : UpdateProcessor)
  : res SqlxError unit * PTx * UpdateProcessor :=
  match up_transaction_batch p with
  | [] => (Ok tt, tx, p)
  | _ :: _ =>
      match bulk_insert_transactions (up_transaction_batch p) tx with
      | (Ok _, tx') => (Ok tt, tx', drop_transactions p)
      | (r, tx') => let '(r', p') := abandon r tx' p in (r', tx', p')
      end
  end.

(** [ProjectionStore::flush_batches]. *)
Definition flush_batches (now : Z) : M UpdateProcessor SqlxError unit :=
  fun p =>
    let '(r, d) := pdb_begin (ps_pool (up_store p)) in
    let p := up_with (put_pdb d (up_store p)) (up_account_batch p) (up_transaction_batch p)
               (up_cache_version p) (up_metrics p) p in
    match r with
    | Ok tx =>
        match flush_accounts now tx p with
        | (Ok _, tx1, p1) =>
            match flush_transactions tx1 p1 with
            | (Ok _, tx2, p2) =>
                let '(c, d') := ptx_commit tx2 (ps_pool (up_store p2)) in
                (c, up_with (put_pdb d' (up_store p2)) (up_account_batch p2)
                      (up_transaction_batch p2) (up_cache_version p2) (up_metrics p2) p2)
            | (r2, _, p2) => (r2, p2)
            end
        | (r1, _, p1) => (r1, p1)
        end
    | Err e => (Err e, p)
    | Panic => (Panic, p)
    | Hang => (Hang, p)
    end.

(** What [receiver.recv()] adds to the batches. *)
Definition absorb (update : ProjectionUpdate) (p : UpdateProcessor) : UpdateProcessor :=
  match update with
  | AccountBatch accounts =>
      up_with (up_store p) (up_account_batch p ++ accounts) (up_transaction_batch p)
        (up_cache_version p) (up_metrics p) p
  | TransactionBatch transactions =>
      up_with (up_store p) (up_account_batch p) (up_transaction_batch p ++ transactions)
        (up_cache_version p) (up_metrics p) p
  end.

Definition flushed_at (ms : Z) (p : UpdateProcessor) : UpdateProcessor :=
  {| up_store := up_store p; up_account_batch := up_account_batch p;
     up_transaction_batch := up_transaction_batch p; up_last_flush := ms;
     up_cache_version := up_cache_version p; up_metrics := up_metrics p |}.

(** One turn of [ProjectionStore::update_processor] at [ms] milliseconds: the
    result is that of the flush, when there is one. *)
Definition process_update (ms : Z) (update : ProjectionUpdate)
  (p : UpdateProcessor) : option (res SqlxError unit) * UpdateProcessor :=
  let p := absorb update p in
  let config := ps_config (up_store p) in
  if (pc_batch_size config <=? length (up_account_batch p))%nat
     || (pc_batch_size config <=? length (up_transaction_batch p))%nat
     || (pc_batch_timeout_ms config <=? ms - up_last_flush p)%Z
  then let '(r, p') := flush_batches (ms / 1000) p in (Some r, flushed_at ms p')
  else (None, p).

(** ** Lemmas *)
Context `{!ProjectionsDbLaws}.

(** A projection shows an account. *)
Definition shows (p : AccountProjection) (a : Account) : Prop :=
  ap_owner_name p = acc_owner_name a /\ ap_balance p = acc_balance a /\
  ap_is_active p = acc_is_active a.

Lemma apply_event_shows p a e :
  shows p a ->
  match apply_event a e, projection_apply_event p e with
  | Some a', Some p' => shows p' a' /\ ap_id p' = ap_id p
  | None, None => True
  | _, _ => False
  end.
Proof.
  intros (Ho & Hb & Ha). destruct e; simpl; rewrite ?Hb;
    try destruct (dec_add _ _); try destruct (dec_sub _ _); unfold shows; simpl; auto.
Qed.

Lemma cache_accounts_lookup now version accounts
    (cache : gmap Uuid (ProjCacheEntry AccountProjection)) id :
  NoDup (map ap_id accounts) ->
  foldl (fun c a => <[ap_id a := entry_of now version 300 a]> c) cache accounts !! id
  = match list_find (fun a => ap_id a = id) accounts with
    | Some (_, a) => Some (entry_of now version 300 a)
    | None => cache !! id
    end.
Proof.
  revert cache. induction accounts as [| a accounts IH]; intros cache Hnd; simpl; [ done |].
  apply NoDup_cons in Hnd as [Hnotin Hnd]. rewrite IH by done.
  case_decide as Hid.
  - subst id. assert (list_find (fun a0 => ap_id a0 = ap_id a) accounts = None) as ->.
    { apply list_find_None, Forall_forall. intros x Hx Heq. apply Hnotin.
      rewrite <- Heq. apply list_elem_of_In, in_map, list_elem_of_In. done. }
    by rewrite lookup_insert_eq.
  - destruct (list_find _ accounts) as [[i x] |]; simpl; [ done |]. by rewrite lookup_insert_ne.
Qed.

Lemma list_find_self accounts a :
  NoDup (map ap_id accounts) -> a ∈ accounts ->
  exists i, list_find (fun x => ap_id x = ap_id a) accounts = Some (i, a).
Proof.
  induction accounts as [| x accounts IH]; intros Hnd Ha; [ by apply not_elem_of_nil in Ha |].
  simpl in Hnd. apply NoDup_cons in Hnd as [Hnotin Hnd]. simpl.
  apply elem_of_cons in Ha as [-> | Ha]; case_decide as Hid; eauto; [ done | |].
  - exfalso. apply Hnotin. rewrite Hid. apply list_elem_of_In, in_map, list_elem_of_In. done.
  - destruct (IH Hnd Ha) as (i & ->). simpl. eauto.
Qed.

(** What the account half does when it succeeds. *)
Lemma flush_accounts_ok now tx p tx' p' :
  ptx_alive tx -> flush_accounts now tx p = (Ok tt, tx', p') ->
  ptx_alive tx' /\ NoDup (map ap_id (up_account_batch p)) /\
  ptx_accounts tx' = upsert_rows balance_column (up_account_batch p) (ptx_accounts tx) /\
  up_account_batch p' = [] /\ up_transaction_batch p' = up_transaction_batch p /\
  ps_pool (up_store p') = ps_pool (up_store p) /\
  (forall a, a ∈ up_account_batch p ->
     ps_account_cache (up_store p') !! ap_id a = Some (entry_of now (up_cache_version p) 300 a)).
Proof.
  intros Halive. unfold flush_accounts.
  destruct (up_account_batch p) as [| a0 rest] eqn:Hb.
  { intros; simplify_eq. split_and!; auto; [ constructor |].
    intros a Ha. by apply not_elem_of_nil in Ha. }
  unfold bulk_upsert_accounts. rewrite <- Hb in *.
  destruct (up_account_batch p) as [| a1 rest1] eqn:Hb1; [ done |]. rewrite <- Hb1.
  destruct (ptx_upsert_accounts (up_account_batch p) tx) as [[[] | e | | ] tx1] eqn:Hup;
    intros; simplify_eq.
  destruct (ptx_upsert_ok _ _ _ Hup Halive) as (Hnd & Hrows & Halive').
  split_and!; auto. intros a Ha. unfold cache_accounts. simpl.
  rewrite cache_accounts_lookup by done. by destruct (list_find_self _ _ Hnd Ha) as (i & ->).
Qed.

Lemma flush_transactions_keeps tx p r tx' p' :
  flush_transactions tx p = (r, tx', p') ->
  up_account_batch p' = up_account_batch p /\
  ps_account_cache (up_store p') = ps_account_cache (up_store p) /\
  pdb_accounts (ps_pool (up_store p')) = pdb_accounts (ps_pool (up_store p)) /\
  (r = Ok tt -> ptx_alive tx ->
     ptx_accounts tx' = ptx_accounts tx /\ ptx_alive tx' /\ up_transaction_batch p' = []).
Proof.
  unfold flush_transactions, bulk_insert_transactions, abandon. intros Hf.
  destruct (up_transaction_batch p) as [| trans rest] eqn:Hb; [ by simplify_eq |].
  destruct (ptx_insert_transactions _ tx) as [[[] | e | | ] tx1] eqn:Hins; simplify_eq/=;
    rewrite ?ptx_rollback_db; split_and!; auto; try done.
  intros _ Halive. by destruct (ptx_insert_transactions_ok _ _ _ Hins Halive).
Qed.

Lemma up_begin_accounts p d r :
  pdb_begin (ps_pool (up_store p)) = (r, d) ->
  pdb_accounts d = pdb_accounts (ps_pool (up_store p)).
Proof. intros Hb. pose proof (pdb_begin_db (ps_pool (up_store p))) as Hd. by rewrite Hb in Hd. Qed.

(** A batch that names an account twice is refused and kept. *)
Lemma flush_duplicate now p :
  ~ NoDup (map ap_id (up_account_batch p)) ->
  match flush_batches now p with
  | (r, p') => is_ok r = false /\ up_account_batch p' = up_account_batch p /\
               pdb_accounts (ps_pool (up_store p')) = pdb_accounts (ps_pool (up_store p))
  end.
Proof.
  intros Hdup. unfold flush_batches.
  destruct (pdb_begin (ps_pool (up_store p))) as [[tx | e | | ] d] eqn:Hbegin; simpl;
    pose proof (up_begin_accounts _ _ _ Hbegin) as Hd; try done.
  destruct (pdb_begin_ok _ _ _ Hbegin) as [_ Halive].
  set (p0 := up_with _ _ _ _ _ p).
  destruct (flush_accounts now tx p0) as [[[[] | e | | ] tx1] p1] eqn:Hacc.
  { destruct (flush_accounts_ok _ _ _ _ _ Halive Hacc) as (_ & Hnd & _). done. }
  all: unfold flush_accounts, abandon in Hacc;
    destruct (up_account_batch p0) as [| a rest] eqn:Hb; [ done |];
    destruct (bulk_upsert_accounts (a :: rest) tx) as [[] tx2]; simplify_eq/=;
    rewrite ?ptx_rollback_db; auto.
Qed.

(** A run of the background task: the results of its flushes and where it ends. *)
Fixpoint run_updates (us : list (Z * ProjectionUpdate)) (p : UpdateProcessor)
  : list (res SqlxError unit) * UpdateProcessor :=
  match us with
  | [] => ([], p)
  | (ms, u) :: rest =>
      let '(r, p1) := process_update ms u p in
      let '(rs, p2) := run_updates rest p1 in
      (match r with Some r => r :: rs | None => rs end, p2)
  end.

Lemma absorb_duplicate u p :
  ~ NoDup (map ap_id (up_account_batch p)) ->
  ~ NoDup (map ap_id (up_account_batch (absorb u p))) /\
  up_account_batch p `prefix_of` up_account_batch (absorb u p) /\
  up_store (absorb u p) = up_store p.
Proof.
  intros Hdup. destruct u as [accounts | transactions]; simpl; auto.
  split_and!; [| by eexists | done ]. rewrite map_app. intros (Hnd & _)%NoDup_app. done.
Qed.

(** ** Properties *)

Lemma projection_follows p a es :
  shows p a ->
  match apply_events a es, projection_apply_events p es with
  | Some a', Some p' => shows p' a' /\ ap_id p' = ap_id p
  | None, None => True
  | _, _ => False
  end.
Proof.
  revert p a. induction es as [| e es IH]; intros p a Hs; simpl; [ auto |].
  pose proof (apply_event_shows p a e Hs) as He.
  destruct (apply_event a e) as [a1 |], (projection_apply_event p e) as [p1 |]; try done.
  destruct He as [Hs1 Hid]. specialize (IH p1 a1 Hs1).
  destruct (apply_events a1 es), (projection_apply_events p1 es); try done.
  destruct IH. split; congruence.
Qed.

(** The read model follows the domain: applied to the same events, a
    projection that shows an account goes on showing it, and its arithmetic
    panics exactly where the account's does. *)
Theorem projection_follows_account p a es :
  shows p a ->
  match apply_events a es, projection_apply_events p es with
  | Some a', Some p' => shows p' a' /\ ap_id p' = ap_id p
  | None, None => True
  | _, _ => False
  end.
Proof. apply projection_follows. Qed.

(** After a successful flush nothing waits in the batches, the table holds
    every projection of the batch, and for the next five minutes reading an
    account of the batch returns what was flushed. *)
Theorem flushed_accounts_are_read_back now p p' later micros a :
  flush_batches now p = (Ok tt, p') -> a ∈ up_account_batch p ->
  (now <= later < now + 300)%Z ->
  up_account_batch p' = [] /\ up_transaction_batch p' = [] /\
  pdb_accounts (ps_pool (up_store p'))
    = upsert_rows balance_column (up_account_batch p) (pdb_accounts (ps_pool (up_store p))) /\
  fst (get_account later micros (ap_id a) (up_store p')) = Ok (Some a).
Proof.
  intros Hflush Ha Hlater. unfold flush_batches in Hflush.
  destruct (pdb_begin (ps_pool (up_store p))) as [[tx | e | | ] d] eqn:Hbegin; try done.
  destruct (pdb_begin_ok _ _ _ Hbegin) as [Htx Halive]. set (p0 := up_with _ _ _ _ _ p) in *.
  destruct (flush_accounts now tx p0) as [[[[] | e | | ] tx1] p1] eqn:Hacc; try done.
  destruct (flush_accounts_ok _ _ _ _ _ Halive Hacc) as (Halive1 & _ & Hrows & Hb1 & _ & _ & Hcache).
  destruct (flush_transactions tx1 p1) as [[[[] | e | | ] tx2] p2] eqn:Htr; try done.
  destruct (flush_transactions_keeps _ _ _ _ _ Htr) as (Hb2 & Hc2 & _ & Hok).
  destruct (Hok eq_refl Halive1) as (Hrows2 & Halive2 & Htb2).
  destruct (ptx_commit tx2 _) as [c d'] eqn:Hcommit. simplify_eq. simpl.
  apply ptx_commit_ok in Hcommit; [| done ].
  rewrite Hcommit, Hrows2, Hrows, Htx, Hb2, Hb1, Htb2. split_and!; auto.
  unfold get_account, bind, gets, cached. simpl. rewrite Hc2, (Hcache a Ha). simpl.
  by destruct (Z.ltb_spec (later - now) 300); [| lia ].
Qed.

(** One account named twice blocks the writer for good: from then on every
    flush fails, the batch only grows and the table of accounts never changes,
    whatever updates arrive. *)
Theorem duplicate_update_blocks_writer us p :
  ~ NoDup (map ap_id (up_account_batch p)) ->
  Forall (fun r => is_ok r = false) (fst (run_updates us p)) /\
  up_account_batch p `prefix_of` up_account_batch (snd (run_updates us p)) /\
  pdb_accounts (ps_pool (up_store (snd (run_updates us p)))) = pdb_accounts (ps_pool (up_store p)).
Proof.
  revert p. induction us as [| [ms u] us IH]; intros p Hdup; simpl; [ auto |].
  destruct (absorb_duplicate u p Hdup) as (Hdup1 & Hpre & Hstore).
  unfold process_update. destruct (_ || _).
  - pose proof (flush_duplicate (ms / 1000) (absorb u p) Hdup1) as Hf.
    destruct (flush_batches (ms / 1000) (absorb u p)) as [r p1]. destruct Hf as (Hno & Hb & Hd).
    specialize (IH (flushed_at ms p1)). simpl in IH. rewrite Hb, Hd, Hstore in IH.
    destruct (run_updates us (flushed_at ms p1)) as [rs p2]. simpl in *.
    destruct (IH Hdup1) as (Hall & Hpre2 & Hd2). split_and!; [ by constructor | | done ].
    by transitivity (up_account_batch (absorb u p)).
  - specialize (IH (absorb u p) Hdup1). rewrite Hstore in IH.
    destruct (run_updates us (absorb u p)) as [rs p2]. simpl in *.
    destruct IH as (Hall & Hpre2 & Hd2). split_and!; [ done | | done ].
    by transitivity (up_account_batch (absorb u p)).
Qed.

(** C28. A flush that fails after its account statement has already emptied the
    account batch, and readers get its projections from the cache whether or not
    they are in the table.  When it was the statement for the transactions that
    failed (they are still waiting), none of the accounts is in the table and
    nothing will write them again; when it was COMMIT, the table holds either
    all of them or none. *)
Theorem failed_flush_loses_accounts now p e p' a :
  flush_batches now p = (Err e, p') -> up_account_batch p' = [] -> a ∈ up_account_batch p ->
  cached now (ps_account_cache (up_store p')) (ap_id a) = Some a /\
  (up_transaction_batch p' <> [] ->
   pdb_accounts (ps_pool (up_store p')) = pdb_accounts (ps_pool (up_store p))) /\
  (pdb_accounts (ps_pool (up_store p')) = pdb_accounts (ps_pool (up_store p)) \/
   pdb_accounts (ps_pool (up_store p'))
     = upsert_rows balance_column (up_account_batch p) (pdb_accounts (ps_pool (up_store p)))).
Proof.
  intros Hflush Hempty Ha. unfold flush_batches in Hflush.
  destruct (pdb_begin (ps_pool (up_store p))) as [[tx | e0 | | ] d] eqn:Hbegin; try done;
    pose proof (up_begin_accounts _ _ _ Hbegin) as Hd.
  2:{ simplify_eq/=. rewrite Hempty in Ha. by apply not_elem_of_nil in Ha. }
  destruct (pdb_begin_ok _ _ _ Hbegin) as [Htx Halive]. set (p0 := up_with _ _ _ _ _ p) in *.
  destruct (flush_accounts now tx p0) as [[[[] | e1 | | ] tx1] p1] eqn:Hacc; try done.
  2:{ exfalso. simplify_eq. unfold flush_accounts, abandon in Hacc.
      destruct (up_account_batch p0) as [| a0 rest] eqn:Hb; [ done |].
      destruct (bulk_upsert_accounts (a0 :: rest) tx) as [[] tx2]; simplify_eq/=. }
  destruct (flush_accounts_ok _ _ _ _ _ Halive Hacc) as (Halive1 & _ & Hrows & _ & _ & Hp1 & Hcache).
  destruct (flush_transactions tx1 p1) as [[r2 tx2] p2] eqn:Htr.
  destruct (flush_transactions_keeps _ _ _ _ _ Htr) as (_ & Hc2 & Hd2 & Hok).
  assert (pdb_accounts (ps_pool (up_store p2)) = pdb_accounts (ps_pool (up_store p))) as Hsame
    by (rewrite Hd2, Hp1; exact Hd).
  assert (cached now (ps_account_cache (up_store p2)) (ap_id a) = Some a) as Hcached.
  { unfold cached. rewrite Hc2, (Hcache a Ha). simpl. by destruct (Z.ltb_spec (now - now) 300); [| lia ]. }
  destruct r2 as [[] | e2 | | ]; simplify_eq; [| by auto ].
  destruct (Hok eq_refl Halive1) as (Hrows2 & Halive2 & Htb2).
  pose proof (ptx_commit_failed tx2 (ps_pool (up_store p2))) as Hf.
  destruct (ptx_commit tx2 _) as [c d']. simplify_eq/=. rewrite Htb2.
  destruct (Hf eq_refl) as [-> | ->]; split_and!; auto; [ done |].
  right. by rewrite Hrows2, Hrows, Htx.
Qed.

(** A read is either the row of the table or a cached copy younger than its
    time to live; it changes no row, and a row read is cached for the configured
    time. *)
Theorem reads_current_or_recently_cached now micros id s o s' :
  get_account now micros id s = (Ok o, s') ->
  pdb_accounts (ps_pool s') = pdb_accounts (ps_pool s) /\
  match cached now (ps_account_cache s) id with
  | Some a => o = Some a /\ ps_account_cache s' = ps_account_cache s
  | None =>
      o = pdb_accounts (ps_pool s) !! id /\
      (forall a, o = Some a ->
         ps_account_cache s' !! id
           = Some (entry_of now (ps_cache_version s) (pc_cache_ttl_secs (ps_config s)) a))
  end.
Proof.
  unfold get_account, bind, gets, count, modify, zoom, ret. intros Hget.
  destruct (cached now (ps_account_cache s) id) as [a |]; [ by simplify_eq/= |].
  pose proof (pdb_select_account_db id (ps_pool s)) as Hd. simpl in Hget.
  destruct (pdb_select_account id (ps_pool s)) as [[o1 | | | ] d] eqn:Hsel; try done.
  apply pdb_select_account_ok in Hsel. simpl in *.
  destruct o1 as [a |]; simplify_eq/=; (split_and!; [ done | done |]);
    intros a' Ha'; simplify_eq; by rewrite lookup_insert_eq.
Qed.

(** The trait's batch writers never return. *)
Lemma trait_writers_never_return fuel accounts transactions s :
  fst (upsert_accounts_batch fuel accounts s) = Hang /\
  fst (insert_transactions_batch fuel transactions s) = Hang.
Proof. by induction fuel. Qed.

End Projections.

(** ** Witnesses: a database in memory without a unique index on the
    transactions, as migration 003 leaves it *)
Module ProjectionsWitness.
Import ScaleZero.

Record transaction : Type := { v_accounts : gmap Uuid AccountProjection; v_alive : bool }.

Definition dup_error : SqlxError := PgDatabaseError "21000" None.
Definition no_index : SqlxError := PgDatabaseError "42P10" None.

Definition upsert (accounts : list AccountProjection) : M transaction SqlxError unit :=
  fun x =>
    if v_alive x then
      if decide (NoDup (map ap_id accounts))
      then (Ok tt, {| v_accounts := upsert_rows (fun b => b) accounts (v_accounts x); v_alive := true |})
      else (Err dup_error, {| v_accounts := v_accounts x; v_alive := false |})
    else (Err (PgDatabaseError "25P02" None), x).

#[export] Instance pdb : ProjectionsDb := {
  PDb := gmap Uuid AccountProjection;
  PTx := transaction;
  pdb_begin := fun d => (Ok {| v_accounts := d; v_alive := true |}, d);
  ptx_upsert_accounts := upsert;
  ptx_insert_transactions := fun _ x =>
    (Err no_index, {| v_accounts := v_accounts x; v_alive := false |});
  ptx_commit := fun x d => (Ok tt, if v_alive x then v_accounts x else d);
  ptx_rollback := fun _ d => (Ok tt, d);
  pdb_select_account := fun id d => (Ok (d !! id), d);
  pdb_select_transactions := fun _ d => (Ok [], d);
  pdb_select_active := fun d =>
    (Ok (filter (fun a => ap_is_active a = true) (map snd (map_to_list d))), d)
}.

#[export] Instance pdb_laws : ProjectionsDbLaws.
Proof.
  refine {| pdb_accounts := (fun d => d) : @PDb _ pdb -> _; ptx_accounts := v_accounts : @PTx _ pdb -> _;
            balance_column := fun b => b;
            ptx_alive := (fun x => v_alive x = true) : @PTx _ pdb -> _ |};
    simpl; unfold upsert; intros; simplify_eq/=; auto; run; auto.
Defined.

Definition alice_row (balance : Z) : AccountProjection :=
  {| ap_id := 1%N; ap_owner_name := "alice"; ap_balance := amt balance; ap_is_active := true;
     ap_created_at := 0; ap_updated_at := 0 |}.

Definition bob_row : AccountProjection :=
  {| ap_id := 2%N; ap_owner_name := "bob"; ap_balance := amt 7; ap_is_active := true;
     ap_created_at := 0; ap_updated_at := 0 |}.

Definition idle : UpdateProcessor :=
  {| up_store := from_pool_with_config (∅ : @PDb _ pdb) test_config; up_account_batch := [];
     up_transaction_batch := []; up_last_flush := 0; up_cache_version := 0;
     up_metrics := ProjectionMetrics_default |}.

Definition two_accounts : UpdateProcessor := absorb (AccountBatch [alice_row 100; bob_row]) idle.

Definition flushed : UpdateProcessor := snd (flush_batches 10 two_accounts).

Lemma projection_follows_account_witness :
  match apply_events AccountWitness.alice AccountWitness.history,
        projection_apply_events (alice_row 100) AccountWitness.history with
  | Some a', Some p' => shows p' a' /\ ap_id p' = 1%N
  | None, None => True
  | _, _ => False
  end.
Proof.
  exact (projection_follows_account (alice_row 100) AccountWitness.alice AccountWitness.history
           (conj eq_refl (conj eq_refl eq_refl))).
Defined.

Lemma flushed_accounts_are_read_back_witness :
  up_account_batch flushed = [] /\ up_transaction_batch flushed = [] /\
  pdb_accounts (ps_pool (up_store flushed))
    = upsert_rows balance_column [alice_row 100; bob_row] (pdb_accounts (ps_pool (up_store two_accounts))) /\
  fst (get_account 200 5 1%N (up_store flushed)) = Ok (Some (alice_row 100)).
Proof.
  apply (flushed_accounts_are_read_back 10 two_accounts flushed 200 5 (alice_row 100));
    [ reflexivity | left | lia ].
Defined.

(** Two deposits of one account in the same batch. *)
Definition twice : UpdateProcessor := absorb (AccountBatch [alice_row 100; alice_row 150]) idle.

Lemma duplicate_update_blocks_writer_witness :
  Forall (fun r => is_ok r = false) (fst (run_updates [(100%Z, AccountBatch [bob_row])] twice)) /\
  up_account_batch twice
    `prefix_of` up_account_batch (snd (run_updates [(100%Z, AccountBatch [bob_row])] twice)) /\
  pdb_accounts (ps_pool (up_store (snd (run_updates [(100%Z, AccountBatch [bob_row])] twice))))
    = pdb_accounts (ps_pool (up_store twice)).
Proof.
  apply (duplicate_update_blocks_writer [(100%Z, AccountBatch [bob_row])] twice).
  intros Hnd. inversion Hnd as [| x l Hx _]; subst. apply Hx. left.
Defined.

Definition with_transaction : UpdateProcessor :=
  absorb (TransactionBatch [{| tp_id := 9%N; tp_account_id := 1%N; tp_transaction_type := "deposit";
                               tp_amount := amt 100; tp_timestamp := 0 |}]) two_accounts.

Lemma failed_flush_loses_accounts_witness :
  cached 10 (ps_account_cache (up_store (snd (flush_batches 10 with_transaction)))) 1%N
    = Some (alice_row 100) /\
  pdb_accounts (ps_pool (up_store (snd (flush_batches 10 with_transaction))))
    = pdb_accounts (ps_pool (up_store with_transaction)).
Proof.
  destruct (failed_flush_loses_accounts 10 with_transaction no_index
              (snd (flush_batches 10 with_transaction)) (alice_row 100)) as (Hc & Hkept & _);
    [ reflexivity .. | left |]. split; [ exact Hc | apply Hkept; discriminate ].
Defined.

Lemma reads_current_or_recently_cached_witness :
  pdb_accounts (ps_pool (snd (get_account 900 5 1%N (up_store flushed))))
    = pdb_accounts (ps_pool (up_store flushed)) /\
  Some (alice_row 100) = pdb_accounts (ps_pool (up_store flushed)) !! 1%N /\
  (forall a, Some (alice_row 100) = Some a ->
     ps_account_cache (snd (get_account 900 5 1%N (up_store flushed))) !! 1%N
       = Some (entry_of 900 0 300 a)).
Proof.
  exact (reads_current_or_recently_cached 900 5 1%N (up_store flushed) (Some (alice_row 100)) _
           eq_refl).
Defined.

End ProjectionsWitness.
