(* ===== verification/RedisGuard.v ===== *)
(** The guards around the Redis client
    (src/src/infrastructure/redis_abstraction.rs): the circuit breaker and the
    load shedder.

    [RedisClientTrait] is the source's trait; [CircuitBreakerRedisClient] and
    [LoadSheddingRedisClient] implement it over any other client.  The calls of
    several tasks interleave at the breaker's own locks, so [breaker_step] takes
    counting a failure and opening the breaker as two steps; [guarded] is one
    call on its own.  Times are milliseconds, passed as arguments; a call has two,
    when it asks the breaker and when it records the outcome. *)
From S2P Require Import Prelude.
From stdpp Require Import base tactics list relations gmap strings.
From Stdlib Require Import ZArith Lia.

(** [redis::RedisError], as far as the guards make one. *)
Inductive RedisError : Type :=
| RedisIo (msg : string)
| RedisFailure (msg : string).

Record RedisPoolConfig : Type := {
  rpc_min_connections : Z;
  rpc_max_connections : Z;
  rpc_connection_timeout_ms : Z;
  rpc_idle_timeout_ms : Z
}.

Definition RedisPoolConfig_default : RedisPoolConfig :=
  {| rpc_min_connections := 50; rpc_max_connections := 200; rpc_connection_timeout_ms := 5000;
     rpc_idle_timeout_ms := 300000 |}.

Class RedisClientTrait : Type := {
  Client : Type;
  Connection : Type;
  PooledConnection : Type;
  rc_get_connection : M Client RedisError Connection;
  rc_get_pooled_connection : M Client RedisError PooledConnection;
  rc_get_pool_config : Client -> RedisPoolConfig;
  rc_get : string -> M Client RedisError (option string);
  rc_set : string -> string -> M Client RedisError unit;
  rc_del : string -> M Client RedisError unit
}.

(** ** The circuit breaker *)
Record CircuitBreakerConfig : Type := {
  cbc_failure_threshold : Z;
  cbc_reset_timeout : Z;
  cbc_half_open_timeout : Z
}.

Definition CircuitBreakerConfig_default : CircuitBreakerConfig :=
  {| cbc_failure_threshold := 5; cbc_reset_timeout := 30000; cbc_half_open_timeout := 5000 |}.

Inductive CircuitState : Type :=
| Closed
| Open (since : Z)
| HalfOpen.

Record CircuitBreaker : Type := {
  cb_state : CircuitState;
  cb_failure_count : Z;
  cb_config : CircuitBreakerConfig
}.

Definition CircuitBreaker_new (config : CircuitBreakerConfig) : CircuitBreaker :=
  {| cb_state := Closed; cb_failure_count := 0; cb_config := config |}.

Definition put_state (st : CircuitState) (b : CircuitBreaker) : CircuitBreaker :=
  {| cb_state := st; cb_failure_count := cb_failure_count b; cb_config := cb_config b |}.

Definition put_failures (n : Z) (b : CircuitBreaker) : CircuitBreaker :=
  {| cb_state := cb_state b; cb_failure_count := n; cb_config := cb_config b |}.

(** [CircuitBreaker::allow_request]. *)
Definition allow_request (now : Z) (b : CircuitBreaker) : bool * CircuitBreaker :=
  match cb_state b with
  | Closed => (true, b)
  | Open open_time =>
      if (cbc_reset_timeout (cb_config b) <=? now - open_time)%Z
      then (true, put_state HalfOpen b)
      else (false, b)
  | HalfOpen => (true, b)
  end.

(** [CircuitBreaker::record_success]. *)
Definition record_success (b : CircuitBreaker) : CircuitBreaker :=
  match cb_state b with
  | HalfOpen => put_failures 0 (put_state Closed b)
  | _ => b
  end.

(** [CircuitBreaker::record_failure]: count, then open at the threshold. *)
Definition count_failure (b : CircuitBreaker) : bool * CircuitBreaker :=
  let failures := wrap_u64 (cb_failure_count b + 1) in
  ((cbc_failure_threshold (cb_config b) <=? failures)%Z, put_failures failures b).

Definition record_failure (now : Z) (b : CircuitBreaker) : CircuitBreaker :=
  let '(reached, b') := count_failure b in
  if reached then put_state (Open now) b' else b'.

Section Breaker.
Context `{RedisClientTrait}.

Record CircuitBreakerRedisClient : Type := {
  cbr_inner : Client;
  cbr_circuit_breaker : CircuitBreaker
}.

Definition CircuitBreakerRedisClient_new (client : Client) (config : CircuitBreakerConfig)
  : CircuitBreakerRedisClient :=
  {| cbr_inner := client; cbr_circuit_breaker := CircuitBreaker_new config |}.

Definition circuit_open : RedisError := RedisIo "Circuit breaker is open".

(** The body of every method: ask the breaker at [now.1], call the inner client,
    record what it answers at [now.2]. *)
Definition guarded {A} (now : Z * Z) (op : M Client RedisError A)
  : M CircuitBreakerRedisClient RedisError A :=
  fun c =>
    let '(allowed, b) := allow_request now.1 (cbr_circuit_breaker c) in
    if negb allowed then (Err circuit_open, {| cbr_inner := cbr_inner c; cbr_circuit_breaker := b |})
    else
      let '(r, i) := op (cbr_inner c) in
      let b' := match r with
                | Ok _ => record_success b
                | Err _ => record_failure now.2 b
                | _ => b
                end in
      (r, {| cbr_inner := i; cbr_circuit_breaker := b' |}).

(** [impl RedisClientTrait for CircuitBreakerRedisClient]. *)
Definition circuit_breaker_client (now : Z * Z) : RedisClientTrait := {|
  Client := CircuitBreakerRedisClient;
  Connection := Connection;
  PooledConnection := PooledConnection;
  rc_get_connection := guarded now rc_get_connection;
  rc_get_pooled_connection := guarded now rc_get_pooled_connection;
  rc_get_pool_config := fun c => rc_get_pool_config (cbr_inner c);
  rc_get := fun key => guarded now (rc_get key);
  rc_set := fun key value => guarded now (rc_set key value);
  rc_del := fun key => guarded now (rc_del key)
|}.

(** A run of calls, each at its own times. *)
Fixpoint calls {A} (ops : list (Z * Z * M Client RedisError A)) (c : CircuitBreakerRedisClient)
  : list (res RedisError A) * CircuitBreakerRedisClient :=
  match ops with
  | [] => ([], c)
  | (now, op) :: rest =>
      let '(r, c1) := guarded now op c in
      let '(rs, c2) := calls rest c1 in
      (r :: rs, c2)
  end.

End Breaker.

(** ** The breaker under interleaved calls *)
Record Breakers : Type := {
  bs_breaker : CircuitBreaker;
  bs_opening : nat  (** failures that reached the threshold and still have to open it *)
}.

Inductive breaker_step : Breakers -> Breakers -> Prop :=
| bs_allow now s allowed b :
    allow_request now (bs_breaker s) = (allowed, b) ->
    breaker_step s {| bs_breaker := b; bs_opening := bs_opening s |}
| bs_success s :
    breaker_step s {| bs_breaker := record_success (bs_breaker s); bs_opening := bs_opening s |}
| bs_failure s (reached : bool) b :
    count_failure (bs_breaker s) = (reached, b) ->
    breaker_step s {| bs_breaker := b;
                      bs_opening := if reached then S (bs_opening s) else bs_opening s |}
| bs_open now s n :
    bs_opening s = S n ->
    breaker_step s {| bs_breaker := put_state (Open now) (bs_breaker s); bs_opening := n |}.

Definition breaker_reachable (config : CircuitBreakerConfig) : Breakers -> Prop :=
  rtc breaker_step {| bs_breaker := CircuitBreaker_new config; bs_opening := 0 |}.

(** ** The load shedder *)
Record LoadShedderConfig : Type := {
  lsc_max_concurrent_requests : nat;
  lsc_max_queue_size : nat;
  lsc_queue_timeout_ms : Z;
  lsc_cpu_threshold : f64;
  lsc_memory_threshold : f64
}.

(** [LoadShedderConfig::default]; both thresholds are [0.8]. *)
Definition LoadShedderConfig_default : LoadShedderConfig :=
  {| lsc_max_concurrent_requests := 2 * 1000; lsc_max_queue_size := 10 * 1000;
     lsc_queue_timeout_ms := 50;
     lsc_cpu_threshold := f64_div (f64_of_u64 8) (f64_of_u64 10);
     lsc_memory_threshold := f64_div (f64_of_u64 8) (f64_of_u64 10) |}.

Record LoadShedder : Type := {
  ls_semaphore : nat;
  ls_config : LoadShedderConfig;
  ls_current_load : Z;
  ls_rejected_requests : Z
}.

Definition LoadShedder_new (config : LoadShedderConfig) : LoadShedder :=
  {| ls_semaphore := lsc_max_concurrent_requests config; ls_config := config;
     ls_current_load := 0; ls_rejected_requests := 0 |}.

(** [LoadShedder::get_cpu_usage] and [get_memory_usage]. *)
Definition get_cpu_usage : f64 := f64_of_u64 0.

Definition get_memory_usage : f64 := f64_of_u64 0.

(** [LoadShedder::is_system_overloaded]: [a > b] is [b < a]. *)
Definition is_system_overloaded (s : LoadShedder) : bool :=
  f64_ltb (lsc_cpu_threshold (ls_config s)) get_cpu_usage
  || f64_ltb (lsc_memory_threshold (ls_config s)) get_memory_usage.

Record LoadShedderMetrics : Type := {
  lsm_current_load : Z;
  lsm_rejected_requests : Z;
  lsm_max_concurrent_requests : nat;
  lsm_max_queue_size : nat
}.

(** [LoadShedder::get_metrics]. *)
Definition get_metrics (s : LoadShedder) : LoadShedderMetrics :=
  {| lsm_current_load := ls_current_load s; lsm_rejected_requests := ls_rejected_requests s;
     lsm_max_concurrent_requests := lsc_max_concurrent_requests (ls_config s);
     lsm_max_queue_size := lsc_max_queue_size (ls_config s) |}.

(** The permit: the counter its clone of the shedder holds. *)
Record LoadShedderPermit : Type := { lsp_current_load : Z }.

Definition ls_with (permits : nat) (load rejected : Z) (s : LoadShedder) : LoadShedder :=
  {| ls_semaphore := permits; ls_config := ls_config s; ls_current_load := load;
     ls_rejected_requests := rejected |}.

(** [LoadShedder::acquire_permit], when the semaphore has a permit within the
    queue timeout or not. *)
Definition acquire_permit : M LoadShedder RedisError LoadShedderPermit :=
  fun s =>
    if is_system_overloaded s then
      (Err (RedisIo "System is overloaded"),
       ls_with (ls_semaphore s) (ls_current_load s) (inc_u64 (ls_rejected_requests s)) s)
    else
      match ls_semaphore s with
      | S n =>
          let load := inc_u64 (ls_current_load s) in
          (Ok {| lsp_current_load := load |}, ls_with n load (ls_rejected_requests s) s)
      | O =>
          (Err (RedisIo "Request queue is full"),
           ls_with 0 (ls_current_load s) (inc_u64 (ls_rejected_requests s)) s)
      end.

(** [Drop for LoadShedderPermit]: the clone's counter is decremented, the
    semaphore's permit returned. *)
Definition drop_permit (p : LoadShedderPermit) (s : LoadShedder) : LoadShedderPermit * LoadShedder :=
  ({| lsp_current_load := wrap_u64 (lsp_current_load p - 1) |},
   ls_with (S (ls_semaphore s)) (ls_current_load s) (ls_rejected_requests s) s).

Section Shedder.
Context `{RedisClientTrait}.

Record LoadSheddingRedisClient : Type := {
  lsr_inner : Client;
  lsr_load_shedder : LoadShedder
}.

Definition LoadSheddingRedisClient_new (client : Client) (config : LoadShedderConfig)
  : LoadSheddingRedisClient :=
  {| lsr_inner := client; lsr_load_shedder := LoadShedder_new config |}.

(** [LoadSheddingRedisClient::get_metrics]. *)
Definition shedding_get_metrics (c : LoadSheddingRedisClient) : LoadShedderMetrics :=
  get_metrics (lsr_load_shedder c).

(** The body of every method: a permit held while the inner client runs. *)
Definition shed {A} (op : M Client RedisError A) : M LoadSheddingRedisClient RedisError A :=
  fun c =>
    match acquire_permit (lsr_load_shedder c) with
    | (Ok permit, s) =>
        let '(r, i) := op (lsr_inner c) in
        (r, {| lsr_inner := i; lsr_load_shedder := snd (drop_permit permit s) |})
    | (Err e, s) => (Err e, {| lsr_inner := lsr_inner c; lsr_load_shedder := s |})
    | (Panic, s) => (Panic, {| lsr_inner := lsr_inner c; lsr_load_shedder := s |})
    | (Hang, s) => (Hang, {| lsr_inner := lsr_inner c; lsr_load_shedder := s |})
    end.

(** [impl RedisClientTrait for LoadSheddingRedisClient]. *)
Definition load_shedding_client : RedisClientTrait := {|
  Client := LoadSheddingRedisClient;
  Connection := Connection;
  PooledConnection := PooledConnection;
  rc_get_connection := shed rc_get_connection;
  rc_get_pooled_connection := shed rc_get_pooled_connection;
  rc_get_pool_config := fun c => rc_get_pool_config (lsr_inner c);
  rc_get := fun key => shed (rc_get key);
  rc_set := fun key value => shed (rc_set key value);
  rc_del := fun key => shed (rc_del key)
|}.

End Shedder.

(** Concurrent holders of permits: [sh_held] permits are out, [sh_served] have
    ever been given. *)
Record Holders : Type := {
  sh_shedder : LoadShedder;
  sh_held : nat;
  sh_served : nat
}.

Inductive shedder_step : Holders -> Holders -> Prop :=
| sh_acquire h p s :
    acquire_permit (sh_shedder h) = (Ok p, s) ->
    shedder_step h {| sh_shedder := s; sh_held := S (sh_held h); sh_served := S (sh_served h) |}
| sh_reject h e s :
    acquire_permit (sh_shedder h) = (Err e, s) ->
    shedder_step h {| sh_shedder := s; sh_held := sh_held h; sh_served := sh_served h |}
| sh_release h p n :
    sh_held h = S n ->
    shedder_step h {| sh_shedder := snd (drop_permit p (sh_shedder h)); sh_held := n;
                      sh_served := sh_served h |}.

Definition shedder_reachable (config : LoadShedderConfig) : Holders -> Prop :=
  rtc shedder_step {| sh_shedder := LoadShedder_new config; sh_held := 0; sh_served := 0 |}.

(** ** Properties of the breaker *)
Section BreakerFacts.
Context `{RedisClientTrait}.

(** While the breaker is open and its reset timeout has not passed, a call
    fails at once, does not touch the inner client and leaves the breaker as it
    is. *)
Theorem open_breaker_shields_client {A} now (op : M Client RedisError A) c since :
  cb_state (cbr_circuit_breaker c) = Open since ->
  (now.1 - since < cbc_reset_timeout (cb_config (cbr_circuit_breaker c)))%Z ->
  guarded now op c = (Err circuit_open, c).
Proof.
  intros Hopen Hearly. unfold guarded, allow_request. rewrite Hopen.
  destruct (Z.leb_spec (cbc_reset_timeout (cb_config (cbr_circuit_breaker c))) (now.1 - since)); [ lia |].
  by destruct c.
Qed.

Lemma guarded_failing {A} now (op : M Client RedisError A) c e :
  cb_state (cbr_circuit_breaker c) = Closed -> (forall i, op i = (Err e, i)) ->
  guarded now op c
    = (Err e, {| cbr_inner := cbr_inner c;
                 cbr_circuit_breaker := record_failure now.2 (cbr_circuit_breaker c) |}).
Proof. intros Hc Hop. unfold guarded, allow_request. rewrite Hc. simpl. by rewrite Hop. Qed.

Lemma calls_cons {A} now (op : M Client RedisError A) ops c :
  snd (calls ((now, op) :: ops) c) = snd (calls ops (snd (guarded now op c))).
Proof. simpl. destruct (guarded now op c) as [r c1]. simpl. by destruct (calls ops c1). Qed.

Lemma failing_calls {A} (op : M Client RedisError A) e times c :
  cb_state (cbr_circuit_breaker c) = Closed -> (forall i, op i = (Err e, i)) -> times <> [] ->
  let b := cbr_circuit_breaker c in
  (0 <= cb_failure_count b)%Z ->
  (cb_failure_count b + Z.of_nat (length times) = cbc_failure_threshold (cb_config b))%Z ->
  (cbc_failure_threshold (cb_config b) <= u64_max)%Z ->
  exists b', snd (calls (map (fun t => (t, op)) times) c)
               = {| cbr_inner := cbr_inner c; cbr_circuit_breaker := b' |} /\
    cb_config b' = cb_config b /\ cb_state b' = Open (List.last times (0, 0)%Z).2 /\
    cb_failure_count b' = cbc_failure_threshold (cb_config b).
Proof.
  intros Hc Hop Hne. revert c Hc. induction times as [| t times IH]; [ done |].
  intros c Hc b Hpos Hlen Hmax. cbn [length] in Hlen. cbn [map].
  rewrite calls_cons, (guarded_failing t op c e Hc Hop). cbn [snd]. unfold record_failure, count_failure. fold b.
  assert (wrap_u64 (cb_failure_count b + 1) = cb_failure_count b + 1)%Z as Hw
    by (apply wrap_u64_id; unfold in_u64; lia).
  rewrite Hw. destruct times as [| t' times].
  - simpl in Hlen. destruct (Z.leb_spec (cbc_failure_threshold (cb_config b)) (cb_failure_count b + 1));
      [| lia ]. eexists. split; [ reflexivity |]. simpl. split_and!; first [ done | lia ].
  - cbn [length] in Hlen.
    destruct (Z.leb_spec (cbc_failure_threshold (cb_config b)) (cb_failure_count b + 1)); [ lia |].
    set (c1 := {| cbr_inner := cbr_inner c |}).
    destruct (IH ltac:(done) c1 ltac:(done)) as (b' & Hb' & Hrest); cbn; [ lia | lia | done |].
    exists b'. split; [ exact Hb' | exact Hrest ].
Qed.

(** C31. The breaker trips at its threshold: from a new client, as many failing
    calls as the threshold reach the inner client and leave the breaker open
    since the last of them, so that calls within the reset timeout are refused. *)
Theorem breaker_trips_at_threshold {A B} (op : M Client RedisError A) e times config inner
    (op' : M Client RedisError B) now :
  (forall i, op i = (Err e, i)) ->
  Z.of_nat (length times) = cbc_failure_threshold config -> times <> [] ->
  (cbc_failure_threshold config <= u64_max)%Z ->
  (now.1 - (List.last times (0, 0)).2 < cbc_reset_timeout config)%Z ->
  let c := {| cbr_inner := inner; cbr_circuit_breaker := CircuitBreaker_new config |} in
  let '(rs, c') := calls (map (fun t => (t, op)) times) c in
  fst (guarded now op' c') = Err circuit_open /\ cbr_inner c' = inner.
Proof.
  intros Hop Hlen Hne Hmax Hearly c.
  destruct (failing_calls op e times c eq_refl Hop Hne) as (b' & Hb' & Hcfg & Hst & _);
    simpl; [ lia | lia | done |].
  destruct (calls _ c) as [rs c'] eqn:Hcalls. simpl in Hb'. subst c'.
  split; [| done ]. unfold guarded, allow_request. simpl. rewrite Hst, Hcfg. simpl.
  destruct (Z.leb_spec (cbc_reset_timeout config) (now.1 - (List.last times (0, 0)%Z).2)); [ lia | done ].
Qed.

(** The breaker recovers: once the reset timeout has passed, the next call
    reaches the inner client, and if it succeeds the breaker is closed with its
    failures forgotten; if it fails the breaker is open again from that time. *)
Theorem breaker_probes_after_timeout {A} now (op : M Client RedisError A) c since :
  cb_state (cbr_circuit_breaker c) = Open since ->
  (cbc_reset_timeout (cb_config (cbr_circuit_breaker c)) <= now.1 - since)%Z ->
  (cbc_failure_threshold (cb_config (cbr_circuit_breaker c)) <= cb_failure_count (cbr_circuit_breaker c))%Z ->
  (0 <= cb_failure_count (cbr_circuit_breaker c) < u64_max)%Z ->
  match op (cbr_inner c) with
  | (Ok a, i) =>
      guarded now op c = (Ok a, {| cbr_inner := i;
        cbr_circuit_breaker := CircuitBreaker_new (cb_config (cbr_circuit_breaker c)) |})
  | (Err e, i) =>
      fst (guarded now op c) = Err e /\ cbr_inner (snd (guarded now op c)) = i /\
      cb_state (cbr_circuit_breaker (snd (guarded now op c))) = Open now.2
  | _ => True
  end.
Proof.
  intros Hopen Hlate Hthr Hcount. unfold guarded, allow_request. rewrite Hopen.
  destruct (Z.leb_spec (cbc_reset_timeout (cb_config (cbr_circuit_breaker c))) (now.1 - since)); [| lia ].
  simpl. destruct (op (cbr_inner c)) as [[a | e | | ] i]; try done.
  unfold record_failure, count_failure. simpl.
  rewrite wrap_u64_id by (unfold in_u64, u64_max in *; lia).
  by destruct (Z.leb_spec (cbc_failure_threshold (cb_config (cbr_circuit_breaker c)))
    (cb_failure_count (cbr_circuit_breaker c) + 1)); [| lia ].
Qed.

End BreakerFacts.

(** Under any interleaving of calls a closed breaker has counted fewer
    failures than its threshold since it last closed, unless a failure that
    reached the threshold is about to open it. *)
Theorem closed_breaker_below_threshold config s :
  (0 < cbc_failure_threshold config)%Z -> breaker_reachable config s ->
  cb_state (bs_breaker s) = Closed -> bs_opening s = 0%nat ->
  (cb_failure_count (bs_breaker s) < cbc_failure_threshold config)%Z.
Proof.
  intros Hthr Hr.
  enough (cb_config (bs_breaker s) = config /\
    (cb_state (bs_breaker s) = Closed -> bs_opening s = 0%nat ->
     (cb_failure_count (bs_breaker s) < cbc_failure_threshold config)%Z)) as [_ Hs] by exact Hs.
  apply (rtc_ind_r (R := breaker_step) (fun s => cb_config (bs_breaker s) = config /\
    (cb_state (bs_breaker s) = Closed -> bs_opening s = 0%nat ->
     (cb_failure_count (bs_breaker s) < cbc_failure_threshold config)%Z))
    {| bs_breaker := CircuitBreaker_new config; bs_opening := 0 |}); [ by simpl | | done ].
  clear s Hr. intros s1 s2 _ Hstep [Hcfg IH].
  destruct Hstep as [now s allowed b Ha | s | s reached b Hc | now s n Hn]; simpl.
  - unfold allow_request in Ha. destruct (cb_state (bs_breaker s)) eqn:Hst; simplify_eq; auto;
      [| by split; [| intros; congruence ] ].
    destruct (_ <=? _)%Z; simplify_eq; simpl; (split; [ done | intros; congruence ]).
  - unfold record_success. destruct (cb_state (bs_breaker s)) eqn:Hst; simpl; rewrite ?Hst; auto.
  - unfold count_failure in Hc. simplify_eq. simpl. split; [ done |]. intros Hst Hop.
    destruct (Z.leb_spec (cbc_failure_threshold (cb_config (bs_breaker s)))
      (wrap_u64 (cb_failure_count (bs_breaker s) + 1))); [ done |]. done.
  - by split.
Qed.

(** ** Properties of the shedder *)
Lemma acquire_permit_spec s r s' :
  acquire_permit s = (r, s') ->
  ls_config s' = ls_config s /\
  match r with
  | Ok p => ls_semaphore s = S (ls_semaphore s') /\
            ls_current_load s' = inc_u64 (ls_current_load s)
  | _ => ls_semaphore s' = ls_semaphore s /\ ls_current_load s' = ls_current_load s
  end.
Proof.
  unfold acquire_permit. destruct (is_system_overloaded s); [ by intros; simplify_eq |].
  destruct (ls_semaphore s); intros; by simplify_eq.
Qed.

Lemma shedder_inv config h :
  shedder_reachable config h ->
  (ls_semaphore (sh_shedder h) + sh_held h)%nat = lsc_max_concurrent_requests config /\
  ls_current_load (sh_shedder h) = wrap_u64 (Z.of_nat (sh_served h)).
Proof.
  intros Hr.
  apply (rtc_ind_r (R := shedder_step) (fun h =>
    (ls_semaphore (sh_shedder h) + sh_held h)%nat = lsc_max_concurrent_requests config /\
    ls_current_load (sh_shedder h) = wrap_u64 (Z.of_nat (sh_served h)))
    {| sh_shedder := LoadShedder_new config; sh_held := 0; sh_served := 0 |}); [| | done ].
  { simpl. split; [ lia | done ]. }
  clear h Hr. intros h1 h2 _ Hstep [Hsum Hload].
  destruct Hstep as [h p s Ha | h e s Ha | h p n Hn]; simpl.
  - destruct (acquire_permit_spec _ _ _ Ha) as (_ & Hsem & Hl). split; [ lia |].
    rewrite Hl, Hload. unfold inc_u64, wrap_u64. rewrite Zplus_mod_idemp_l. f_equal. lia.
  - destruct (acquire_permit_spec _ _ _ Ha) as (_ & Hsem & Hl). rewrite Hsem, Hl. auto.
  - split; [ lia | done ].
Qed.

(** The load shedder bounds concurrency: whatever the interleaving, the
    permits out and the permits free add up to the configured maximum, and a
    request without a free permit is turned away and counted. *)
Theorem shedder_bounds_concurrency config h :
  shedder_reachable config h ->
  (ls_semaphore (sh_shedder h) + sh_held h)%nat = lsc_max_concurrent_requests config /\
  (sh_held h = lsc_max_concurrent_requests config ->
   is_system_overloaded (sh_shedder h) = false ->
   acquire_permit (sh_shedder h)
     = (Err (RedisIo "Request queue is full"),
        ls_with 0 (ls_current_load (sh_shedder h))
          (inc_u64 (ls_rejected_requests (sh_shedder h))) (sh_shedder h))).
Proof.
  intros Hr. destruct (shedder_inv config h Hr) as [Hsum _]. split; [ done |].
  intros Hfull Hload. unfold acquire_permit. rewrite Hload.
  by replace (ls_semaphore (sh_shedder h)) with 0%nat by lia.
Qed.

(** The reported load is not the load: [current_load] counts every permit
    ever given, because a returned permit decrements the counter of its own
    clone of the shedder. *)
Theorem current_load_counts_all_requests config h :
  shedder_reachable config h ->
  ls_current_load (sh_shedder h) = wrap_u64 (Z.of_nat (sh_served h)).
Proof. intros Hr. apply (shedder_inv config h Hr). Qed.

(** ** Witnesses: a client that answers, or fails, without state *)
Module GuardWitness.

#[export] Instance down : RedisClientTrait := {|
  Client := nat;
  Connection := unit;
  PooledConnection := unit;
  rc_get_connection := throw (RedisFailure "down");
  rc_get_pooled_connection := throw (RedisFailure "down");
  rc_get_pool_config := fun _ => RedisPoolConfig_default;
  rc_get := fun _ => throw (RedisFailure "down");
  rc_set := fun _ _ => modify S;
  rc_del := fun _ => throw (RedisFailure "down")
|}.

Definition breaker (st : CircuitState) (failures : Z) : CircuitBreaker :=
  {| cb_state := st; cb_failure_count := failures; cb_config := CircuitBreakerConfig_default |}.

Definition client (st : CircuitState) (failures : Z) : CircuitBreakerRedisClient :=
  {| cbr_inner := (7%nat : @Client down); cbr_circuit_breaker := breaker st failures |}.

Lemma open_breaker_shields_client_witness :
  guarded (20000, 20003)%Z (rc_set "k" "v") (client (Open 0) 5) = (Err circuit_open, client (Open 0) 5).
Proof. apply (open_breaker_shields_client (20000, 20003)%Z (rc_set "k" "v") (client (Open 0) 5) 0); reflexivity. Defined.

Lemma breaker_trips_at_threshold_witness :
  fst (guarded (20000, 20003)%Z (rc_set "k" "v")
         (snd (calls (map (fun t => (t, rc_get "k")) [(1, 2); (2, 2); (3, 9); (4, 6); (5, 12)]%Z) (client Closed 0))))
    = Err circuit_open /\
  cbr_inner (snd (calls (map (fun t => (t, rc_get "k")) [(1, 2); (2, 2); (3, 9); (4, 6); (5, 12)]%Z) (client Closed 0))) = 7%nat.
Proof.
  refine (breaker_trips_at_threshold (rc_get "k") (RedisFailure "down") [(1, 2); (2, 2); (3, 9); (4, 6); (5, 12)]%Z
           CircuitBreakerConfig_default (7%nat : @Client down) (rc_set "k" "v") (20000, 20003)%Z _ _ _ _ _);
    [ reflexivity | reflexivity | discriminate | vm_compute; discriminate | reflexivity ].
Defined.

Lemma breaker_probes_after_timeout_witness :
  guarded (40000, 40003)%Z (rc_set "k" "v") (client (Open 0) 5)
    = (Ok tt, {| cbr_inner := (8%nat : @Client down);
                 cbr_circuit_breaker := CircuitBreaker_new CircuitBreakerConfig_default |}).
Proof.
  refine (breaker_probes_after_timeout (40000, 40003)%Z (rc_set "k" "v") (client (Open 0) 5) 0 _ _ _ _);
    [ reflexivity | vm_compute; discriminate | vm_compute; discriminate | vm_compute; split; [ discriminate | reflexivity ] ].
Defined.

Lemma closed_breaker_below_threshold_witness :
  (cb_failure_count (breaker Closed 1) < cbc_failure_threshold CircuitBreakerConfig_default)%Z.
Proof.
  apply (closed_breaker_below_threshold CircuitBreakerConfig_default
           {| bs_breaker := breaker Closed 1; bs_opening := 0 |});
    [ reflexivity | | reflexivity | reflexivity ].
  eapply rtc_l; [ apply (bs_failure _ false (breaker Closed 1)); reflexivity |]. apply rtc_refl.
Defined.

Definition shedder_config : LoadShedderConfig :=
  {| lsc_max_concurrent_requests := 1; lsc_max_queue_size := 1; lsc_queue_timeout_ms := 50;
     lsc_cpu_threshold := f64_of_u64 1; lsc_memory_threshold := f64_of_u64 1 |}.

(** One request served and done, a second one being served. *)
Definition busy : Holders :=
  {| sh_shedder := {| ls_semaphore := 0; ls_config := shedder_config; ls_current_load := 2;
                      ls_rejected_requests := 0 |};
     sh_held := 1; sh_served := 2 |}.

Lemma busy_reachable : shedder_reachable shedder_config busy.
Proof.
  unfold shedder_reachable.
  eapply rtc_l; [ eapply (sh_acquire _ {| lsp_current_load := 1 |}); reflexivity |].
  eapply rtc_l; [ apply (sh_release _ {| lsp_current_load := 1 |} 0); reflexivity |].
  eapply rtc_l; [ eapply (sh_acquire _ {| lsp_current_load := 2 |}); reflexivity |].
  apply rtc_refl.
Defined.

Lemma shedder_bounds_concurrency_witness :
  (0 + 1)%nat = lsc_max_concurrent_requests shedder_config /\
  (1%nat = lsc_max_concurrent_requests shedder_config ->
   is_system_overloaded (sh_shedder busy) = false ->
   acquire_permit (sh_shedder busy)
     = (Err (RedisIo "Request queue is full"), ls_with 0 2 1 (sh_shedder busy))).
Proof. exact (shedder_bounds_concurrency shedder_config busy busy_reachable). Defined.

Lemma current_load_counts_all_requests_witness : ls_current_load (sh_shedder busy) = 2%Z.
Proof. exact (current_load_counts_all_requests shedder_config busy busy_reachable). Defined.

End GuardWitness.
