(* ===== verification/RedisClient.v ===== *)
(** The Redis clients (src/src/infrastructure/redis_abstraction.rs):
    [RealRedisClient], the pooled [RedisConnection], [RedisPipeline] and the plain
    [RedisClient], and the stack of the guards of [RedisGuard] over a client.

    [RedisServer] is the server behind the redis crate: connecting, one command,
    a pipeline of commands, the keys a scan yields.  [FromValue] are the crate's
    conversions of replies.  [RedisServerLaws] and [FromValueLaws] state what
    Redis and the crate document of them.  A connection is used under its mutex,
    one command at a time, so its commands run on the server directly. *)
From S2P Require Import Prelude.
From S2P Require Import RedisGuard.
From stdpp Require Import base tactics list gmap strings.
From Stdlib Require Import ZArith Lia.

(** ** Commands and replies *)
Inductive Cmd : Type :=
| GET (key : string)
| SET (key value : string)
| SETEX (key value : string) (seconds : Z)
| SET_NX_EX (key value : string) (seconds : Z)
| SET_OPTIONS (key value : string) (options : list string)
| DEL (key : string)
| EXISTS (key : string)
| RPUSH (key : string) (values : list string)
| LRANGE (key : string) (start stop : Z).

(** [redis::Value]. *)
Inductive Reply : Type :=
| Nil
| Int (n : Z)
| BulkString (s : string)
| Okay
| Array (l : list Reply).

Class RedisServer : Type := {
  Server : Type;
  sv_connect : M Server RedisError unit;
  sv_query : Cmd -> M Server RedisError Reply;
  sv_pipeline : list Cmd -> M Server RedisError (list Reply);
  (** the items of [SCAN .. MATCH pattern], to the end of the iteration *)
  sv_scan : string -> M Server RedisError (list string)
}.

(** [FromRedisValue], at the types the clients ask for; [()] is always [Ok]. *)
Class FromValue : Type := {
  to_option_string : Reply -> res RedisError (option string);
  to_bool : Reply -> res RedisError bool;
  to_values : Reply -> res RedisError (list Reply)
}.

(** What a key holds. *)
Inductive Held : Type :=
| Text (s : string)
| List (l : list string).

(** Whether a command can change what key [j] holds. *)
Definition writes (c : Cmd) (j : string) : bool :=
  match c with
  | GET _ | EXISTS _ | LRANGE _ _ _ => false
  | SET k _ | SETEX k _ _ | SET_NX_EX k _ _ | SET_OPTIONS k _ _ | DEL k | RPUSH k _ => bool_decide (k = j)
  end.

(** Redis on the keys it holds when a command runs, each with whether it has a
    time to live: a key without one stays until a command on it, whether or not
    other commands, or connections, fail. *)
Class RedisServerLaws `{RedisServer} : Type := {
  sv_keys : Server -> gmap string (Held * bool);
  sv_connect_keeps : forall s j h,
    sv_keys s !! j = Some (h, false) -> sv_keys (snd (sv_connect s)) !! j = Some (h, false);
  sv_query_keeps : forall c s j h, writes c j = false ->
    sv_keys s !! j = Some (h, false) -> sv_keys (snd (sv_query c s)) !! j = Some (h, false);
  sv_get_ok : forall k s v s' t ttl,
    sv_query (GET k) s = (Ok v, s') -> sv_keys s !! k = Some (Text t, ttl) -> v = BulkString t;
  sv_set_ok : forall k t s v s', sv_query (SET k t) s = (Ok v, s') -> sv_keys s' !! k = Some (Text t, false);
  sv_set_nx_ok : forall k t n s v s', sv_query (SET_NX_EX k t n) s = (Ok v, s') ->
    match sv_keys s !! k with
    | None => v = Okay /\ sv_keys s' !! k = Some (Text t, true)
    | Some _ => v = Nil
    end
}.

Class FromValueLaws `{FromValue} : Type := {
  option_string_nil : to_option_string Nil = Ok None;
  option_string_bulk : forall s, to_option_string (BulkString s) = Ok (Some s)
}.

Section Clients.
Context `{RedisServer} `{FromValue}.

Definition query {A} (convert : Reply -> res RedisError A) (c : Cmd) : M Server RedisError A :=
  let! v := sv_query c in lift (convert v).

Definition to_unit (v : Reply) : res RedisError unit := Ok tt.

(** ** [RealRedisClient] *)
Record RealRedisClient : Type := {
  rr_client : Server;
  rr_pool_config : RedisPoolConfig
}.

Definition RealRedisClient_new (client : Server) (pool_config : option RedisPoolConfig) : RealRedisClient :=
  {| rr_client := client; rr_pool_config := default RedisPoolConfig_default pool_config |}.

Definition put_client (s : Server) (c : RealRedisClient) : RealRedisClient :=
  {| rr_client := s; rr_pool_config := rr_pool_config c |}.

(** A method: a connection, then the command on it. *)
Definition connected {A} (m : M Server RedisError A) : M RealRedisClient RedisError A :=
  zoom rr_client put_client (sv_connect ;;; m).

(** [impl RedisClientTrait for RealRedisClient]; a connection is the right to run
    commands on the server. *)
#[local] Instance real_redis_client : RedisClientTrait := {
  Client := RealRedisClient;
  Connection := unit;
  PooledConnection := unit;
  rc_get_connection := connected (ret tt);
  rc_get_pooled_connection := connected (ret tt);
  rc_get_pool_config := rr_pool_config;
  rc_get := fun key => connected (query to_option_string (GET key));
  rc_set := fun key value => connected (query to_unit (SET key value));
  rc_del := fun key => connected (query to_unit (DEL key))
}.

(** ** [RedisConnection] *)
Definition get_bytes (key : string) : M Server RedisError Reply := sv_query (GET key).

Definition set_ex_bytes (key value : string) (seconds : Z) : M Server RedisError unit :=
  query to_unit (SETEX key value seconds).

Definition del_bytes (key : string) : M Server RedisError unit := query to_unit (DEL key).

Definition rpush_bytes (key : string) (values : list string) : M Server RedisError unit :=
  query to_unit (RPUSH key values).

Definition lrange_bytes (key : string) (start stop : Z) : M Server RedisError (list Reply) :=
  query to_values (LRANGE key start stop).

(** [keys.push(key)] for each item of the iterator. *)
Fixpoint collect (keys items : list string) : list string :=
  match items with
  | [] => keys
  | key :: rest => collect (keys ++ [key]) rest
  end.

Definition scan_match_bytes (pattern : string) : M Server RedisError (list string) :=
  let! iter := sv_scan pattern in ret (collect [] iter).

Definition set_options_bytes (key value : string) (options : list string) :
    M Server RedisError (option string) :=
  query to_option_string (SET_OPTIONS key value options).

Definition is_okay (v : Reply) : bool := match v with Okay => true | _ => false end.

Definition set_nx_ex_bytes (key value : string) (seconds : Z) : M Server RedisError bool :=
  let! result := sv_query (SET_NX_EX key value seconds) in ret (is_okay result).

(** ** [RedisPipeline] *)
Record RedisPipeline : Type := { pipeline : list Cmd }.

Definition RedisPipeline_new : RedisPipeline := {| pipeline := [] |}.

Definition push (c : Cmd) (p : RedisPipeline) : RedisPipeline := {| pipeline := pipeline p ++ [c] |}.

Definition pipe_get (key : string) : RedisPipeline -> RedisPipeline := push (GET key).

Definition pipe_set_ex (key value : string) (seconds : Z) : RedisPipeline -> RedisPipeline :=
  push (SETEX key value seconds).

Definition pipe_del (key : string) : RedisPipeline -> RedisPipeline := push (DEL key).

Definition pipe_rpush (key : string) (values : list string) : RedisPipeline -> RedisPipeline :=
  push (RPUSH key values).

(** [RedisConnectionCommands::execute_pipeline] of [RedisConnection]; a pipeline
    executes itself through it. *)
Definition execute_pipeline (p : RedisPipeline) : M Server RedisError (list Reply) := sv_pipeline (pipeline p).

(** ** The plain [RedisClient] *)
Definition client_new : M Server RedisError unit := sv_connect.
Definition client_get (key : string) : M Server RedisError (option string) := query to_option_string (GET key).
Definition client_set (key value : string) : M Server RedisError unit := query to_unit (SET key value).
Definition client_set_ex (key value : string) (seconds : Z) : M Server RedisError unit :=
  query to_unit (SETEX key value seconds).
Definition client_del (key : string) : M Server RedisError unit := query to_unit (DEL key).
Definition client_exists (key : string) : M Server RedisError bool := query to_bool (EXISTS key).

(** ** Facts *)
Lemma collect_app keys items : collect keys items = keys ++ items.
Proof.
  revert keys. induction items as [| k items IH]; intros keys; simpl; [ by rewrite app_nil_r |].
  by rewrite IH, <- app_assoc.
Qed.

Lemma scan_match_keys pattern s ks s' :
  scan_match_bytes pattern s = (Ok ks, s') -> sv_scan pattern s = (Ok ks, s').
Proof.
  intros (iter & s1 & Hs & Hk)%bind_ok. unfold ret in Hk. simplify_eq. by rewrite collect_app.
Qed.

Context `{!RedisServerLaws} `{!FromValueLaws}.

Lemma query_unit_ok c s s' : query to_unit c s = (Ok tt, s') -> exists v, sv_query c s = (Ok v, s').
Proof. intros (v & s1 & Hq & Hk)%bind_ok. unfold lift, to_unit in Hk. simplify_eq. eauto. Qed.

(** [SET .. NX] is a lock: once granted it is granted to nobody else while the key
    stays. *)
Lemma set_nx_ex_exclusive k x n s s1 s2 y m s3 :
  set_nx_ex_bytes k x n s = (Ok true, s1) -> sv_keys s2 !! k = sv_keys s1 !! k ->
  set_nx_ex_bytes k y m s2 <> (Ok true, s3).
Proof.
  intros (v & s4 & Hq & Hk)%bind_ok Hsame (v' & s5 & Hq' & Hk')%bind_ok. unfold ret in Hk, Hk'. simplify_eq.
  pose proof (sv_set_nx_ok _ _ _ _ _ _ Hq) as Hnx. pose proof (sv_set_nx_ok _ _ _ _ _ _ Hq') as Hnx'.
  rewrite Hsame in Hnx'. destruct (sv_keys s !! k); [ by subst |]. destruct Hnx as [-> Hkeys].
  rewrite Hkeys in Hnx'. by subst.
Qed.

End Clients.

(** ** A client behind both guards *)
Inductive op : Type :=
| OpGet (key : string)
| OpSet (key value : string)
| OpDel (key : string).

Section Stack.
Context (C : RedisClientTrait).

(** One operation of a client of the trait. *)
Definition run_op (T : RedisClientTrait) (o : op) : M (@Client T) RedisError (option string) :=
  match o with
  | OpGet key => rc_get key
  | OpSet key value => rc_set key value ;;; ret None
  | OpDel key => rc_del key ;;; ret None
  end.

(** The circuit breaker over the load shedder over the client. *)
Definition guarded_client (now : Z * Z) : RedisClientTrait := @circuit_breaker_client (@load_shedding_client C) now.

Definition Guarded : Type := @CircuitBreakerRedisClient (@load_shedding_client C).

Definition guard (c : @Client C) (breaker : CircuitBreakerConfig) (shedder : LoadShedderConfig) : Guarded :=
  CircuitBreakerRedisClient_new (H := @load_shedding_client C)
    (LoadSheddingRedisClient_new c shedder) breaker.

Definition bare (g : Guarded) : @Client C := lsr_inner (cbr_inner g).

Fixpoint run_guarded (ops : list (Z * Z * op)) (g : Guarded) : list (res RedisError (option string)) * Guarded :=
  match ops with
  | [] => ([], g)
  | (now, o) :: rest =>
      let '(r, g1) := run_op (guarded_client now) o g in
      let '(rs, g2) := run_guarded rest g1 in
      (r :: rs, g2)
  end.

Fixpoint run_bare (ops : list (Z * Z * op)) (c : @Client C) : list (res RedisError (option string)) * @Client C :=
  match ops with
  | [] => ([], c)
  | (_, o) :: rest =>
      let '(r, c1) := run_op C o c in
      let '(rs, c2) := run_bare rest c1 in
      (r :: rs, c2)
  end.

(** The guards let everything through. *)
Definition open_for_all (g : Guarded) : Prop :=
  cb_state (cbr_circuit_breaker g) = Closed /\
  is_system_overloaded (lsr_load_shedder (cbr_inner g)) = false /\
  0 < ls_semaphore (lsr_load_shedder (cbr_inner g)).

Lemma guarded_passes {A} now (m : M (@Client C) RedisError A) g a c :
  open_for_all g -> m (bare g) = (Ok a, c) ->
  exists g', @guarded (@load_shedding_client C) A now (@shed C A m) g = (Ok a, g') /\ bare g' = c /\ open_for_all g'.
Proof.
  intros (Hclosed & Hload & Hfree) Hm. destruct g as [ [inner [permits config load rejected] ] b]. simpl in *.
  unfold guarded, allow_request. simpl. rewrite Hclosed. simpl. unfold shed, acquire_permit. simpl. rewrite Hload.
  destruct permits as [| n]; [ lia |]. simpl. unfold bare in Hm. simpl in Hm. rewrite Hm. simpl.
  eexists. split; [ reflexivity |]. split; [ done |]. unfold open_for_all, record_success. simpl. rewrite Hclosed.
  split_and!; [ done | done | lia ].
Qed.

Lemma run_op_passes now o g r c :
  open_for_all g -> run_op C o (bare g) = (Ok r, c) ->
  exists g', run_op (guarded_client now) o g = (Ok r, g') /\ bare g' = c /\ open_for_all g'.
Proof.
  intros Hg Hr. destruct o as [ k | k v | k ]; simpl in Hr |- *.
  - by apply guarded_passes.
  - apply bind_ok in Hr as ( [] & c1 & Hm & Hk). unfold ret in Hk. simplify_eq.
    destruct (guarded_passes now _ _ _ _ Hg Hm) as (g' & Hrun & Hrest). exists g'.
    split; [| done ]. by rewrite (bind_step _ _ _ _ _ Hrun).
  - apply bind_ok in Hr as ( [] & c1 & Hm & Hk). unfold ret in Hk. simplify_eq.
    destruct (guarded_passes now _ _ _ _ Hg Hm) as (g' & Hrun & Hrest). exists g'.
    split; [| done ]. by rewrite (bind_step _ _ _ _ _ Hrun).
Qed.

(** C32. The guards are transparent while nothing fails: with the breaker closed,
    the system not overloaded and a permit free, any sequence of operations on
    which the client itself reports no error gives through both guards the
    client's own answers, leaves the client in the same state, and leaves the
    guards open for the next one. *)
Theorem guards_transparent ops g :
  open_for_all g -> Forall (fun r => is_ok r = true) (fst (run_bare ops (bare g))) ->
  fst (run_guarded ops g) = fst (run_bare ops (bare g)) /\
  bare (snd (run_guarded ops g)) = snd (run_bare ops (bare g)) /\
  open_for_all (snd (run_guarded ops g)).
Proof.
  revert g. induction ops as [| [now o] ops IH]; intros g Hg Hall; [ done |]. simpl in *.
  destruct (run_op C o (bare g)) as [r c1] eqn:Hr. destruct (run_bare ops c1) as [rs c2] eqn:Hrest.
  simpl in Hall. apply Forall_cons in Hall as [Hok Hall]. destruct r as [a | | | ]; try done.
  destruct (run_op_passes now o g a c1 Hg Hr) as (g1 & Hrun & <- & Hg1). rewrite Hrun.
  destruct (IH g1 Hg1) as (Hrs & Hc & Hg2); [ by rewrite Hrest |]. rewrite Hrest in Hrs, Hc.
  destruct (run_guarded ops g1) as [rs' g2]. simpl in *. by subst.
Qed.

End Stack.

(** The guards do to the client what its operation does, or nothing. *)
Lemma respects_guarded {T : RedisClientTrait} {A} (R : relation (@Client T)) `{!PreOrder R} now
    (m : M (@Client T) RedisError A) :
  respects R m -> respects (fun g g' => R (cbr_inner g) (cbr_inner g')) (guarded now m).
Proof.
  intros Hm g. unfold guarded. specialize (Hm (cbr_inner g)).
  destruct (allow_request now.1 (cbr_circuit_breaker g)) as [ [] b]; simpl; [| reflexivity ].
  by destruct (m (cbr_inner g)).
Qed.

Lemma respects_shed {T : RedisClientTrait} {A} (R : relation (@Client T)) `{!PreOrder R}
    (m : M (@Client T) RedisError A) :
  respects R m -> respects (fun g g' => R (lsr_inner g) (lsr_inner g')) (shed m).
Proof.
  intros Hm g. unfold shed. specialize (Hm (lsr_inner g)).
  destruct (acquire_permit (lsr_load_shedder g)) as [ [] s]; simpl; try reflexivity.
  by destruct (m (lsr_inner g)).
Qed.

(** A success of a guarded call is a success of the client. *)
Lemma guarded_ok {T : RedisClientTrait} {A} now (m : M (@Client T) RedisError A) g a g' :
  guarded now m g = (Ok a, g') -> m (cbr_inner g) = (Ok a, cbr_inner g').
Proof.
  unfold guarded. destruct (allow_request now.1 (cbr_circuit_breaker g)) as [ [] b]; simpl; [| done ].
  destruct (m (cbr_inner g)). by intros; simplify_eq.
Qed.

Lemma shed_ok {T : RedisClientTrait} {A} (m : M (@Client T) RedisError A) g a g' :
  shed m g = (Ok a, g') -> m (lsr_inner g) = (Ok a, lsr_inner g').
Proof.
  unfold shed. destruct (acquire_permit (lsr_load_shedder g)) as [ [] s]; try done.
  destruct (m (lsr_inner g)). by intros; simplify_eq.
Qed.

(** ** What a client reads back *)
Section RoundTrip.
Context `{RedisServer} `{FromValue} `{!RedisServerLaws} `{!FromValueLaws}.

#[local] Existing Instance real_redis_client.

Definition holds (k v : string) (c : RealRedisClient) : Prop :=
  sv_keys (rr_client c) !! k = Some (Text v, false).

(** An operation that does not write [k]. *)
Definition spares (k : string) (o : op) : Prop :=
  match o with
  | OpGet _ => True
  | OpSet j _ | OpDel j => j <> k
  end.

Definition keeping {S} (P : S -> Prop) : relation S := fun s s' => P s -> P s'.

#[local] Instance keeping_preorder {S} (P : S -> Prop) : PreOrder (keeping P).
Proof. split; unfold keeping; repeat intro; auto. Qed.

Lemma connected_keeps {A} k v (m : M Server RedisError A) :
  (forall s, sv_keys s !! k = Some (Text v, false) -> sv_keys (snd (m s)) !! k = Some (Text v, false)) ->
  respects (keeping (holds k v)) (connected m).
Proof.
  intros Hm c Hc. unfold connected, zoom, bind, holds in *. pose proof (sv_connect_keeps _ _ _ Hc) as Hs.
  destruct (sv_connect (rr_client c)) as [ [] s]; simpl in *; try done.
  specialize (Hm _ Hs). by destruct (m s).
Qed.

Lemma query_keeps {A} k v (f : Reply -> res RedisError A) c s :
  writes c k = false -> sv_keys s !! k = Some (Text v, false) ->
  sv_keys (snd (query f c s)) !! k = Some (Text v, false).
Proof.
  intros Hw Hs. pose proof (sv_query_keeps _ _ _ _ Hw Hs) as Hk. unfold query, bind, lift.
  by destruct (sv_query c s) as [ [] s'].
Qed.

Lemma run_op_keeps now k v o :
  spares k o ->
  respects (fun g g' => keeping (holds k v) (bare real_redis_client g) (bare real_redis_client g'))
    (run_op (guarded_client real_redis_client now) o).
Proof.
  intros Ho.
  assert (forall A (f : Reply -> res RedisError A) c, writes c k = false ->
    respects (fun g g' => keeping (holds k v) (bare real_redis_client g) (bare real_redis_client g'))
      (@guarded (@load_shedding_client real_redis_client) A now
        (@shed real_redis_client A (connected (query f c))))) as Hop.
  { intros A f c Hc.
    apply (respects_guarded (T := @load_shedding_client real_redis_client)
      (fun x y : @LoadSheddingRedisClient real_redis_client => keeping (holds k v) (lsr_inner x) (lsr_inner y))).
    apply respects_shed; [ apply _ |]. apply connected_keeps. intros s. by apply query_keeps. }
  destruct o as [ j | j x | j ]; simpl in Ho |- *.
  - by apply Hop.
  - apply respects_bind; [ apply _ | apply Hop; simpl; by case_bool_decide | intros ?; apply respects_ret; apply _ ].
  - apply respects_bind; [ apply _ | apply Hop; simpl; by case_bool_decide | intros ?; apply respects_ret; apply _ ].
Qed.

Lemma run_guarded_keeps k v ops g :
  Forall (fun to => spares k (snd to)) ops -> holds k v (bare real_redis_client g) ->
  holds k v (bare real_redis_client (snd (run_guarded real_redis_client ops g))).
Proof.
  revert g. induction ops as [| [now o] ops IH]; intros g Hall Hg; simpl; [ done |].
  apply Forall_cons in Hall as [Ho Hall]. pose proof (run_op_keeps now k v o Ho g Hg) as Hg1.
  destruct (run_op (guarded_client real_redis_client now) o g) as [r g1]. specialize (IH g1 Hall Hg1).
  by destruct (run_guarded real_redis_client ops g1).
Qed.

Lemma connected_ok {A} (m : M Server RedisError A) c a c' :
  connected m c = (Ok a, c') -> exists s, m s = (Ok a, rr_client c') /\
    sv_connect (rr_client c) = (Ok tt, s).
Proof.
  unfold connected, zoom. destruct ((sv_connect ;;; m) (rr_client c)) as [r s'] eqn:Hm.
  intros; simplify_eq. apply bind_ok in Hm as ( [] & s & Hs & Hk). eauto.
Qed.

(** C33. A value stored through both guards is read back through them: after a set
    of a key that answers [Ok], whatever gets run and whatever sets and deletes of
    other keys, at whatever times, answered or failed, refused by a guard or not,
    a get of the key that answers [Ok] gives the value. *)
Theorem stored_value_read_through_guards t1 k v g g1 ops t2 r g3 :
  run_op (guarded_client real_redis_client t1) (OpSet k v) g = (Ok None, g1) ->
  Forall (fun to => spares k (snd to)) ops ->
  run_op (guarded_client real_redis_client t2) (OpGet k) (snd (run_guarded real_redis_client ops g1)) = (Ok r, g3) ->
  r = Some v.
Proof.
  simpl. intros ( [] & g' & Hset & Hret)%bind_ok Hops Hget. unfold ret in Hret. simplify_eq.
  apply guarded_ok, shed_ok, connected_ok in Hset as (s & Hset & _).
  apply query_unit_ok in Hset as (x & Hset). apply sv_set_ok in Hset.
  pose proof (run_guarded_keeps k v ops g1 Hops Hset) as Hg2.
  apply guarded_ok, shed_ok, connected_ok in Hget as (s' & Hget & Hconn).
  apply (sv_connect_keeps _ _ _) in Hg2. apply bind_ok in Hget as (y & s2 & Hq & Hto). unfold bare in Hg2.
  rewrite Hconn in Hg2. simpl in Hg2. rewrite (sv_get_ok _ _ _ _ _ _ Hq Hg2), option_string_bulk in Hto.
  unfold lift in Hto. by simplify_eq.
Qed.

End RoundTrip.

(** ** Witnesses: a server in memory, whose commands fail when told to *)
Module RedisWitness.

Record Memory : Type := { keys : gmap string (Held * bool); faults : list bool }.

Definition answer (c : Cmd) (m : gmap string (Held * bool)) : Reply * gmap string (Held * bool) :=
  match c with
  | GET k => (match m !! k with Some (Text t, _) => BulkString t | _ => Nil end, m)
  | SET k v => (Okay, <[k := (Text v, false)]> m)
  | SETEX k v _ => (Okay, <[k := (Text v, true)]> m)
  | SET_NX_EX k v _ => match m !! k with
                       | None => (Okay, <[k := (Text v, true)]> m)
                       | Some _ => (Nil, m)
                       end
  | SET_OPTIONS k v _ => (Okay, <[k := (Text v, false)]> m)
  | DEL k => (Int (match m !! k with Some _ => 1 | None => 0 end), delete k m)
  | EXISTS k => (Int (match m !! k with Some _ => 1 | None => 0 end), m)
  | RPUSH k vs => let l := match m !! k with Some (List l, _) => l ++ vs | _ => vs end in
                  (Int (Z.of_nat (length l)), <[k := (List l, false)]> m)
  | LRANGE k _ _ => (Array (match m !! k with Some (List l, _) => map BulkString l | _ => [] end), m)
  end.

Definition run_query (c : Cmd) : M Memory RedisError Reply :=
  fun s =>
    match faults s with
    | true :: rest => (Err (RedisIo "connection reset"), {| keys := keys s; faults := rest |})
    | rest => let '(v, m) := answer c (keys s) in (Ok v, {| keys := m; faults := tail rest |})
    end.

#[export] Instance memory : RedisServer := {|
  Server := Memory;
  sv_connect := ret tt;
  sv_query := run_query;
  sv_pipeline := fix go cs := match cs with
                              | [] => ret []
                              | c :: rest => let! v := run_query c in let! vs := go rest in ret (v :: vs)
                              end;
  sv_scan := fun _ => gets (fun s => map fst (map_to_list (keys s)))
|}.

#[export] Instance values : FromValue := {|
  to_option_string := fun v => match v with
                               | Nil => Ok None
                               | BulkString s => Ok (Some s)
                               | _ => Err (RedisFailure "not a string")
                               end;
  to_bool := fun v => match v with Int n => Ok (negb (n =? 0)%Z) | _ => Err (RedisFailure "not a bool") end;
  to_values := fun v => match v with Array l => Ok l | _ => Err (RedisFailure "not an array") end
|}.

Lemma answer_keeps c m j h :
  writes c j = false -> m !! j = Some (h, false) -> snd (answer c m) !! j = Some (h, false).
Proof.
  intros Hw Hj. destruct c; simpl in *; try done;
    try (case_bool_decide; [ done |]; rewrite ?lookup_insert_ne, ?lookup_delete_ne by done; done).
  case_bool_decide; [ done |]. destruct (m !! key); simpl; by rewrite ?lookup_insert_ne by done.
Qed.

#[export] Instance memory_laws : RedisServerLaws (H := memory).
Proof.
  refine {| sv_keys := keys |}; simpl; unfold run_query.
  - done.
  - intros c s j h Hw Hj. pose proof (answer_keeps c (keys s) j h Hw Hj) as Ha.
    destruct (faults s) as [| [] rest]; [ | done | ]; by destruct (answer c (keys s)).
  - intros k s v s' t ttl Hq Hk. simpl in Hq. rewrite Hk in Hq.
    destruct (faults s) as [| [] rest]; by simplify_eq.
  - intros k t s v s' Hq. simpl in Hq. destruct (faults s) as [| [] rest]; simplify_eq; apply lookup_insert_eq.
  - intros k t n s v s' Hq. simpl in Hq.
    destruct (keys s !! k); destruct (faults s) as [| [] rest]; simplify_eq; try done; split; try done;
      apply lookup_insert_eq.
Defined.

#[export] Instance values_laws : FromValueLaws (H := values).
Proof. split; reflexivity. Defined.

#[export] Existing Instance real_redis_client.

Definition guarded_memory (faults : list bool) : Guarded real_redis_client :=
  guard real_redis_client (RealRedisClient_new {| keys := ∅; faults := faults |} None)
    CircuitBreakerConfig_default GuardWitness.shedder_config.

Definition script : list (Z * Z * op) :=
  [((1, 1)%Z, OpSet "k" "v"); ((2, 2)%Z, OpSet "j" "w"); ((3, 3)%Z, OpDel "j"); ((4, 4)%Z, OpGet "k"); ((5, 5)%Z, OpGet "j")].

Lemma guards_transparent_witness :
  fst (run_guarded real_redis_client script (guarded_memory [])) = [Ok None; Ok None; Ok None; Ok (Some "v"); Ok None] /\
  open_for_all real_redis_client (snd (run_guarded real_redis_client script (guarded_memory []))).
Proof.
  destruct (guards_transparent real_redis_client script (guarded_memory [])) as (Hrs & _ & Hopen).
  - split_and!; [ reflexivity | vm_compute; reflexivity | apply Nat.lt_0_1 ].
  - repeat constructor.
  - split; [ exact Hrs | exact Hopen ].
Defined.

(** A set that succeeds, one of another key that fails, the get. *)
Lemma stored_value_read_through_guards_witness :
  fst (run_op (guarded_client real_redis_client (3, 4)%Z) (OpGet "k")
        (snd (run_guarded real_redis_client [((2, 2)%Z, OpSet "j" "w")]
          (snd (run_op (guarded_client real_redis_client (1, 1)%Z) (OpSet "k" "v") (guarded_memory [false; true]))))))
    = Ok (Some "v").
Proof.
  destruct (run_op (guarded_client real_redis_client (3, 4)%Z) (OpGet "k")
        (snd (run_guarded real_redis_client [((2, 2)%Z, OpSet "j" "w")]
          (snd (run_op (guarded_client real_redis_client (1, 1)%Z) (OpSet "k" "v") (guarded_memory [false; true]))))))
    as [ [r | e | | ] g] eqn:Hget; [| discriminate Hget | discriminate Hget | discriminate Hget ].
  simpl. f_equal.
  refine (stored_value_read_through_guards (1, 1)%Z "k" "v" (guarded_memory [false; true]) _ [((2, 2)%Z, OpSet "j" "w")] (3, 4)%Z r g
           _ _ Hget); [ reflexivity |].
  repeat constructor. discriminate.
Defined.

End RedisWitness.
