(* ===== verification/Cache.v ===== *)
(** The two-level account cache (src/src/infrastructure/cache_service.rs):
    shards of in-memory entries over Redis.

    [RedisCommands] is the Redis server behind the connection, [JsonText] the
    text encoding of JSON values; both belong to other crates and come with
    laws.  A shard is a map; [DashMap::remove] called while the same task holds
    a reference into that map blocks on a lock the task itself holds, which is
    [Hang].  Times are seconds, passed as [now]. *)
From S2P Require Import Prelude.
From S2P Require Import DecimalSpec.
From S2P Require Import Account.
From S2P Require Import Codec.
From S2P Require Import RedisGuard.
From stdpp Require Import base tactics list gmap strings.
From Stdlib Require Import ZArith Lia.

(** [serde_json::to_vec] and [from_slice] on values; [no_bytes] is [&[]]. *)
Class JsonText : Type := {
  Bytes : Type;
  no_bytes : Bytes;
  json_to_vec : Value -> Bytes;
  json_from_slice : Bytes -> res SerdeError Value
}.

Class JsonLaws `{JsonText} : Prop := {
  json_round_trip : forall v, json_from_slice (json_to_vec v) = Ok v;
  json_empty : is_ok (json_from_slice no_bytes) = false
}.

(** [redis::Value], as far as the cache looks into it. *)
Inductive RedisValue `{JsonText} : Type :=
| RNil
| RData (bytes : Bytes)
| ROther.

Class RedisCommands `{JsonText} : Type := {
  Redis : Type;
  (** [redis_client.get_connection()] *)
  r_connect : M Redis RedisError unit;
  (** [GET], [SET EX], [DEL], and a pipeline of [GET]s *)
  r_get : string -> M Redis RedisError RedisValue;
  r_set_ex : string -> Bytes -> Z -> M Redis RedisError unit;
  r_del : string -> M Redis RedisError unit;
  r_get_all : list string -> M Redis RedisError (list RedisValue)
}.

(** The reply to a [GET] of a key that holds [o]. *)
Definition reply_of `{JsonText} (o : option Bytes) : RedisValue :=
  match o with
  | Some b => RData b
  | None => RNil
  end.

(** What Redis documents, on the keys it holds. *)
Class RedisLaws `{RedisCommands} : Type := {
  r_keys : Redis -> gmap string Bytes;
  r_connect_keys : forall r, r_keys (snd (r_connect r)) = r_keys r;
  r_get_ok : forall k r v r',
    r_get k r = (Ok v, r') -> v = reply_of (r_keys r !! k) /\ r_keys r' = r_keys r;
  r_set_ex_ok : forall k b ttl r r',
    r_set_ex k b ttl r = (Ok tt, r') -> r_keys r' = <[k := b]> (r_keys r);
  r_del_ok : forall k r r', r_del k r = (Ok tt, r') -> r_keys r' = delete k (r_keys r);
  r_get_all_ok : forall ks r vs r',
    r_get_all ks r = (Ok vs, r') ->
    vs = map (fun k => reply_of (r_keys r !! k)) ks /\ r_keys r' = r_keys r
}.

Section Cache.
Context `{SerdeOps} `{RedisCommands}.

(** ** Data *)
Inductive EvictionPolicy : Type := LRU | LFU | TTL.

Record CacheConfig : Type := {
  cc_default_ttl : Z;
  cc_max_size : nat;
  cc_shard_count : nat;
  cc_warmup_batch_size : nat;
  cc_warmup_interval : Z;
  cc_eviction_policy : EvictionPolicy
}.

Definition CacheConfig_default : CacheConfig :=
  {| cc_default_ttl := 3600; cc_max_size := 10 * 1000; cc_shard_count := 16;
     cc_warmup_batch_size := 100; cc_warmup_interval := 300; cc_eviction_policy := LRU |}.

(** The configuration of [CacheService::new_test]. *)
Definition cache_test_config : CacheConfig :=
  {| cc_default_ttl := 60; cc_max_size := 1000; cc_shard_count := 4;
     cc_warmup_batch_size := 50; cc_warmup_interval := 60; cc_eviction_policy := LRU |}.

Record CacheMetrics : Type := {
  cm_hits : Z;
  cm_misses : Z;
  cm_evictions : Z;
  cm_errors : Z;
  cm_warmups : Z;
  cm_shard_hits : Z;
  cm_shard_misses : Z
}.

Definition CacheMetrics_default : CacheMetrics :=
  {| cm_hits := 0; cm_misses := 0; cm_evictions := 0; cm_errors := 0; cm_warmups := 0;
     cm_shard_hits := 0; cm_shard_misses := 0 |}.

Record CacheEntry : Type := {
  ce_value : Account;
  ce_created_at : Z;
  ce_last_accessed : Z;
  ce_access_count : Z;
  ce_ttl : Z
}.

Record WarmingState : Type := {
  ws_is_warming : bool;
  ws_last_warmup : option Z;
  ws_accounts_to_warm : list Uuid
}.

Record CacheService : Type := {
  cs_redis_client : Redis;
  cs_config : CacheConfig;
  cs_metrics : CacheMetrics;
  cs_shards : list (gmap Uuid CacheEntry);
  cs_event_cache : gmap Uuid (list (Z * AccountEvent));
  cs_warming_state : WarmingState
}.

(** The errors the methods return with [?]. *)
Inductive CacheError : Type :=
| CacheRedis (e : RedisError)
| CacheSerde (e : SerdeError).

(** ** Updating the service *)
Definition cs_with (r : Redis) (m : CacheMetrics) (shards : list (gmap Uuid CacheEntry))
    (events : gmap Uuid (list (Z * AccountEvent))) (w : WarmingState) (s : CacheService)
  : CacheService :=
  {| cs_redis_client := r; cs_config := cs_config s; cs_metrics := m; cs_shards := shards;
     cs_event_cache := events; cs_warming_state := w |}.

Definition put_redis (r : Redis) (s : CacheService) : CacheService :=
  cs_with r (cs_metrics s) (cs_shards s) (cs_event_cache s) (cs_warming_state s) s.

Definition put_shards (shards : list (gmap Uuid CacheEntry)) (s : CacheService) : CacheService :=
  cs_with (cs_redis_client s) (cs_metrics s) shards (cs_event_cache s) (cs_warming_state s) s.

Definition put_events (events : gmap Uuid (list (Z * AccountEvent))) (s : CacheService) : CacheService :=
  cs_with (cs_redis_client s) (cs_metrics s) (cs_shards s) events (cs_warming_state s) s.

Definition put_warming (w : WarmingState) (s : CacheService) : CacheService :=
  cs_with (cs_redis_client s) (cs_metrics s) (cs_shards s) (cs_event_cache s) w s.

Definition add_cache_metrics (hits misses evictions errors warmups shard_hits shard_misses : Z)
    (m : CacheMetrics) : CacheMetrics :=
  {| cm_hits := wrap_u64 (cm_hits m + hits); cm_misses := wrap_u64 (cm_misses m + misses);
     cm_evictions := wrap_u64 (cm_evictions m + evictions);
     cm_errors := wrap_u64 (cm_errors m + errors); cm_warmups := wrap_u64 (cm_warmups m + warmups);
     cm_shard_hits := wrap_u64 (cm_shard_hits m + shard_hits);
     cm_shard_misses := wrap_u64 (cm_shard_misses m + shard_misses) |}.

Definition tally (f : CacheMetrics -> CacheMetrics) : M CacheService CacheError unit :=
  modify (fun s => cs_with (cs_redis_client s) (f (cs_metrics s)) (cs_shards s) (cs_event_cache s)
                     (cs_warming_state s) s).

Definition count_hit : CacheMetrics -> CacheMetrics := add_cache_metrics 1 0 0 0 0 0 0.
Definition count_miss : CacheMetrics -> CacheMetrics := add_cache_metrics 0 1 0 0 0 0 0.
Definition count_eviction : CacheMetrics -> CacheMetrics := add_cache_metrics 0 0 1 0 0 0 0.
Definition count_error : CacheMetrics -> CacheMetrics := add_cache_metrics 0 0 0 1 0 0 0.
Definition count_warmup : CacheMetrics -> CacheMetrics := add_cache_metrics 0 0 0 0 1 0 0.
Definition count_shard_hit : CacheMetrics -> CacheMetrics := add_cache_metrics 0 0 0 0 0 1 0.
Definition count_shard_miss : CacheMetrics -> CacheMetrics := add_cache_metrics 0 0 0 0 0 0 1.

Definition redis {A} (m : M Redis RedisError A) : M CacheService CacheError A :=
  on_err CacheRedis (zoom cs_redis_client put_redis m).

(** [CacheService::new]. *)
Definition CacheService_new (redis_client : Redis) (config : CacheConfig) : CacheService :=
  {| cs_redis_client := redis_client; cs_config := config; cs_metrics := CacheMetrics_default;
     cs_shards := replicate (cc_shard_count config) ∅; cs_event_cache := ∅;
     cs_warming_state := {| ws_is_warming := false; ws_last_warmup := None;
                            ws_accounts_to_warm := [] |} |}.

(** ** Encodings *)
Definition account_key (id : Uuid) : string := "account:" +:+ uuid_to_string id.
Definition events_key (id : Uuid) : string := "events:" +:+ uuid_to_string id.

Definition decode_account (bytes : Bytes) : res SerdeError Account :=
  let? v := json_from_slice bytes in account_from_value v.

Definition encode_events (events : list (Z * AccountEvent)) : Value :=
  VArray (map (fun p => VArray [VNumber p.1; event_to_value p.2]) events).

Definition pair_from_value (v : Value) : res SerdeError (Z * AccountEvent) :=
  match v with
  | VArray [n; e] =>
      let? version := as_i64 n in
      let? event := event_from_value e in
      Ok (version, event)
  | _ => Err (InvalidType "tuple of size 2")
  end.

Fixpoint pairs_from_values (vs : list Value) : res SerdeError (list (Z * AccountEvent)) :=
  match vs with
  | [] => Ok []
  | v :: rest =>
      let? p := pair_from_value v in
      let? ps := pairs_from_values rest in
      Ok (p :: ps)
  end.

Definition decode_events (bytes : Bytes) : res SerdeError (list (Z * AccountEvent)) :=
  let? v := json_from_slice bytes in
  match v with
  | VArray vs => pairs_from_values vs
  | _ => Err (InvalidType "sequence")
  end.

(** ** The shards *)

(** [CacheService::get_shard_index]: the remainder by zero panics. *)
Definition get_shard_index (s : CacheService) (account_id : Uuid) : option nat :=
  match cc_shard_count (cs_config s) with
  | O => None
  | S _ => Some (N.to_nat (account_id mod N.of_nat (cc_shard_count (cs_config s))))
  end.

(** [self.shards[shard_index]]. *)
Definition shard_of (account_id : Uuid) : M CacheService CacheError (nat * gmap Uuid CacheEntry) :=
  fun s =>
    match get_shard_index s account_id with
    | Some i => match cs_shards s !! i with
                | Some shard => (Ok (i, shard), s)
                | None => (Panic, s)
                end
    | None => (Panic, s)
    end.

(** [CacheService::is_expired], and [CacheEntry::is_expired] of the cleanup. *)
Definition is_expired (now : Z) (e : CacheEntry) : bool :=
  (ce_ttl e <=? now - ce_last_accessed e)%Z.

Definition entry_is_expired (now : Z) (e : CacheEntry) : bool :=
  (ce_ttl e <? now - ce_last_accessed e)%Z.

(** [min_by_key] over the entries: the first one with the least key. *)
Fixpoint min_by_key (key : CacheEntry -> Z) (es : list (Uuid * CacheEntry)) : option (Uuid * CacheEntry) :=
  match es with
  | [] => None
  | e :: rest =>
      match min_by_key key rest with
      | Some e' => if (key e.2 <=? key e'.2)%Z then Some e else Some e'
      | None => Some e
      end
  end.

Definition policy_key (p : EvictionPolicy) : CacheEntry -> Z :=
  match p with
  | LRU => ce_last_accessed
  | LFU => ce_access_count
  | TTL => ce_created_at
  end.

(** [CacheService::evict_entries]: the victim is removed while the reference
    [min_by_key] returned is still held. *)
Definition evict_entries (policy : EvictionPolicy) (shard : gmap Uuid CacheEntry)
  : res CacheError (gmap Uuid CacheEntry) :=
  match min_by_key (policy_key policy) (map_to_list shard) with
  | Some _ => Hang
  | None => Ok shard
  end.

(** [CacheService::update_in_memory_cache]. *)
Definition update_in_memory_cache (now : Z) (account_id : Uuid) (account : Account)
  : M CacheService CacheError unit :=
  let! config := gets cs_config in
  let entry := {| ce_value := account; ce_created_at := now; ce_last_accessed := now;
                  ce_access_count := 1; ce_ttl := cc_default_ttl config |} in
  let! p := shard_of account_id in
  let '(i, shard) := p in
  let! shard :=
    (if (cc_max_size config <=? size shard)%nat
     then lift (evict_entries (cc_eviction_policy config) shard)
     else ret shard) in
  modify (fun s => put_shards (<[i := <[account_id := entry]> shard]> (cs_shards s)) s).

(** ** Operations *)

(** [CacheService::initialize]. *)
Definition initialize : M CacheService CacheError unit :=
  let! state := gets cs_warming_state in
  if ws_is_warming state then ret tt
  else
    redis r_connect ;;;
    attempt (F := CacheError) (redis (r_get "test")) ;;;
    modify (fun s => put_warming {| ws_is_warming := true;
                                    ws_last_warmup := ws_last_warmup (cs_warming_state s);
                                    ws_accounts_to_warm := [] |} s).

(** [CacheService::get_account]: the entry found is held while it is removed. *)
Definition get_account (now : Z) (account_id : Uuid) : M CacheService CacheError (option Account) :=
  let! p := shard_of account_id in
  match p.2 !! account_id with
  | Some entry =>
      if negb (is_expired now entry)
      then tally count_shard_hit ;;; ret (Some (ce_value entry))
      else lift Hang
  | None =>
      tally count_shard_miss ;;;
      redis r_connect ;;;
      let! reply := attempt (F := CacheError) (redis (r_get (account_key account_id))) in
      match reply with
      | inr (RData data) =>
          match decode_account data with
          | Ok account =>
              tally count_hit ;;;
              update_in_memory_cache now account_id account ;;;
              ret (Some account)
          | _ => tally count_error ;;; ret None
          end
      | inr _ => tally count_miss ;;; ret None
      | inl e => tally count_error ;;; throw e
      end
  end.

(** [CacheService::set_account]. *)
Definition set_account (now : Z) (account : Account) (ttl : option Z) : M CacheService CacheError unit :=
  let! config := gets cs_config in
  let ttl := default (cc_default_ttl config) ttl in
  redis r_connect ;;;
  redis (r_set_ex (account_key (acc_id account)) (json_to_vec (account_to_value account)) ttl) ;;;
  update_in_memory_cache now (acc_id account) account.

(** [CacheService::delete_account]. *)
Definition delete_account (account_id : Uuid) : M CacheService CacheError unit :=
  redis r_connect ;;;
  redis (r_del (account_key account_id)) ;;;
  tally count_eviction.

(** [CacheService::get_account_events]. *)
Definition get_account_events (account_id : Uuid) : M CacheService CacheError (option (list AccountEvent)) :=
  let! cache := gets cs_event_cache in
  match cache !! account_id with
  | Some events => ret (Some (map snd events))
  | None =>
      redis r_connect ;;;
      let! reply := attempt (F := CacheError) (redis (r_get (events_key account_id))) in
      match reply with
      | inr (RData data) =>
          match decode_events data with
          | Ok events =>
              tally count_hit ;;;
              modify (fun s => put_events (<[account_id := events]> (cs_event_cache s)) s) ;;;
              ret (Some (map snd events))
          | _ => tally count_error ;;; ret None
          end
      | inr _ => tally count_miss ;;; ret None
      | inl e => tally count_error ;;; throw e
      end
  end.

(** [CacheService::set_account_events]. *)
Definition set_account_events (account_id : Uuid) (events : list (Z * AccountEvent)) (ttl : option Z)
  : M CacheService CacheError unit :=
  let! config := gets cs_config in
  let ttl := default (cc_default_ttl config) ttl in
  redis r_connect ;;;
  redis (r_set_ex (events_key account_id) (json_to_vec (encode_events events)) ttl) ;;;
  modify (fun s => put_events (<[account_id := events]> (cs_event_cache s)) s).

(** [CacheService::delete_account_events]. *)
Definition delete_account_events (account_id : Uuid) : M CacheService CacheError unit :=
  redis r_connect ;;;
  redis (r_del (events_key account_id)) ;;;
  tally count_eviction.

(** [CacheService::invalidate_account]. *)
Definition invalidate_account (account_id : Uuid) : M CacheService CacheError unit :=
  let! p := shard_of account_id in
  modify (fun s => put_shards (<[p.1 := delete account_id p.2]> (cs_shards s)) s) ;;;
  modify (fun s => put_events (delete account_id (cs_event_cache s)) s) ;;;
  redis r_connect ;;;
  redis (r_del (account_key account_id)) ;;;
  redis (r_del (events_key account_id)) ;;;
  tally count_eviction.

(** ** Warming up *)

(** [slice::chunks]: [fuel] bounds the chunks, one per element is enough. *)
Fixpoint chunks {A} (fuel n : nat) (l : list A) : list (list A) :=
  match fuel, l with
  | S fuel', _ :: _ => take n l :: chunks fuel' n (drop n l)
  | _, _ => []
  end.

Definition bytes_of (v : RedisValue) : Bytes :=
  match v with
  | RData bytes => bytes
  | _ => no_bytes
  end.

(** The body of the loop over a chunk: the account at index [i]. *)
Definition warm_one (now : Z) (results : list RedisValue) (i : nat) (account_id : Uuid)
  : M CacheService CacheError unit :=
  let! account_value := lift (or_panic (results !! (i * 2)%nat)) in
  let! events_value := lift (or_panic (results !! (i * 2 + 1)%nat)) in
  match decode_account (bytes_of account_value), decode_events (bytes_of events_value) with
  | Ok account_data, Ok events_data =>
      update_in_memory_cache now account_id account_data ;;;
      modify (fun s => put_events (<[account_id := events_data]> (cs_event_cache s)) s) ;;;
      tally count_warmup
  | _, _ => ret tt
  end.

Fixpoint warm_chunk (now : Z) (results : list RedisValue) (i : nat) (chunk : list Uuid)
  : M CacheService CacheError unit :=
  match chunk with
  | [] => ret tt
  | account_id :: rest =>
      warm_one now results i account_id ;;;
      warm_chunk now results (S i) rest
  end.

Definition pipeline_keys (chunk : list Uuid) : list string :=
  concat (map (fun id => [account_key id; events_key id]) chunk).

Fixpoint warm_chunks (now : Z) (cs : list (list Uuid)) : M CacheService CacheError unit :=
  match cs with
  | [] => ret tt
  | chunk :: rest =>
      let! results := redis (r_get_all (pipeline_keys chunk)) in
      warm_chunk now results 0 chunk ;;;
      warm_chunks now rest
  end.

(** [CacheService::warmup_cache]: a batch size of 0 panics in [chunks]. *)
Definition warmup_cache (now : Z) (account_ids : list Uuid) : M CacheService CacheError unit :=
  let! state := gets cs_warming_state in
  if ws_is_warming state then ret tt
  else
    modify (put_warming {| ws_is_warming := true; ws_last_warmup := ws_last_warmup state;
                           ws_accounts_to_warm := account_ids |}) ;;;
    let! config := gets cs_config in
    redis r_connect ;;;
    (if (cc_warmup_batch_size config =? 0)%nat then lift Panic
     else warm_chunks now (chunks (length account_ids) (cc_warmup_batch_size config) account_ids)) ;;;
    modify (put_warming {| ws_is_warming := false; ws_last_warmup := Some now;
                           ws_accounts_to_warm := [] |}).

(** One turn of the cleanup task of [CacheService::new]. *)
Definition cleanup_shards (now : Z) (s : CacheService) : CacheService :=
  put_shards (map (fun shard => filter (fun kv => entry_is_expired now kv.2 = false) shard)
                (cs_shards s)) s.

(** ** The shape of the cache *)

(** As many shards as configured, every entry in the shard of its key, no shard
    above its size. *)
Record cache_wf (s : CacheService) : Prop := {
  wf_shards : length (cs_shards s) = cc_shard_count (cs_config s);
  wf_placed : forall i shard id e,
    cs_shards s !! i = Some shard -> shard !! id = Some e -> get_shard_index s id = Some i;
  wf_size : Forall (fun shard => (size shard <= Nat.max 1 (cc_max_size (cs_config s)))%nat) (cs_shards s)
}.

(** The steps below keep the configuration and the shape. *)
Definition keeps_wf (s s' : CacheService) : Prop :=
  cs_config s' = cs_config s /\ (cache_wf s -> cache_wf s').

#[export] Instance keeps_wf_pre : PreOrder keeps_wf.
Proof.
  split; [ by intros s |]. intros s1 s2 s3 [Hc1 H1'] [Hc2 H2']. split; [ congruence | auto ].
Qed.

Lemma wf_same_shards s s' :
  cs_config s' = cs_config s -> cs_shards s' = cs_shards s -> keeps_wf s s'.
Proof.
  intros Hc Hs. split; [ done |]. intros [Hl Hp Hz].
  split; rewrite ?Hc, ?Hs; auto. unfold get_shard_index in *. by rewrite Hc.
Qed.

Lemma redis_wf {A} (m : M Redis RedisError A) : respects keeps_wf (redis m).
Proof.
  intros s. unfold redis, on_err, zoom. destruct (m (cs_redis_client s)). by apply wf_same_shards.
Qed.

Lemma tally_wf f : respects keeps_wf (tally f).
Proof. intros s. by apply wf_same_shards. Qed.

Lemma put_events_wf f : respects keeps_wf (modify (fun s => put_events (f s) s) : M _ CacheError unit).
Proof. intros s. by apply wf_same_shards. Qed.

Lemma put_warming_wf w : respects keeps_wf (modify (put_warming w) : M _ CacheError unit).
Proof. intros s. by apply wf_same_shards. Qed.

Lemma shard_of_spec id s p s' :
  shard_of id s = (Ok p, s') ->
  s' = s /\ get_shard_index s id = Some p.1 /\ cs_shards s !! p.1 = Some p.2.
Proof. unfold shard_of. intros. repeat case_match; by simplify_eq/=. Qed.

Lemma shard_of_wf id : respects keeps_wf (shard_of id).
Proof.
  intros s. unfold shard_of. repeat case_match; by apply wf_same_shards.
Qed.

(** Replacing a shard by one with the right keys and size. *)
Lemma put_shard_wf s i shard :
  cache_wf s ->
  (forall id e, shard !! id = Some e -> get_shard_index s id = Some i) ->
  (size shard <= Nat.max 1 (cc_max_size (cs_config s)))%nat ->
  cache_wf (put_shards (<[i := shard]> (cs_shards s)) s).
Proof.
  intros [Hl Hp Hz] Hkeys Hsize. split; simpl.
  - by rewrite length_insert.
  - intros j sh id e Hj He. unfold get_shard_index in *. simpl.
    apply list_lookup_insert_Some in Hj as [(<- & <- & _) | [_ Hj]]; [ by eapply Hkeys | by eapply Hp ].
  - by apply Forall_insert.
Qed.

Lemma evict_entries_ok policy shard shard' :
  evict_entries policy shard = Ok shard' -> shard' = shard /\ shard = ∅.
Proof.
  unfold evict_entries. destruct (map_to_list shard) as [| e es] eqn:Hl; simpl.
  - intros; simplify_eq. split; [ done | by apply map_to_list_empty_iff ].
  - intros He. destruct (min_by_key _ es); repeat case_match; simplify_eq.
Qed.

Lemma update_in_memory_spec now id a s s' :
  update_in_memory_cache now id a s = (Ok tt, s') ->
  exists i shard, get_shard_index s id = Some i /\ cs_shards s !! i = Some shard /\
    (size shard < Nat.max 1 (cc_max_size (cs_config s)))%nat /\
    s' = put_shards (<[i := <[id := {| ce_value := a; ce_created_at := now; ce_last_accessed := now;
                                       ce_access_count := 1;
                                       ce_ttl := cc_default_ttl (cs_config s) |}]> shard]>
                       (cs_shards s)) s.
Proof.
  unfold update_in_memory_cache. intros (config & s0 & Hg & Hk)%bind_ok.
  unfold gets in Hg; simplify_eq. apply bind_ok in Hk as ([i shard] & s1 & Hsh & Hk).
  destruct (shard_of_spec _ _ _ _ Hsh) as (-> & Hi & Hs). simpl in Hi, Hs.
  apply bind_ok in Hk as (shard' & s2 & He & Hk). unfold modify in Hk; simplify_eq.
  exists i, shard. destruct (Nat.leb_spec (cc_max_size (cs_config s0)) (size shard)) as [Hle | Hlt].
  - unfold lift in He. simplify_eq.
    match goal with H : evict_entries _ _ = Ok _ |- _ => destruct (evict_entries_ok _ _ _ H) as [-> ->] end.
    rewrite map_size_empty. split_and!; auto. lia.
  - unfold ret in He. simplify_eq. split_and!; auto. lia.
Qed.

Lemma update_in_memory_failed now id a s :
  is_ok (fst (update_in_memory_cache now id a s)) = false ->
  snd (update_in_memory_cache now id a s) = s.
Proof.
  unfold update_in_memory_cache, shard_of, bind, gets, lift, ret, modify.
  destruct (get_shard_index s id) as [i |]; [| done ].
  destruct (cs_shards s !! i) as [shard |]; [| done ].
  destruct (_ <=? _)%nat; [| done ]. by destruct (evict_entries _ _).
Qed.

Lemma update_in_memory_wf now id a : respects keeps_wf (update_in_memory_cache now id a).
Proof.
  intros s. destruct (update_in_memory_cache now id a s) as [[[] | e | | ] s'] eqn:Hu; simpl.
  - destruct (update_in_memory_spec _ _ _ _ _ Hu) as (i & shard & Hi & Hs & Hsize & ->).
    split; [ done |]. intros Hwf. destruct Hwf as [Hl Hp Hz] eqn:Hwf'. apply put_shard_wf; [ done | |].
    + intros id' e He. apply lookup_insert_Some in He as [[<- _] | [_ He]]; [ done | by eapply Hp ].
    + pose proof (map_size_insert id {| ce_value := a; ce_created_at := now; ce_last_accessed := now;
        ce_access_count := 1; ce_ttl := cc_default_ttl (cs_config s) |} shard) as Hins.
      rewrite Hins. destruct (shard !! id); simpl; lia.
  - pose proof (update_in_memory_failed now id a s) as Hf. rewrite Hu in Hf. simpl in Hf.
    by rewrite (Hf eq_refl).
  - pose proof (update_in_memory_failed now id a s) as Hf. rewrite Hu in Hf. simpl in Hf.
    by rewrite (Hf eq_refl).
  - pose proof (update_in_memory_failed now id a s) as Hf. rewrite Hu in Hf. simpl in Hf.
    by rewrite (Hf eq_refl).
Qed.

#[local] Hint Resolve redis_wf tally_wf put_events_wf put_warming_wf shard_of_wf
  update_in_memory_wf wf_same_shards : bank.

Lemma remove_wf id s p s' :
  shard_of id s = (Ok p, s') -> keeps_wf s (put_shards (<[p.1 := delete id p.2]> (cs_shards s)) s).
Proof.
  intros Hsh. destruct (shard_of_spec _ _ _ _ Hsh) as (_ & _ & Hs).
  split; [ done |]. intros Hwf. pose proof Hwf as [Hl Hp Hz]. apply put_shard_wf; [ done | |].
  - intros id' e He. apply lookup_delete_Some in He as [_ He]. by eapply Hp.
  - rewrite Forall_forall in Hz. specialize (Hz _ (list_elem_of_lookup_2 _ _ _ Hs)).
    rewrite map_size_delete. destruct (p.2 !! id); simpl; lia.
Qed.

Lemma invalidate_wf id : respects keeps_wf (invalidate_account id).
Proof.
  intros s. unfold invalidate_account. unfold bind at 1.
  destruct (shard_of id s) as [[p | e | | ] s1] eqn:Hsh;
    try (pose proof (shard_of_wf id s) as Hk; rewrite Hsh in Hk; exact Hk).
  destruct (shard_of_spec _ _ _ _ Hsh) as (-> & _). unfold bind at 1, modify at 1.
  etransitivity; [ by apply (remove_wf id s p s) |].
  match goal with |- keeps_wf ?s1 (snd (?m ?s1)) => enough (respects keeps_wf m) as Hm by apply Hm end.
  respects_tac; by apply wf_same_shards.
Qed.

Lemma get_account_wf now id : respects keeps_wf (get_account now id).
Proof. unfold get_account. respects_tac. Qed.

Lemma set_account_wf now a ttl : respects keeps_wf (set_account now a ttl).
Proof. unfold set_account. respects_tac. Qed.

Lemma events_wf id es ttl :
  respects keeps_wf (get_account_events id) /\ respects keeps_wf (set_account_events id es ttl) /\
  respects keeps_wf (delete_account_events id) /\ respects keeps_wf (delete_account id) /\
  respects keeps_wf initialize.
Proof.
  unfold get_account_events, set_account_events, delete_account_events, delete_account, initialize.
  split_and!; respects_tac; by apply wf_same_shards.
Qed.

Lemma warm_chunks_wf now cs : respects keeps_wf (warm_chunks now cs).
Proof.
  assert (forall results chunk i, respects keeps_wf (warm_chunk now results i chunk)) as Hchunk.
  { intros results. induction chunk as [| id chunk IH]; intros i; simpl; respects_tac.
    unfold warm_one. respects_tac; by apply wf_same_shards. }
  induction cs; simpl; respects_tac.
Qed.

Lemma warmup_wf now ids : respects keeps_wf (warmup_cache now ids).
Proof.
  unfold warmup_cache. pose proof warm_chunks_wf. respects_tac; by apply wf_same_shards.
Qed.

(** ** Properties *)
Inductive cache_op : Type :=
| OpInitialize
| OpGet (id : Uuid)
| OpSet (account : Account) (ttl : option Z)
| OpDelete (id : Uuid)
| OpGetEvents (id : Uuid)
| OpSetEvents (id : Uuid) (events : list (Z * AccountEvent)) (ttl : option Z)
| OpDeleteEvents (id : Uuid)
| OpInvalidate (id : Uuid)
| OpWarmup (ids : list Uuid)
| OpCleanup.

(** The state an operation leaves, however it ends. *)
Definition run_op (now : Z) (op : cache_op) (s : CacheService) : CacheService :=
  match op with
  | OpInitialize => snd (initialize s)
  | OpGet id => snd (get_account now id s)
  | OpSet account ttl => snd (set_account now account ttl s)
  | OpDelete id => snd (delete_account id s)
  | OpGetEvents id => snd (get_account_events id s)
  | OpSetEvents id events ttl => snd (set_account_events id events ttl s)
  | OpDeleteEvents id => snd (delete_account_events id s)
  | OpInvalidate id => snd (invalidate_account id s)
  | OpWarmup ids => snd (warmup_cache now ids s)
  | OpCleanup => cleanup_shards now s
  end.

Lemma cleanup_wf now s : keeps_wf s (cleanup_shards now s).
Proof.
  split; [ done |]. intros [Hl Hp Hz]. split; simpl.
  - by rewrite length_map.
  - intros i shard id e Hi He. apply list_lookup_fmap_Some in Hi as (sh & -> & Hi).
    apply map_lookup_filter_Some in He as [He _]. by eapply Hp.
  - apply Forall_map. eapply Forall_impl; [ exact Hz |]. simpl. intros sh Hsh.
    etransitivity; [| exact Hsh ]. apply map_subseteq_size, map_filter_subseteq.
Qed.

(** C29. Every operation of the cache, however it ends, keeps its shape: as many
    shards as configured, every account in the one shard its identifier selects,
    and no shard above the configured size. *)
Theorem cache_shape_preserved ops redis_client config :
  cache_wf (foldl (fun s p => run_op p.1 p.2 s) (CacheService_new redis_client config) ops).
Proof.
  assert (forall s, cache_wf s -> cache_wf (foldl (fun s p => run_op p.1 p.2 s) s ops)) as Hrun.
  { induction ops as [| [now op] ops IH]; intros s Hs; simpl; [ done |]. apply IH.
    destruct (events_wf 0%N [] None) as (_ & _ & _ & _ & Hinit).
    destruct op; simpl;
      first [ by apply Hinit | by apply get_account_wf | by apply set_account_wf
            | by apply (events_wf id [] None) | by apply (events_wf id events ttl)
            | by apply invalidate_wf | by apply warmup_wf | by apply cleanup_wf ]. }
  apply Hrun. split; simpl.
  - by rewrite length_replicate.
  - intros i shard id e Hi He. apply lookup_replicate in Hi as [-> _]. by rewrite lookup_empty in He.
  - apply Forall_forall. intros sh Hsh. apply elem_of_replicate in Hsh as [-> _].
    rewrite map_size_empty. lia.
Qed.

(** ** What a reader sees *)

(** The account the in-memory shards hold for [id]. *)
Definition in_memory (s : CacheService) (id : Uuid) : option CacheEntry :=
  match get_shard_index s id with
  | Some i => match cs_shards s !! i with Some shard => shard !! id | None => None end
  | None => None
  end.

Lemma get_account_hit now id s e :
  in_memory s id = Some e -> is_expired now e = false ->
  get_account now id s = (tally count_shard_hit ;;; ret (Some (ce_value e))) s.
Proof.
  unfold in_memory, get_account, shard_of, bind at 1. intros Hm He.
  destruct (get_shard_index s id) as [i |]; [| done ].
  destruct (cs_shards s !! i) as [shard |]; [| done ]. simpl. by rewrite Hm, He.
Qed.

Lemma update_in_memory_entry now id a s s' :
  update_in_memory_cache now id a s = (Ok tt, s') ->
  in_memory s' id = Some {| ce_value := a; ce_created_at := now; ce_last_accessed := now;
                            ce_access_count := 1; ce_ttl := cc_default_ttl (cs_config s) |} /\
  cs_redis_client s' = cs_redis_client s.
Proof.
  intros Hu. destruct (update_in_memory_spec _ _ _ _ _ Hu) as (i & shard & Hi & Hs & _ & ->).
  split; [| done ]. unfold in_memory. unfold get_shard_index in *. simpl. rewrite Hi.
  rewrite list_lookup_insert_eq by (by eapply lookup_lt_Some). by rewrite lookup_insert_eq.
Qed.

Lemma redis_ok {A} (m : M Redis RedisError A) s a s' :
  redis m s = (Ok a, s') ->
  exists r, m (cs_redis_client s) = (Ok a, r) /\ s' = put_redis r s.
Proof.
  unfold redis, on_err, zoom. destruct (m (cs_redis_client s)) as [[] r]; intros; simplify_eq/=; eauto.
Qed.

(** An account just set is read back from memory for the default time to
    live, whatever time to live the caller asked for. *)
Theorem set_account_read_back now later a ttl s s' :
  set_account now a ttl s = (Ok tt, s') ->
  (later - now < cc_default_ttl (cs_config s))%Z ->
  fst (get_account later (acc_id a) s') = Ok (Some a).
Proof.
  unfold set_account. intros (config & s0 & Hg & Hk)%bind_ok Hlater. unfold gets in Hg; simplify_eq.
  apply bind_ok in Hk as ([] & s1 & Hc & Hk). apply redis_ok in Hc as (r1 & _ & ->).
  apply bind_ok in Hk as ([] & s2 & Hset & Hk). apply redis_ok in Hset as (r2 & _ & ->).
  destruct (update_in_memory_entry _ _ _ _ _ Hk) as [He _].
  rewrite (get_account_hit later _ s' _ He); [ done |]. unfold is_expired. simpl.
  by apply Z.leb_gt.
Qed.

(** Deleting an account from the cache does not stop it from being served:
    readers still get the in-memory copy until it expires. *)
Theorem deleted_account_still_served now id s s' e :
  delete_account id s = (Ok tt, s') -> in_memory s id = Some e -> is_expired now e = false ->
  fst (get_account now id s') = Ok (Some (ce_value e)).
Proof.
  unfold delete_account. intros ([] & s1 & Hc & Hk)%bind_ok Hm He.
  apply redis_ok in Hc as (r1 & _ & ->). apply bind_ok in Hk as ([] & s2 & Hd & Hk).
  apply redis_ok in Hd as (r2 & _ & ->). unfold tally, modify in Hk. simplify_eq.
  match goal with |- fst (get_account now id ?x) = _ =>
    by rewrite (get_account_hit now id x e Hm He) end.
Qed.

(** Reading an expired entry never returns: the entry is removed from the
    map while the reader still holds it. *)
Theorem expired_entry_blocks_reader now id s e :
  in_memory s id = Some e -> (ce_ttl e <= now - ce_last_accessed e)%Z ->
  fst (get_account now id s) = Hang.
Proof.
  unfold in_memory, get_account, shard_of, bind at 1. intros Hm He.
  destruct (get_shard_index s id) as [i |]; [| done ].
  destruct (cs_shards s !! i) as [shard |]; [| done ]. simpl. rewrite Hm.
  unfold is_expired. by apply Z.leb_le in He as ->.
Qed.

(** Initialising the cache turns warming off for good: afterwards warming up
    succeeds without loading anything. *)
Theorem initialised_cache_never_warms now ids s s' :
  initialize s = (Ok tt, s') -> warmup_cache now ids s' = (Ok tt, s').
Proof.
  intros Hi. enough (ws_is_warming (cs_warming_state s') = true) as Hw.
  { unfold warmup_cache, bind, gets. by rewrite Hw. }
  unfold initialize in Hi. apply bind_ok in Hi as (st & s0 & Hg & Hk). unfold gets in Hg; simplify_eq.
  destruct (ws_is_warming (cs_warming_state s0)) eqn:Hw; [ by unfold ret in Hk; simplify_eq |].
  apply bind_ok in Hk as ([] & s1 & _ & Hk). apply bind_ok in Hk as (o & s2 & _ & Hk).
  unfold modify in Hk. by simplify_eq.
Qed.

(** ** Through Redis *)
Context `{!RedisLaws} `{!JsonLaws} `{!SerdeLaws}.

Lemma decode_encoded a : decode_account (json_to_vec (account_to_value a)) = Ok a.
Proof. unfold decode_account. rewrite json_round_trip. apply account_round_trip_eq. Qed.

Lemma decode_encoded_events es : decode_events (json_to_vec (encode_events es)) = Ok es.
Proof.
  unfold decode_events, encode_events. rewrite json_round_trip. cbn [res_bind].
  induction es as [| [v e] es IH]; [ done |]. simpl. rewrite event_round_trip_eq. simpl. by rewrite IH.
Qed.

Lemma account_events_keys_ne id id' : account_key id <> events_key id'.
Proof. unfold account_key, events_key. intros Heq. by inversion Heq. Qed.

(** The key Redis holds after a write that succeeded. *)
Lemma set_account_redis now a ttl s s' :
  set_account now a ttl s = (Ok tt, s') ->
  r_keys (cs_redis_client s') !! account_key (acc_id a) = Some (json_to_vec (account_to_value a)).
Proof.
  unfold set_account. intros (config & s0 & Hg & Hk)%bind_ok. unfold gets in Hg; simplify_eq.
  apply bind_ok in Hk as ([] & s1 & Hc & Hk). apply redis_ok in Hc as (r1 & _ & ->).
  apply bind_ok in Hk as ([] & s2 & Hset & Hk). apply redis_ok in Hset as (r2 & Hset & ->).
  destruct (update_in_memory_entry _ _ _ _ _ Hk) as [_ Hr]. rewrite Hr. simpl.
  apply r_set_ex_ok in Hset. rewrite Hset. by rewrite lookup_insert_eq.
Qed.

(** Redis answers a [GET] of [k]. *)
Definition redis_answers (r : Redis) (k : string) : Prop :=
  exists r1 v r2, r_connect r = (Ok tt, r1) /\ r_get k r1 = (Ok v, r2).

(** The shard of [id] has room for another entry. *)
Definition has_room (s : CacheService) (id : Uuid) : Prop :=
  exists i shard, get_shard_index s id = Some i /\ cs_shards s !! i = Some shard /\
    size shard < cc_max_size (cs_config s).

Lemma update_in_memory_returns now id a s :
  has_room s id -> exists s', update_in_memory_cache now id a s = (Ok tt, s').
Proof.
  intros (i & shard & Hi & Hs & Hsize). unfold update_in_memory_cache, bind, gets, shard_of.
  rewrite Hi, Hs. destruct (Nat.leb_spec (cc_max_size (cs_config s)) (size shard)); [ lia |].
  unfold ret, modify. eauto.
Qed.

(** A read that memory cannot answer returns what Redis holds. *)
Lemma get_account_through now id t i shard :
  get_shard_index t id = Some i -> cs_shards t !! i = Some shard -> shard !! id = None ->
  redis_answers (cs_redis_client t) (account_key id) ->
  (is_Some (r_keys (cs_redis_client t) !! account_key id) -> has_room t id) ->
  fst (get_account now id t) =
  Ok (match r_keys (cs_redis_client t) !! account_key id with
      | Some b => match decode_account b with Ok a => Some a | _ => None end
      | None => None
      end).
Proof.
  intros Hi Hs Hmiss (r1 & v & r2 & Hc & Hg) Hroom.
  pose proof (r_connect_keys (cs_redis_client t)) as Hkeys. rewrite Hc in Hkeys. simpl in Hkeys.
  pose proof (r_get_ok _ _ _ _ Hg) as [-> _]. rewrite Hkeys in Hg.
  unfold get_account, shard_of. unfold bind at 1. rewrite Hi, Hs. simpl. rewrite Hmiss.
  unfold bind, tally, modify, redis, attempt, on_err, zoom. simpl. rewrite Hc. simpl. rewrite Hg. simpl.
  destruct (r_keys (cs_redis_client t) !! account_key id) as [b |]; [| done ]. simpl.
  destruct (decode_account b) as [a | e | | ]; try done.
  match goal with |- context [update_in_memory_cache now id a ?x] =>
    destruct (update_in_memory_returns now id a x) as [s' ->]; [| done ] end.
  apply Hroom. eauto.
Qed.

(** C30. Two instances share accounts through Redis: what one sets, another that
    does not hold the account in memory, has room for it and gets an answer from
    Redis reads as the same account. *)
Theorem account_shared_through_redis now a ttl s s' t later :
  set_account now a ttl s = (Ok tt, s') ->
  cs_redis_client t = cs_redis_client s' -> in_memory t (acc_id a) = None -> has_room t (acc_id a) ->
  redis_answers (cs_redis_client t) (account_key (acc_id a)) ->
  fst (get_account later (acc_id a) t) = Ok (Some a).
Proof.
  intros Hset Ht Hmiss Hroom Hr. apply set_account_redis in Hset.
  pose proof Hroom as (i & shard & Hi & Hs & _). unfold in_memory in Hmiss. rewrite Hi, Hs in Hmiss.
  by rewrite (get_account_through _ _ _ _ _ Hi Hs Hmiss Hr), Ht, Hset, decode_encoded.
Qed.

(** Invalidating an account removes it everywhere: afterwards neither memory
    nor Redis holds the account or its events, and a read Redis answers returns
    that there is none. *)
Theorem invalidated_account_is_gone id s s' later :
  invalidate_account id s = (Ok tt, s') ->
  cs_event_cache s' !! id = None /\
  r_keys (cs_redis_client s') !! account_key id = None /\
  r_keys (cs_redis_client s') !! events_key id = None /\
  (redis_answers (cs_redis_client s') (account_key id) -> fst (get_account later id s') = Ok None).
Proof.
  unfold invalidate_account. intros (p & s0 & Hsh & Hk)%bind_ok.
  destruct (shard_of_spec _ _ _ _ Hsh) as (-> & Hi & Hs).
  apply bind_ok in Hk as ([] & s1 & Hm1 & Hk). apply bind_ok in Hk as ([] & s2 & Hm2 & Hk).
  unfold modify in Hm1, Hm2. simplify_eq.
  apply bind_ok in Hk as ([] & s3 & Hc & Hk). apply redis_ok in Hc as (r1 & _ & ->).
  apply bind_ok in Hk as ([] & s4 & Hd1 & Hk). apply redis_ok in Hd1 as (r2 & Hd1 & ->).
  apply bind_ok in Hk as ([] & s5 & Hd2 & Hk). apply redis_ok in Hd2 as (r3 & Hd2 & ->).
  unfold tally, modify in Hk. simplify_eq. simpl in *.
  apply r_del_ok in Hd1, Hd2.
  assert (r_keys r3 !! account_key id = None) as Hacc
    by (rewrite Hd2, Hd1, lookup_delete_ne, lookup_delete_eq; auto using account_events_keys_ne).
  assert (r_keys r3 !! events_key id = None) as Hev by (by rewrite Hd2, lookup_delete_eq).
  split_and!; [ by rewrite lookup_delete_eq | done | done |]. intros Hr.
  rewrite (get_account_through later id _ p.1 (delete id p.2)); simpl; [ by rewrite Hacc | done | | | done |].
  - rewrite list_lookup_insert_eq by (by eapply lookup_lt_Some). done.
  - by rewrite lookup_delete_eq.
  - rewrite Hacc. by intros [].
Qed.

End Cache.

(** ** Witnesses: Redis as a map, JSON text as the value itself *)
Module CacheWitness.
Import ScaleZero PlainSerde.

#[export] Instance text : JsonText := {|
  Bytes := option Value;
  no_bytes := None;
  json_to_vec := Some;
  json_from_slice := ok_or (InvalidType "value")
|}.

#[export] Instance text_laws : JsonLaws.
Proof. by split. Qed.

#[export] Instance server : RedisCommands := {|
  Redis := gmap string (option Value);
  r_connect := ret tt;
  r_get := fun k => gets (fun r => reply_of (r !! k));
  r_set_ex := fun k b _ => modify (fun r => <[k := b]> r);
  r_del := fun k => modify (fun r => delete k r);
  r_get_all := fun ks => gets (fun r => map (fun k => reply_of (r !! k)) ks)
|}.

#[export] Instance server_laws : RedisLaws.
Proof.
  refine {| r_keys := (fun r => r) : @Redis text server -> gmap string (@Bytes text) |};
    simpl; unfold gets, modify; intros; by simplify_eq.
Defined.

Definition cache : CacheService := CacheService_new (∅ : @Redis text server) cache_test_config.

Definition alice : Account := AccountWitness.alice.

Definition with_alice : CacheService := snd (set_account 100 alice None cache).

Lemma set_account_read_back_witness : fst (get_account 150 1%N with_alice) = Ok (Some alice).
Proof. apply (set_account_read_back 100 150 alice None cache with_alice); reflexivity. Defined.

Definition alice_entry : CacheEntry :=
  {| ce_value := alice; ce_created_at := 100; ce_last_accessed := 100; ce_access_count := 1;
     ce_ttl := 60 |}.

Lemma deleted_account_still_served_witness :
  fst (get_account 150 1%N (snd (delete_account 1%N with_alice))) = Ok (Some alice).
Proof.
  apply (deleted_account_still_served 150 1%N with_alice _ alice_entry); reflexivity.
Defined.

Lemma expired_entry_blocks_reader_witness : fst (get_account 160 1%N with_alice) = Hang.
Proof.
  apply (expired_entry_blocks_reader 160 1%N with_alice alice_entry); [ reflexivity |].
  vm_compute. discriminate.
Defined.

Lemma initialised_cache_never_warms_witness :
  warmup_cache 200 [1%N] (snd (initialize cache)) = (Ok tt, snd (initialize cache)).
Proof. apply (initialised_cache_never_warms 200 [1%N] cache). reflexivity. Defined.

(** A second instance on the same Redis. *)
Definition other : CacheService := CacheService_new (cs_redis_client with_alice) cache_test_config.

Lemma account_shared_through_redis_witness :
  fst (get_account 120 (acc_id alice) other) = Ok (Some alice).
Proof.
  apply (account_shared_through_redis 100 alice None cache with_alice other 120); [ reflexivity.. | | ].
  - exists 1, ∅. split; [ reflexivity | split; [ reflexivity | simpl; rewrite map_size_empty; lia ] ].
  - do 3 eexists. split; reflexivity.
Defined.

Definition invalidated : CacheService := snd (invalidate_account 1%N with_alice).

Lemma invalidated_account_is_gone_witness :
  r_keys (cs_redis_client invalidated) !! account_key 1%N = None /\
  fst (get_account 120 1%N invalidated) = Ok None.
Proof.
  destruct (invalidated_account_is_gone 1%N with_alice invalidated 120) as (_ & Hk & _ & Hg);
    [ reflexivity |]. split; [ exact Hk |]. apply Hg. do 3 eexists. split; reflexivity.
Defined.

End CacheWitness.
