(* ===== verification/Service.v ===== *)
(** The account service (src/src/application/services.rs): commands with
    duplicate detection, projections and cache, over the interfaces of the
    repository, the projection store and the cache.

    [AccountService] holds the states of the three components behind their
    traits, the metrics and the command cache.  Identifiers the source draws and
    the clock are arguments.  [projection_store] and [cache_service] put the
    components of [Projections] and [Cache] behind the traits. *)
From S2P Require Import Prelude.
From S2P Require Import DecimalSpec.
From S2P Require Import Account.
From S2P Require Import Codec.
From S2P Require Import EventsDb.
From S2P Require Import EventStore.
From S2P Require Import EventStoreFacts.
From S2P Require Import Repository.
From S2P Require Import Handlers.
From S2P Require Import RedisGuard.
From S2P Require Import Cache.
From S2P Require Import Projections.
From stdpp Require Import base tactics list gmap strings.
From Stdlib Require Import ZArith Lia.

(** Errors of the projections and the cache are [anyhow] errors: their texts. *)
Class ProjectionStoreTrait `{DecimalOps} : Type := {
  Proj : Type;
  pj_get_account : Uuid -> M Proj string (option AccountProjection);
  pj_get_all_accounts : M Proj string (list AccountProjection);
  pj_get_account_transactions : Uuid -> M Proj string (list TransactionProjection);
  pj_upsert_accounts_batch : list AccountProjection -> M Proj string unit;
  pj_insert_transactions_batch : list TransactionProjection -> M Proj string unit
}.

Class CacheServiceTrait `{DecimalOps} : Type := {
  CacheState : Type;
  ca_get_account : Uuid -> M CacheState string (option Account);
  ca_set_account : Account -> option Z -> M CacheState string unit;
  ca_delete_account : Uuid -> M CacheState string unit;
  ca_get_account_events : Uuid -> M CacheState string (option (list AccountEvent));
  ca_set_account_events : Uuid -> list (Z * AccountEvent) -> option Z -> M CacheState string unit;
  ca_delete_account_events : Uuid -> M CacheState string unit;
  ca_invalidate_account : Uuid -> M CacheState string unit;
  ca_warmup_cache : list Uuid -> M CacheState string unit;
  ca_get_metrics : CacheState -> CacheMetrics
}.

Section Service.
Context `{SerdeOps}.
Context `{!Display SqlxError, !Display SerdeError}.
Context `{!AccountRepositoryTrait} `{!ProjectionStoreTrait} `{!CacheServiceTrait}.

Record ServiceMetrics : Type := {
  sm_commands_processed : Z;
  sm_commands_failed : Z;
  sm_projection_updates : Z;
  sm_projection_errors : Z;
  sm_cache_hits : Z;
  sm_cache_misses : Z
}.

Record AccountService : Type := {
  sv_repository : Repo;
  sv_projections : Proj;
  sv_cache_service : CacheState;
  sv_metrics : ServiceMetrics;
  sv_command_cache : gmap Uuid Z
}.

(** [AccountService::new]; the middleware and the semaphore are the web layer's. *)
Definition AccountService_new (repository : Repo) (projections : Proj) (cache : CacheState)
  : AccountService :=
  {| sv_repository := repository; sv_projections := projections; sv_cache_service := cache;
     sv_metrics := {| sm_commands_processed := 0; sm_commands_failed := 0;
                      sm_projection_updates := 0; sm_projection_errors := 0;
                      sm_cache_hits := 0; sm_cache_misses := 0 |};
     sv_command_cache := ∅ |}.

Definition sv_with (r : Repo) (p : Proj) (c : CacheState) (m : ServiceMetrics)
    (cc : gmap Uuid Z) : AccountService :=
  {| sv_repository := r; sv_projections := p; sv_cache_service := c; sv_metrics := m;
     sv_command_cache := cc |}.

Definition put_repo (r : Repo) (s : AccountService) : AccountService :=
  sv_with r (sv_projections s) (sv_cache_service s) (sv_metrics s) (sv_command_cache s).

Definition put_proj (p : Proj) (s : AccountService) : AccountService :=
  sv_with (sv_repository s) p (sv_cache_service s) (sv_metrics s) (sv_command_cache s).

Definition put_cache (c : CacheState) (s : AccountService) : AccountService :=
  sv_with (sv_repository s) (sv_projections s) c (sv_metrics s) (sv_command_cache s).

Definition add_service_metrics (processed failed updates errors hits misses : Z) (m : ServiceMetrics)
  : ServiceMetrics :=
  {| sm_commands_processed := wrap_u64 (sm_commands_processed m + processed);
     sm_commands_failed := wrap_u64 (sm_commands_failed m + failed);
     sm_projection_updates := wrap_u64 (sm_projection_updates m + updates);
     sm_projection_errors := wrap_u64 (sm_projection_errors m + errors);
     sm_cache_hits := wrap_u64 (sm_cache_hits m + hits);
     sm_cache_misses := wrap_u64 (sm_cache_misses m + misses) |}.

Definition metric {E} (processed failed updates errors hits misses : Z) : M AccountService E unit :=
  modify (fun s => sv_with (sv_repository s) (sv_projections s) (sv_cache_service s)
    (add_service_metrics processed failed updates errors hits misses (sv_metrics s))
    (sv_command_cache s)).

Definition on_repo {E A} (m : M Repo E A) : M AccountService E A := zoom sv_repository put_repo m.

(** [.map_err(|e| AccountError::InfrastructureError(e.to_string()))]. *)
Definition on_proj {A} (m : M Proj string A) : M AccountService AccountError A :=
  on_err InfrastructureError (zoom sv_projections put_proj m).

Definition on_cache {A} (m : M CacheState string A) : M AccountService AccountError A :=
  on_err InfrastructureError (zoom sv_cache_service put_cache m).

(** [AccountService::is_duplicate_command]. *)
Definition is_duplicate_command (now : Z) (command_id : Uuid) : M AccountService AccountError bool :=
  fun s =>
    match sv_command_cache s !! command_id with
    | Some _ => (Ok true, s)
    | None =>
        (Ok false, sv_with (sv_repository s) (sv_projections s) (sv_cache_service s) (sv_metrics s)
                     (<[command_id := now]> (sv_command_cache s)))
    end.

Definition refuse_duplicate (now : Z) (command_id : Uuid) (msg : string)
  : M AccountService AccountError unit :=
  let! dup := is_duplicate_command now command_id in
  if dup : bool then throw (InfrastructureError msg) else ret tt.

(** [self.repository.save(..)] with the failure counted. *)
Definition save_counted (account : Account) (events : list AccountEvent)
  : M AccountService AccountError unit :=
  let! r := attempt (on_repo (rp_save account events)) in
  match r with
  | inr _ => ret tt
  | inl e => metric 0 1 0 0 0 0 ;;; throw (InfrastructureError (to_string e))
  end.

(** [AccountService::create_account]: [account_id] is drawn for the command,
    [draw] by [Account::default]. *)
Definition create_account (now : Z) (account_id draw tx : Uuid) (owner_name : string)
    (initial_balance : Decimal) : M AccountService AccountError Uuid :=
  refuse_duplicate now account_id "Duplicate create account command" ;;;
  let command := CreateAccount account_id owner_name initial_balance in
  let account := Account_default draw in
  let! events := lift (handle_command tx account command) in
  save_counted account events ;;;
  let projection :=
    {| ap_id := account_id; ap_owner_name := owner_name; ap_balance := initial_balance;
       ap_is_active := true; ap_created_at := now; ap_updated_at := now |} in
  let! r := attempt (on_proj (pj_upsert_accounts_batch [projection])) in
  (match (r : AccountError + unit) with
   | inl _ => metric 0 0 0 1 0 0
   | inr _ => metric 0 0 1 0 0 0
   end) ;;;
  metric 1 0 0 0 0 0 ;;;
  ret account_id.

(** The transaction row of an event ([update_projections_from_events] and
    [From<AccountEvent> for TransactionProjection]). *)
Definition transaction_of (new_v4 : Uuid) (now : Z) (event : AccountEvent) : TransactionProjection :=
  {| tp_id := new_v4; tp_account_id := aggregate_id event;
     tp_transaction_type := event_type event;
     tp_amount := (match event with
                   | EvMoneyDeposited _ amount _ => amount
                   | EvMoneyWithdrawn _ amount _ => amount
                   | _ => dec_zero
                   end);
     tp_timestamp := now |}.

(** [AccountService::update_projections_from_events]. *)
Fixpoint update_projections_from_events (new_v4 : nat -> Uuid) (now : Z) (i : nat)
    (events : list AccountEvent) : M AccountService AccountError unit :=
  match events with
  | [] => ret tt
  | event :: rest =>
      let! r := attempt (on_proj (pj_insert_transactions_batch [transaction_of (new_v4 i) now event])) in
      match r with
      | inr _ =>
          metric 0 0 1 0 0 0 ;;;
          let! o := on_proj (pj_get_account (aggregate_id event)) in
          (match (o : option AccountProjection) with
           | Some account =>
               let account :=
                 {| acc_id := ap_id account; acc_owner_name := ap_owner_name account;
                    acc_balance := ap_balance account; acc_is_active := ap_is_active account;
                    acc_version := 0 |} in
               on_cache (ca_set_account account (Some 3600%Z))
           | None => ret tt
           end) ;;;
          update_projections_from_events new_v4 now (S i) rest
      | inl e => metric 0 0 0 1 0 0 ;;; throw e
      end
  end.

(** The body of [deposit_money] and [withdraw_money], from the read on. *)
Definition change_account (new_v4 : nat -> Uuid) (now : Z) (tx account_id : Uuid)
    (command : AccountCommand) : M AccountService AccountError unit :=
  let! o := on_repo (rp_get_by_id account_id) in
  let! account := lift (ok_or NotFound o) in
  let! events := lift (handle_command tx account command) in
  let! account := lift (or_panic (apply_events account events)) in
  save_counted account events ;;;
  let! r := attempt (update_projections_from_events new_v4 now 0 events) in
  (match (r : AccountError + unit) with
   | inl _ => metric 0 0 0 1 0 0
   | inr _ => metric 0 0 1 0 0 0
   end) ;;;
  metric 1 0 0 0 0 0.

(** [AccountService::deposit_money]. *)
Definition deposit_money (new_v4 : nat -> Uuid) (now : Z) (tx account_id : Uuid) (amount : Decimal)
  : M AccountService AccountError unit :=
  refuse_duplicate now account_id "Duplicate deposit command" ;;;
  change_account new_v4 now tx account_id (DepositMoney account_id amount).

(** [AccountService::withdraw_money]. *)
Definition withdraw_money (new_v4 : nat -> Uuid) (now : Z) (tx account_id : Uuid) (amount : Decimal)
  : M AccountService AccountError unit :=
  refuse_duplicate now account_id "Duplicate withdraw command" ;;;
  change_account new_v4 now tx account_id (WithdrawMoney account_id amount).

(** [AccountService::get_account]. *)
Definition get_account (now : Z) (account_id : Uuid)
  : M AccountService AccountError (option AccountProjection) :=
  let! o := on_cache (ca_get_account account_id) in
  match (o : option Account) with
  | Some account =>
      metric 0 0 0 0 1 0 ;;;
      ret (Some {| ap_id := acc_id account; ap_owner_name := acc_owner_name account;
                   ap_balance := acc_balance account; ap_is_active := acc_is_active account;
                   ap_created_at := now; ap_updated_at := now |})
  | None =>
      metric 0 0 0 0 0 1 ;;;
      on_proj (pj_get_account account_id)
  end.

(** [AccountService::get_all_accounts]. *)
Definition get_all_accounts : M AccountService AccountError (list AccountProjection) :=
  on_proj pj_get_all_accounts.

(** [AccountService::get_account_transactions]. *)
Definition get_account_transactions (new_v4 : nat -> Uuid) (now : Z) (account_id : Uuid)
  : M AccountService AccountError (list TransactionProjection) :=
  let! o := on_cache (ca_get_account_events account_id) in
  match (o : option (list AccountEvent)) with
  | Some events =>
      metric 0 0 0 0 1 0 ;;;
      ret (imap (fun i e => transaction_of (new_v4 i) now e) events)
  | None =>
      metric 0 0 0 0 0 1 ;;;
      on_proj (pj_get_account_transactions account_id)
  end.

(** ** Lemmas *)
Definition service_holds `{!RepositoryContract} (s : AccountService) (L : Log) : Prop :=
  rholds (sv_repository s) L.

(** The repository is not touched. *)
Definition same_repo (s s' : AccountService) : Prop := sv_repository s' = sv_repository s.

#[local] Instance same_repo_pre : PreOrder same_repo.
Proof. split; [ done | intros ???; unfold same_repo; congruence ]. Qed.

Lemma metric_repo {E} a b c d e f : respects same_repo (metric (E := E) a b c d e f).
Proof. by intros s. Qed.

Lemma on_proj_repo {A} (m : M Proj string A) : respects same_repo (on_proj m).
Proof. intros s. unfold on_proj, on_err, zoom. by destruct (m (sv_projections s)). Qed.

Lemma on_cache_repo {A} (m : M CacheState string A) : respects same_repo (on_cache m).
Proof. intros s. unfold on_cache, on_err, zoom. by destruct (m (sv_cache_service s)). Qed.

#[local] Hint Resolve metric_repo on_proj_repo on_cache_repo : bank.

Lemma attempt_same_repo {E F A} (m : M AccountService E A) s r s' :
  respects same_repo m -> attempt (F := F) m s = (Ok r, s') -> sv_repository s' = sv_repository s.
Proof.
  intros Hm Hr. specialize (Hm s). unfold attempt in Hr. by destruct (m s) as [[] ?]; simplify_eq.
Qed.

Lemma update_projections_repo new_v4 now i events :
  respects same_repo (update_projections_from_events new_v4 now i events).
Proof. revert i. induction events as [| e events IH]; intros i; simpl; respects_tac. Qed.

Lemma refuse_duplicate_spec now id msg s :
  refuse_duplicate now id msg s =
    match sv_command_cache s !! id with
    | Some _ => (Err (InfrastructureError msg), s)
    | None => (Ok tt, sv_with (sv_repository s) (sv_projections s) (sv_cache_service s)
                        (sv_metrics s) (<[id := now]> (sv_command_cache s)))
    end.
Proof.
  unfold refuse_duplicate, is_duplicate_command, bind. by destruct (sv_command_cache s !! id).
Qed.

(** The command cache only grows. *)
Definition remembers (s s' : AccountService) : Prop := sv_command_cache s ⊆ sv_command_cache s'.

#[local] Instance remembers_pre : PreOrder remembers.
Proof.
  split; [ intros s; unfold remembers; reflexivity |].
  intros s1 s2 s3 H12 H23. unfold remembers in *. by etransitivity.
Qed.

Lemma zoom_remembers {E A T} (get : AccountService -> T) put (m : M T E A) :
  (forall t s, sv_command_cache (put t s) = sv_command_cache s) -> respects remembers (zoom get put m).
Proof. intros Hput s. unfold zoom, remembers. destruct (m (get s)). simpl. rewrite Hput. reflexivity. Qed.

Lemma metric_remembers {E} a b c d e f : respects remembers (metric (E := E) a b c d e f).
Proof. intros s. unfold remembers. reflexivity. Qed.

Lemma refuse_remembers now id msg : respects remembers (refuse_duplicate now id msg).
Proof.
  intros s. rewrite refuse_duplicate_spec. unfold remembers.
  destruct (sv_command_cache s !! id) eqn:Hid; [ reflexivity |]. simpl. by apply insert_subseteq.
Qed.

#[local] Hint Resolve zoom_remembers metric_remembers refuse_remembers : bank.

Lemma update_projections_remembers new_v4 now i events :
  respects remembers (update_projections_from_events new_v4 now i events).
Proof.
  revert i. induction events as [| e events IH]; intros i; simpl; unfold on_proj, on_cache; respects_tac.
Qed.

#[local] Hint Resolve update_projections_remembers : bank.

Lemma change_remembers new_v4 now tx id c : respects remembers (change_account new_v4 now tx id c).
Proof. unfold change_account, save_counted, on_repo. respects_tac. Qed.

(** The commands of a client. *)
Inductive service_call : Type :=
| SvCreate (account_id draw tx : Uuid) (owner_name : string) (initial_balance : Decimal)
| SvDeposit (tx account_id : Uuid) (amount : Decimal)
| SvWithdraw (tx account_id : Uuid) (amount : Decimal).

Definition run_service (new_v4 : nat -> Uuid) (now : Z) (c : service_call)
  : M AccountService AccountError unit :=
  match c with
  | SvCreate account_id draw tx owner b => create_account now account_id draw tx owner b ;;; ret tt
  | SvDeposit tx account_id amount => deposit_money new_v4 now tx account_id amount
  | SvWithdraw tx account_id amount => withdraw_money new_v4 now tx account_id amount
  end.

Definition service_id (c : service_call) : Uuid :=
  match c with
  | SvCreate account_id _ _ _ _ => account_id
  | SvDeposit _ account_id _ => account_id
  | SvWithdraw _ account_id _ => account_id
  end.

Definition after (new_v4 : nat -> Uuid) (cs : list (Z * service_call)) (s : AccountService)
  : AccountService :=
  foldl (fun s p => snd (run_service new_v4 p.1 p.2 s)) s cs.

Lemma run_service_remembers new_v4 now c : respects remembers (run_service new_v4 now c).
Proof.
  pose proof change_remembers.
  destruct c; simpl; unfold create_account, deposit_money, withdraw_money, save_counted, on_repo, on_proj;
    respects_tac.
Qed.

Lemma run_service_marks new_v4 now c s :
  is_Some (sv_command_cache (snd (run_service new_v4 now c s)) !! service_id c).
Proof.
  destruct c as [id draw tx owner b | tx id amount | tx id amount]; simpl.
  - unfold create_account. unfold bind at 1 2. rewrite refuse_duplicate_spec.
    destruct (sv_command_cache s !! id) eqn:Hid; [ by simpl; rewrite Hid |].
    match goal with |- context [ ?m (sv_with ?r ?p ?c ?mt ?cc) ] =>
      assert (respects remembers m) as Hm by (unfold save_counted, on_repo, on_proj; respects_tac);
      specialize (Hm (sv_with r p c mt cc));
      destruct (m (sv_with r p c mt cc)) as [[] s'] end;
      simpl in *; exists now; eapply lookup_weaken; try exact Hm; apply lookup_insert_eq.
  - unfold deposit_money, bind. rewrite refuse_duplicate_spec.
    destruct (sv_command_cache s !! id) eqn:Hid; [ by simpl; rewrite Hid |].
    exists now. eapply lookup_weaken; [| apply change_remembers ]. apply lookup_insert_eq.
  - unfold withdraw_money, bind. rewrite refuse_duplicate_spec.
    destruct (sv_command_cache s !! id) eqn:Hid; [ by simpl; rewrite Hid |].
    exists now. eapply lookup_weaken; [| apply change_remembers ]. apply lookup_insert_eq.
Qed.

(** ** Properties *)

(** C16. The duplicate check is per account and for ever: once a command has been
    tried on an account, whatever its outcome, every later deposit and withdrawal
    on it is refused as a duplicate and changes nothing. *)
Theorem second_command_refused new_v4 now c cs s tx amount now' :
  let s' := after new_v4 cs (snd (run_service new_v4 now c s)) in
  deposit_money new_v4 now' tx (service_id c) amount s'
    = (Err (InfrastructureError "Duplicate deposit command"), s') /\
  withdraw_money new_v4 now' tx (service_id c) amount s'
    = (Err (InfrastructureError "Duplicate withdraw command"), s').
Proof.
  intros s'. assert (is_Some (sv_command_cache s' !! service_id c)) as [t Ht].
  { pose proof (run_service_marks new_v4 now c s) as Hm. unfold s'. clear s'.
    revert Hm. generalize (snd (run_service new_v4 now c s)).
    induction cs as [| [t c'] cs IH]; intros s0 Hm; [ exact Hm |]. apply IH.
    destruct Hm as [t0 Hm]. exists t0. eapply lookup_weaken; [ exact Hm | apply run_service_remembers ]. }
  unfold deposit_money, withdraw_money, bind. rewrite !refuse_duplicate_spec, Ht. done.
Qed.

Context `{!DecimalLaws} `{!RepositoryContract}.

Lemma on_repo_keeps {E A} (m : M Repo E A) s L :
  rholds (snd (m (sv_repository s))) L -> service_holds (snd (on_repo m s)) L.
Proof. unfold on_repo, zoom, service_holds. by destruct (m (sv_repository s)). Qed.

Lemma save_counted_ok a es s s' L :
  service_holds s L -> es <> [] -> save_counted a es s = (Ok tt, s') ->
  acc_version a = Z.of_nat (length (L (acc_id a))) /\ service_holds s' (append (acc_id a) es L).
Proof.
  intros Hh Hne (r & s1 & Hr & Hk)%bind_ok. unfold attempt, on_repo, zoom in Hr.
  destruct (rp_save a es (sv_repository s)) as [[[] | e | | ] r'] eqn:Hsave; simplify_eq/=.
  unfold ret in Hk. simplify_eq. unfold service_holds. simpl. by eapply save_sound.
Qed.

Lemma save_counted_keeps a es s L :
  service_holds s L -> is_ok (fst (save_counted a es s)) = false ->
  service_holds (snd (save_counted a es s)) L.
Proof.
  intros Hh. pose proof (save_keeps (sv_repository s) L a es Hh) as Hk.
  unfold save_counted, attempt, on_repo, zoom, bind.
  destruct (rp_save a es (sv_repository s)) as [[u | e | | ] r']; simpl in *;
    unfold service_holds; simpl; auto; done.
Qed.

(** The version of the changed account is one past its history. *)
Lemma change_refused new_v4 now tx id c s L :
  service_holds s L -> (Z.of_nat (length (L id)) < i64_max)%Z ->
  is_ok (fst (change_account new_v4 now tx id c s)) = false.
Proof.
  intros Hh Hlen. destruct (change_account new_v4 now tx id c s) as [[[] | e | | ] s'] eqn:Hc; try done.
  exfalso. unfold change_account in Hc. apply bind_ok in Hc as (o & s1 & Hg & Hk).
  unfold on_repo, zoom in Hg. destruct (rp_get_by_id id (sv_repository s)) as [ro r1] eqn:Hget. simplify_eq.
  pose proof (get_by_id_sound _ _ _ _ _ Hh Hget) as Hs.
  pose proof (get_by_id_keeps _ L id Hh) as Hkeep. rewrite Hget in Hkeep.
  apply bind_ok in Hk as (a & s2 & Ha & Hk). unfold lift, ok_or in Ha.
  destruct o as [a0 |]; simplify_eq. destruct Hs as [_ Hrep].
  apply bind_ok in Hk as (es & s3 & Hes & Hk). unfold lift in Hes. simplify_eq.
  apply bind_ok in Hk as (a1 & s4 & Ha1 & Hk). unfold lift in Ha1.
  destruct (apply_events a es) as [a2 |] eqn:Happ; simplify_eq/=.
  apply bind_ok in Hk as ([] & s5 & Hsave & _).
  assert (handle_command tx a c = Ok es) as Hcmd by congruence.
  destruct (handle_command_single _ _ _ _ Hcmd) as [ev ->].
  destruct (save_counted_ok a1 [ev] (put_repo r1 s) s5 L Hkeep ltac:(done) Hsave) as [Hv _].
  assert (in_i64 (acc_version (blank id))) as Hzero by (unfold in_i64, i64_max; simpl; lia).
  pose proof (apply_events_version _ _ _ Hzero Hrep) as Hva.
  rewrite (wrap_i64_id _) in Hva by (unfold in_i64, i64_max in *; simpl; lia).
  assert (in_i64 (acc_version a)) as Hra by (rewrite Hva; unfold in_i64, i64_max in *; simpl; lia).
  pose proof (apply_events_version _ _ _ Hra Happ) as Hv1. simpl in Hv1.
  rewrite wrap_i64_id in Hv1 by (rewrite Hva; unfold in_i64, i64_max in *; simpl; lia).
  rewrite (apply_events_id _ _ _ Happ), (apply_events_id _ _ _ Hrep) in Hv. simpl in *. lia.
Qed.

(** C17. A created account is recorded under another identifier: the creation
    event goes to the history of the identifier [Account::default] drew, so the
    identifier returned to the client has no history. *)
Theorem created_account_recorded_elsewhere now id draw tx owner b s L id' s' :
  service_holds s L -> L id = [] -> id <> draw ->
  create_account now id draw tx owner b s = (Ok id', s') ->
  id' = id /\ exists L', service_holds s' L' /\ L' id = [] /\
    L' draw = [EvAccountCreated id owner b].
Proof.
  intros Hh Hnil Hne Hc. unfold create_account in Hc.
  apply bind_ok in Hc as ([] & s1 & Hdup & Hk). rewrite refuse_duplicate_spec in Hdup.
  destruct (sv_command_cache s !! id); simplify_eq.
  apply bind_ok in Hk as (es & s2 & Hes & Hk). unfold lift, handle_command in Hes. simpl in Hes.
  destruct (dec_ltb b dec_zero); simplify_eq.
  apply bind_ok in Hk as ([] & s3 & Hsave & Hk).
  match type of Hsave with _ ?s0 = _ =>
    destruct (save_counted_ok (Account_default draw) [EvAccountCreated id owner b] s0 s3 L Hh
                ltac:(done) Hsave) as [Hv Hh3] end. simpl in Hv, Hh3.
  apply bind_ok in Hk as (r & s4 & Hr & Hk).
  pose proof (attempt_same_repo _ _ _ _ (on_proj_repo _) Hr) as Hrepo.
  apply bind_ok in Hk as ([] & s5 & Hm1 & Hk). apply bind_ok in Hk as ([] & s6 & Hm2 & Hk).
  unfold ret in Hk. simplify_eq. split; [ done |]. exists (append draw [EvAccountCreated id' owner b] L).
  assert (sv_repository s' = sv_repository s3) as Hrepo'.
  { unfold metric, modify in *. destruct r; simplify_eq/=; exact Hrepo. }
  unfold service_holds. rewrite Hrepo'. split_and!; [ exact Hh3 | |]; unfold append.
  - by rewrite decide_False.
  - rewrite decide_True by done. by destruct (L draw).
Qed.

(** An operation whose failures leave the histories as they are. *)
Definition err_keeps {A} (m : M AccountService AccountError A) : Prop :=
  forall s L e s', service_holds s L -> m s = (Err e, s') -> service_holds s' L.

(** After which nothing can fail: the recorded part is done. *)
Lemma err_keeps_total {A B} (m : M AccountService AccountError A)
    (k : A -> M AccountService AccountError B) :
  err_keeps m -> (forall a s e s', k a s <> (Err e, s')) -> err_keeps (bind m k).
Proof.
  intros Hm Hk s L e s' Hh Hb. unfold bind in Hb.
  destruct (m s) as [[a | e1 | | ] s1] eqn:Hs; simplify_eq; [ by destruct (Hk a s1 e s') |].
  exact (Hm s L e s' Hh Hs).
Qed.

(** A first part that keeps the histories in every outcome. *)
Lemma err_keeps_seq {A B} (m : M AccountService AccountError A)
    (k : A -> M AccountService AccountError B) :
  (forall s L, service_holds s L -> service_holds (snd (m s)) L) ->
  (forall a, err_keeps (k a)) -> err_keeps (bind m k).
Proof.
  intros Hm Hk s L e s' Hh Hb. specialize (Hm s L Hh). unfold bind in Hb.
  destruct (m s) as [[a | e1 | | ] s1]; simplify_eq; [ exact (Hk a s1 L e s' Hm Hb) | done ].
Qed.

Lemma save_err_keeps a es : err_keeps (save_counted a es).
Proof.
  intros s L e s' Hh Hs. pose proof (save_counted_keeps a es s L Hh) as Hk.
  rewrite Hs in Hk. by apply Hk.
Qed.

Lemma refuse_keeps now id msg s L :
  service_holds s L -> service_holds (snd (refuse_duplicate now id msg s)) L.
Proof. rewrite refuse_duplicate_spec. by destruct (sv_command_cache s !! id). Qed.

Lemma change_err_keeps new_v4 now tx id c : err_keeps (change_account new_v4 now tx id c).
Proof.
  unfold change_account. apply err_keeps_seq; [ intros s L Hh; apply on_repo_keeps; by apply get_by_id_keeps |].
  intros o. apply err_keeps_seq; [ by intros |]. intros a. apply err_keeps_seq; [ by intros |].
  intros es. apply err_keeps_seq; [ by intros |]. intros a1.
  apply err_keeps_total; [ apply save_err_keeps |].
  intros _ s e s'. unfold bind at 1, attempt.
  destruct (update_projections_from_events _ _ _ _ s) as [[] s1]; done.
Qed.

Lemma create_err_keeps now id draw tx owner b : err_keeps (create_account now id draw tx owner b).
Proof.
  unfold create_account. apply err_keeps_seq; [ intros s L; apply refuse_keeps |].
  intros _. apply err_keeps_seq; [ by intros |]. intros es.
  apply err_keeps_total; [ apply save_err_keeps |].
  intros _ s e s'. unfold bind at 1, attempt.
  destruct (on_proj _ s) as [[] s1]; done.
Qed.

Lemma run_service_err_keeps new_v4 now c : err_keeps (run_service new_v4 now c).
Proof.
  destruct c as [id draw tx owner b | tx id amount | tx id amount]; simpl.
  - apply err_keeps_total; [ apply create_err_keeps | done ].
  - apply err_keeps_seq; [ intros s0 L0; apply refuse_keeps | intros _; apply change_err_keeps ].
  - apply err_keeps_seq; [ intros s0 L0; apply refuse_keeps | intros _; apply change_err_keeps ].
Qed.

(** A change behind the duplicate check. *)
Lemma checked_change_refused new_v4 now tx id c msg s L :
  service_holds s L -> (Z.of_nat (length (L id)) < i64_max)%Z ->
  is_ok (fst ((refuse_duplicate now id msg ;;; change_account new_v4 now tx id c) s)) = false.
Proof.
  intros Hh Hlen. unfold bind. rewrite refuse_duplicate_spec.
  destruct (sv_command_cache s !! id); [ done | by apply (change_refused _ _ _ _ _ _ L) ].
Qed.

(** C15. No deposit or withdrawal of the service succeeds over a store that keeps
    its contract, whether it is refused as a duplicate or not: the events are
    applied before the save, so the expected version is one more than the
    history's length, and the save is refused.  A call that returns its error has
    left every history as it was. *)
Theorem change_never_saved new_v4 now tx id amount s L :
  service_holds s L -> (Z.of_nat (length (L id)) < i64_max)%Z ->
  (is_ok (fst (deposit_money new_v4 now tx id amount s)) = false /\
   forall e s', deposit_money new_v4 now tx id amount s = (Err e, s') -> service_holds s' L) /\
  (is_ok (fst (withdraw_money new_v4 now tx id amount s)) = false /\
   forall e s', withdraw_money new_v4 now tx id amount s = (Err e, s') -> service_holds s' L).
Proof.
  intros Hh Hlen. split; (split; [ by apply (checked_change_refused _ _ _ _ _ _ _ L) |]); intros e s' He.
  - exact (run_service_err_keeps new_v4 now (SvDeposit tx id amount) s L e s' Hh He).
  - exact (run_service_err_keeps new_v4 now (SvWithdraw tx id amount) s L e s' Hh He).
Qed.

(** A command of the service that returns an error has recorded nothing:
    whether it was refused as a duplicate, by the domain or by the store, and
    whatever the projections and the cache answered, the histories are as
    before. *)
Theorem failed_command_records_nothing new_v4 now c s L e s' :
  service_holds s L -> run_service new_v4 now c s = (Err e, s') -> service_holds s' L.
Proof. intros Hh. by apply (run_service_err_keeps new_v4 now c). Qed.

End Service.

(** ** The components behind the traits *)
Section Components.
Context `{SerdeOps} `{!Display SqlxError}.

(** [impl ProjectionStoreTrait for ProjectionStore]. *)
Definition projection_store `{!ProjectionsDb} (now micros : Z) (fuel : nat) : ProjectionStoreTrait := {|
  Proj := ProjectionStore;
  pj_get_account := fun id => on_err to_string (Projections.get_account now micros id);
  pj_get_all_accounts := on_err to_string (Projections.get_all_accounts micros);
  pj_get_account_transactions := fun id =>
    on_err to_string (Projections.get_account_transactions now micros id);
  pj_upsert_accounts_batch := fun accounts =>
    on_err to_string (upsert_accounts_batch fuel accounts);
  pj_insert_transactions_batch := fun transactions =>
    on_err to_string (insert_transactions_batch fuel transactions)
|}.

(** [impl CacheServiceTrait for CacheService]. *)
Definition cache_service `{RedisCommands} `{!Display CacheError} (now : Z)
  : CacheServiceTrait := {|
  CacheState := Cache.CacheService;
  ca_get_account := fun id => on_err to_string (Cache.get_account now id);
  ca_set_account := fun account ttl => on_err to_string (Cache.set_account now account ttl);
  ca_delete_account := fun id => on_err to_string (Cache.delete_account id);
  ca_get_account_events := fun id => on_err to_string (Cache.get_account_events id);
  ca_set_account_events := fun id events ttl =>
    on_err to_string (Cache.set_account_events id events ttl);
  ca_delete_account_events := fun id => on_err to_string (Cache.delete_account_events id);
  ca_invalidate_account := fun id => on_err to_string (Cache.invalidate_account id);
  ca_warmup_cache := fun ids => on_err to_string (Cache.warmup_cache now ids);
  ca_get_metrics := cs_metrics
|}.

(** Over the projection store, creating an account never returns once the event
    is saved. *)
Lemma create_account_never_returns `{!Display SerdeError} `{!ProjectionsDb}
    `{!AccountRepositoryTrait} `{!CacheServiceTrait} micros fuel now id draw tx owner b
    (s : @AccountService _ _ (projection_store now micros fuel) _) :
  is_ok (fst (create_account now id draw tx owner b s)) = false.
Proof.
  unfold create_account, bind. destruct (refuse_duplicate _ _ _ s) as [[[] | | | ] s1]; try done.
  unfold lift. destruct (handle_command _ _ _) as [es | | | ]; try done.
  destruct (save_counted _ _ s1) as [[[] | | | ] s2]; try done.
  unfold attempt, on_proj, on_err, zoom. simpl. unfold on_err.
  match goal with |- context [ upsert_accounts_batch fuel ?l ?st ] =>
    destruct (trait_writers_never_return fuel l [] st) as [Hh _];
    destruct (upsert_accounts_batch fuel l st) as [r st'] end.
  simpl in Hh. by subst r.
Qed.

End Components.

(** ** Witnesses: the repository over the store in memory, projections and cache
    that answer at once *)
Module ServiceWitness.
Import ScaleZero PlainSerde StoreWitness HandlersWitness.

#[export] Instance quick_projections : ProjectionStoreTrait := {|
  Proj := list TransactionProjection;
  pj_get_account := fun _ => ret None;
  pj_get_all_accounts := ret [];
  pj_get_account_transactions := fun id => gets (filter (fun t => tp_account_id t = id));
  pj_upsert_accounts_batch := fun _ => ret tt;
  pj_insert_transactions_batch := fun ts => modify (fun l => l ++ ts)
|}.

#[export] Instance no_cache : CacheServiceTrait := {|
  CacheState := unit;
  ca_get_account := fun _ => ret None;
  ca_set_account := fun _ _ => ret tt;
  ca_delete_account := fun _ => ret tt;
  ca_get_account_events := fun _ => ret None;
  ca_set_account_events := fun _ _ _ => ret tt;
  ca_delete_account_events := fun _ => ret tt;
  ca_invalidate_account := fun _ => ret tt;
  ca_warmup_cache := fun _ => ret tt;
  ca_get_metrics := fun _ => CacheMetrics_default
|}.

Definition service : AccountService :=
  AccountService_new repo ([] : @Proj _ quick_projections) (tt : @CacheState _ no_cache).

Definition service_held : service_holds service log0 := log0_held.

Definition try_deposit : service_call := SvDeposit 9%N 1%N (amt 10).

(** The deposit is decided but the store refuses it, and a second try is a
    duplicate. *)
Lemma second_command_refused_witness :
  let s' := after N.of_nat [(2%Z, SvCreate 4%N 5%N 6%N "carol" (amt 1))]
              (snd (run_service N.of_nat 1 try_deposit service)) in
  deposit_money N.of_nat 3 9%N 1%N (amt 10) s'
    = (Err (InfrastructureError "Duplicate deposit command"), s') /\
  withdraw_money N.of_nat 3 9%N 1%N (amt 10) s'
    = (Err (InfrastructureError "Duplicate withdraw command"), s').
Proof.
  exact (second_command_refused N.of_nat 1 try_deposit
           [(2%Z, SvCreate 4%N 5%N 6%N "carol" (amt 1))] service 9%N (amt 10) 3).
Defined.

Lemma change_never_saved_witness :
  is_ok (fst (deposit_money N.of_nat 1 9%N 1%N (amt 10) service)) = false /\
  is_ok (fst (withdraw_money N.of_nat 1 9%N 1%N (amt 10) service)) = false.
Proof.
  destruct (change_never_saved N.of_nat 1 9%N 1%N (amt 10) service log0 service_held eq_refl)
    as [[Hd _] [Hw _]].
  split; [ exact Hd | exact Hw ].
Defined.

Lemma created_account_recorded_elsewhere_witness :
  4%N = 4%N /\ exists L',
    service_holds (snd (create_account 1 4%N 5%N 6%N "carol" (amt 1) service)) L' /\
    L' 4%N = [] /\ L' 5%N = [EvAccountCreated 4%N "carol" (amt 1)].
Proof.
  apply (created_account_recorded_elsewhere 1 4%N 5%N 6%N "carol" (amt 1) service log0 4%N
           (snd (create_account 1 4%N 5%N 6%N "carol" (amt 1) service)) service_held);
    [ reflexivity | discriminate | reflexivity ].
Defined.

Lemma failed_command_records_nothing_witness :
  service_holds (snd (run_service N.of_nat 1 try_deposit service)) log0.
Proof.
  apply (failed_command_records_nothing N.of_nat 1 try_deposit service log0
           (InfrastructureError (to_string (OptimisticConcurrencyConflict 1%N 3 (Some 2%Z)))));
    [ exact service_held | reflexivity ].
Defined.

End ServiceWitness.
