(* ===== verification/RateLimit.v ===== *)
(** Rate limiting and request validation
    (src/src/infrastructure/{middleware,rate_limiter}.rs).

    Module [FixedWindow] is the middleware's limiter, a counter per client that
    is reset when its window is over; Module [SlidingWindow] is the other one, a
    list of request times per key.  Module [Validation] has the request
    validators and [process_request].  Times are milliseconds, passed as [now]. *)
From S2P Require Import Prelude.
From S2P Require Import DecimalSpec.
From S2P Require Import Account.
From S2P Require Import Codec.
From stdpp Require Import base tactics list gmap strings.
From Stdlib Require Import ZArith Lia.

Module FixedWindow.

Record RateLimitConfig : Type := {
  requests_per_minute : Z;
  burst_size : Z;
  window_size : Z;
  max_clients : nat
}.

Definition RateLimitConfig_default : RateLimitConfig :=
  {| requests_per_minute := 60; burst_size := 10; window_size := 60000; max_clients := 10 * 1000 |}.

Record RateLimitInfo : Type := {
  requests : Z;
  window_start : Z;
  semaphore : Z
}.

Record RateLimiter : Type := {
  limits : gmap string RateLimitInfo;
  config : RateLimitConfig
}.

Definition RateLimiter_new (c : RateLimitConfig) : RateLimiter := {| limits := ∅; config := c |}.

(** [Instant::duration_since], which saturates at zero. *)
Definition duration_since (now earlier : Z) : Z := Z.max 0 (now - earlier).

(** The part of [check_rate_limit] on the client's entry.  The permit
    [try_acquire] returns is dropped at once, so the semaphore keeps its
    permits; [requests += 1] cannot overflow below the limit, a [u32]. *)
Definition check_info (c : RateLimitConfig) (now : Z) (info : RateLimitInfo) : bool * RateLimitInfo :=
  let info :=
    if (window_size c <=? duration_since now (window_start info))%Z
    then {| requests := 0; window_start := now; semaphore := semaphore info |}
    else info in
  if (requests_per_minute c <=? requests info)%Z then (false, info)
  else if (semaphore info <=? 0)%Z then (false, info)
  else (true, {| requests := wrap_u32 (requests info + 1); window_start := window_start info;
                 semaphore := semaphore info |}).

(** [RateLimiter::check_rate_limit]. *)
Definition check_rate_limit (now : Z) (client_id : string) (l : RateLimiter) : bool * RateLimiter :=
  let info := default {| requests := 0; window_start := now; semaphore := burst_size (config l) |}
                (limits l !! client_id) in
  let '(ok, info) := check_info (config l) now info in
  (ok, {| limits := <[client_id := info]> (limits l); config := config l |}).

(** [RateLimiter::cleanup_expired_limits]. *)
Definition cleanup_expired_limits (now : Z) (l : RateLimiter) : RateLimiter :=
  {| limits := filter (fun kv => (duration_since now (window_start kv.2) < window_size (config l))%Z) (limits l);
     config := config l |}.

(** A run of calls: the answers, in order. *)
Fixpoint run (calls : list (Z * string)) (l : RateLimiter) : list bool * RateLimiter :=
  match calls with
  | [] => ([], l)
  | (now, client) :: rest =>
      let '(ok, l1) := check_rate_limit now client l in
      let '(oks, l2) := run rest l1 in
      (ok :: oks, l2)
  end.

(** ** Lemmas *)
Lemma check_config now c l : config (snd (check_rate_limit now c l)) = config l.
Proof. unfold check_rate_limit. by destruct (check_info _ _ _). Qed.

Lemma check_other now c c' l :
  c <> c' -> limits (snd (check_rate_limit now c l)) !! c' = limits l !! c'.
Proof.
  intros Hne. unfold check_rate_limit. destruct (check_info _ _ _). simpl. by rewrite lookup_insert_ne.
Qed.

(** The answers to [c], among those of a run. *)
Fixpoint answers (c : string) (calls : list (Z * string)) (oks : list bool) : list bool :=
  match calls, oks with
  | (_, client) :: calls', ok :: oks' =>
      if String.eqb client c then ok :: answers c calls' oks' else answers c calls' oks'
  | _, _ => []
  end.

(** One entry over a run of times. *)
Fixpoint run_info (cfg : RateLimitConfig) (times : list Z) (info : RateLimitInfo) : list bool :=
  match times with
  | [] => []
  | now :: rest => let '(ok, info') := check_info cfg now info in ok :: run_info cfg rest info'
  end.

Definition times_of (c : string) (calls : list (Z * string)) : list Z :=
  map fst (filter (fun p => p.2 = c) calls).

Definition entry_at (now : Z) (c : string) (l : RateLimiter) : RateLimitInfo :=
  default {| requests := 0; window_start := now; semaphore := burst_size (config l) |} (limits l !! c).

(** A client's answers depend on its own calls only. *)
Lemma run_isolated c calls l :
  answers c calls (fst (run calls l)) =
  match times_of c calls with
  | [] => []
  | t :: _ => run_info (config l) (times_of c calls) (entry_at t c l)
  end.
Proof.
  revert l. induction calls as [| [now client] calls IH]; intros l; [ done |].
  simpl. destruct (check_rate_limit now client l) as [ok l1] eqn:Hc.
  destruct (run calls l1) as [oks l2] eqn:Hr. simpl. specialize (IH l1). rewrite Hr in IH. simpl in IH.
  pose proof (check_config now client l) as Hcfg. rewrite Hc in Hcfg. simpl in Hcfg.
  unfold times_of in *. rewrite filter_cons.
  destruct (String.eqb_spec client c) as [-> | Hne].
  - rewrite decide_True by done. simpl. unfold check_rate_limit in Hc. fold (entry_at now c l) in Hc.
    destruct (check_info (config l) now (entry_at now c l)) as [ok' info'] eqn:Hi. simplify_eq.
    f_equal. rewrite IH. simpl.
    destruct (map fst (filter _ calls)) as [| t ts]; [ done |].
    unfold entry_at. simpl. by rewrite lookup_insert_eq.
  - rewrite decide_False by done. rewrite IH.
    destruct (map fst (filter _ calls)) as [| t ts]; [ done |].
    unfold entry_at. pose proof (check_other now client c l Hne) as Ho. rewrite Hc in Ho. simpl in Ho.
    by rewrite Ho, Hcfg.
Qed.

(** The answers to calls of a client the limiter does not know yet. *)
Lemma run_one_client cfg c t ts :
  fst (run (map (fun t' => (t', c)) (t :: ts)) (RateLimiter_new cfg))
  = run_info cfg (t :: ts) {| requests := 0; window_start := t; semaphore := burst_size cfg |}.
Proof.
  assert (forall times oks, length oks = length times ->
            answers c (map (fun t' => (t', c)) times) oks = oks) as Hall.
  { induction times as [| x times IH]; intros [| ok oks] Hlen; simplify_eq/=; [ done |].
    rewrite String.eqb_refl. by rewrite IH. }
  assert (forall calls l, length (fst (run calls l)) = length calls) as Hlen.
  { induction calls as [| [x y] calls IH]; intros l; [ done |]. simpl.
    destruct (check_rate_limit x y l) as [ok l1]. specialize (IH l1).
    destruct (run calls l1). simpl in *. by rewrite IH. }
  assert (forall times, times_of c (map (fun t' => (t', c)) times) = times) as Htimes.
  { unfold times_of. induction times as [| x times IH]; [ done |]. simpl.
    rewrite filter_cons, decide_True by done. simpl. by rewrite IH. }
  pose proof (run_isolated c (map (fun t' => (t', c)) (t :: ts)) (RateLimiter_new cfg)) as Hi.
  rewrite Htimes, Hall in Hi by (by rewrite Hlen, length_map). rewrite Hi.
  unfold entry_at. simpl limits. by rewrite lookup_empty.
Qed.

(** Within one window the first calls up to the limit are admitted. *)
Lemma window_admits cfg times start n sem :
  (0 < sem)%Z -> (0 < window_size cfg)%Z -> (0 <= requests_per_minute cfg <= u32_max)%Z ->
  (0 <= n <= requests_per_minute cfg)%Z ->
  Forall (fun t => (t - start < window_size cfg)%Z) times ->
  run_info cfg times {| requests := n; window_start := start; semaphore := sem |}
    = imap (fun i _ => (n + Z.of_nat i <? requests_per_minute cfg)%Z) times.
Proof.
  intros Hsem Hw Hlim Hn Hall. revert n Hn.
  induction Hall as [| t times Ht _ IH]; intros n Hn; [ done |]. simpl.
  unfold check_info. cbn [requests window_start semaphore].
  destruct (Z.leb_spec (window_size cfg) (duration_since t start)); [ unfold duration_since in *; lia |].
  cbn [requests window_start semaphore].
  rewrite Z.add_0_r. destruct (Z.leb_spec (requests_per_minute cfg) n) as [Hfull | Hfree].
  - rewrite IH by lia. destruct (Z.ltb_spec n (requests_per_minute cfg)); [ lia |].
    f_equal. apply imap_ext. intros i x _. simpl.
    destruct (Z.ltb_spec (n + Z.of_nat i) (requests_per_minute cfg)),
      (Z.ltb_spec (n + Z.of_nat (S i)) (requests_per_minute cfg)); done || lia.
  - destruct (Z.leb_spec sem 0); [ lia |]. simpl.
    assert (wrap_u32 (n + 1) = n + 1)%Z as -> by (unfold wrap_u32, u32_max in *; apply Z.mod_small; lia).
    rewrite IH by lia. destruct (Z.ltb_spec n (requests_per_minute cfg)); [| lia ].
    f_equal. apply imap_ext. intros i x _. simpl. f_equal. lia.
Qed.

(** Whatever the other clients do, of a client's calls within one window of
    its first call exactly the first [requests_per_minute] are admitted, for
    every positive burst size. *)
Theorem window_admits_exactly_the_limit cfg calls c t ts :
  (0 < burst_size cfg)%Z -> (0 <= requests_per_minute cfg <= u32_max)%Z -> (0 < window_size cfg)%Z ->
  times_of c calls = t :: ts -> Forall (fun t' => (t' - t < window_size cfg)%Z) ts ->
  answers c calls (fst (run calls (RateLimiter_new cfg)))
    = imap (fun i _ => (Z.of_nat i <? requests_per_minute cfg)%Z) (t :: ts).
Proof.
  intros Hb Hl Hw Ht Hall. rewrite run_isolated, Ht. unfold entry_at. simpl limits.
  rewrite lookup_empty. simpl default. cbn [config RateLimiter_new].
  rewrite window_admits; [ by apply imap_ext | done | done | done | lia |].
  constructor; [ lia | done ].
Qed.

Lemma window_admits_exactly_the_limit_witness :
  answers "a" [(0, "a"); (1, "b"); (5, "a"); (7, "a")]%Z
    (fst (run [(0, "a"); (1, "b"); (5, "a"); (7, "a")]%Z
            (RateLimiter_new {| requests_per_minute := 2; burst_size := 1; window_size := 60;
                                max_clients := 10 |})))
  = [true; true; false].
Proof.
  rewrite (window_admits_exactly_the_limit _ _ "a" 0 [5; 7]%Z);
    [ reflexivity | simpl; lia | unfold u32_max; simpl; lia | simpl; lia | reflexivity |].
  repeat constructor; simpl; lia.
Defined.

End FixedWindow.

Module SlidingWindow.

Record RateLimitConfig : Type := {
  requests_per_second : Z;
  window_size : Z;
  burst_size : nat
}.

Definition RateLimitConfig_default : RateLimitConfig :=
  {| requests_per_second := 1000; window_size := 60000; burst_size := 100 |}.

Record RateLimiter : Type := {
  config : RateLimitConfig;
  requests : gmap string (list Z)
}.

Definition RateLimiter_new (c : RateLimitConfig) : RateLimiter := {| config := c; requests := ∅ |}.

Section Limiter.
(** chrono's longest duration and earliest date, in milliseconds. *)
Variables (max_duration min_utc : Z).

(** [RateLimiter::is_rate_limited]: a window chrono cannot represent panics
    before the entry is touched. *)
Definition is_rate_limited (now : Z) (key : string) (l : RateLimiter) : res unit bool * RateLimiter :=
  if (max_duration <? window_size (config l))%Z then (Panic, l)
  else
    let window_start := (now - window_size (config l))%Z in
    if (window_start <? min_utc)%Z then (Panic, l)
    else
      let times := filter (fun time => (window_start <= time)%Z) (default [] (requests l !! key)) in
      (Ok (burst_size (config l) <=? length times)%nat,
       {| config := config l; requests := <[key := times]> (requests l) |}).

(** [RateLimiter::record_request]. *)
Definition record_request (now : Z) (key : string) (l : RateLimiter) : RateLimiter :=
  {| config := config l; requests := <[key := default [] (requests l !! key) ++ [now]]> (requests l) |}.

(** A caller that records the requests that are not limited. *)
Definition request (now : Z) (key : string) (l : RateLimiter) : res unit bool * RateLimiter :=
  match is_rate_limited now key l with
  | (Ok false, l1) => (Ok true, record_request now key l1)
  | (Ok true, l1) => (Ok false, l1)
  | (r, l1) => (r, l1)
  end.

Definition is_admitted (r : res unit bool) : bool :=
  match r with
  | Ok b => b
  | _ => false
  end.

(** The times at which requests of [key] were let through, in order. *)
Fixpoint admitted (key : string) (calls : list (Z * string)) (l : RateLimiter) : list Z :=
  match calls with
  | [] => []
  | (now, k) :: rest =>
      let '(r, l1) := request now k l in
      (if is_admitted r && String.eqb k key then [now] else []) ++ admitted key rest l1
  end.

(** ** Lemmas *)
Definition within (a b : Z) (times : list Z) : list Z :=
  filter (fun t => (a <= t <= b)%Z) times.

Definition since (a : Z) (times : list Z) : list Z := filter (fun t => (a <= t)%Z) times.

Lemma since_since a b times : (a <= b)%Z -> since b (since a times) = since b times.
Proof. intros Hab. unfold since. rewrite list_filter_filter_l; [ done |]. intros. lia. Qed.

(** The entry keeps everything the history has in a window that ends now or
    later, and no window of the history holds more than [burst_size]. *)
Definition tracks (now : Z) (key : string) (history : list Z) (l : RateLimiter) : Prop :=
  (forall t, (now <= t)%Z ->
     since (t - window_size (config l)) (default [] (requests l !! key))
     = since (t - window_size (config l)) history) /\
  Forall (fun h => (h <= now)%Z) history /\
  (forall a, length (within a (a + window_size (config l)) history) <= burst_size (config l)).

Lemma tracks_later now now' key history l :
  (now <= now')%Z -> tracks now key history l -> tracks now' key history l.
Proof.
  intros Hle (Hs & Hh & Hb). split; [ intros t Ht; apply Hs; lia | split; [| done ] ].
  eapply Forall_impl; [ exact Hh |]. simpl. lia.
Qed.

Lemma is_rate_limited_ok now key l :
  (window_size (config l) <= max_duration)%Z -> (min_utc <= now - window_size (config l))%Z ->
  is_rate_limited now key l =
    (Ok (burst_size (config l) <=?
           length (since (now - window_size (config l)) (default [] (requests l !! key))))%nat,
     {| config := config l;
        requests := <[key := since (now - window_size (config l)) (default [] (requests l !! key))]>
                      (requests l) |}).
Proof.
  intros Hd Hm. unfold is_rate_limited.
  destruct (Z.ltb_spec max_duration (window_size (config l))); [ lia |].
  by destruct (Z.ltb_spec (now - window_size (config l)) min_utc); [ lia |].
Qed.

Lemma tracks_pruned now key history l :
  tracks now key history l ->
  tracks now key history
    {| config := config l;
       requests := <[key := since (now - window_size (config l)) (default [] (requests l !! key))]>
                     (requests l) |}.
Proof.
  intros (Hs & Hh & Hb). split; [| done ]. simpl. rewrite lookup_insert_eq. simpl.
  intros t Ht. rewrite since_since by lia. by apply Hs.
Qed.

Lemma tracks_recorded now key history l :
  (0 <= window_size (config l))%Z ->
  tracks now key history l -> length (since (now - window_size (config l)) history) < burst_size (config l) ->
  tracks now key (history ++ [now]) (record_request now key l).
Proof.
  intros Hw (Hs & Hh & Hb) Hlen. split; [| split ]; simpl.
  - intros t Ht. rewrite lookup_insert_eq. simpl. unfold since in *. rewrite !filter_app. by rewrite Hs.
  - apply Forall_app. split; [ done | by constructor ].
  - intros a. unfold within. rewrite filter_app, length_app. specialize (Hb a).
    rewrite filter_cons, filter_nil. case_decide as Hin; simpl; [| unfold within in Hb; lia ].
    assert (length (filter (fun t => a <= t <= a + window_size (config l))%Z history)
            <= length (since (now - window_size (config l)) history)); [| lia ].
    clear -Hin. unfold since. induction history as [| h hs IH]; [ done |].
    rewrite !filter_cons. repeat case_decide; simpl; lia.
Qed.

Lemma tracks_other now key history l l' :
  config l' = config l -> requests l' !! key = requests l !! key ->
  tracks now key history l -> tracks now key history l'.
Proof. intros Hc Hr. unfold tracks. by rewrite Hc, Hr. Qed.

(** One request. *)
Lemma request_tracks now k key history l :
  (0 <= window_size (config l) <= max_duration)%Z -> (min_utc <= now - window_size (config l))%Z ->
  tracks now key history l ->
  config (snd (request now k l)) = config l /\
  tracks now key (history ++ (if is_admitted (fst (request now k l)) && String.eqb k key then [now] else []))
    (snd (request now k l)).
Proof.
  intros Hd Hm Ht. unfold request. rewrite is_rate_limited_ok by lia.
  destruct (String.eqb_spec k key) as [-> | Hne].
  - pose proof (tracks_pruned _ _ _ _ Ht) as Hp. rewrite (proj1 Ht now) in * by lia.
    destruct (Nat.leb_spec (burst_size (config l)) (length (since (now - window_size (config l)) history)));
      simpl; (split; [ done |]); [ by rewrite app_nil_r |].
    apply tracks_recorded; simpl; [ lia | done | done ].
  - rewrite andb_false_r, app_nil_r.
    destruct (_ <=? _)%nat; simpl; (split; [ done |]);
      (eapply tracks_other; [ | | exact Ht ]; simpl; [ done |]); by rewrite !lookup_insert_ne.
Qed.

(** Calls with the clock going forward. *)
Fixpoint clocked (from : Z) (calls : list (Z * string)) : Prop :=
  match calls with
  | [] => True
  | (now, _) :: rest => (from <= now)%Z /\ clocked now rest
  end.

Lemma run_tracks key calls now history l a :
  (0 <= window_size (config l) <= max_duration)%Z -> (min_utc <= now - window_size (config l))%Z ->
  clocked now calls -> tracks now key history l ->
  length (within a (a + window_size (config l)) (history ++ admitted key calls l)) <= burst_size (config l).
Proof.
  revert now history l. induction calls as [| [t k] calls IH]; intros now history l Hd Hm Hc Ht.
  { simpl. rewrite app_nil_r. by apply Ht. }
  destruct Hc as [Hle Hc]. simpl.
  pose proof (request_tracks t k key history l ltac:(lia) ltac:(lia) (tracks_later _ _ _ _ _ Hle Ht))
    as [Hcfg Htr].
  destruct (request t k l) as [r l1]. simpl in Hcfg, Htr.
  rewrite (assoc_L (++)). rewrite <- Hcfg. eapply IH; [| | exact Hc | exact Htr ]; rewrite Hcfg; lia.
Qed.

(** C36. A caller that records exactly the requests it is not told to refuse
    never lets more than [burst_size] requests of a key through in any window
    of [window_size] (both ends included), wherever the window lies and
    whatever other keys do, while the clock does not go back. *)
Theorem burst_bounded_in_every_window cfg calls key from a :
  (0 <= window_size cfg <= max_duration)%Z -> (min_utc <= from - window_size cfg)%Z ->
  clocked from calls ->
  length (within a (a + window_size cfg) (admitted key calls (RateLimiter_new cfg))) <= burst_size cfg.
Proof.
  intros Hd Hm Hc.
  apply (run_tracks key calls from [] (RateLimiter_new cfg) a Hd Hm Hc).
  split; [| split; [ by constructor | simpl; lia ] ]. intros t _. simpl. by rewrite lookup_empty.
Qed.

End Limiter.

Definition sample_config : RateLimitConfig :=
  {| requests_per_second := 1; window_size := 10; burst_size := 2 |}.

Definition sample_calls : list (Z * string) :=
  [(100, "a"); (101, "b"); (104, "a"); (110, "a"); (111, "a"); (120, "a")]%Z.

Lemma burst_bounded_in_every_window_witness :
  admitted 1000 0 "a" sample_calls (RateLimiter_new sample_config) = [100; 104; 111; 120]%Z /\
  length (within 104 (104 + 10) (admitted 1000 0 "a" sample_calls (RateLimiter_new sample_config))) <= 2.
Proof.
  split; [ reflexivity |].
  apply (burst_bounded_in_every_window 1000 0 sample_config sample_calls "a" 100 104); simpl; lia.
Defined.

End SlidingWindow.

Module Validation.

Record RequestContext : Type := {
  client_id : string;
  request_type : string;
  payload : Value;
  headers : list (string * string)
}.

Record ValidationResult : Type := {
  is_valid : bool;
  errors : list string;
  warnings : list string
}.

Definition valid : ValidationResult := {| is_valid := true; errors := []; warnings := [] |}.

(** [result.is_valid = false; result.errors.push(..)]. *)
Definition push_error (msg : string) (r : ValidationResult) : ValidationResult :=
  {| is_valid := false; errors := errors r ++ [msg]; warnings := warnings r |}.

(** [RequestValidationRule]: the one method of a boxed validator. *)
Definition RequestValidationRule : Type := RequestContext -> ValidationResult.

(** [Value::as_f64]. *)
Definition as_f64 (v : Value) : option f64 :=
  match v with
  | VNumber z => Some (f64_of_u64 z)
  | VFloat f => Some f
  | _ => None
  end.

(** [payload.contains_key(name)] and [payload[name]]. *)
Definition field (name : string) (fields : list (string * Value)) : option Value :=
  match get_field name fields with
  | Ok v => Some v
  | _ => None
  end.

Definition str_field (v : Value) : option string :=
  match v with
  | VString s => Some s
  | _ => None
  end.

(** A required field: [missing] when it is absent, [bad] when [reject] holds of
    its value. *)
Definition check_field (name missing bad : string) (reject : Value -> bool)
    (fields : list (string * Value)) (r : ValidationResult) : ValidationResult :=
  match field name fields with
  | None => push_error missing r
  | Some v => if reject v then push_error bad r else r
  end.

Definition empty_name (v : Value) : bool :=
  match str_field v with
  | Some name => String.eqb name ""
  | None => false
  end.

Definition negative (v : Value) : bool :=
  match as_f64 v with
  | Some balance => f64_ltb balance (f64_of_u64 0)
  | None => false
  end.

(** [AccountCreationValidator::validate]. *)
Definition AccountCreationValidator : RequestValidationRule := fun context =>
  match payload context with
  | VObject fields =>
      check_field "initial_balance" "initial_balance is required" "initial_balance cannot be negative"
        negative fields
        (check_field "owner_name" "owner_name is required" "owner_name cannot be empty" empty_name fields
           valid)
  | _ => push_error "Payload must be a JSON object" valid
  end.

Section Transactions.
(** [Uuid::parse_str], of the uuid crate. *)
Variable parse_str : string -> option Uuid.

Definition not_a_uuid (v : Value) : bool :=
  match str_field v with
  | Some id => match parse_str id with Some _ => false | None => true end
  | None => false
  end.

Definition not_positive (v : Value) : bool :=
  match as_f64 v with
  | Some amount => f64_leb amount (f64_of_u64 0)
  | None => false
  end.

(** [TransactionValidator::validate]. *)
Definition TransactionValidator : RequestValidationRule := fun context =>
  match payload context with
  | VObject fields =>
      check_field "amount" "amount is required" "amount must be greater than zero" not_positive fields
        (check_field "account_id" "account_id is required" "account_id must be a valid UUID" not_a_uuid
           fields valid)
  | _ => push_error "Payload must be a JSON object" valid
  end.
End Transactions.

Record RequestValidator : Type := { validators : gmap string RequestValidationRule }.

Definition RequestValidator_new : RequestValidator := {| validators := ∅ |}.

(** [RequestValidator::register_validator]. *)
Definition register_validator (request_type : string) (rule : RequestValidationRule)
    (v : RequestValidator) : RequestValidator :=
  {| validators := <[request_type := rule]> (validators v) |}.

(** [RequestValidator::validate_request]. *)
Definition validate_request (context : RequestContext) (v : RequestValidator) : ValidationResult :=
  match validators v !! request_type context with
  | Some rule =>
      let validation := rule context in
      {| is_valid := is_valid valid && is_valid validation;
         errors := errors valid ++ errors validation;
         warnings := warnings valid ++ warnings validation |}
  | None => valid
  end.

Record RequestMiddleware : Type := {
  rate_limiter : FixedWindow.RateLimiter;
  request_validator : RequestValidator
}.

Definition RequestMiddleware_new (c : FixedWindow.RateLimitConfig) : RequestMiddleware :=
  {| rate_limiter := FixedWindow.RateLimiter_new c; request_validator := RequestValidator_new |}.

(** [RequestMiddleware::process_request]. *)
Definition process_request (now : Z) (context : RequestContext) (m : RequestMiddleware) :
    ValidationResult * RequestMiddleware :=
  let '(ok, limiter) := FixedWindow.check_rate_limit now (client_id context) (rate_limiter m) in
  let m := {| rate_limiter := limiter; request_validator := request_validator m |} in
  if negb ok
  then ({| is_valid := false; errors := ["Rate limit exceeded"]; warnings := [] |}, m)
  else (validate_request context (request_validator m), m).

Definition middleware_register_validator (request_type : string) (rule : RequestValidationRule)
    (m : RequestMiddleware) : RequestMiddleware :=
  {| rate_limiter := rate_limiter m;
     request_validator := register_validator request_type rule (request_validator m) |}.

(** ** What the validators accept *)

(** A field the validator lets through: present, and its value not rejected. *)
Definition accepted (name : string) (reject : Value -> bool) (fields : list (string * Value)) : Prop :=
  exists v, field name fields = Some v /\ reject v = false.

Definition well_formed (r : ValidationResult) : Prop := is_valid r = true <-> errors r = [].

Lemma push_error_well_formed msg r : well_formed (push_error msg r).
Proof. split; simpl; [ done | by destruct (errors r) ]. Qed.

Lemma check_field_well_formed name missing bad reject fields r :
  well_formed r -> well_formed (check_field name missing bad reject fields r).
Proof.
  intros Hr. unfold check_field. destruct (field name fields) as [v |]; [ destruct (reject v) |];
    auto using push_error_well_formed.
Qed.

Lemma check_field_valid name missing bad reject fields r :
  is_valid (check_field name missing bad reject fields r) = true
  <-> accepted name reject fields /\ is_valid r = true.
Proof.
  unfold check_field, accepted. destruct (field name fields) as [v |]; [ destruct (reject v) eqn:Hv |].
  all: simpl; naive_solver.
Qed.

Lemma valid_well_formed : well_formed valid.
Proof. done. Qed.

#[local] Hint Resolve push_error_well_formed check_field_well_formed valid_well_formed : bank.

(** The two rules decide the following, and report an error exactly when they
    reject.  Values of another type pass: a numeric [owner_name] or a textual
    [initial_balance] is accepted. *)
Definition object_with (p : Value) (P : list (string * Value) -> Prop) : Prop :=
  exists fields, p = VObject fields /\ P fields.

Lemma creation_rule_spec context :
  well_formed (AccountCreationValidator context) /\
  (is_valid (AccountCreationValidator context) = true <->
     object_with (payload context) (fun fields =>
       accepted "owner_name" empty_name fields /\ accepted "initial_balance" negative fields)).
Proof.
  unfold AccountCreationValidator, object_with.
  destruct (payload context); (split; [ by auto 10 with bank |]); rewrite ?check_field_valid; simpl;
    naive_solver.
Qed.

Lemma transaction_rule_spec parse_str context :
  well_formed (TransactionValidator parse_str context) /\
  (is_valid (TransactionValidator parse_str context) = true <->
     object_with (payload context) (fun fields =>
       accepted "account_id" (not_a_uuid parse_str) fields /\ accepted "amount" not_positive fields)).
Proof.
  unfold TransactionValidator, object_with.
  destruct (payload context); (split; [ by auto 10 with bank |]); rewrite ?check_field_valid; simpl;
    naive_solver.
Qed.

Lemma validate_request_rule context rule v :
  validators v !! request_type context = Some rule ->
  validate_request context v =
    {| is_valid := is_valid (rule context); errors := errors (rule context);
       warnings := warnings (rule context) |}.
Proof. intros H. unfold validate_request. by rewrite H. Qed.

(** C37. With the two rules registered for [creation] and [transaction], the
    middleware accepts a request exactly when the limiter admits its client
    now and, by its type, the payload is an object with a non-empty
    [owner_name] and a non-negative [initial_balance], or with an [account_id]
    that parses and a positive [amount] (values of another JSON type pass); a
    request of any other type is accepted unread.  It reports errors exactly
    when it rejects, and the limiter counts the request either way. *)
Theorem middleware_accepts_exactly parse_str creation transaction now context limiter :
  creation <> transaction ->
  let m := middleware_register_validator transaction (TransactionValidator parse_str)
             (middleware_register_validator creation AccountCreationValidator
                {| rate_limiter := limiter; request_validator := RequestValidator_new |}) in
  let o := process_request now context m in
  let checked := FixedWindow.check_rate_limit now (client_id context) limiter in
  (is_valid (fst o) = true <->
     fst checked = true /\
     (request_type context = creation -> object_with (payload context) (fun fields =>
        accepted "owner_name" empty_name fields /\ accepted "initial_balance" negative fields)) /\
     (request_type context = transaction -> object_with (payload context) (fun fields =>
        accepted "account_id" (not_a_uuid parse_str) fields /\ accepted "amount" not_positive fields))) /\
  (is_valid (fst o) = true <-> errors (fst o) = []) /\
  rate_limiter (snd o) = snd checked.
Proof.
  intros Hne m o checked. subst m o checked. unfold process_request. simpl rate_limiter.
  destruct (FixedWindow.check_rate_limit now (client_id context) limiter) as [[] l]; simpl;
    [| split; [ naive_solver | split; [ done | done ] ] ].
  pose proof (creation_rule_spec context) as [Hcw Hc].
  pose proof (transaction_rule_spec parse_str context) as [Htw Ht].
  destruct (decide (request_type context = transaction)) as [Heq |].
  { erewrite validate_request_rule; [| by simpl; rewrite Heq, lookup_insert_eq ].
    simpl. rewrite Ht. split; [| by rewrite <- Ht ]. naive_solver. }
  destruct (decide (request_type context = creation)) as [Heq |].
  { erewrite validate_request_rule; [| simpl; rewrite Heq, lookup_insert_ne by done; apply lookup_insert_eq ].
    simpl. rewrite Hc. split; [| by rewrite <- Hc ]. naive_solver. }
  unfold validate_request. simpl. rewrite !lookup_insert_ne by done. rewrite lookup_empty. simpl. naive_solver.
Qed.

Definition sample_request (p : Value) : RequestContext :=
  {| client_id := "c"; request_type := "create_account"; payload := p; headers := [] |}.

(** The rule refuses an empty name and lets a number pass for one. *)
Lemma middleware_accepts_exactly_witness :
  let m := middleware_register_validator "transaction" (TransactionValidator (fun _ => None))
             (middleware_register_validator "create_account" AccountCreationValidator
                (RequestMiddleware_new FixedWindow.RateLimitConfig_default)) in
  is_valid (fst (process_request 0
    (sample_request (VObject [("owner_name", VNumber 7); ("initial_balance", VNumber 0)])) m)) = true /\
  errors (fst (process_request 0
    (sample_request (VObject [("owner_name", VString ""); ("initial_balance", VNumber 0)])) m))
  = ["owner_name cannot be empty"].
Proof.
  intros m. split; [| vm_compute; reflexivity ].
  pose proof (middleware_accepts_exactly (fun _ => None) "create_account" "transaction" 0
    (sample_request (VObject [("owner_name", VNumber 7); ("initial_balance", VNumber 0)]))
    (FixedWindow.RateLimiter_new FixedWindow.RateLimitConfig_default) ltac:(done)) as [H _].
  apply H. split; [ vm_compute; reflexivity |]. split; [ intros _ | done ].
  eexists. split; [ reflexivity |].
  split; eexists; (split; [ reflexivity |]); vm_compute; reflexivity.
Defined.

End Validation.
