(* ===== verification/Sharding.v ===== *)
(** Shards of the key space and the locks that guard them
    (src/src/infrastructure/sharding.rs).

    The shards are a [DashMap]: [dash_iter] is the order its iterator happens to
    yield, of which the laws say only that it lists the entries.  Redis and what
    other processes do to it meanwhile is the class [LockRedis]: [lr_sleep] is
    [tokio::time::sleep], during which locks may expire or change hands,
    [lr_new_v4] is [Uuid::new_v4] and [lr_now] is [Utc::now].  The hash of a key
    is an argument. *)
From S2P Require Import Prelude.
From S2P Require Import RedisGuard.
From stdpp Require Import base tactics list gmap strings pretty.
From Stdlib Require Import ZArith Lia.

Inductive ShardStatus : Type :=
| Available
| Assigned
| Rebalancing
| Failed.

Record ShardInfo : Type := {
  id : string;
  range_start : Z;
  range_end : Z;
  instance_id : option string;
  status : ShardStatus;
  last_updated : Z
}.

Record ShardConfig : Type := {
  shard_count : nat;
  rebalance_threshold : f64;
  rebalance_interval : Z;
  lock_timeout : Z;
  lock_retry_interval : Z;
  sc_max_retries : Z
}.

Definition ShardConfig_default : ShardConfig :=
  {| shard_count := 16; rebalance_threshold := f64_div (f64_of_u64 2) (f64_of_u64 10);
     rebalance_interval := 300000; lock_timeout := 30000; lock_retry_interval := 100;
     sc_max_retries := 3 |}.

Class DashIter : Type := dash_iter : forall {V : Type}, gmap string V -> list (string * V).

Class DashIterLaws `{DashIter} : Prop :=
  dash_iter_entries : forall V (m : gmap string V), dash_iter m ≡ₚ map_to_list m.

Class LockRedis : Type := {
  LRedis : Type;
  lr_connect : M LRedis RedisError unit;
  lr_set_nx_px : string -> string -> Z -> M LRedis RedisError bool;
  lr_del_if : string -> string -> M LRedis RedisError Z;
  lr_sleep : Z -> LRedis -> LRedis;
  lr_new_v4 : LRedis -> string * LRedis;
  lr_now : LRedis -> Z
}.

(** [SET key id NX PX ms] grants a free key, and the script deletes a key whose
    value is [id]; [lr_holder] is the value a key has. *)
Class LockRedisLaws `{LockRedis} : Type := {
  lr_holder : LRedis -> string -> option string;
  lr_connect_holder : forall r k, lr_holder (snd (lr_connect r)) k = lr_holder r k;
  lr_new_v4_holder : forall r k, lr_holder (snd (lr_new_v4 r)) k = lr_holder r k;
  lr_set_granted : forall k x ms r r', lr_set_nx_px k x ms r = (Ok true, r') ->
    lr_holder r k = None /\ lr_holder r' k = Some x;
  lr_set_refused : forall k x ms r r', lr_set_nx_px k x ms r = (Ok false, r') ->
    is_Some (lr_holder r k) /\ forall k', lr_holder r' k' = lr_holder r k';
  lr_del_own : forall k x r n r', lr_holder r k = Some x -> lr_del_if k x r = (Ok n, r') ->
    (n =? 0)%Z = false /\ lr_holder r' k = None
}.

Inductive ShardError : Type :=
| ShardRedis (e : RedisError)
| LockNotAcquired.

(** ** The lock manager *)
Section Locks.
Context `{LockRedis}.

Record DistributedLock : Type := { key : string; lock_id : string }.

(** The [while retries < 3] loop, with the tries that are left. *)
Fixpoint acquire_tries (tries : nat) (lock_key lock_id : string) (timeout : Z) :
    M LRedis ShardError DistributedLock :=
  match tries with
  | O => throw LockNotAcquired
  | S tries' =>
      on_err ShardRedis lr_connect ;;;
      let! acquired := on_err ShardRedis (lr_set_nx_px lock_key lock_id timeout) in
      if (acquired : bool) then ret {| key := lock_key; lock_id := lock_id |}
      else modify (lr_sleep 100) ;;; acquire_tries tries' lock_key lock_id timeout
  end.

(** [LockManager::acquire_lock]. *)
Definition acquire_lock (k : string) (timeout : Z) : M LRedis ShardError DistributedLock :=
  let! lock_id := (fun r => let '(u, r') := lr_new_v4 r in (Ok u, r')) in
  acquire_tries 3 ("lock:" +:+ k) lock_id timeout.

(** [DistributedLock::release_lock]: a result of 0 is only logged. *)
Definition release_lock (lock : DistributedLock) : M LRedis ShardError unit :=
  on_err ShardRedis lr_connect ;;;
  let! _ := on_err ShardRedis (lr_del_if (key lock) (lock_id lock)) in
  ret tt.

End Locks.

(** ** The shard manager *)
Section Manager.
Context `{DashIter} `{LockRedis}.

Record ShardManager : Type := {
  redis_client : LRedis;
  shards : gmap string ShardInfo;
  sm_config : ShardConfig
}.

Definition ShardManager_new (r : LRedis) (c : ShardConfig) : ShardManager :=
  {| redis_client := r; shards := ∅; sm_config := c |}.

Definition put_redis (r : LRedis) (m : ShardManager) : ShardManager :=
  {| redis_client := r; shards := shards m; sm_config := sm_config m |}.

Definition put_shards (sh : gmap string ShardInfo) (m : ShardManager) : ShardManager :=
  {| redis_client := redis_client m; shards := sh; sm_config := sm_config m |}.

Definition locks {A} (op : M LRedis ShardError A) : M ShardManager ShardError A :=
  zoom redis_client put_redis op.

Definition shard_name (i : nat) : string := "shard-" +:+ pretty i.

(** The [i]-th shard, with the [u64] operators of the code. *)
Definition nth_shard (now : Z) (count : nat) (range_size : Z) (i : nat) : ShardInfo :=
  {| id := shard_name i; range_start := wrap_u64 (Z.of_nat i * range_size);
     range_end := if (i =? count - 1)%nat then u64_max
                  else wrap_u64 (wrap_u64 (Z.of_nat (i + 1) * range_size) - 1);
     instance_id := None; status := Available; last_updated := now |}.

Fixpoint insert_shards (range_size : Z) (indices : list nat) : M ShardManager ShardError unit :=
  match indices with
  | [] => ret tt
  | i :: rest =>
      modify (fun m =>
        put_shards (<[shard_name i := nth_shard (lr_now (redis_client m)) (shard_count (sm_config m))
                                        range_size i]> (shards m)) m) ;;;
      insert_shards range_size rest
  end.

(** [ShardManager::initialize_shards]: no shards is a division by zero. *)
Definition initialize_shards : M ShardManager ShardError unit :=
  let! c := gets sm_config in
  if (shard_count c =? 0)%nat then lift Panic
  else insert_shards (u64_max / Z.of_nat (shard_count c)) (seq 0 (shard_count c)).

Definition assigned (instance : string) (now : Z) (sh : ShardInfo) : ShardInfo :=
  {| id := id sh; range_start := range_start sh; range_end := range_end sh;
     instance_id := Some instance; status := Assigned; last_updated := now |}.

(** [ShardManager::assign_shard]. *)
Definition assign_shard (shard_id instance : string) : M ShardManager ShardError unit :=
  let! c := gets sm_config in
  let! lock := locks (acquire_lock ("shard:lock:" +:+ shard_id) (lock_timeout c)) in
  modify (fun m => put_shards (alter (assigned instance (lr_now (redis_client m))) shard_id (shards m)) m) ;;;
  locks (release_lock lock).

Definition owns (hash : Z) (sh : ShardInfo) : bool :=
  ((range_start sh <=? hash) && (hash <=? range_end sh))%Z.

(** [ShardManager::get_shard_for_key]: the first shard the iterator yields that
    owns the key's hash. *)
Definition get_shard_for_key (hash_key : string -> Z) (k : string) (m : ShardManager) : option ShardInfo :=
  let hash := hash_key k in
  match List.find (fun kv => owns hash kv.2) (dash_iter (shards m)) with
  | Some (_, sh) => Some sh
  | None => None
  end.

(** The shards by instance, each list in the iterator's order. *)
Definition group_shard (acc : gmap string (list ShardInfo)) (kv : string * ShardInfo) :
    gmap string (list ShardInfo) :=
  match instance_id kv.2 with
  | Some i => <[i := default [] (acc !! i) ++ [kv.2]]> acc
  | None => acc
  end.

Definition instance_shards (sh : gmap string ShardInfo) : gmap string (list ShardInfo) :=
  foldl group_shard ∅ (dash_iter sh).

Definition len_f64 {A} (l : list A) : f64 := f64_of_u64 (Z.of_nat (length l)).

Definition avg_shards (m : ShardManager) (by_instance : gmap string (list ShardInfo)) : f64 :=
  f64_div (f64_of_u64 (Z.of_nat (size (shards m)))) (f64_of_u64 (Z.of_nat (size by_instance))).

(** The [for .. { .. break }] over the instances. *)
Definition needs_rebalancing (m : ShardManager) (by_instance : gmap string (list ShardInfo)) : bool :=
  let avg := avg_shards m by_instance in
  existsb (fun kv =>
    f64_ltb (rebalance_threshold (sm_config m))
      (f64_div (f64_abs (f64_sub (len_f64 kv.2) avg)) avg)) (dash_iter by_instance).

(** The instances above and below the band around the average. *)
Definition classify (avg t : f64) (acc : list string * list string) (kv : string * list ShardInfo) :
    list string * list string :=
  let count := len_f64 kv.2 in
  if f64_ltb (f64_mul avg (f64_add (f64_of_u64 1) t)) count then (acc.1 ++ [kv.1], acc.2)
  else if f64_ltb count (f64_mul avg (f64_sub (f64_of_u64 1) t)) then (acc.1, acc.2 ++ [kv.1])
  else acc.

Definition split_load (m : ShardManager) (by_instance : gmap string (list ShardInfo)) :
    list string * list string :=
  foldl (classify (avg_shards m by_instance) (rebalance_threshold (sm_config m))) ([], [])
    (dash_iter by_instance).

(** The nested loops: the pairs in order, stopping at the first error. *)
Fixpoint move_shards (by_instance : gmap string (list ShardInfo)) (pairs : list (string * string)) :
    M ShardManager ShardError unit :=
  match pairs with
  | [] => ret tt
  | (overloaded_id, underloaded_id) :: rest =>
      match by_instance !! overloaded_id with
      | Some (sh :: _) => assign_shard (id sh) underloaded_id
      | _ => ret tt
      end ;;;
      move_shards by_instance rest
  end.

(** [ShardManager::perform_rebalancing]. *)
Definition perform_rebalancing (by_instance : gmap string (list ShardInfo)) :
    M ShardManager ShardError unit :=
  let! loads := gets (fun m => split_load m by_instance) in
  move_shards by_instance (o ← loads.1; u ← loads.2; [(o, u)]).

(** [ShardManager::rebalance_shards]: an error of [perform_rebalancing] returns
    before the lock is released. *)
Definition rebalance_shards : M ShardManager ShardError unit :=
  let! c := gets sm_config in
  let! lock := locks (acquire_lock "shard:rebalance:lock" (lock_timeout c)) in
  let! by_instance := gets (fun m => instance_shards (shards m)) in
  let! needed := gets (fun m => needs_rebalancing m by_instance) in
  (if (needed : bool) then perform_rebalancing by_instance else ret tt) ;;;
  locks (release_lock lock).

(** ** Ranges: one shard for every hash *)
Definition range_size (count : nat) : Z := (u64_max / Z.of_nat count)%Z.

(** The shard of a hash, by arithmetic. *)
Definition shard_index (count : nat) (hash : Z) : nat :=
  Nat.min (Z.to_nat (hash / range_size count)) (count - 1).

(** [s] is the [i]-th of [count] shards. *)
Definition placed (count i : nat) (s : ShardInfo) : Prop :=
  id s = shard_name i /\ range_start s = (Z.of_nat i * range_size count)%Z /\
  range_end s = (if (i =? count - 1)%nat then u64_max else Z.of_nat (i + 1) * range_size count - 1)%Z.

(** The map holds exactly [count] shards, each at its place. *)
Definition partitioned (count : nat) (sh : gmap string ShardInfo) : Prop :=
  (forall i, i < count -> is_Some (sh !! shard_name i)) /\
  (forall name s, sh !! name = Some s -> exists i, i < count /\ name = shard_name i /\ placed count i s).

Lemma shard_name_inj i j : shard_name i = shard_name j -> i = j.
Proof. unfold shard_name. intros H1%(inj _). by apply (inj pretty) in H1. Qed.

Lemma range_size_bounds count :
  0 < count -> (Z.of_nat count <= u64_max)%Z ->
  (1 <= range_size count)%Z /\ (Z.of_nat count * range_size count <= u64_max)%Z.
Proof.
  intros Hpos Hmax. unfold range_size. split.
  - apply Z.div_le_lower_bound; lia.
  - apply Z.mul_div_le. lia.
Qed.

Lemma owns_iff count i s hash :
  0 < count -> (Z.of_nat count <= u64_max)%Z -> i < count -> in_u64 hash -> placed count i s ->
  owns hash s = true <-> i = shard_index count hash.
Proof.
  intros Hpos Hmax Hi Hh (_ & Hstart & Hend).
  pose proof (range_size_bounds count Hpos Hmax) as [Hr _].
  unfold owns, shard_index. rewrite Hstart, Hend, andb_true_iff, !Z.leb_le.
  set (r := range_size count) in *. unfold in_u64 in Hh.
  pose proof (Z.div_mod hash r ltac:(lia)) as Hdm. pose proof (Z.mod_pos_bound hash r ltac:(lia)).
  set (q := (hash / r)%Z) in *. assert (0 <= q)%Z by (apply Z.div_pos; lia).
  destruct (Nat.eqb_spec i (count - 1)) as [-> | Hlast]; split; intros Hx.
  - assert (Z.of_nat (count - 1) <= q)%Z by (apply Z.div_le_lower_bound; lia). lia.
  - split; [| lia ]. assert (Z.of_nat (count - 1) <= q)%Z by lia. nia.
  - assert (q = Z.of_nat i) as -> by nia. lia.
  - assert (q = Z.of_nat i) by lia. nia.
Qed.

Lemma shard_index_lt count hash : 0 < count -> shard_index count hash < count.
Proof. unfold shard_index. lia. Qed.

(** Whatever the iteration order, the shard found is the one arithmetic names. *)
Lemma partitioned_lookup `{!DashIterLaws} hash_key k m count :
  0 < count -> (Z.of_nat count <= u64_max)%Z -> in_u64 (hash_key k) -> partitioned count (shards m) ->
  exists s, get_shard_for_key hash_key k m = Some s /\
    shards m !! shard_name (shard_index count (hash_key k)) = Some s /\
    placed count (shard_index count (hash_key k)) s.
Proof.
  intros Hpos Hmax Hh [Hall Honly]. unfold get_shard_for_key.
  destruct (List.find _ _) as [[name s] |] eqn:Hf.
  - apply find_some in Hf as [Hin Howns]. simpl in Howns.
    apply list_elem_of_In in Hin. rewrite dash_iter_entries, elem_of_map_to_list in Hin.
    destruct (Honly _ _ Hin) as (i & Hi & -> & Hp).
    pose proof (proj1 (owns_iff count i s (hash_key k) Hpos Hmax Hi Hh Hp) Howns). subst i. eauto.
  - destruct (Hall (shard_index count (hash_key k)) (shard_index_lt _ _ Hpos)) as [s Hs].
    pose proof (Honly _ _ Hs) as (i & Hi & <-%shard_name_inj & Hp).
    apply elem_of_map_to_list in Hs. rewrite <- dash_iter_entries in Hs. apply list_elem_of_In in Hs.
    pose proof (find_none _ _ Hf _ Hs) as Hno. simpl in Hno.
    rewrite (proj2 (owns_iff count _ s (hash_key k) Hpos Hmax Hi Hh Hp)) in Hno by done. done.
Qed.

(** ** Initialisation *)
Lemma nth_shard_placed now count i :
  0 < count -> (Z.of_nat count <= u64_max)%Z -> i < count ->
  placed count i (nth_shard now count (range_size count) i).
Proof.
  intros Hpos Hmax Hi. pose proof (range_size_bounds count Hpos Hmax) as [Hr Hn].
  unfold nth_shard, placed. simpl. rewrite (wrap_u64_id (Z.of_nat i * _)) by (unfold in_u64; nia).
  destruct (Nat.eqb_spec i (count - 1)) as [-> | Hne]; simpl; [ done |].
  by rewrite (wrap_u64_id (_ * _)), wrap_u64_id by (unfold in_u64; nia).
Qed.

(** The shards [0..n) are in the map and nothing else. *)
Definition filled (count n : nat) (sh : gmap string ShardInfo) : Prop :=
  (forall i, i < n -> is_Some (sh !! shard_name i)) /\
  (forall name s, sh !! name = Some s -> exists i, i < n /\ name = shard_name i /\ placed count i s).

Lemma filled_insert count n s sh :
  filled count n sh -> placed count n s -> filled count (S n) (<[shard_name n := s]> sh).
Proof.
  intros [Hall Honly] Hp. split.
  - intros i Hi. destruct (decide (i = n)) as [-> | Hne]; [ rewrite lookup_insert_eq; eauto |].
    rewrite lookup_insert_ne; [ apply Hall; lia |]. intros ?%shard_name_inj. lia.
  - intros name s'. rewrite lookup_insert_Some. intros [[<- <-] | [_ Hs]]; [ eauto with lia |].
    destruct (Honly _ _ Hs) as (i & ? & ? & ?). eauto 10 with lia.
Qed.

Lemma insert_shards_filled count k n m :
  0 < count -> (Z.of_nat count <= u64_max)%Z -> shard_count (sm_config m) = count -> n + k <= count ->
  filled count n (shards m) ->
  exists m', insert_shards (range_size count) (seq n k) m = (Ok tt, m') /\
    sm_config m' = sm_config m /\ redis_client m' = redis_client m /\ filled count (n + k) (shards m').
Proof.
  intros Hpos Hmax. revert n m. induction k as [| k IH]; intros n m Hc Hle Hf.
  { exists m. rewrite Nat.add_0_r. eauto. }
  pose proof (nth_shard_placed (lr_now (redis_client m)) count n Hpos Hmax ltac:(lia)) as Hp.
  set (s := nth_shard _ _ _ _) in Hp.
  destruct (IH (S n) (put_shards (<[shard_name n := s]> (shards m)) m)) as (m' & Hrun & Hcfg & Hr & Hf');
    [ done | lia | by apply filled_insert |].
  exists m'. cbn [seq insert_shards]. rewrite modify_step, Hc. fold s. rewrite Hrun.
  split; [ done | split; [ done | split; [ done |] ] ]. by rewrite Nat.add_succ_r.
Qed.

Lemma initialize_shards_partitions r c :
  0 < shard_count c -> (Z.of_nat (shard_count c) <= u64_max)%Z ->
  exists m, initialize_shards (ShardManager_new r c) = (Ok tt, m) /\ sm_config m = c /\
    redis_client m = r /\ partitioned (shard_count c) (shards m).
Proof.
  intros Hpos Hmax.
  destruct (insert_shards_filled (shard_count c) (shard_count c) 0 (ShardManager_new r c))
    as (m & Hrun & Hcfg & Hr & Hf); [ done | done | done | lia | split; simpl |].
  { intros i Hi. lia. }
  { intros name s. by rewrite lookup_empty. }
  exists m. unfold initialize_shards, bind, gets. simpl.
  destruct (Nat.eqb_spec (shard_count c) 0); [ lia |]. done.
Qed.

(** ** Assignments and rebalancing keep the ranges *)
Definition layout (s : ShardInfo) : string * Z * Z := (id s, range_start s, range_end s).

Definition same_layout (m m' : ShardManager) : Prop :=
  sm_config m' = sm_config m /\ layout <$> shards m' = layout <$> shards m.

#[local] Instance same_layout_preorder : PreOrder same_layout.
Proof.
  split; [ done |]. intros m1 m2 m3 [] []. split; etransitivity; eauto.
Qed.

Lemma locks_layout {A} (op : M LRedis ShardError A) : respects same_layout (locks op).
Proof. intros m. unfold locks, zoom. by destruct (op (redis_client m)). Qed.
#[local] Hint Resolve locks_layout : bank.

Lemma assign_shard_layout shard_id instance : respects same_layout (assign_shard shard_id instance).
Proof.
  unfold assign_shard. respects_tac. split; [ done |]. simpl. apply map_eq. intros k.
  rewrite !lookup_fmap. destruct (decide (k = shard_id)) as [-> |].
  - rewrite lookup_alter_eq. by destruct (shards s !! shard_id).
  - by rewrite lookup_alter_ne.
Qed.
#[local] Hint Resolve assign_shard_layout : bank.

Lemma move_shards_layout by_instance pairs : respects same_layout (move_shards by_instance pairs).
Proof. induction pairs as [| [o u] pairs IH]; simpl; respects_tac. Qed.
#[local] Hint Resolve move_shards_layout : bank.

Lemma rebalance_shards_layout : respects same_layout rebalance_shards.
Proof. unfold rebalance_shards, perform_rebalancing. respects_tac. Qed.

Lemma partitioned_layout count m m' :
  same_layout m m' -> partitioned count (shards m) -> partitioned count (shards m').
Proof.
  intros [_ Hl] [Hall Honly].
  assert (forall k, layout <$> shards m' !! k = layout <$> shards m !! k) as Hk.
  { intros k. rewrite <- !lookup_fmap. by rewrite Hl. }
  split.
  - intros i Hi. specialize (Hk (shard_name i)). destruct (Hall i Hi) as [s Hs]. rewrite Hs in Hk.
    destruct (shards m' !! shard_name i); [ eauto | done ].
  - intros name s' Hs'. specialize (Hk name). rewrite Hs' in Hk.
    destruct (shards m !! name) as [s |] eqn:Hs; [| done ].
    destruct (Honly _ _ Hs) as (i & Hi & Hn & Hp). exists i. split; [ done | split; [ done |] ].
    unfold placed in *. unfold layout in Hk. simpl in Hk. by simplify_eq/=; congruence.
Qed.

(** What callers may do with the manager after initialisation. *)
Inductive ShardOp : Type :=
| OpAssign (shard_id instance : string)
| OpRebalance.

Definition run_op (o : ShardOp) : M ShardManager ShardError unit :=
  match o with
  | OpAssign shard_id instance => assign_shard shard_id instance
  | OpRebalance => rebalance_shards
  end.

(** A run of operations, whatever each of them returns. *)
Definition run_ops (ops : list ShardOp) (m : ShardManager) : ShardManager :=
  foldl (fun m o => snd (run_op o m)) m ops.

Lemma run_ops_layout ops m : same_layout m (run_ops ops m).
Proof.
  revert m. induction ops as [| o ops IH]; intros m; simpl; [ done |].
  etransitivity; [| apply IH ]. destruct o; [ apply assign_shard_layout | apply rebalance_shards_layout ].
Qed.

(** C34. Initialisation with a non-zero number of shards succeeds, and from then
    on, through any assignments and rebalancings, successful or not, and for
    every iteration order of the map, each key is routed to the one shard
    whose range holds its hash: shard [min(hash / range_size, count - 1)],
    where the last shard takes the remainder. *)
Theorem routing_total_and_stable `{!DashIterLaws} r c ops hash_key k :
  0 < shard_count c -> (Z.of_nat (shard_count c) <= u64_max)%Z -> in_u64 (hash_key k) ->
  exists m, initialize_shards (ShardManager_new r c) = (Ok tt, m) /\
    exists s, get_shard_for_key hash_key k (run_ops ops m) = Some s /\
      id s = shard_name (shard_index (shard_count c) (hash_key k)) /\
      owns (hash_key k) s = true /\
      forall name s', shards (run_ops ops m) !! name = Some s' -> owns (hash_key k) s' = true -> s' = s.
Proof.
  intros Hpos Hmax Hh.
  destruct (initialize_shards_partitions r c Hpos Hmax) as (m & Hrun & Hcfg & _ & Hpart).
  exists m. split; [ done |].
  pose proof (partitioned_layout _ _ _ (run_ops_layout ops m) Hpart) as Hpart'.
  destruct (partitioned_lookup hash_key k (run_ops ops m) _ Hpos Hmax Hh Hpart') as (s & Hget & Hs & Hp).
  pose proof (shard_index_lt (shard_count c) (hash_key k) Hpos) as Hlt.
  exists s. split; [ done | split; [ apply Hp | split ] ].
  - by apply (owns_iff _ _ s (hash_key k) Hpos Hmax Hlt Hh Hp).
  - intros name s' Hs' Ho. destruct (proj2 Hpart' _ _ Hs') as (i & Hi & -> & Hp').
    apply (owns_iff _ _ s' (hash_key k) Hpos Hmax Hi Hh Hp') in Ho. congruence.
Qed.

(** ** Locks *)
Section LockLaws.
Context `{!LockRedisLaws}.

Lemma acquire_tries_ok tries lock_key x timeout r lock r' :
  acquire_tries tries lock_key x timeout r = (Ok lock, r') ->
  lock = {| key := lock_key; lock_id := x |} /\ lr_holder r' lock_key = Some x.
Proof.
  revert r. induction tries as [| tries IH]; intros r; [ done |]. simpl.
  intros (u & r1 & Hs1 & (a & r2 & Hs2%on_err_ok & Hs3)%bind_ok)%bind_ok.
  destruct a; [| by apply bind_ok in Hs3 as (? & ? & ? & ?%IH) ].
  unfold ret in Hs3. simplify_eq. apply lr_set_granted in Hs2 as [_ ?]. done.
Qed.

(** A key that stays held through the waits is not acquired, and keeps its
    holder. *)
Lemma acquire_tries_held tries lock_key x y timeout r :
  (forall ms r, lr_holder r lock_key = Some y -> lr_holder (lr_sleep ms r) lock_key = Some y) ->
  lr_holder r lock_key = Some y ->
  forall lock r', acquire_tries tries lock_key x timeout r <> (Ok lock, r').
Proof.
  intros Hwait. revert r. induction tries as [| tries IH]; intros r Hy lock r'; [ done |]. simpl.
  intros (u & r1 & Hs1%on_err_ok & (a & r2 & Hs2%on_err_ok & Hs3)%bind_ok)%bind_ok.
  assert (lr_holder r1 lock_key = Some y) as Hy1.
  { rewrite <- Hy, <- (lr_connect_holder r). by rewrite Hs1. }
  destruct a.
  - apply lr_set_granted in Hs2 as [? _]. congruence.
  - apply bind_ok in Hs3 as (? & r3 & Hs3 & Hs4). unfold modify in Hs3. simplify_eq.
    apply lr_set_refused in Hs2 as [_ Hsame]. eapply IH; [| exact Hs4 ]. apply Hwait. by rewrite Hsame.
Qed.

(** While a lock is held, through every wait of the attempt, no other
    caller acquires it. *)
Theorem held_lock_not_acquired k y timeout r :
  (forall ms r, lr_holder r ("lock:" +:+ k) = Some y ->
     lr_holder (lr_sleep ms r) ("lock:" +:+ k) = Some y) ->
  lr_holder r ("lock:" +:+ k) = Some y ->
  forall lock r', acquire_lock k timeout r <> (Ok lock, r').
Proof.
  intros Hwait Hy lock r' Hrun. unfold acquire_lock in Hrun.
  apply bind_ok in Hrun as (u & r1 & Hs1 & Hs2). revert Hs2.
  eapply acquire_tries_held; [ done |]. pose proof (lr_new_v4_holder r ("lock:" +:+ k)) as Hv.
  destruct (lr_new_v4 r) as [v r2]. simpl in *. simplify_eq. congruence.
Qed.

(** An assignment that returns has moved exactly the named shard to the
    instance, marked it assigned, and left its lock free; one that could not
    take the lock has changed no shard. *)
Theorem assign_shard_outcomes shard_id instance m :
  let o := assign_shard shard_id instance m in
  let lock_key := "lock:" +:+ "shard:lock:" +:+ shard_id in
  (fst o = Ok tt ->
     (exists now, shards (snd o) = alter (assigned instance now) shard_id (shards m)) /\
     lr_holder (redis_client (snd o)) lock_key = None) /\
  (fst o = Err LockNotAcquired -> shards (snd o) = shards m).
Proof.
  intros o lock_key. subst o. unfold assign_shard, locks, bind, gets, zoom, modify. simpl.
  destruct (acquire_lock _ _ (redis_client m)) as [[lock | e | | ] r1] eqn:Hacq; simpl;
    try (split; [ done |]; done).
  unfold acquire_lock in Hacq. apply bind_ok in Hacq as (u & r0 & _ & [-> Hheld]%acquire_tries_ok).
  destruct (release_lock _ r1) as [res r2] eqn:Hrel. simpl. split.
  - intros ->. split; [ eauto |].
    unfold release_lock in Hrel. apply bind_ok in Hrel as (v & r3 & Hs1%on_err_ok & (n & r4 & Hs2%on_err_ok & Hs3)%bind_ok).
    unfold ret in Hs3. simplify_eq. simpl in Hs2.
    eapply lr_del_own; [| exact Hs2 ]. rewrite <- Hheld, <- (lr_connect_holder r1). by rewrite Hs1.
  - intros ->. exfalso. revert Hrel. unfold release_lock, bind, on_err, ret.
    destruct (lr_connect r1) as [[] ?]; simpl; [| done.. ]. by destruct (lr_del_if _ _ _) as [[] ?].
Qed.

End LockLaws.

(** ** Where rebalancing moves shards *)
Definition holds (sh : gmap string ShardInfo) (i : string) : Prop :=
  exists name s, sh !! name = Some s /\ instance_id s = Some i.

Lemma assign_shard_holders shard_id instance m i :
  holds (shards (snd (assign_shard shard_id instance m))) i -> i = instance \/ holds (shards m) i.
Proof.
  unfold assign_shard, locks, bind, gets, zoom, modify. simpl.
  destruct (acquire_lock _ _ _) as [[lock | e | | ] r1]; simpl; try by right.
  destruct (release_lock lock r1) as [? r2]. simpl. intros (name & s & Hs & Hi).
  rewrite lookup_alter_Some in Hs. destruct Hs as [(_ & s0 & _ & ->) | [_ Hs]].
  - left. simpl in Hi. congruence.
  - right. exists name, s. done.
Qed.

Lemma move_shards_holders by_instance pairs m i :
  holds (shards (snd (move_shards by_instance pairs m))) i ->
  i ∈ map snd pairs \/ holds (shards m) i.
Proof.
  revert m. induction pairs as [| [o u] pairs IH]; intros m; simpl; [ by right |].
  set (step := match by_instance !! o with Some (sh :: _) => assign_shard (id sh) u | _ => ret tt end).
  assert (forall i, holds (shards (snd (step m))) i -> i = u \/ holds (shards m) i) as Hstep.
  { intros j. unfold step.
    destruct (by_instance !! o) as [[| sh l] |]; [ by right | apply assign_shard_holders | by right ]. }
  unfold bind. destruct (step m) as [[] m1]; simpl in *; intros Hi;
    [ apply IH in Hi as [Hi | Hi]; [ left; set_solver |] |..];
    apply Hstep in Hi as [-> | Hi]; auto; left; set_solver.
Qed.

Lemma classify_known avg t (P : string -> Prop) l acc :
  Forall (fun kv => P kv.1) l -> Forall P acc.2 -> Forall P (foldl (classify avg t) acc l).2.
Proof.
  intros Hl. revert acc. induction Hl as [| kv l Hkv _ IH]; intros acc Hacc; [ done |]. simpl. apply IH.
  unfold classify. destruct (f64_ltb _ _); [ done |]. destruct (f64_ltb _ _); [| done ].
  apply Forall_app. by repeat constructor.
Qed.

Lemma split_load_known `{!DashIterLaws} m by_instance :
  Forall (fun u => is_Some (by_instance !! u)) (split_load m by_instance).2.
Proof.
  apply classify_known; [| done ]. apply Forall_forall. intros [k v].
  rewrite dash_iter_entries, elem_of_map_to_list. eauto.
Qed.

Lemma group_shard_held sh u l acc :
  Forall (fun kv => sh !! kv.1 = Some kv.2) l -> (is_Some (acc !! u) -> holds sh u) ->
  is_Some (foldl group_shard acc l !! u) -> holds sh u.
Proof.
  intros Hl. revert acc. induction Hl as [| [k v] l Hkv _ IH]; intros acc Hacc; [ done |]. simpl. apply IH.
  unfold group_shard. simpl in *. destruct (instance_id v) as [i |] eqn:Hi; [| done ].
  destruct (decide (i = u)) as [-> |]; [| by rewrite lookup_insert_ne ]. intros _. by exists k, v.
Qed.

Lemma instance_shards_held `{!DashIterLaws} sh u : is_Some (instance_shards sh !! u) -> holds sh u.
Proof.
  apply group_shard_held.
  - apply Forall_forall. intros [k v]. by rewrite dash_iter_entries, elem_of_map_to_list.
  - rewrite lookup_empty. by intros [].
Qed.

Lemma locks_shards {A} (op : M LRedis ShardError A) m : shards (snd (locks op m)) = shards m.
Proof. unfold locks, zoom. by destruct (op (redis_client m)). Qed.

Lemma rebalance_moves `{!DashIterLaws} m1 i :
  holds (shards (snd (perform_rebalancing (instance_shards (shards m1)) m1))) i -> holds (shards m1) i.
Proof.
  unfold perform_rebalancing, bind at 1, gets. intros [Hi | Hi]%move_shards_holders; [| done ].
  apply instance_shards_held.
  eapply (proj1 (Forall_forall _ _) (split_load_known m1 _)).
  apply list_elem_of_In, in_map_iff in Hi as ([o u] & <- & Hin). simpl.
  apply list_elem_of_In, list_elem_of_bind in Hin as (o' & Hin & _).
  apply list_elem_of_bind in Hin as (u' & Hin & Hu'). set_solver.
Qed.

(** Rebalancing gives shards only to instances that hold some already: an
    instance without a shard, such as one just started, never receives one,
    whether the call succeeds or fails. *)
Theorem rebalance_only_between_holders `{!DashIterLaws} m i :
  holds (shards (snd (rebalance_shards m))) i -> holds (shards m) i.
Proof.
  unfold rebalance_shards. unfold bind at 1, gets at 1.
  pose proof (locks_shards (acquire_lock "shard:rebalance:lock" (lock_timeout (sm_config m))) m) as Hlock.
  unfold bind at 1. destruct (locks _ m) as [[lock | e | | ] m1]; simpl in Hlock; try by rewrite <- Hlock.
  rewrite <- Hlock. unfold bind, gets. simpl.
  destruct (needs_rebalancing m1 (instance_shards (shards m1))).
  - intros Hi. apply rebalance_moves. revert Hi.
    destruct (perform_rebalancing (instance_shards (shards m1)) m1) as [[] m2]; simpl; try done.
    by rewrite locks_shards.
  - simpl. by rewrite locks_shards.
Qed.

End Manager.

(** ** Concrete instances: a Redis that is a map of keys, with no expiry *)
Module ShardingWitness.

Record Keys : Type := { keys : gmap string string; fresh : nat }.

#[local] Instance iter : DashIter := fun V m => map_to_list m.

#[local] Instance iter_laws : DashIterLaws.
Proof. by intros V m. Qed.

#[local] Instance redis : LockRedis := {|
  LRedis := Keys;
  lr_connect := ret tt;
  lr_set_nx_px := fun k x _ r =>
    match keys r !! k with
    | Some _ => (Ok false, r)
    | None => (Ok true, {| keys := <[k := x]> (keys r); fresh := fresh r |})
    end;
  lr_del_if := fun k x r =>
    if bool_decide (keys r !! k = Some x)
    then (Ok 1%Z, {| keys := delete k (keys r); fresh := fresh r |})
    else (Ok 0%Z, r);
  lr_sleep := fun _ r => r;
  lr_new_v4 := fun r => ("id-" +:+ pretty (fresh r), {| keys := keys r; fresh := S (fresh r) |});
  lr_now := fun _ => 0%Z
|}.

#[local] Instance redis_laws : LockRedisLaws.
Proof.
  refine {| lr_holder := fun r k => keys r !! k |}; simpl.
  - done.
  - done.
  - intros k x ms r r'. destruct (keys r !! k) eqn:Hk; intros; simplify_eq. simpl.
    by rewrite lookup_insert_eq.
  - intros k x ms r r'. destruct (keys r !! k) eqn:Hk; intros; simplify_eq. eauto.
  - intros k x r n r' Hk. rewrite bool_decide_eq_true_2 by done. intros; simplify_eq. simpl.
    by rewrite lookup_delete_eq.
Defined.

Definition empty_redis : LRedis := {| keys := ∅; fresh := 0 |}.

Definition three_shards : ShardConfig :=
  {| shard_count := 3; rebalance_threshold := f64_div (f64_of_u64 2) (f64_of_u64 10);
     rebalance_interval := 300000; lock_timeout := 30000; lock_retry_interval := 100;
     sc_max_retries := 3 |}.

Definition hash (k : string) : Z := if String.eqb k "last" then u64_max else 5.

Definition ops : list ShardOp :=
  [OpAssign "shard-0" "a"; OpAssign "shard-1" "a"; OpAssign "shard-2" "b"; OpRebalance].

Lemma routing_total_and_stable_witness :
  exists m, initialize_shards (ShardManager_new empty_redis three_shards) = (Ok tt, m) /\
    exists s, get_shard_for_key hash "last" (run_ops ops m) = Some s /\ id s = "shard-2".
Proof.
  destruct (routing_total_and_stable empty_redis three_shards ops hash "last")
    as (m & Hm & s & Hs & Hid & _); [ simpl; lia | done | done |].
  exists m. split; [ exact Hm |]. exists s. split; [ exact Hs |]. by rewrite Hid.
Defined.

Definition held : LRedis := {| keys := {[ "lock:k" := "other" ]}; fresh := 0 |}.

Lemma held_lock_not_acquired_witness : fst (acquire_lock "k" 30000 held) = Err LockNotAcquired /\
  forall lock r', acquire_lock "k" 30000 held <> (Ok lock, r').
Proof.
  split; [ reflexivity |]. apply (held_lock_not_acquired "k" "other"); [ done | reflexivity ].
Defined.

Definition initialised : ShardManager := snd (initialize_shards (ShardManager_new empty_redis three_shards)).

Lemma assign_shard_outcomes_witness :
  lr_holder (redis_client (snd (assign_shard "shard-1" "a" initialised))) "lock:shard:lock:shard-1" = None.
Proof. apply (assign_shard_outcomes "shard-1" "a" initialised). reflexivity. Defined.

(** Two of the three shards are on [a]: rebalancing moves one of them to [b]. *)
Definition loaded : ShardManager :=
  run_ops [OpAssign "shard-0" "a"; OpAssign "shard-1" "a"; OpAssign "shard-2" "b"] initialised.

Definition on_instance (i : string) (m : ShardManager) : nat :=
  length (filter (fun kv => instance_id kv.2 = Some i) (map_to_list (shards m))).

Lemma rebalance_only_between_holders_witness :
  on_instance "b" loaded = 1 /\ on_instance "b" (snd (rebalance_shards loaded)) = 2 /\
  holds (shards loaded) "b".
Proof.
  split; [ vm_compute; reflexivity | split; [ vm_compute; reflexivity |] ].
  apply (rebalance_only_between_holders loaded "b").
  exists "shard-2". eexists. split; [ vm_compute; reflexivity | reflexivity ].
Defined.

End ShardingWitness.
