(* ===== verification/Users.v ===== *)
(** The user repository (src/src/infrastructure/user_repository.rs).

    [UsersDb] has one operation per statement the repository sends;
    [UsersDbLaws] states what PostgreSQL documents of them on the rows of the
    table [users] (migrations/006), keyed by their primary key: an UPDATE or
    DELETE that succeeds reports how many rows it changed, RETURNING gives the
    new values, and the columns [username] and [email] are unique.  The
    repository is its pool.  Times are milliseconds. *)
From S2P Require Import Prelude.
From S2P Require Import EventsDb.
From stdpp Require Import base tactics list gmap strings.
From Stdlib Require Import ZArith Lia.

Record User : Type := {
  usr_id : Uuid;
  usr_username : string;
  usr_email : option string;
  usr_password_hash : string;
  usr_roles : list string;
  usr_is_active : bool;
  usr_registered_at : Z;
  usr_last_login_at : option Z;
  usr_failed_login_attempts : Z;
  usr_locked_until : option Z
}.

Record NewUser : Type := {
  nu_username : string;
  nu_email : string;
  nu_password_hash : string;
  nu_roles : list string
}.

Inductive UserRepositoryError : Type :=
| NotFoundById (id : Uuid)
| NotFoundByUsername (username : string)
| UsernameExists (username : string)
| EmailExists (email : string)
| UserDatabaseError (e : SqlxError)
| Unexpected (msg : string).

(** ** The table and its statements *)
Class UsersDb : Type := {
  UDb : Type;
  u_insert : Uuid -> string -> string -> string -> list string -> M UDb SqlxError User;
  u_select_by_username : string -> M UDb SqlxError (option User);
  u_select_by_id : Uuid -> M UDb SqlxError (option User);
  u_update_login_info : option Z -> Z -> option Z -> Uuid -> M UDb SqlxError Z;
  u_update_password_hash : string -> Uuid -> M UDb SqlxError Z;
  u_update_status : bool -> Uuid -> M UDb SqlxError Z;
  u_increment_failed : Uuid -> M UDb SqlxError (option Z);
  u_update_lockout : option Z -> Z -> Uuid -> M UDb SqlxError Z;
  u_delete : Uuid -> M UDb SqlxError Z
}.

(** The SET clauses. *)
Definition with_login (last_login : option Z) (failed : Z) (locked : option Z) (u : User) : User :=
  {| usr_id := usr_id u; usr_username := usr_username u; usr_email := usr_email u;
     usr_password_hash := usr_password_hash u; usr_roles := usr_roles u;
     usr_is_active := usr_is_active u; usr_registered_at := usr_registered_at u;
     usr_last_login_at := last_login; usr_failed_login_attempts := failed;
     usr_locked_until := locked |}.

Definition with_lockout (locked : option Z) (failed : Z) (u : User) : User :=
  with_login (usr_last_login_at u) failed locked u.

Definition with_password (hash : string) (u : User) : User :=
  {| usr_id := usr_id u; usr_username := usr_username u; usr_email := usr_email u;
     usr_password_hash := hash; usr_roles := usr_roles u;
     usr_is_active := usr_is_active u; usr_registered_at := usr_registered_at u;
     usr_last_login_at := usr_last_login_at u;
     usr_failed_login_attempts := usr_failed_login_attempts u;
     usr_locked_until := usr_locked_until u |}.

Definition with_status (active : bool) (u : User) : User :=
  {| usr_id := usr_id u; usr_username := usr_username u; usr_email := usr_email u;
     usr_password_hash := usr_password_hash u; usr_roles := usr_roles u;
     usr_is_active := active; usr_registered_at := usr_registered_at u;
     usr_last_login_at := usr_last_login_at u;
     usr_failed_login_attempts := usr_failed_login_attempts u;
     usr_locked_until := usr_locked_until u |}.

(** The columns an INSERT leaves to their defaults. *)
Definition fresh_user (id : Uuid) (username email hash : string) (roles : list string)
    (registered_at : Z) : User :=
  {| usr_id := id; usr_username := username; usr_email := Some email; usr_password_hash := hash;
     usr_roles := roles; usr_is_active := true; usr_registered_at := registered_at;
     usr_last_login_at := None; usr_failed_login_attempts := 0; usr_locked_until := None |}.

Abbreviation Users := (gmap Uuid User).

(** The constraints of the table: the primary key, UNIQUE and INTEGER. *)
Record users_wf (t : Users) : Prop := {
  uw_key : forall id u, t !! id = Some u -> usr_id u = id;
  uw_username : forall id id' u u',
    t !! id = Some u -> t !! id' = Some u' -> usr_username u = usr_username u' -> id = id';
  uw_email : forall id id' u u' e,
    t !! id = Some u -> t !! id' = Some u' -> usr_email u = Some e -> usr_email u' = Some e -> id = id'
}.

(** How many rows [WHERE id = $n] selects. *)
Definition affected (id : Uuid) (t : Users) : Z :=
  match t !! id with
  | Some _ => 1
  | None => 0
  end.

Class UsersDbLaws `{UsersDb} : Type := {
  u_rows : UDb -> Users;
  u_rows_wf : forall d, users_wf (u_rows d);
  u_insert_ok : forall id name email hash roles d u d',
    u_insert id name email hash roles d = (Ok u, d') ->
    u_rows d !! id = None /\
    (exists at_, u = fresh_user id name email hash roles at_) /\ u_rows d' = <[id := u]> (u_rows d);
  u_insert_err : forall id name email hash roles d code c d',
    u_insert id name email hash roles d = (Err (PgDatabaseError code c), d') -> u_rows d' = u_rows d;
  u_insert_username_key : forall id name email hash roles d d',
    u_insert id name email hash roles d = (Err (PgDatabaseError "23505" (Some "users_username_key")), d') ->
    exists id' u, u_rows d !! id' = Some u /\ usr_username u = name;
  u_insert_email_key : forall id name email hash roles d d',
    u_insert id name email hash roles d = (Err (PgDatabaseError "23505" (Some "users_email_key")), d') ->
    exists id' u, u_rows d !! id' = Some u /\ usr_email u = Some email;
  u_select_rows : forall name d, u_rows (snd (u_select_by_username name d)) = u_rows d;
  u_select_some : forall name d u d',
    u_select_by_username name d = (Ok (Some u), d') ->
    u_rows d !! usr_id u = Some u /\ usr_username u = name;
  u_select_none : forall name d d',
    u_select_by_username name d = (Ok None, d') ->
    forall id u, u_rows d !! id = Some u -> usr_username u <> name;
  u_select_id_rows : forall id d, u_rows (snd (u_select_by_id id d)) = u_rows d;
  u_select_id_ok : forall id d o d', u_select_by_id id d = (Ok o, d') -> o = u_rows d !! id;
  u_login_info_ok : forall last failed locked id d n d',
    u_update_login_info last failed locked id d = (Ok n, d') ->
    n = affected id (u_rows d) /\ u_rows d' = alter (with_login last failed locked) id (u_rows d);
  u_password_ok : forall hash id d n d',
    u_update_password_hash hash id d = (Ok n, d') ->
    n = affected id (u_rows d) /\ u_rows d' = alter (with_password hash) id (u_rows d);
  u_status_ok : forall active id d n d',
    u_update_status active id d = (Ok n, d') ->
    n = affected id (u_rows d) /\ u_rows d' = alter (with_status active) id (u_rows d);
  u_increment_ok : forall id d o d',
    u_increment_failed id d = (Ok o, d') ->
    match u_rows d !! id with
    | Some u =>
        let n := (usr_failed_login_attempts u + 1)%Z in
        o = Some n /\ u_rows d' = <[id := with_lockout (usr_locked_until u) n u]> (u_rows d)
    | None => o = None /\ u_rows d' = u_rows d
    end;
  u_lockout_ok : forall locked failed id d n d',
    u_update_lockout locked failed id d = (Ok n, d') ->
    n = affected id (u_rows d) /\ u_rows d' = alter (with_lockout locked failed) id (u_rows d);
  u_delete_ok : forall id d n d',
    u_delete id d = (Ok n, d') -> n = affected id (u_rows d) /\ u_rows d' = delete id (u_rows d)
}.

(** ** The repository *)
Section Repository.
Context `{UsersDb}.

(** The [map_err] of [create]. *)
Definition insert_error (new_user : NewUser) (e : SqlxError) : UserRepositoryError :=
  match e with
  | PgDatabaseError code constraint =>
      if String.eqb code "23505" then
        match constraint with
        | Some constraint_name =>
            if String.eqb constraint_name "users_username_key"
            then UsernameExists (nu_username new_user)
            else if String.eqb constraint_name "users_email_key"
            then EmailExists (nu_email new_user)
            else UserDatabaseError e
        | None => UserDatabaseError e
        end
      else UserDatabaseError e
  | _ => UserDatabaseError e
  end.

(** [UserRepository::create]; [user_id] is the identifier drawn. *)
Definition create (user_id : Uuid) (new_user : NewUser) : M UDb UserRepositoryError User :=
  on_err (insert_error new_user)
    (u_insert user_id (nu_username new_user) (nu_email new_user) (nu_password_hash new_user)
       (nu_roles new_user)).

(** [UserRepository::find_by_username] and [find_by_id]. *)
Definition find_by_username (username : string) : M UDb UserRepositoryError (option User) :=
  on_err UserDatabaseError (u_select_by_username username).

Definition find_by_id (user_id : Uuid) : M UDb UserRepositoryError (option User) :=
  on_err UserDatabaseError (u_select_by_id user_id).

(** [if result.rows_affected() == 0 { return Err(NotFoundById(user_id)) }]. *)
Definition checked_update (user_id : Uuid) (statement : M UDb SqlxError Z) : M UDb UserRepositoryError unit :=
  let! n := on_err UserDatabaseError statement in
  if (n =? 0)%Z then throw (NotFoundById user_id) else ret tt.

(** [UserRepository::update_login_info]. *)
Definition update_login_info (user_id : Uuid) (last_login_at failed_login_attempts : Z)
    (locked_until : option Z) : M UDb UserRepositoryError unit :=
  checked_update user_id
    (u_update_login_info (Some last_login_at) failed_login_attempts locked_until user_id).

(** [UserRepository::update_password_hash]. *)
Definition update_password_hash (user_id : Uuid) (new_password_hash : string) :
    M UDb UserRepositoryError unit :=
  checked_update user_id (u_update_password_hash new_password_hash user_id).

(** [UserRepository::update_status]. *)
Definition update_status (user_id : Uuid) (is_active : bool) : M UDb UserRepositoryError unit :=
  checked_update user_id (u_update_status is_active user_id).

(** [UserRepository::increment_failed_attempts]. *)
Definition increment_failed_attempts (user_id : Uuid) : M UDb UserRepositoryError Z :=
  let! record := on_err UserDatabaseError (u_increment_failed user_id) in
  match record with
  | Some attempts => ret attempts
  | None => throw (NotFoundById user_id)
  end.

(** [UserRepository::update_lockout]. *)
Definition update_lockout (user_id : Uuid) (locked_until : option Z) (failed_attempts_value : Z) :
    M UDb UserRepositoryError unit :=
  checked_update user_id (u_update_lockout locked_until failed_attempts_value user_id).

(** [UserRepository::delete]. *)
Definition delete_user (user_id : Uuid) : M UDb UserRepositoryError Z :=
  on_err UserDatabaseError (u_delete user_id).

End Repository.
