(* ===== verification/Auth.v ===== *)
(** Authentication (src/src/infrastructure/auth.rs): registration, login with
    lockout, tokens, logout and the per-key rate limit.

    Argon2, JSON Web Tokens, Redis and chrono's limits belong to other crates:
    [PasswordHashing], [Jwt], [AuthRedis] and [Chrono] are their interfaces.
    The laws of [Jwt] say what jsonwebtoken does with [Validation::default()]:
    an encoded token decodes, under its key, to the claims it carries until 60
    seconds after [exp]; nothing is assumed about the signature itself.  Times
    are milliseconds since the epoch, passed as [now]; [timestamp()] is their
    quotient by 1000.  Salts and identifiers drawn are arguments. *)
From S2P Require Import Prelude.
From S2P Require Import EventsDb.
From S2P Require Import RedisGuard.
From S2P Require Import Users.
From stdpp Require Import base tactics list gmap strings pretty.
From Stdlib Require Import ZArith Lia.

(** ** Data *)
Inductive TokenType : Type := Access | Refresh.

Inductive UserRole : Type := Admin | BankManager | Customer.

#[export] Instance TokenType_eq_dec : EqDecision TokenType.
Proof. solve_decision. Defined.

#[export] Instance UserRole_eq_dec : EqDecision UserRole.
Proof. solve_decision. Defined.

(** [#[strum(serialize_all = "snake_case")]]: [ToString] and [EnumString]. *)
Definition role_to_string (r : UserRole) : string :=
  match r with
  | Admin => "admin"
  | BankManager => "bank_manager"
  | Customer => "customer"
  end.

Definition role_from_str (s : string) : option UserRole :=
  if String.eqb s "admin" then Some Admin
  else if String.eqb s "bank_manager" then Some BankManager
  else if String.eqb s "customer" then Some Customer
  else None.

Record Claims : Type := {
  sub : string;
  exp : Z;
  iat : Z;
  roles : list UserRole;
  token_type : TokenType;
  jti : string;
  company : string
}.

Record AuthConfig : Type := {
  jwt_secret : string;
  refresh_token_secret : string;
  access_token_expiry : Z;
  refresh_token_expiry : Z;
  rate_limit_requests : Z;
  rate_limit_window : Z;
  max_failed_attempts : Z;
  lockout_duration_minutes : Z
}.

Record LoginResponse : Type := {
  lr_access_token : string;
  lr_refresh_token : string;
  lr_token_type : string;
  lr_expires_in : Z;
  lr_user_id : string;
  lr_roles : list UserRole
}.

Record AuthPayload : Type := { client_id : string; client_secret : string }.

Record AuthBody : Type := { ab_access_token : string; ab_token_type : string }.

Definition AuthBody_new (access_token : string) : AuthBody :=
  {| ab_access_token := access_token; ab_token_type := "Bearer" |}.

(** ** What other crates provide *)
Class PasswordHashing : Type := {
  PHash : Type;
  (** [PasswordHash::new] and [to_string] *)
  ph_parse : string -> string + PHash;
  ph_to_string : PHash -> string;
  (** [Argon2::default().hash_password(..)] with its salt, and [verify_password] *)
  ph_hash : string -> string -> string + PHash;
  ph_verify : string -> PHash -> bool
}.

Class PasswordLaws `{PasswordHashing} : Prop := {
  ph_parse_printed : forall h, ph_parse (ph_to_string h) = inr h;
  ph_verify_hashed : forall p salt h, ph_hash p salt = inr h -> ph_verify p h = true
}.

Class Jwt : Type := {
  JwtErr : Type;
  jwt_encode : Claims -> string -> JwtErr + string;
  (** [decode] with the time in seconds and the key *)
  jwt_decode : Z -> string -> string -> JwtErr + Claims
}.

Class JwtLaws `{Jwt} : Prop := {
  jwt_decode_encoded : forall c k t now,
    jwt_encode c k = inr t -> (now - 60 <= exp c)%Z -> jwt_decode now t k = inr c;
  jwt_decode_claims : forall c k t now k' c',
    jwt_encode c k = inr t -> jwt_decode now t k' = inr c' -> c' = c;
  jwt_decode_fresh : forall now t k c, jwt_decode now t k = inr c -> (now - 60 <= exp c)%Z
}.

(** The Redis commands of this file, with the server's clock in seconds.
    [ar_get_bool] is [GET] read as a [bool]. *)
Class AuthRedis : Type := {
  ARedis : Type;
  ar_connect : M ARedis RedisError unit;
  ar_get_bool : Z -> string -> M ARedis RedisError bool;
  ar_set_ex : Z -> string -> string -> Z -> M ARedis RedisError unit;
  ar_expire : Z -> string -> Z -> M ARedis RedisError unit;
  ar_incr : Z -> string -> M ARedis RedisError Z
}.

(** A value and the time its key expires at. *)
Abbreviation Entry := (string * option Z)%type.

Definition alive (now : Z) (e : option Entry) : option Entry :=
  match e with
  | Some (v, Some deadline) => if (now <? deadline)%Z then e else None
  | _ => e
  end.

Class AuthRedisLaws `{AuthRedis} : Type := {
  ar_entries : ARedis -> gmap string Entry;
  ar_connect_entries : forall r, ar_entries (snd (ar_connect r)) = ar_entries r;
  ar_get_entries : forall now k r, ar_entries (snd (ar_get_bool now k r)) = ar_entries r;
  ar_get_ok : forall now k r b r', ar_get_bool now k r = (Ok b, r') ->
    b = match alive now (ar_entries r !! k) with Some (v, _) => String.eqb v "1" | None => false end;
  ar_set_ex_ok : forall now k v ttl r r', ar_set_ex now k v ttl r = (Ok tt, r') ->
    ar_entries r' = <[k := (v, Some (now + ttl)%Z)]> (ar_entries r);
  ar_expire_ok : forall now k ttl r r', ar_expire now k ttl r = (Ok tt, r') ->
    ar_entries r' = match alive now (ar_entries r !! k) with
                    | Some (v, _) => <[k := (v, Some (now + ttl)%Z)]> (ar_entries r)
                    | None => ar_entries r
                    end;
  ar_incr_ok : forall now k r n r', ar_incr now k r = (Ok n, r') ->
    match alive now (ar_entries r !! k) with
    | Some (v, d) => exists i, v = pretty i /\ n = (i + 1)%Z /\
                       ar_entries r' = <[k := (pretty (i + 1)%Z, d)]> (ar_entries r)
    | None => n = 1%Z /\ ar_entries r' = <[k := (pretty 1%Z, None)]> (ar_entries r)
    end
}.

Class Chrono : Type := {
  chrono_max_duration : Z;
  chrono_min_utc : Z;
  chrono_max_utc : Z
}.

(** [Duration::seconds(..)] or [minutes(..)] added to a date, in milliseconds:
    both panic out of range. *)
Definition add_duration `{Chrono} {E} (t d : Z) : res E Z :=
  if (chrono_max_duration <? Z.abs d)%Z then Panic
  else if ((chrono_min_utc <=? t + d) && (t + d <=? chrono_max_utc))%Z then Ok (t + d)%Z
  else Panic.

Definition timestamp (t : Z) : Z := (t / 1000)%Z.

(** ** Errors *)
Inductive AuthError `{Jwt} : Type :=
| InvalidCredentials
| TokenExpired
| InvalidToken
| TokenBlacklisted
| RateLimitExceeded
| UserNotFound
| PasswordHashError (msg : string)
| AuthRedisError (e : RedisError)
| JwtError (e : JwtErr)
| InternalError (msg : string)
| WrongCredentials
| MissingCredentials
| TokenCreation
| UsernameAlreadyExists (username : string)
| EmailAlreadyExists (email : string)
| AuthUserRepositoryError (msg : string)
| AccountLocked.

Section Auth.
Context `{UsersDb} `{PasswordHashing} `{Jwt} `{AuthRedis} `{Chrono}.
Context `{!Display SqlxError, !Display RedisError, !Display JwtErr, !Display Uuid}.

(** [impl From<UserRepositoryError> for AuthError]. *)
Definition from_repository (err : UserRepositoryError) : AuthError :=
  match err with
  | NotFoundById _ => UserNotFound
  | NotFoundByUsername _ => UserNotFound
  | UsernameExists username => UsernameAlreadyExists username
  | EmailExists email => EmailAlreadyExists email
  | UserDatabaseError e => AuthUserRepositoryError (to_string e)
  | Unexpected msg => InternalError msg
  end.

(** [#[derive(Error)]]. *)
Definition AuthError_display (e : AuthError) : string :=
  match e with
  | InvalidCredentials => "Invalid credentials"
  | TokenExpired => "Token expired"
  | InvalidToken => "Invalid token"
  | TokenBlacklisted => "Token blacklisted"
  | RateLimitExceeded => "Rate limit exceeded"
  | UserNotFound => "User not found"
  | PasswordHashError msg => "Password hash error: " +:+ msg
  | AuthRedisError e => "Redis error: " +:+ to_string e
  | JwtError e => "JWT error: " +:+ to_string e
  | InternalError msg => "Internal error: " +:+ msg
  | WrongCredentials => "Wrong credentials"
  | MissingCredentials => "Missing credentials"
  | TokenCreation => "Token creation error"
  | UsernameAlreadyExists username => "Username '" +:+ username +:+ "' already exists"
  | EmailAlreadyExists email => "Email '" +:+ email +:+ "' already exists"
  | AuthUserRepositoryError msg => "User repository error: " +:+ msg
  | AccountLocked => "Account is locked"
  end.

(** [impl IntoResponse for AuthError]: the status and the [error] of the body. *)
Definition into_response (e : AuthError) : Z * string :=
  match e with
  | InvalidCredentials => (401%Z, "Invalid credentials")
  | TokenExpired => (401%Z, "Token expired")
  | InvalidToken => (401%Z, "Invalid token")
  | TokenBlacklisted => (401%Z, "Token has been revoked")
  | RateLimitExceeded => (429%Z, "Rate limit exceeded")
  | UserNotFound => (404%Z, "User not found")
  | PasswordHashError _ => (500%Z, "Password processing error")
  | AuthRedisError _ => (500%Z, "Database error")
  | JwtError _ => (500%Z, "Token processing error")
  | InternalError _ => (500%Z, "Internal server error")
  | WrongCredentials => (401%Z, "Wrong credentials")
  | MissingCredentials => (400%Z, "Missing credentials")
  | TokenCreation => (500%Z, "Token creation error")
  | UsernameAlreadyExists _ => (400%Z, "Username already exists")
  | EmailAlreadyExists _ => (400%Z, "Email already exists")
  | AuthUserRepositoryError _ => (500%Z, "Database error")
  | AccountLocked => (401%Z, "Account is locked")
  end.

(** ** The service *)
Record AuthService : Type := {
  as_redis_client : ARedis;
  as_config : AuthConfig;
  as_user_repository : UDb
}.

Definition AuthService_new (redis_client : ARedis) (config : AuthConfig) (user_repository : UDb) :
    AuthService :=
  {| as_redis_client := redis_client; as_config := config; as_user_repository := user_repository |}.

Definition put_users (d : UDb) (s : AuthService) : AuthService :=
  {| as_redis_client := as_redis_client s; as_config := as_config s; as_user_repository := d |}.

Definition put_redis (r : ARedis) (s : AuthService) : AuthService :=
  {| as_redis_client := r; as_config := as_config s; as_user_repository := as_user_repository s |}.

(** A repository call or a Redis command, with [?]. *)
Definition repo {A} (m : M UDb UserRepositoryError A) : M AuthService AuthError A :=
  on_err from_repository (zoom as_user_repository put_users m).

Definition redis {A} (m : M ARedis RedisError A) : M AuthService AuthError A :=
  on_err AuthRedisError (zoom as_redis_client put_redis m).

Definition of_sum {E A} (x : E + A) : res E A :=
  match x with
  | inl e => Err e
  | inr a => Ok a
  end.

(** [self.user_repository.find_by_username(..).await?.ok_or(UserNotFound)?]. *)
Definition find_user (username : string) : M AuthService AuthError User :=
  let! user := repo (find_by_username username) in
  match user with
  | Some u => ret u
  | None => throw UserNotFound
  end.

(** [hash_password(..)?.to_string()]. *)
Definition hash_password (password salt : string) : res AuthError string :=
  let? h := map_err PasswordHashError (of_sum (ph_hash password salt)) in
  Ok (ph_to_string h).

(** [AuthService::register_user]. *)
Definition register_user (user_id : Uuid) (salt username email password : string)
    (user_roles : list UserRole) : M AuthService AuthError User :=
  let! password_hash := lift (hash_password password salt) in
  repo (create user_id {| nu_username := username; nu_email := email;
                          nu_password_hash := password_hash;
                          nu_roles := map role_to_string user_roles |}).

Definition secret_for (c : AuthConfig) (ty : TokenType) : string :=
  match ty with
  | Access => jwt_secret c
  | Refresh => refresh_token_secret c
  end.

Definition expiry_for (c : AuthConfig) (ty : TokenType) : Z :=
  match ty with
  | Access => access_token_expiry c
  | Refresh => refresh_token_expiry c
  end.

(** [AuthService::generate_token]; [jti] is the identifier drawn, printed. *)
Definition generate_token (now : Z) (jti : string) (username : string) (user_roles : list UserRole)
    (ty : TokenType) : M AuthService AuthError string :=
  let! c := gets as_config in
  let! expires := lift (add_duration now (expiry_for c ty * 1000)) in
  let claims := {| sub := username; exp := timestamp expires; iat := timestamp now;
                   roles := user_roles; token_type := ty; jti := jti; company := "ACME" |} in
  lift (map_err JwtError (of_sum (jwt_encode claims (secret_for c ty)))).

(** [UserRole::from_str(s).unwrap_or(UserRole::Customer)]. *)
Definition parse_roles (stored : list string) : list UserRole :=
  map (fun s => default Customer (role_from_str s)) stored.

(** The pair of tokens [login] and [refresh_token] answer with. *)
Definition issue_tokens (now : Z) (jti1 jti2 : string) (user : User) :
    M AuthService AuthError LoginResponse :=
  let user_roles := parse_roles (usr_roles user) in
  let! access_token := generate_token now jti1 (usr_username user) user_roles Access in
  let! refresh_token := generate_token now jti2 (usr_username user) user_roles Refresh in
  let! c := gets as_config in
  ret {| lr_access_token := access_token; lr_refresh_token := refresh_token;
         lr_token_type := "Bearer"; lr_expires_in := access_token_expiry c;
         lr_user_id := to_string (usr_id user); lr_roles := user_roles |}.

Definition parse_hash (stored : string) : res AuthError PHash :=
  map_err PasswordHashError (of_sum (ph_parse stored)).

(** The lock of [login]: refuse while it lasts, clear it when it is over. *)
Definition check_lock (now : Z) (user : User) : M AuthService AuthError unit :=
  match usr_locked_until user with
  | Some locked_until_ts =>
      if (now <? locked_until_ts)%Z then throw (InternalError "Account is locked")
      else repo (update_lockout (usr_id user) None 0)
  | None => ret tt
  end.

(** [max_failed_attempts.try_into().unwrap()]: a [u32] as an [i32]. *)
Definition u32_as_i32 {E} (z : Z) : res E Z := if (z <? 2 ^ 31)%Z then Ok z else Panic.

(** The wrong-password branch of [login]. *)
Definition count_failed_login (now : Z) (user : User) : M AuthService AuthError LoginResponse :=
  let! new_failed_attempts := repo (increment_failed_attempts (usr_id user)) in
  let! c := gets as_config in
  let! limit := lift (u32_as_i32 (max_failed_attempts c)) in
  if (limit <=? new_failed_attempts)%Z then
    let! locked_until := lift (add_duration now (lockout_duration_minutes c * 60000)) in
    repo (update_lockout (usr_id user) (Some locked_until) new_failed_attempts) ;;;
    throw AccountLocked
  else throw InvalidCredentials.

(** [AuthService::login]. *)
Definition login (now : Z) (jti1 jti2 : string) (username password : string) :
    M AuthService AuthError LoginResponse :=
  let! user := find_user username in
  if negb (usr_is_active user) then throw (InternalError "Account is not active")
  else
    check_lock now user ;;;
    let! parsed_hash := lift (parse_hash (usr_password_hash user)) in
    if negb (ph_verify password parsed_hash) then count_failed_login now user
    else
      repo (update_login_info (usr_id user) now 0 None) ;;;
      issue_tokens now jti1 jti2 user.

Definition blacklist_key (token : string) : string := "blacklist:" +:+ token.

(** [AuthService::validate_token]: a Redis error on the lookup counts as "not
    blacklisted". *)
Definition validate_token (now : Z) (token : string) (expected_type : TokenType) :
    M AuthService AuthError Claims :=
  redis ar_connect ;;;
  let! lookup := attempt (F := AuthError) (redis (ar_get_bool (timestamp now) (blacklist_key token))) in
  let is_blacklisted := match lookup with inr b => b | inl _ => false end in
  if is_blacklisted then throw TokenBlacklisted
  else
    let! c := gets as_config in
    let! claims :=
      lift (map_err JwtError (of_sum (jwt_decode (timestamp now) token (secret_for c expected_type)))) in
    if decide (token_type claims = expected_type) then ret claims else throw InvalidToken.

(** [AuthService::refresh_token]. *)
Definition refresh_token (now : Z) (jti1 jti2 : string) (refresh_token_str : string) :
    M AuthService AuthError LoginResponse :=
  let! claims := validate_token now refresh_token_str Refresh in
  let! user := find_user (sub claims) in
  if negb (usr_is_active user) then throw (InternalError "Account is inactive")
  else issue_tokens now jti1 jti2 user.

(** [AuthService::change_password]. *)
Definition change_password (salt username current_password new_password : string) :
    M AuthService AuthError unit :=
  let! user := find_user username in
  let! parsed_hash := lift (parse_hash (usr_password_hash user)) in
  if negb (ph_verify current_password parsed_hash) then throw InvalidCredentials
  else
    let! new_password_hash := lift (hash_password new_password salt) in
    repo (update_password_hash (usr_id user) new_password_hash).

(** [AuthService::blacklist_token]: until the [exp] of the token. *)
Definition blacklist_token (now : Z) (token : string) : M AuthService AuthError unit :=
  let! claims := validate_token now token Access in
  redis ar_connect ;;;
  let ttl := (exp claims - timestamp now)%Z in
  if (0 <? ttl)%Z then
    redis (ar_set_ex (timestamp now) (blacklist_key token) "1" ttl) ;;;
    redis (ar_expire (timestamp now) (blacklist_key token) ttl)
  else ret tt.

Definition rate_limit_key (k : string) : string := "rate_limit:" +:+ k.

(** [AuthService::check_rate_limit]. *)
Definition check_rate_limit (now : Z) (k : string) : M AuthService AuthError unit :=
  redis ar_connect ;;;
  let! current := redis (ar_incr (timestamp now) (rate_limit_key k)) in
  let! c := gets as_config in
  (if (current =? 1)%Z
   then redis (ar_expire (timestamp now) (rate_limit_key k) (rate_limit_window c))
   else ret tt) ;;;
  if (rate_limit_requests c <? current)%Z then throw RateLimitExceeded else ret tt.

(** ** The extractor and the sample endpoints

    [jwt_secret_env] is the variable JWT_SECRET that [KEYS] is made from; its
    absence panics. *)
Definition keys (jwt_secret_env : option string) : res AuthError string :=
  match jwt_secret_env with
  | Some k => Ok k
  | None => Panic
  end.

(** [FromRequestParts for Claims], on the bearer token of the request. *)
Definition from_request_parts (jwt_secret_env : option string) (now : Z) (bearer : option string) :
    res AuthError Claims :=
  let? token := ok_or InvalidToken bearer in
  let? k := keys jwt_secret_env in
  map_err (fun _ => InvalidToken) (of_sum (jwt_decode (timestamp now) token k)).

(** [authorize]. *)
Definition authorize (jwt_secret_env : option string) (now : Z) (jti : string) (payload : AuthPayload) :
    res AuthError AuthBody :=
  if String.eqb (client_id payload) "" || String.eqb (client_secret payload) "" then
    Err MissingCredentials
  else if negb (String.eqb (client_id payload) "foo") || negb (String.eqb (client_secret payload) "bar") then
    Err WrongCredentials
  else
    let claims := {| sub := "b@b.com"; exp := 2000000000; iat := timestamp now; roles := [Customer];
                     token_type := Access; jti := jti; company := "ACME" |} in
    let? k := keys jwt_secret_env in
    let? token := map_err (fun _ => TokenCreation) (of_sum (jwt_encode claims k)) in
    Ok (AuthBody_new token).

End Auth.
