(* ===== verification/AuthFacts.v ===== *)
(** What authentication guarantees: theorems about [Auth] and [Users].

    The theorems that a call succeeds are proved for services that answer:
    [users_up], [redis_up] and [tokens_up] say that the database, Redis and the
    token encoder return a result, and nothing about which. *)
From S2P Require Import Prelude.
From S2P Require Import EventsDb.
From S2P Require Import RedisGuard.
From S2P Require Import Users.
From S2P Require Import Auth.
From stdpp Require Import base tactics list gmap strings pretty.
From Stdlib Require Import ZArith Lia.

Lemma role_round_trip r : role_from_str (role_to_string r) = Some r.
Proof. by destruct r. Qed.

Lemma parse_printed_roles rs : parse_roles (map role_to_string rs) = rs.
Proof. unfold parse_roles. induction rs as [| r rs IH]; [ done |]. simpl. by rewrite IH, role_round_trip. Qed.

Section AuthFacts.
Context `{UsersDb} `{PasswordHashing} `{Jwt} `{AuthRedis} `{Chrono}.
Context `{!Display SqlxError, !Display RedisError, !Display JwtErr, !Display Uuid}.
Context `{!UsersDbLaws} `{!PasswordLaws} `{!JwtLaws} `{!AuthRedisLaws}.

(** ** Services that answer *)
Definition answers {S E A} (m : M S E A) : Prop := forall s, is_ok (fst (m s)) = true.

Record users_up : Prop := {
  up_select : forall name, answers (u_select_by_username name);
  up_login_info : forall last failed locked id, answers (u_update_login_info last failed locked id);
  up_password : forall hash id, answers (u_update_password_hash hash id);
  up_increment : forall id, answers (u_increment_failed id);
  up_lockout : forall locked failed id, answers (u_update_lockout locked failed id)
}.

Record redis_up : Prop := {
  up_connect : answers ar_connect;
  up_get : forall now k, answers (ar_get_bool now k);
  up_expire : forall now k ttl, answers (ar_expire now k ttl);
  up_incr : forall now k, answers (ar_incr now k)
}.

Definition tokens_up : Prop := forall c k, exists t, jwt_encode c k = inr t.

Lemma answers_ok {S E A} (m : M S E A) s : answers m -> exists a s', m s = (Ok a, s').
Proof. intros Hm. specialize (Hm s). destruct (m s) as [[] s']; simpl in Hm; try done. eauto. Qed.

(** ** Repository calls on the rows *)
Definition rows (s : AuthService) : Users := u_rows (as_user_repository s).

(** The user's row: the table holds it under its own identifier. *)
Definition has_row (s : AuthService) (u : User) : Prop := rows s !! usr_id u = Some u.

Lemma repo_ok {A} (m : M UDb UserRepositoryError A) s a d' :
  m (as_user_repository s) = (Ok a, d') -> repo m s = (Ok a, put_users d' s).
Proof. intros Hm. unfold repo, on_err, zoom. by rewrite Hm. Qed.

Lemma find_user_up s u :
  users_up -> has_row s u ->
  exists d', find_user (usr_username u) s = (Ok u, put_users d' s) /\ u_rows d' = rows s.
Proof.
  intros Hup Hu. unfold find_user, bind.
  destruct (answers_ok _ (as_user_repository s) (up_select Hup (usr_username u))) as (o & d' & Hs).
  pose proof (u_select_rows (usr_username u) (as_user_repository s)) as Hrows. rewrite Hs in Hrows.
  rewrite (repo_ok _ s o d') by (unfold find_by_username, on_err; by rewrite Hs).
  destruct o as [u' |].
  - apply u_select_some in Hs as [Hu' Hname].
    assert (usr_id u' = usr_id u) as Hid by (eapply (uw_username _ (u_rows_wf _)); eauto).
    rewrite Hid in Hu'. unfold has_row, rows in Hu. simplify_eq. eauto.
  - by destruct (u_select_none _ _ _ Hs _ _ Hu).
Qed.

Lemma checked_update_up s u f st :
  (forall d n d', st d = (Ok n, d') ->
     n = affected (usr_id u) (u_rows d) /\ u_rows d' = alter f (usr_id u) (u_rows d)) ->
  answers st -> has_row s u ->
  exists d', repo (checked_update (usr_id u) st) s = (Ok tt, put_users d' s) /\
    u_rows d' = <[usr_id u := f u]> (rows s).
Proof.
  intros Hlaw Hup Hu. destruct (answers_ok _ (as_user_repository s) Hup) as (n & d' & Hs).
  destruct (Hlaw _ _ _ Hs) as [-> Hrows]. exists d'. unfold has_row, rows in *. split.
  - apply repo_ok. unfold checked_update, bind, on_err. rewrite Hs. simpl. unfold affected. by rewrite Hu.
  - rewrite Hrows. apply map_eq. intros k. destruct (decide (k = usr_id u)) as [-> |].
    + by rewrite lookup_alter_eq, lookup_insert_eq, Hu.
    + by rewrite lookup_alter_ne, lookup_insert_ne.
Qed.

Lemma increment_up s u :
  users_up -> has_row s u ->
  let n := (usr_failed_login_attempts u + 1)%Z in
  exists d', repo (increment_failed_attempts (usr_id u)) s = (Ok n, put_users d' s) /\
    u_rows d' = <[usr_id u := with_lockout (usr_locked_until u) n u]> (rows s).
Proof.
  intros Hup Hu n. destruct (answers_ok _ (as_user_repository s) (up_increment Hup (usr_id u))) as (o & d' & Hs).
  pose proof (u_increment_ok _ _ _ _ Hs) as Hlaw. unfold has_row, rows in *. rewrite Hu in Hlaw.
  destruct Hlaw as [-> Hrows]. exists d'. split; [| done ].
  apply repo_ok. unfold increment_failed_attempts, bind, on_err. by rewrite Hs.
Qed.

(** ** Tokens *)
Definition in_range (t d : Z) : Prop := @add_duration _ AuthError t d = Ok (t + d)%Z.

(** The claims [generate_token] puts into a token. *)
Definition claims_of (now : Z) (c : AuthConfig) (jti username : string) (rs : list UserRole)
    (ty : TokenType) : Claims :=
  {| sub := username; exp := timestamp (now + expiry_for c ty * 1000); iat := timestamp now;
     roles := rs; token_type := ty; jti := jti; company := "ACME" |}.

Lemma generate_token_ok now jti name rs ty s t s' :
  generate_token now jti name rs ty s = (Ok t, s') ->
  s' = s /\ jwt_encode (claims_of now (as_config s) jti name rs ty) (secret_for (as_config s) ty) = inr t.
Proof.
  unfold generate_token, bind, gets, lift, add_duration. simpl.
  destruct (_ <? _)%Z; [ done |]. destruct (_ && _)%bool; [| done ].
  unfold claims_of. destruct (jwt_encode _ _); intros; simplify_eq/=. done.
Qed.

Lemma generate_token_up now jti name rs ty s :
  tokens_up -> in_range now (expiry_for (as_config s) ty * 1000) ->
  exists t, generate_token now jti name rs ty s = (Ok t, s).
Proof.
  intros Hup Hr. destruct (Hup (claims_of now (as_config s) jti name rs ty) (secret_for (as_config s) ty))
    as [t Ht]. exists t. unfold generate_token, bind, gets, lift. simpl. rewrite Hr.
  unfold claims_of in Ht. by rewrite Ht.
Qed.

(** Every lifetime configured is one chrono can add to [now]. *)
Definition durations_fit (c : AuthConfig) (now : Z) : Prop :=
  in_range now (access_token_expiry c * 1000) /\ in_range now (refresh_token_expiry c * 1000).

(** The response carries tokens of both types for the user. *)
Definition tokens_for (now : Z) (c : AuthConfig) (jti1 jti2 : string) (u : User) (resp : LoginResponse) :
    Prop :=
  let rs := parse_roles (usr_roles u) in
  lr_roles resp = rs /\
  jwt_encode (claims_of now c jti1 (usr_username u) rs Access) (jwt_secret c) = inr (lr_access_token resp) /\
  jwt_encode (claims_of now c jti2 (usr_username u) rs Refresh) (refresh_token_secret c)
    = inr (lr_refresh_token resp).

Lemma issue_tokens_up now jti1 jti2 u s :
  tokens_up -> durations_fit (as_config s) now ->
  exists resp, issue_tokens now jti1 jti2 u s = (Ok resp, s) /\ tokens_for now (as_config s) jti1 jti2 u resp.
Proof.
  intros Hup [Ha Hr]. unfold issue_tokens, bind.
  destruct (generate_token_up now jti1 (usr_username u) (parse_roles (usr_roles u)) Access s Hup Ha) as [t1 Ht1].
  destruct (generate_token_up now jti2 (usr_username u) (parse_roles (usr_roles u)) Refresh s Hup Hr) as [t2 Ht2].
  rewrite Ht1, Ht2. unfold gets, ret. eexists. split; [ done |].
  apply generate_token_ok in Ht1 as [_ Ht1], Ht2 as [_ Ht2]. done.
Qed.

(** ** Login *)

(** The lock is absent or over. *)
Definition unlocked (now : Z) (u : User) : Prop :=
  match usr_locked_until u with
  | Some until => (until <= now)%Z
  | None => True
  end.

(** The row after the lock check. *)
Definition past_lock (u : User) : User :=
  match usr_locked_until u with
  | Some _ => with_lockout None 0 u
  | None => u
  end.

Lemma check_lock_up now s u :
  users_up -> has_row s u -> unlocked now u ->
  exists d', check_lock now u s = (Ok tt, put_users d' s) /\
    u_rows d' = <[usr_id u := past_lock u]> (rows s).
Proof.
  intros Hup Hu Hl. unfold check_lock, unlocked, past_lock in *.
  destruct (usr_locked_until u) as [until |].
  - destruct (Z.ltb_spec now until); [ lia |].
    apply (checked_update_up s u (with_lockout None 0)); [| apply Hup | done ].
    intros d n d'. apply u_lockout_ok.
  - exists (as_user_repository s). unfold ret. destruct s. split; [ done |].
    by rewrite insert_id.
Qed.

Lemma put_users_twice d d' s : put_users d' (put_users d s) = put_users d' s.
Proof. done. Qed.

(** What [login] does up to the password check. *)
Lemma login_up now jti1 jti2 p s u h :
  users_up -> has_row s u -> usr_is_active u = true -> unlocked now u ->
  ph_parse (usr_password_hash u) = inr h ->
  exists d', u_rows d' = <[usr_id u := past_lock u]> (rows s) /\
    login now jti1 jti2 (usr_username u) p s =
      (if ph_verify p h
       then repo (update_login_info (usr_id u) now 0 None) ;;; issue_tokens now jti1 jti2 u
       else count_failed_login now u) (put_users d' s).
Proof.
  intros Hup Hu Ha Hl Hh. destruct (find_user_up s u Hup Hu) as (d1 & Hf & Hr1).
  assert (has_row (put_users d1 s) u) as Hu1 by (unfold has_row, rows; simpl; by rewrite Hr1).
  destruct (check_lock_up now (put_users d1 s) u Hup Hu1 Hl) as (d2 & Hc & Hr2).
  exists d2. unfold rows in Hr2. simpl in Hr2. rewrite Hr1 in Hr2. split; [ done |].
  unfold login. rewrite (bind_step _ _ _ _ _ Hf), Ha. cbn [negb]. rewrite (bind_step _ _ _ _ _ Hc).
  unfold bind at 1, lift, parse_hash. rewrite Hh. simpl. by destruct (ph_verify p h).
Qed.

(** A login with the right password succeeds. *)
Lemma login_succeeds now jti1 jti2 p s u h :
  users_up -> tokens_up -> durations_fit (as_config s) now ->
  has_row s u -> usr_is_active u = true -> unlocked now u ->
  ph_parse (usr_password_hash u) = inr h -> ph_verify p h = true ->
  exists resp s', login now jti1 jti2 (usr_username u) p s = (Ok resp, s') /\
    tokens_for now (as_config s) jti1 jti2 u resp /\ as_config s' = as_config s /\
    rows s' = <[usr_id u := with_login (Some now) 0 None u]> (rows s).
Proof.
  intros Hup Htok Hdur Hu Ha Hl Hh Hp.
  destruct (login_up now jti1 jti2 p s u h Hup Hu Ha Hl Hh) as (d1 & Hr1 & ->). rewrite Hp.
  assert (has_row (put_users d1 s) (past_lock u)) as Hu1.
  { unfold has_row, rows. simpl. rewrite Hr1. unfold past_lock.
    destruct (usr_locked_until u); simpl; by rewrite lookup_insert_eq. }
  assert (usr_id (past_lock u) = usr_id u) as Hid by (unfold past_lock; by case_match).
  destruct (checked_update_up (put_users d1 s) (past_lock u) (with_login (Some now) 0 None)
              (u_update_login_info (Some now) 0 None (usr_id u))) as (d2 & Hup2 & Hr2);
    [ intros d n d'; rewrite Hid; apply u_login_info_ok | apply Hup | done |].
  rewrite Hid in Hup2, Hr2. unfold bind, update_login_info. rewrite Hup2.
  destruct (issue_tokens_up now jti1 jti2 u (put_users d2 (put_users d1 s)) Htok Hdur) as (resp & -> & Hresp).
  exists resp, (put_users d2 s). split; [ done | split; [ done | split; [ done |] ] ].
  unfold rows in *. simpl in *. rewrite Hr2, Hr1, insert_insert_eq. f_equal. by unfold past_lock; case_match.
Qed.

(** One login with a wrong password, by what it makes of the row. *)
Lemma login_fails now jti1 jti2 p s u h :
  users_up -> has_row s u -> usr_is_active u = true -> usr_locked_until u = None ->
  ph_parse (usr_password_hash u) = inr h -> ph_verify p h = false ->
  (max_failed_attempts (as_config s) < 2 ^ 31)%Z ->
  in_range now (lockout_duration_minutes (as_config s) * 60000) ->
  let n := (usr_failed_login_attempts u + 1)%Z in
  let locked := (max_failed_attempts (as_config s) <=? n)%Z in
  exists d', login now jti1 jti2 (usr_username u) p s =
      (Err (if locked then AccountLocked else InvalidCredentials), put_users d' s) /\
    u_rows d' = <[usr_id u :=
      with_lockout (if locked then Some (now + lockout_duration_minutes (as_config s) * 60000)%Z else None)
        n u]> (rows s).
Proof.
  intros Hup Hu Ha Hl Hh Hp Hmax Hr n locked. subst locked.
  destruct (login_up now jti1 jti2 p s u h Hup Hu Ha) as (d1 & Hr1 & ->);
    [ by unfold unlocked; rewrite Hl | done |]. rewrite Hp.
  unfold past_lock in Hr1. rewrite Hl, insert_id in Hr1 by done.
  assert (has_row (put_users d1 s) u) as Hu1 by (unfold has_row, rows; simpl; by rewrite Hr1).
  destruct (increment_up (put_users d1 s) u Hup Hu1) as (d2 & Hi & Hr2). fold n in Hi, Hr2.
  unfold rows in Hr2. simpl in Hr2. rewrite Hr1, Hl in Hr2.
  unfold count_failed_login. rewrite (bind_step _ _ _ _ _ Hi). unfold bind at 1, gets.
  unfold bind at 1, lift, u32_as_i32. cbn [as_config put_users].
  destruct (Z.ltb_spec (max_failed_attempts (as_config s)) (2 ^ 31)); [| lia ].
  destruct (max_failed_attempts (as_config s) <=? n)%Z; [| by eauto ].
  unfold bind at 1, lift. rewrite Hr. set (u1 := with_lockout None n u) in *.
  assert (has_row (put_users d2 (put_users d1 s)) u1) as Hu2.
  { unfold has_row, rows. simpl. by rewrite Hr2, lookup_insert_eq. }
  destruct (checked_update_up (put_users d2 (put_users d1 s)) u1
    (with_lockout (Some (now + lockout_duration_minutes (as_config s) * 60000)%Z) n)
    (u_update_lockout (Some (now + lockout_duration_minutes (as_config s) * 60000)%Z) n (usr_id u1)))
    as (d3 & Hd3 & Hr3); [ intros d m d'; apply u_lockout_ok | apply Hup | done |].
  change (usr_id u1) with (usr_id u) in Hd3, Hr3.
  unfold update_lockout. rewrite (bind_step _ _ _ _ _ Hd3). exists d3. split; [ done |].
  rewrite Hr3. unfold rows. simpl. by rewrite Hr2, insert_insert_eq.
Qed.

(** A locked user is refused, whatever the password, and nothing changes. *)
Lemma login_locked now jti1 jti2 p s u until :
  users_up -> has_row s u -> usr_is_active u = true -> usr_locked_until u = Some until -> (now < until)%Z ->
  fst (login now jti1 jti2 (usr_username u) p s) = Err (InternalError "Account is locked") /\
  rows (snd (login now jti1 jti2 (usr_username u) p s)) = rows s.
Proof.
  intros Hup Hu Ha Hl Hlt. destruct (find_user_up s u Hup Hu) as (d1 & Hf & Hr1).
  unfold login. rewrite (bind_step _ _ _ _ _ Hf), Ha. cbn [negb]. unfold bind at 1 3, check_lock.
  rewrite Hl. destruct (Z.ltb_spec now until); [ done | lia ].
Qed.

(** Logins one after the other: their answers and the service after them. *)
Fixpoint run_logins (username : string) (tries : list (Z * string)) (s : AuthService) :
    list (res AuthError LoginResponse) * AuthService :=
  match tries with
  | [] => ([], s)
  | (now, password) :: rest =>
      let '(r, s1) := login now "" "" username password s in
      let '(rs, s2) := run_logins username rest s1 in
      (r :: rs, s2)
  end.

Lemma run_logins_app name xs ys s :
  run_logins name (xs ++ ys) s =
  let '(r1, s1) := run_logins name xs s in
  let '(r2, s2) := run_logins name ys s1 in (r1 ++ r2, s2).
Proof.
  revert s. induction xs as [| [now p] xs IH]; intros s; simpl; [ by destruct (run_logins name ys s) |].
  destruct (login now "" "" name p s) as [r s1]. rewrite IH. destruct (run_logins name xs s1) as [r1 s2].
  by destruct (run_logins name ys s2).
Qed.

(** Fewer wrong passwords than the limit are counted and refused. *)
Lemma failed_logins_counted tries u h s :
  users_up -> has_row s u -> usr_is_active u = true -> usr_locked_until u = None ->
  ph_parse (usr_password_hash u) = inr h ->
  Forall (fun t => ph_verify t.2 h = false /\
                   in_range t.1 (lockout_duration_minutes (as_config s) * 60000)) tries ->
  (max_failed_attempts (as_config s) < 2 ^ 31)%Z ->
  (usr_failed_login_attempts u + Z.of_nat (length tries) < max_failed_attempts (as_config s))%Z ->
  exists s', run_logins (usr_username u) tries s = (replicate (length tries) (Err InvalidCredentials), s') /\
    as_config s' = as_config s /\
    has_row s' (with_lockout None (usr_failed_login_attempts u + Z.of_nat (length tries)) u).
Proof.
  intros Hup Hu Ha Hl Hh Hall Hmax. revert s u Hu Ha Hl Hh Hall Hmax.
  induction tries as [| [now p] tries IH]; intros s u Hu Ha Hl Hh Hall Hmax Hlt; simpl in *.
  { exists s. split; [ done | split; [ done |] ]. rewrite Z.add_0_r.
    assert (with_lockout None (usr_failed_login_attempts u) u = u) as -> by (destruct u; simpl in *; by subst).
    done. }
  apply Forall_cons in Hall as [[Hp Hr] Hall]. simpl in Hp, Hr.
  destruct (login_fails now "" "" p s u h Hup Hu Ha Hl Hh Hp Hmax Hr) as (d & Hlog & Hd).
  destruct (Z.leb_spec (max_failed_attempts (as_config s)) (usr_failed_login_attempts u + 1)); [ lia |].
  rewrite Hlog. set (u1 := with_lockout None (usr_failed_login_attempts u + 1) u) in *.
  assert (has_row (put_users d s) u1) as Hu1.
  { unfold has_row, rows. simpl. by rewrite Hd, lookup_insert_eq. }
  destruct (IH (put_users d s) u1) as (s' & Hrun & Hcfg & Hrow); try done; [ simpl; lia |].
  change (usr_username u1) with (usr_username u) in Hrun. rewrite Hrun.
  exists s'. split; [ done | split; [ done |] ].
  replace (usr_failed_login_attempts u + Z.of_nat (S (length tries)))%Z
    with (usr_failed_login_attempts u1 + Z.of_nat (length tries))%Z by (simpl; lia). exact Hrow.
Qed.

(** C18. Wrong passwords lock the account: starting from no failures, the first
    [max_failed_attempts - 1] are refused as invalid credentials, the next one
    locks, and until the lockout time has passed every login is refused,
    even with the right password, and changes no row. *)
Theorem failed_logins_lock_account u h s tries last p :
  users_up -> has_row s u -> usr_is_active u = true -> usr_locked_until u = None ->
  usr_failed_login_attempts u = 0%Z -> ph_parse (usr_password_hash u) = inr h ->
  Forall (fun t => ph_verify t.2 h = false /\
                   in_range t.1 (lockout_duration_minutes (as_config s) * 60000)) (tries ++ [(last, p)]) ->
  max_failed_attempts (as_config s) = (Z.of_nat (length tries) + 1)%Z ->
  (max_failed_attempts (as_config s) < 2 ^ 31)%Z ->
  exists s', run_logins (usr_username u) (tries ++ [(last, p)]) s
             = (replicate (length tries) (Err InvalidCredentials) ++ [Err AccountLocked], s') /\
    forall now jti1 jti2 p', (now < last + lockout_duration_minutes (as_config s) * 60000)%Z ->
      fst (login now jti1 jti2 (usr_username u) p' s') = Err (InternalError "Account is locked") /\
      rows (snd (login now jti1 jti2 (usr_username u) p' s')) = rows s'.
Proof.
  intros Hup Hu Ha Hl Hz Hh [Hall [[Hp Hr] _]%Forall_cons]%Forall_app Hn Hmax. simpl in Hp, Hr.
  destruct (failed_logins_counted tries u h s Hup Hu Ha Hl Hh Hall Hmax ltac:(lia)) as (s1 & Hrun & Hcfg & Hrow).
  rewrite Hz, Z.add_0_l in Hrow. set (u1 := with_lockout None (Z.of_nat (length tries)) u) in *.
  destruct (login_fails last "" "" p s1 u1 h Hup Hrow Ha) as (d & Hlog & Hd);
    [ done | done | done | by rewrite Hcfg | by rewrite Hcfg |].
  rewrite Hcfg, Hn, Z.leb_refl in Hlog, Hd. rewrite run_logins_app, Hrun. simpl.
  change (usr_username u1) with (usr_username u) in Hlog. rewrite Hlog.
  exists (put_users d s1). split; [ done |]. intros now jti1 jti2 p' Hlt.
  eapply (login_locked now jti1 jti2 p' (put_users d s1)
    (with_lockout (Some (last + lockout_duration_minutes (as_config s) * 60000)%Z)
       (usr_failed_login_attempts u1 + 1) u1)); try done.
  unfold has_row, rows. simpl. rewrite Hd. apply lookup_insert_eq.
Qed.

(** ** Validation *)
Definition entries (s : AuthService) : gmap string Entry := ar_entries (as_redis_client s).

(** The token is on the blacklist now. *)
Definition blacklisted (now : Z) (token : string) (s : AuthService) : bool :=
  match alive (timestamp now) (entries s !! blacklist_key token) with
  | Some (v, _) => String.eqb v "1"
  | None => false
  end.

Lemma redis_call_ok {A} (m : M ARedis RedisError A) s a r' :
  m (as_redis_client s) = (Ok a, r') -> redis m s = (Ok a, put_redis r' s).
Proof. intros Hm. unfold redis, on_err, zoom. by rewrite Hm. Qed.

Lemma connect_up s :
  redis_up -> exists r', redis ar_connect s = (Ok tt, put_redis r' s) /\ ar_entries r' = entries s.
Proof.
  intros Hup. destruct (answers_ok _ (as_redis_client s) (up_connect Hup)) as ([] & r' & Hr).
  pose proof (ar_connect_entries (as_redis_client s)) as He. rewrite Hr in He.
  eauto using redis_call_ok.
Qed.

Lemma validate_up now token ty s :
  redis_up -> exists r', ar_entries r' = entries s /\
    validate_token now token ty s =
      (if blacklisted now token s then Err TokenBlacklisted
       else match jwt_decode (timestamp now) token (secret_for (as_config s) ty) with
            | inl e => Err (JwtError e)
            | inr c => if decide (token_type c = ty) then Ok c else Err InvalidToken
            end, put_redis r' s).
Proof.
  intros Hup. destruct (connect_up s Hup) as (r1 & Hc & He1).
  destruct (answers_ok _ r1 (up_get Hup (timestamp now) (blacklist_key token))) as (b & r2 & Hg).
  pose proof (ar_get_entries (timestamp now) (blacklist_key token) r1) as He2. rewrite Hg, He1 in He2.
  exists r2. split; [ done |]. unfold validate_token. rewrite (bind_step _ _ _ _ _ Hc).
  unfold bind at 1, attempt. rewrite (redis_call_ok _ (put_redis r1 s) b r2) by done.
  apply ar_get_ok in Hg. rewrite He1 in Hg. unfold blacklisted, entries.
  change (ar_entries (as_redis_client s)) with (entries s). rewrite <- Hg.
  destruct b; [ done |]. unfold bind, gets, lift. simpl.
  destruct (jwt_decode _ _ _) as [e | c]; simpl; [ done |]. by destruct (decide _).
Qed.

(** C19. The two types of token are not interchangeable: a token generated for
    one type validates only as that type, even when both secrets are the
    same, and validating it gives the name and the roles it was issued for. *)
Theorem token_types_not_interchangeable now jti name rs ty s t s1 later ty' s2 c s3 :
  generate_token now jti name rs ty s = (Ok t, s1) ->
  validate_token later t ty' s2 = (Ok c, s3) ->
  ty' = ty /\ sub c = name /\ roles c = rs /\ (timestamp later <= exp c + 60)%Z.
Proof.
  intros [_ Henc]%generate_token_ok Hval. unfold validate_token in Hval.
  apply bind_ok in Hval as (? & ? & _ & Hval). apply bind_ok in Hval as (lookup & ? & _ & Hval).
  destruct (match lookup with inl _ => false | inr b => b end); [ done |].
  apply bind_ok in Hval as (cfg & ? & _ & Hval). apply bind_ok in Hval as (c0 & s4 & Hdec & Hval).
  unfold lift in Hdec. destruct (jwt_decode _ _ _) as [e | c1] eqn:Hd; simplify_eq/=.
  pose proof (jwt_decode_fresh _ _ _ _ Hd). pose proof (jwt_decode_claims _ _ _ _ _ _ Henc Hd). subst c0.
  destruct (decide _) as [Hty |]; [| done ]. unfold ret in Hval. simplify_eq. simpl in *. split_and!; lia || done.
Qed.

(** The token is on the blacklist until its [exp], and no longer. *)
Lemma blacklist_entry now token s s' c :
  blacklist_token now token s = (Ok tt, s') ->
  jwt_decode (timestamp now) token (jwt_secret (as_config s)) = inr c -> (timestamp now < exp c)%Z ->
  as_config s' = as_config s /\ entries s' !! blacklist_key token = Some ("1", Some (exp c)).
Proof.
  unfold blacklist_token. intros (c0 & s1 & Hval & Hk)%bind_ok Hd Hlt.
  assert (c0 = c /\ as_config s1 = as_config s) as [-> Hcfg].
  { unfold validate_token, bind, redis, on_err, attempt, zoom, gets, lift, ret in Hval.
    destruct (ar_connect _) as [[] r1]; simplify_eq/=.
    destruct (ar_get_bool _ _ _) as [[[] | | | ] r2]; simplify_eq/=; rewrite Hd in Hval; simpl in Hval;
      by destruct (decide _); simplify_eq/=. }
  apply bind_ok in Hk as ([] & s2 & Hc & Hk).
  unfold redis, on_err, zoom in Hc. destruct (ar_connect _) as [[] r2]; simplify_eq/=.
  destruct (Z.ltb_spec 0 (exp c - timestamp now)); [| lia ].
  apply bind_ok in Hk as ([] & s3 & Hset & Hexp).
  unfold redis, on_err, zoom in Hset, Hexp. simpl in Hset.
  destruct (ar_set_ex _ _ _ _ r2) as [[[] | | | ] r3] eqn:Hs; simplify_eq/=.
  apply ar_set_ex_ok in Hs.
  destruct (ar_expire _ _ _ r3) as [[[] | | | ] r4] eqn:He; simplify_eq/=.
  apply ar_expire_ok in He. split; [ done |]. unfold entries. simpl. rewrite He, Hs, lookup_insert_eq.
  simpl. destruct (Z.ltb_spec (timestamp now) (timestamp now + (exp c - timestamp now))); [| lia ].
  rewrite lookup_insert_eq. do 3 f_equal. lia.
Qed.

(** C20. Logging out revokes a token only until its expiry: from then until the
    60 seconds of leeway are over the token is accepted again, because it has
    left the blacklist and still decodes. *)
Theorem revocation_ends_at_expiry issued jti name rs s0 t s01 now s s' :
  generate_token issued jti name rs Access s0 = (Ok t, s01) -> as_config s = as_config s0 ->
  blacklist_token now t s = (Ok tt, s') -> redis_up ->
  let c := claims_of issued (as_config s) jti name rs Access in
  (timestamp now < exp c)%Z ->
  (forall later, (timestamp later < exp c)%Z -> fst (validate_token later t Access s') = Err TokenBlacklisted) /\
  (forall later, (exp c <= timestamp later <= exp c + 60)%Z -> fst (validate_token later t Access s') = Ok c).
Proof.
  intros [_ Henc]%generate_token_ok Hcfg Hbl Hup c Hlt. rewrite <- Hcfg in Henc. simpl in Henc. fold c in Henc.
  destruct (blacklist_entry now t s s' c Hbl) as [Hc Hent];
    [ apply (jwt_decode_encoded _ _ _ _ Henc); lia | done |].
  split; intros later Hl; destruct (validate_up later t Access s' Hup) as (r & _ & ->); cbn [fst];
    unfold blacklisted; rewrite Hent; unfold alive.
  - by rewrite (proj2 (Z.ltb_lt _ _) Hl).
  - rewrite (proj2 (Z.ltb_ge (timestamp later) (exp c))) by lia. rewrite Hc.
    rewrite (jwt_decode_encoded _ _ _ _ Henc) by lia. by rewrite decide_True.
Qed.

(** ** Registration and passwords *)

(** The password stored for the user is [p]. *)
Definition password_is (p : string) (u : User) : Prop :=
  exists h, ph_parse (usr_password_hash u) = inr h /\ ph_verify p h = true.

Lemma hash_password_ok p salt stored :
  hash_password p salt = Ok stored -> exists h, ph_parse stored = inr h /\ ph_verify p h = true.
Proof.
  unfold hash_password. destruct (ph_hash p salt) as [e | h] eqn:Hh; intros; simplify_eq/=.
  exists h. split; [ apply ph_parse_printed | by eapply ph_verify_hashed ].
Qed.

Lemma register_user_ok uid salt name email p rs s u s1 :
  register_user uid salt name email p rs s = (Ok u, s1) ->
  has_row s1 u /\ usr_username u = name /\ usr_roles u = map role_to_string rs /\ password_is p u /\
  usr_is_active u = true /\ usr_locked_until u = None.
Proof.
  unfold register_user. intros (hash & s0 & Hh & Hr)%bind_ok. unfold lift in Hh.
  assert (hash_password p salt = Ok hash) as Hhash by congruence.
  unfold repo, on_err, zoom, create, on_err in Hr.
  destruct (u_insert _ _ _ _ _ _) as [[u0 | e | | ] d'] eqn:Hi; simplify_eq/=.
  apply u_insert_ok in Hi as (_ & [at_ ->] & Hrows).
  split_and!; try done; [| by eapply hash_password_ok ].
  unfold has_row, rows. simpl. by rewrite Hrows, lookup_insert_eq.
Qed.

(** C21. A registered user can log in: over a table that still holds what the
    registration left, the name and the password give tokens; the access token
    validates, until it is revoked, to that name with exactly the roles the
    registration asked for. *)
Theorem registered_user_logs_in uid salt name email p rs s u s1 t now jti1 jti2 :
  register_user uid salt name email p rs s = (Ok u, s1) -> rows t = rows s1 ->
  users_up -> tokens_up -> redis_up -> durations_fit (as_config t) now ->
  (0 <= access_token_expiry (as_config t))%Z ->
  exists resp t', login now jti1 jti2 name p t = (Ok resp, t') /\ lr_roles resp = rs /\
    (blacklisted now (lr_access_token resp) t' = false ->
     exists c, fst (validate_token now (lr_access_token resp) Access t') = Ok c /\
       sub c = name /\ roles c = rs).
Proof.
  intros (Hrow & <- & Hrs & (h & Hh & Hp) & Ha & Hl)%register_user_ok Ht Hup Htok Hred Hdur Hexp.
  assert (has_row t u) as Hrow' by (unfold has_row; by rewrite Ht).
  destruct (login_succeeds now jti1 jti2 p t u h) as (resp & t' & Hlog & Hresp & Hcfg & _);
    [ done.. | by unfold unlocked; rewrite Hl | done | done |].
  destruct Hresp as (Hroles & Henc & _). rewrite Hrs, parse_printed_roles in Hroles, Henc.
  exists resp, t'. split; [ done | split; [ done |] ]. intros Hbl.
  destruct (validate_up now (lr_access_token resp) Access t' Hred) as (r & _ & ->). cbn [fst].
  rewrite Hbl, Hcfg. cbn [secret_for].
  rewrite (jwt_decode_encoded _ _ _ _ Henc).
  - rewrite decide_True by done. eauto.
  - simpl. unfold timestamp. assert (now / 1000 <= (now + access_token_expiry (as_config t) * 1000) / 1000)%Z;
      [ apply Z.div_le_mono; lia | lia ].
Qed.

(** After a password change the new password logs in: a change that
    reports success has replaced the hash of that user and nothing else, and
    a login with the new password gives tokens unless the user is inactive or
    locked. *)
Theorem changed_password_logs_in salt u current new s s1 now jti1 jti2 :
  has_row s u -> users_up ->
  change_password salt (usr_username u) current new s = (Ok tt, s1) ->
  exists hash, rows s1 = <[usr_id u := with_password hash u]> (rows s) /\
    (tokens_up -> durations_fit (as_config s1) now -> usr_is_active u = true -> unlocked now u ->
     exists resp s2, login now jti1 jti2 (usr_username u) new s1 = (Ok resp, s2) /\
       lr_roles resp = parse_roles (usr_roles u)).
Proof.
  intros Hu Hup Hch. destruct (find_user_up s u Hup Hu) as (d1 & Hf & Hr1).
  unfold change_password in Hch. rewrite (bind_step _ _ _ _ _ Hf) in Hch.
  apply bind_ok in Hch as (h0 & s0 & Hp0 & Hch). unfold lift in Hp0.
  assert (s0 = put_users d1 s) as -> by congruence. destruct (negb _); [ done |].
  apply bind_ok in Hch as (hash & s2 & Hh & Hch). unfold lift in Hh.
  assert (s2 = put_users d1 s) as -> by congruence.
  assert (hash_password new salt = Ok hash) as [h [Hparse Hver]]%hash_password_ok by congruence.
  assert (has_row (put_users d1 s) u) as Hu1 by (unfold has_row, rows; simpl; by rewrite Hr1).
  destruct (checked_update_up (put_users d1 s) u (with_password hash) (u_update_password_hash hash (usr_id u)))
    as (d2 & Hd2 & Hr2); [ intros d n d'; apply u_password_ok | apply Hup | done |].
  unfold update_password_hash in Hch. rewrite Hd2 in Hch. simplify_eq.
  unfold rows in Hr2. simpl in Hr2. rewrite Hr1 in Hr2. exists hash. split; [ done |].
  intros Htok Hdur Ha Hl.
  destruct (login_succeeds now jti1 jti2 new (put_users d2 (put_users d1 s)) (with_password hash u) h)
    as (resp & s2 & Hlog & Hresp & _); try done; [ unfold has_row, rows; simpl; by rewrite Hr2, lookup_insert_eq |].
  exists resp, s2. split; [ done | apply Hresp ].
Qed.

(** ** The rate limit *)

(** The calls one after the other. *)
Fixpoint run_checks (k : string) (times : list Z) (s : AuthService) : list (res AuthError unit) :=
  match times with
  | [] => []
  | now :: rest => let '(r, s1) := check_rate_limit now k s in r :: run_checks k rest s1
  end.

Definition verdict (c : AuthConfig) (n : Z) : res AuthError unit :=
  if (rate_limit_requests c <? n)%Z then Err RateLimitExceeded else Ok tt.

Lemma check_rate_limit_first now k s :
  redis_up -> alive (timestamp now) (entries s !! rate_limit_key k) = None ->
  exists s', check_rate_limit now k s = (verdict (as_config s) 1, s') /\ as_config s' = as_config s /\
    entries s' !! rate_limit_key k
      = Some (pretty 1%Z, Some (timestamp now + rate_limit_window (as_config s))%Z).
Proof.
  intros Hup Hnone. destruct (connect_up s Hup) as (r1 & Hc & He1).
  destruct (answers_ok _ r1 (up_incr Hup (timestamp now) (rate_limit_key k))) as (n & r2 & Hi).
  pose proof (ar_incr_ok _ _ _ _ _ Hi) as Hlaw. rewrite He1, Hnone in Hlaw. destruct Hlaw as [-> He2].
  destruct (answers_ok _ r2 (up_expire Hup (timestamp now) (rate_limit_key k)
             (rate_limit_window (as_config s)))) as ([] & r3 & Hx).
  pose proof (ar_expire_ok _ _ _ _ _ Hx) as He3. rewrite He2, lookup_insert_eq in He3. simpl in He3.
  exists (put_redis r3 s). unfold check_rate_limit. rewrite (bind_step _ _ _ _ _ Hc).
  rewrite (bind_step _ _ _ _ _ (redis_call_ok _ (put_redis r1 s) _ _ Hi)). unfold bind at 1, gets. simpl.
  rewrite (bind_step _ _ _ _ _ (redis_call_ok _ (put_redis r2 (put_redis r1 s)) _ _ Hx)).
  unfold verdict. split; [ by destruct (_ <? _)%Z | split; [ done |] ].
  unfold entries. simpl. by rewrite He3, lookup_insert_eq.
Qed.

Lemma check_rate_limit_next now k s i d :
  redis_up -> entries s !! rate_limit_key k = Some (pretty i, Some d) -> (timestamp now < d)%Z -> (1 <= i)%Z ->
  exists s', check_rate_limit now k s = (verdict (as_config s) (i + 1), s') /\ as_config s' = as_config s /\
    entries s' !! rate_limit_key k = Some (pretty (i + 1)%Z, Some d).
Proof.
  intros Hup He Hlt Hi1. destruct (connect_up s Hup) as (r1 & Hc & He1).
  destruct (answers_ok _ r1 (up_incr Hup (timestamp now) (rate_limit_key k))) as (n & r2 & Hi).
  pose proof (ar_incr_ok _ _ _ _ _ Hi) as Hlaw. rewrite He1, He in Hlaw. unfold alive in Hlaw.
  rewrite (proj2 (Z.ltb_lt _ _) Hlt) in Hlaw. destruct Hlaw as (i' & Heq & -> & He2).
  apply (inj pretty) in Heq. subst i'.
  exists (put_redis r2 s). unfold check_rate_limit. rewrite (bind_step _ _ _ _ _ Hc).
  rewrite (bind_step _ _ _ _ _ (redis_call_ok _ (put_redis r1 s) _ _ Hi)). unfold bind at 1, gets. simpl.
  rewrite (proj2 (Z.eqb_neq (i + 1) 1)) by lia. unfold bind, ret, verdict.
  split; [ by destruct (_ <? _)%Z | split; [ done |] ].
  unfold entries. simpl. by rewrite He2, lookup_insert_eq.
Qed.

Lemma run_checks_from k times s i d :
  redis_up -> entries s !! rate_limit_key k = Some (pretty i, Some d) -> (1 <= i)%Z ->
  Forall (fun now => (timestamp now < d)%Z) times ->
  run_checks k times s = imap (fun j _ => verdict (as_config s) (i + 1 + Z.of_nat j)) times.
Proof.
  intros Hup He Hi Hall. revert s i He Hi.
  induction Hall as [| now times Hlt _ IH]; intros s i He Hi; [ done |]. simpl.
  destruct (check_rate_limit_next now k s i d Hup He Hlt Hi) as (s' & -> & Hcfg & He').
  rewrite (IH s' _ He') by lia. rewrite Z.add_0_r, Hcfg. f_equal.
  apply imap_ext. intros j x _. simpl. f_equal. lia.
Qed.

(** The rate limit of a key counts one window at a time: of the calls from
    the first one until [rate_limit_window] seconds after it, exactly the first
    [rate_limit_requests] are admitted. *)
Theorem rate_limit_admits_exactly k first times s :
  redis_up -> alive (timestamp first) (entries s !! rate_limit_key k) = None ->
  Forall (fun now => (timestamp now < timestamp first + rate_limit_window (as_config s))%Z) times ->
  run_checks k (first :: times) s =
  imap (fun j _ => if (Z.of_nat j <? rate_limit_requests (as_config s))%Z then Ok tt
                   else Err RateLimitExceeded) (first :: times).
Proof.
  intros Hup Hnone Hall. simpl.
  destruct (check_rate_limit_first first k s Hup Hnone) as (s' & -> & Hcfg & He).
  rewrite (run_checks_from k times s' 1 _ Hup He) by (done || lia). rewrite Hcfg.
  assert (forall n, verdict (as_config s) (n + 1) =
            if (n <? rate_limit_requests (as_config s))%Z then Ok tt else Err RateLimitExceeded) as Hv.
  { intros n. unfold verdict.
    destruct (Z.ltb_spec (rate_limit_requests (as_config s)) (n + 1)), (Z.ltb_spec n (rate_limit_requests (as_config s)));
      done || lia. }
  f_equal; [ apply (Hv 0%Z) |]. apply imap_ext. intros j x _. simpl. rewrite <- Hv. f_equal. lia.
Qed.

End AuthFacts.

(** ** Concrete instances: a table in memory, a Redis of counters, a token that
    is the encoding of its claims and key *)
Module AuthWitness.

Record Table : Type := { table : Users; table_wf : users_wf table }.

Lemma alter_wf (f : User -> User) id t :
  (forall u, usr_id (f u) = usr_id u /\ usr_username (f u) = usr_username u /\ usr_email (f u) = usr_email u) ->
  users_wf t -> users_wf (alter f id t).
Proof.
  intros Hf [Hk Hn He].
  assert (forall k u, alter f id t !! k = Some u -> exists u0, t !! k = Some u0 /\ usr_id u = usr_id u0 /\
            usr_username u = usr_username u0 /\ usr_email u = usr_email u0) as Hsame.
  { intros k u. rewrite lookup_alter_Some. intros [(-> & u0 & Hu0 & ->) | [_ Hu]]; [| by eauto 10 ].
    exists u0. by destruct (Hf u0) as (-> & -> & ->). }
  split.
  - intros k u (u0 & Hu0 & -> & _)%Hsame. by apply Hk.
  - intros k k' u u' (u0 & Hu0 & _ & -> & _)%Hsame (u1 & Hu1 & _ & -> & _)%Hsame. eauto.
  - intros k k' u u' e (u0 & Hu0 & _ & _ & ->)%Hsame (u1 & Hu1 & _ & _ & ->)%Hsame. eauto.
Qed.

Definition update (f : User -> User)
    (Hf : forall u, usr_id (f u) = usr_id u /\ usr_username (f u) = usr_username u /\ usr_email (f u) = usr_email u)
    (id : Uuid) (d : Table) : res SqlxError Z * Table :=
  (Ok (affected id (table d)), {| table := alter f id (table d); table_wf := alter_wf f id _ Hf (table_wf d) |}).

(** The new row violates no constraint. *)
Definition admissible (id : Uuid) (name email : string) (t : Users) : Prop :=
  t !! id = None /\ map_Forall (fun _ u => usr_username u <> name /\ usr_email u <> Some email) t.

Lemma insert_wf id name email hash roles t :
  admissible id name email t -> users_wf t -> users_wf (<[id := fresh_user id name email hash roles 0]> t).
Proof.
  intros [Hid Hall] [Hk Hn He]. split.
  - intros k u. rewrite lookup_insert_Some. intros [[<- <-] | [_ Hu]]; [ done | by apply Hk ].
  - intros k k' u u'. rewrite !lookup_insert_Some.
    intros [[<- <-] | [_ Hu]] [[<- <-] | [_ Hu']] Heq; simpl in Heq; try done; [ | | by eauto ];
      [ apply Hall in Hu' as [? _] | apply Hall in Hu as [? _] ]; congruence.
  - intros k k' u u' e. rewrite !lookup_insert_Some.
    intros [[<- <-] | [_ Hu]] [[<- <-] | [_ Hu']] Heq Heq'; simpl in Heq, Heq'; try done; [ | | by eauto ];
      [ apply Hall in Hu' as [_ ?] | apply Hall in Hu as [_ ?] ]; congruence.
Qed.

Definition insert_row (id : Uuid) (name email hash : string) (roles : list string) : M Table SqlxError User :=
  fun d =>
    match decide (admissible id name email (table d)) with
    | left H => (Ok (fresh_user id name email hash roles 0),
                 {| table := <[id := fresh_user id name email hash roles 0]> (table d);
                    table_wf := insert_wf id name email hash roles _ H (table_wf d) |})
    | right _ =>
        if decide (map_Forall (fun _ u => usr_username u <> name) (table d)) then
          if decide (map_Forall (fun _ u => usr_email u <> Some email) (table d))
          then (Err (PgDatabaseError "23505" (Some "users_pkey")), d)
          else (Err (PgDatabaseError "23505" (Some "users_email_key")), d)
        else (Err (PgDatabaseError "23505" (Some "users_username_key")), d)
    end.

Definition select_name (name : string) (t : Users) : option User :=
  snd <$> head (filter (fun kv => usr_username kv.2 = name) (map_to_list t)).

Definition count_failure (u : User) : User :=
  with_lockout (usr_locked_until u) (usr_failed_login_attempts u + 1) u.

#[export] Instance users : UsersDb := {|
  UDb := Table;
  u_insert := insert_row;
  u_select_by_username := fun name d => (Ok (select_name name (table d)), d);
  u_select_by_id := fun id d => (Ok (table d !! id), d);
  u_update_login_info := fun last failed locked id =>
    update (with_login last failed locked) (fun _ => conj eq_refl (conj eq_refl eq_refl)) id;
  u_update_password_hash := fun hash id =>
    update (with_password hash) (fun _ => conj eq_refl (conj eq_refl eq_refl)) id;
  u_update_status := fun active id =>
    update (with_status active) (fun _ => conj eq_refl (conj eq_refl eq_refl)) id;
  u_increment_failed := fun id d =>
    let d' := snd (update count_failure (fun _ => conj eq_refl (conj eq_refl eq_refl)) id d) in
    (Ok (usr_failed_login_attempts <$> table d' !! id), d');
  u_update_lockout := fun locked failed id =>
    update (with_lockout locked failed) (fun _ => conj eq_refl (conj eq_refl eq_refl)) id;
  u_delete := fun id d => (Err (OtherSqlxError "not supported"), d)
|}.

#[export] Instance users_laws : UsersDbLaws.
Proof.
  refine {| u_rows := (table : @UDb users -> Users); u_rows_wf := table_wf |}; simpl.
  - intros id name email hash roles d u d'. unfold insert_row. destruct (decide _) as [[Hid Ha] | Hno].
    + intros; simplify_eq. split; [ done | split; [ by exists 0%Z | done ] ].
    + repeat destruct (decide _); done.
  - intros id name email hash roles d code c d'. unfold insert_row. repeat destruct (decide _); intros; by simplify_eq.
  - intros id name email hash roles d d'. unfold insert_row.
    destruct (decide _); [ done |]. destruct (decide _) as [| Hn ]; [ by destruct (decide _) |].
    intros _. apply map_not_Forall in Hn as (k & u & Hk & Hu); [| apply _ ]. exists k, u. split; [ done |].
    by destruct (decide (usr_username u = name)).
  - intros id name email hash roles d d'. unfold insert_row.
    destruct (decide _); [ done |]. destruct (decide _); [| done ]. destruct (decide _) as [| Hn ]; [ done |].
    intros _. apply map_not_Forall in Hn as (k & u & Hk & Hu); [| apply _ ]. exists k, u. split; [ done |].
    by destruct (decide (usr_email u = Some email)).
  - done.
  - intros name d u d' Hs. unfold select_name in Hs.
    destruct (filter _ _) as [| [k u0] l] eqn:Hf; simplify_eq/=.
    assert ((k, u) ∈ filter (fun kv => usr_username kv.2 = name) (map_to_list (table d')))
      as [Hn Hin%elem_of_map_to_list]%list_elem_of_filter by (rewrite Hf; by left).
    by rewrite (uw_key _ (table_wf d') _ _ Hin).
  - intros name d d' Hs id u Hu Hn. unfold select_name in Hs.
    destruct (filter _ _) as [| [k u0] l] eqn:Hf; simplify_eq/=.
    assert ((id, u) ∈ filter (fun kv => usr_username kv.2 = usr_username u) (map_to_list (table d'))) as Hin
      by (apply list_elem_of_filter; split; [ done | by apply elem_of_map_to_list ]).
    rewrite Hf in Hin. by inversion Hin.
  - done.
  - intros. by simplify_eq.
  - intros. unfold update in *. by simplify_eq.
  - intros. unfold update in *. by simplify_eq.
  - intros. unfold update in *. by simplify_eq.
  - intros id d o d' Hi. simplify_eq. simpl. destruct (table d !! id) as [u |] eqn:Hu.
    + split; [ by rewrite lookup_alter_eq, Hu |]. apply map_eq. intros k.
      destruct (decide (k = id)) as [-> |].
      * by rewrite lookup_alter_eq, Hu, lookup_insert_eq.
      * by rewrite lookup_alter_ne, lookup_insert_ne.
    + split; [ by rewrite lookup_alter_eq, Hu |]. apply map_eq. intros k.
      destruct (decide (k = id)) as [-> |]; [ by rewrite lookup_alter_eq, Hu | by rewrite lookup_alter_ne ].
  - intros. unfold update in *. by simplify_eq.
  - done.
Defined.

Lemma users_answer : users_up.
Proof. by split. Qed.

(** Redis with numbers as values. *)
Abbreviation Counters := (gmap string (Z * option Z)).

Definition current (now : Z) (k : string) (r : Counters) : option (Z * option Z) :=
  match r !! k with
  | Some (n, Some d) => if (now <? d)%Z then Some (n, Some d) else None
  | o => o
  end.

#[export] Instance counters : AuthRedis := {|
  ARedis := Counters;
  ar_connect := ret tt;
  ar_get_bool := fun now k r =>
    (Ok (match current now k r with Some (n, _) => String.eqb (pretty n) "1" | None => false end), r);
  ar_set_ex := fun now k v ttl r =>
    if String.eqb v "1" then (Ok tt, <[k := (1%Z, Some (now + ttl)%Z)]> r : Counters)
    else (Err (RedisFailure "not a number"), r);
  ar_expire := fun now k ttl r =>
    (Ok tt, match current now k r with
            | Some (n, _) => <[k := (n, Some (now + ttl)%Z)]> r
            | None => r
            end : Counters);
  ar_incr := fun now k r =>
    match current now k r with
    | Some (n, d) => (Ok (n + 1)%Z, <[k := ((n + 1)%Z, d)]> r : Counters)
    | None => (Ok 1%Z, <[k := (1%Z, None)]> r : Counters)
    end
|}.

Definition shown (p : Z * option Z) : Entry := (pretty p.1, p.2).

Lemma alive_current now k (r : Counters) : alive now ((shown <$> r) !! k) = shown <$> current now k r.
Proof.
  unfold current. rewrite lookup_fmap. destruct (r !! k) as [[n [d |]] |]; simpl; [| done.. ].
  by destruct (now <? d)%Z.
Qed.

#[export] Instance counters_laws : AuthRedisLaws.
Proof.
  refine {| ar_entries := fun r : @ARedis counters => shown <$> (r : Counters) |}; simpl.
  - done.
  - done.
  - intros now k r b r' Hg. simplify_eq. rewrite alive_current. by destruct (current now k r') as [[] |].
  - intros now k v ttl r r'. destruct (String.eqb_spec v "1") as [-> |]; intros; simplify_eq.
    by rewrite fmap_insert.
  - intros now k ttl r r' He. simplify_eq. rewrite alive_current.
    destruct (current now k r) as [[n d] |]; simpl; [ by rewrite fmap_insert | done ].
  - intros now k r n r'. rewrite alive_current. destruct (current now k r) as [[i d] |]; intros; simplify_eq/=.
    + exists i. by rewrite fmap_insert.
    + by rewrite fmap_insert.
Defined.

Lemma counters_answer : redis_up.
Proof. split; try done. intros now k r. simpl. by destruct (current now k r) as [[] |]. Qed.

(** Tokens: the bits of the number that encodes the claims and the key. *)
Fixpoint bits (p : positive) : string :=
  match p with
  | xH => ""
  | xO q => String Ascii.zero (bits q)
  | xI q => String Ascii.one (bits q)
  end.

Fixpoint unbits (s : string) : positive :=
  match s with
  | String a rest => if Ascii.eqb a Ascii.one then xI (unbits rest) else xO (unbits rest)
  | EmptyString => xH
  end.

Lemma unbits_bits p : unbits (bits p) = p.
Proof. induction p as [p IH | p IH |]; simpl; [ by rewrite IH | by rewrite IH | done ]. Qed.

#[local] Instance role_countable : Countable UserRole.
Proof.
  apply (inj_countable' (fun r => match r with Admin => 0 | BankManager => 1 | Customer => 2 end)
    (fun n => match n with 0 => Admin | 1 => BankManager | _ => Customer end)). by intros [].
Defined.

#[local] Instance token_type_countable : Countable TokenType.
Proof.
  apply (inj_countable' (fun t => match t with Access => true | Refresh => false end)
    (fun b : bool => if b then Access else Refresh)). by intros [].
Defined.

#[local] Instance claims_eq_dec : EqDecision Claims.
Proof. solve_decision. Defined.

#[local] Instance claims_countable : Countable Claims.
Proof.
  apply (inj_countable'
    (fun c => (sub c, exp c, iat c, roles c, token_type c, jti c, company c))
    (fun '(a, b, c, d, e, f, g) =>
       {| sub := a; exp := b; iat := c; roles := d; token_type := e; jti := f; company := g |})).
  by intros [].
Defined.

#[export] Instance plain_tokens : Jwt := {|
  JwtErr := unit;
  jwt_encode := fun c k => inr (bits (encode (c, k)));
  jwt_decode := fun now t k =>
    match decode (unbits t) with
    | Some (c, k') => if decide (k' = k /\ now - 60 <= exp c)%Z then inr c else inl tt
    | None => inl tt
    end
|}.

#[export] Instance plain_tokens_laws : JwtLaws.
Proof.
  split; simpl.
  - intros c k t now Ht Hnow. simplify_eq. rewrite unbits_bits, decode_encode. by rewrite decide_True.
  - intros c k t now k' c' Ht. simplify_eq. rewrite unbits_bits, decode_encode.
    destruct (decide _); intros; by simplify_eq.
  - intros now t k c. destruct (decode (unbits t)) as [[c' k'] |]; [| done ].
    destruct (decide _) as [[] |]; intros; by simplify_eq.
Qed.

Lemma tokens_encode : tokens_up.
Proof. intros c k. simpl. eauto. Qed.

(** Passwords in clear. *)
#[export] Instance clear_text : PasswordHashing := {|
  PHash := string;
  ph_parse := inr;
  ph_to_string := fun h => h;
  ph_hash := fun p _ => inr p;
  ph_verify := String.eqb
|}.

#[export] Instance clear_text_laws : PasswordLaws.
Proof. split; simpl; [ done |]. intros p salt h Hh. simplify_eq. apply String.eqb_refl. Qed.

#[export] Instance wide_range : Chrono :=
  {| chrono_max_duration := 10 ^ 18; chrono_min_utc := - 10 ^ 18; chrono_max_utc := 10 ^ 18 |}.

#[export] Instance silent_sqlx : Display SqlxError := fun _ => "".
#[export] Instance silent_redis : Display RedisError := fun _ => "".
#[export] Instance silent_jwt : Display JwtErr := fun _ => "".
#[export] Instance shown_uuid : Display Uuid := fun u => pretty u.

Definition config : AuthConfig :=
  {| jwt_secret := "a"; refresh_token_secret := "r"; access_token_expiry := 3600;
     refresh_token_expiry := 604800; rate_limit_requests := 2; rate_limit_window := 60;
     max_failed_attempts := 2; lockout_duration_minutes := 30 |}.

Lemma no_users : users_wf ∅.
Proof. split; intros *; by rewrite lookup_empty. Qed.

Definition empty_table : @UDb users := {| table := ∅; table_wf := no_users |}.

Definition service : AuthService := AuthService_new (∅ : @ARedis counters) config empty_table.

Definition register_alice : res AuthError User * AuthService :=
  register_user 1%N "salt" "alice" "a@b" "secret" [BankManager] service.

Definition alice : User := fresh_user 1%N "alice" "a@b" "secret" ["bank_manager"] 0.

Definition with_alice : AuthService := snd register_alice.

Lemma alice_row : has_row with_alice alice.
Proof. vm_compute. reflexivity. Qed.

Lemma registered : register_alice = (Ok alice, with_alice).
Proof.
  unfold with_alice. rewrite (surjective_pairing register_alice) at 1. f_equal.
Qed.

Lemma failed_logins_lock_account_witness :
  exists s', run_logins "alice" [(0%Z, "guess"); (5000%Z, "again")] with_alice
             = ([Err InvalidCredentials; Err AccountLocked], s') /\
    fst (login 60000 "" "" "alice" "secret" s') = Err (InternalError "Account is locked").
Proof.
  destruct (failed_logins_lock_account alice ("secret" : @PHash clear_text) with_alice [(0%Z, "guess")] 5000 "again")
    as (s' & Hrun & Hlocked).
  - apply users_answer.
  - apply alice_row.
  - reflexivity.
  - reflexivity.
  - reflexivity.
  - reflexivity.
  - repeat constructor.
  - reflexivity.
  - reflexivity.
  - exists s'. split; [ exact Hrun |]. apply (Hlocked 60000%Z "" "" "secret"). reflexivity.
Defined.

Definition access_token : string :=
  match fst (generate_token 0 "j" "alice" [BankManager] Access with_alice) with Ok t => t | _ => "" end.

Lemma token_types_not_interchangeable_witness :
  Access = Access /\ (timestamp 1000 <= 3600 + 60)%Z.
Proof.
  destruct (token_types_not_interchangeable 0 "j" "alice" [BankManager] Access with_alice access_token
    with_alice 1000 Access with_alice (claims_of 0 config "j" "alice" [BankManager] Access)
    (snd (validate_token 1000 access_token Access with_alice))) as (Hty & _ & _ & Hexp);
    [ apply injective_projections; [ vm_compute; reflexivity | reflexivity ].. |].
  split; [ exact Hty | exact Hexp ].
Defined.

Definition logged_out : AuthService := snd (blacklist_token 1000 access_token with_alice).

(** Ten seconds before its expiry the token is refused, ten seconds after it is
    accepted. *)
Lemma revocation_ends_at_expiry_witness :
  fst (validate_token 3590000 access_token Access logged_out) = Err TokenBlacklisted /\
  fst (validate_token 3610000 access_token Access logged_out)
    = Ok (claims_of 0 config "j" "alice" [BankManager] Access).
Proof.
  destruct (revocation_ends_at_expiry 0 "j" "alice" [BankManager] with_alice access_token with_alice
    1000 with_alice logged_out) as [Hno Hyes].
  - apply injective_projections; [ vm_compute; reflexivity | reflexivity ].
  - reflexivity.
  - apply injective_projections; [ vm_compute; reflexivity | reflexivity ].
  - apply counters_answer.
  - reflexivity.
  - split; [ apply (Hno 3590000%Z); reflexivity | apply (Hyes 3610000%Z); split; discriminate ].
Defined.

Lemma registered_user_logs_in_witness :
  exists resp t', login 0 "j" "k" "alice" "secret" with_alice = (Ok resp, t') /\
    lr_roles resp = [BankManager].
Proof.
  destruct (registered_user_logs_in 1%N "salt" "alice" "a@b" "secret" [BankManager] service alice
    with_alice with_alice 0 "j" "k") as (resp & t' & Hlog & Hroles & _).
  - apply registered.
  - reflexivity.
  - apply users_answer.
  - apply tokens_encode.
  - apply counters_answer.
  - split; reflexivity.
  - discriminate.
  - exists resp, t'. split; [ exact Hlog | exact Hroles ].
Defined.

Definition changed : AuthService := snd (change_password "salt" "alice" "secret" "new" with_alice).

Lemma changed_password_logs_in_witness :
  exists resp s2, login 0 "j" "k" "alice" "new" changed = (Ok resp, s2) /\ lr_roles resp = [BankManager].
Proof.
  destruct (changed_password_logs_in "salt" alice "secret" "new" with_alice changed 0 "j" "k")
    as (hash & _ & Hlog).
  - apply alice_row.
  - apply users_answer.
  - unfold changed. rewrite (surjective_pairing (change_password _ _ _ _ _)) at 1. f_equal.
  - apply Hlog; [ apply tokens_encode | split; reflexivity | reflexivity | exact I ].
Defined.

Lemma rate_limit_admits_exactly_witness :
  run_checks "ip" [0; 1000; 2000]%Z service = [Ok tt; Ok tt; Err RateLimitExceeded].
Proof.
  rewrite (rate_limit_admits_exactly "ip" 0 [1000; 2000]%Z service).
  - reflexivity.
  - apply counters_answer.
  - reflexivity.
  - repeat constructor.
Defined.

End AuthWitness.
