(* ===== verification/Web.v ===== *)
(** The web layer (src/src/web/{handlers,routes}.rs and the router of
    src/src/main.rs): one definition per handler over the services, and the two
    routing tables.

    [AppState] is the router's state, the pair of services, with the parts of
    [AccountService] the handlers reach themselves: the request middleware and
    the semaphore.  A handler returns what it answers with [200 OK] or a
    [Rejection], the status and the body of an error.  Identifiers, salts and
    times the services draw are arguments.  Decoding of bodies and paths, CORS,
    compression and tracing layers are axum's and tower's. *)
From S2P Require Import Prelude.
From S2P Require Import DecimalSpec.
From S2P Require Import Account.
From S2P Require Import Codec.
From S2P Require Import EventsDb.
From S2P Require Import EventStore.
From S2P Require Import EventStoreFacts.
From S2P Require Import Repository.
From S2P Require Import Handlers.
From S2P Require Import RedisGuard.
From S2P Require Import Projections.
From S2P Require Import Service.
From S2P Require Import RateLimit.
From S2P Require Import Users.
From S2P Require Import Auth.
From S2P Require Import AuthFacts.
From stdpp Require Import base tactics list gmap strings.
From Stdlib Require Import ZArith Lia SpecFloat.

(** ** Requests and responses *)
Inductive Rejection : Type :=
| TextRejection (status : Z) (body : string)
| JsonRejection (status : Z) (error : string).

Record LoginRequest : Type := { lq_username : string; lq_password : string }.

Record LogoutRequest : Type := { oq_token : string }.

Record RegisterRequest : Type := {
  rq_username : string;
  rq_email : string;
  rq_password : string;
  rq_roles : list UserRole
}.

Record CreateAccountRequest : Type := {
  cq_owner_name : string;
  cq_initial_balance : f64
}.

Record BatchTransactionResponse : Type := {
  br_successful : nat;
  br_failed : nat;
  br_errors : list string
}.

(** [HeaderMap] with what [to_str] gives of each value. *)
Abbreviation HeaderMap := (gmap string (option string)).

(** [get_client_id]: header names are lower case in a [HeaderMap]. *)
Definition get_client_id (headers : HeaderMap) : string :=
  match headers !! "x-client-id" with
  | Some (Some v) => v
  | _ => "unknown"
  end.

(** [create_request_context]. *)
Definition create_request_context (client_id request_type : string) (payload : Value)
    (headers : list (string * string)) : Validation.RequestContext :=
  {| Validation.client_id := client_id; Validation.request_type := request_type;
     Validation.payload := payload; Validation.headers := headers |}.

(** [serde_json::to_value(&payload)]. *)
Definition CreateAccountRequest_to_value (q : CreateAccountRequest) : Value :=
  VObject [("owner_name", VString (cq_owner_name q));
           ("initial_balance", f64_to_value (cq_initial_balance q))].

(** rust_decimal's conversions. *)
Class DecimalFloat `{DecimalOps} : Type := {
  dec_from_f64 : f64 -> option Decimal;
  dec_to_f64 : Decimal -> option f64
}.

Section Web.
Context `{SerdeOps} `{!DecimalFloat}.
Context `{!Display SqlxError, !Display SerdeError}.
Context `{!AccountRepositoryTrait} `{!ProjectionStoreTrait} `{!CacheServiceTrait}.
Context `{UsersDb} `{PasswordHashing} `{Jwt} `{AuthRedis} `{Chrono}.
Context `{!Display RedisError, !Display JwtErr, !Display Uuid}.

Record CreateAccountResponse : Type := { cr_account_id : Uuid }.

Record TransactionRequest : Type := { tq_amount : Decimal }.

Record SingleTransaction : Type := {
  st_account_id : Uuid;
  st_amount : Decimal;
  st_transaction_type : string
}.

Record BatchTransactionRequest : Type := { bq_transactions : list SingleTransaction }.

Record AccountResponse : Type := { ar_id : string; ar_balance : f64 }.

Record AppState : Type := {
  app_service : AccountService;
  app_middleware : Validation.RequestMiddleware;
  app_permits : nat;
  app_max_requests_per_second : nat;
  app_auth : AuthService
}.

(** [AccountService::new] and [AuthService], as the router's state: the
    semaphore starts with [max_requests_per_second] permits. *)
Definition AppState_new (service : AccountService) (middleware : Validation.RequestMiddleware)
    (max_requests_per_second : nat) (auth_service : AuthService) : AppState :=
  {| app_service := service; app_middleware := middleware; app_permits := max_requests_per_second;
     app_max_requests_per_second := max_requests_per_second; app_auth := auth_service |}.

Definition put_service (v : AccountService) (s : AppState) : AppState :=
  {| app_service := v; app_middleware := app_middleware s; app_permits := app_permits s;
     app_max_requests_per_second := app_max_requests_per_second s; app_auth := app_auth s |}.

Definition put_auth (v : AuthService) (s : AppState) : AppState :=
  {| app_service := app_service s; app_middleware := app_middleware s; app_permits := app_permits s;
     app_max_requests_per_second := app_max_requests_per_second s; app_auth := v |}.

Definition put_middleware (v : Validation.RequestMiddleware) (s : AppState) : AppState :=
  {| app_service := app_service s; app_middleware := v; app_permits := app_permits s;
     app_max_requests_per_second := app_max_requests_per_second s; app_auth := app_auth s |}.

Definition put_permits (n : nat) (s : AppState) : AppState :=
  {| app_service := app_service s; app_middleware := app_middleware s; app_permits := n;
     app_max_requests_per_second := app_max_requests_per_second s; app_auth := app_auth s |}.

(** A call of a service, its error answered as [reject] says. *)
Definition on_service {E A} (reject : AccountError -> E) (m : M AccountService AccountError A) :
    M AppState E A :=
  on_err reject (zoom app_service put_service m).

Definition on_auth {A} (status : Z) (m : M AuthService AuthError A) : M AppState Rejection A :=
  on_err (fun e => TextRejection status (AuthError_display e)) (zoom app_auth put_auth m).

Definition text (status : Z) (e : AccountError) : Rejection := TextRejection status (to_string e).

Definition json (status : Z) (e : AccountError) : Rejection := JsonRejection status (to_string e).

(** ** Handlers *)

(** [create_account].  The context is built from an empty [HeaderMap]. *)
Definition create_account (now : Z) (account_id draw tx : Uuid) (payload : CreateAccountRequest) :
    M AppState Rejection CreateAccountResponse :=
  let ctx := create_request_context (get_client_id ∅) "create_account"
               (CreateAccountRequest_to_value payload) [] in
  let! validation := fun s =>
    let '(result, m) := Validation.process_request now ctx (app_middleware s) in
    (Ok result, put_middleware m s) in
  if negb (Validation.is_valid validation)
  then throw (TextRejection 400 (String.concat ", " (Validation.errors validation)))
  else
    let! account := on_service (text 400)
      (Service.create_account now account_id draw tx (cq_owner_name payload)
         (default dec_zero (dec_from_f64 (cq_initial_balance payload)))) in
    ret {| cr_account_id := account |}.

(** [get_account]. *)
Definition get_account (now : Z) (id : Uuid) : M AppState Rejection AccountResponse :=
  let! account := on_service (text 404) (Service.get_account now id) in
  match (account : option AccountProjection) with
  | Some acc => ret {| ar_id := to_string (ap_id acc);
                       ar_balance := default (f64_of_u64 0) (dec_to_f64 (ap_balance acc)) |}
  | None => throw (TextRejection 404 "Account not found")
  end.

(** [deposit_money]. *)
Definition deposit_money (new_v4 : nat -> Uuid) (now : Z) (tx id : Uuid) (payload : TransactionRequest) :
    M AppState Rejection unit :=
  on_service (text 400) (Service.deposit_money new_v4 now tx id (tq_amount payload)).

(** [withdraw_money]. *)
Definition withdraw_money (new_v4 : nat -> Uuid) (now : Z) (tx id : Uuid) (payload : TransactionRequest) :
    M AppState Rejection unit :=
  on_service (text 400) (Service.withdraw_money new_v4 now tx id (tq_amount payload)).

(** [get_all_accounts]. *)
Definition get_all_accounts : M AppState Rejection (list AccountProjection) :=
  on_service (json 500) Service.get_all_accounts.

(** [get_account_transactions]. *)
Definition get_account_transactions (new_v4 : nat -> Uuid) (now : Z) (account_id : Uuid) :
    M AppState Rejection (list TransactionProjection) :=
  on_service (json 500) (Service.get_account_transactions new_v4 now account_id).

(** [health_check]: the status. *)
Definition health_check : Z := 200.

(** [metrics]. *)
Definition metrics : M AppState Rejection Value :=
  gets (fun s =>
    VObject [("available_request_permits", VNumber (Z.of_nat (app_permits s)));
             ("max_requests_per_second", VNumber (Z.of_nat (app_max_requests_per_second s)))]).

(** [login]. *)
Definition login (now : Z) (jti1 jti2 : string) (payload : LoginRequest) :
    M AppState Rejection LoginResponse :=
  on_auth 401 (Auth.login now jti1 jti2 (lq_username payload) (lq_password payload)).

(** [logout]. *)
Definition logout (now : Z) (payload : LogoutRequest) : M AppState Rejection unit :=
  on_auth 500 (Auth.blacklist_token now (oq_token payload)).

(** [register]: the body is the whole row. *)
Definition register (user_id : Uuid) (salt : string) (payload : RegisterRequest) :
    M AppState Rejection User :=
  on_auth 400 (Auth.register_user user_id salt (rq_username payload) (rq_email payload)
                 (rq_password payload) (rq_roles payload)).

(** One transaction of a batch. *)
Definition transact (new_v4 : nat -> Uuid) (now : Z) (tx : Uuid) (t : SingleTransaction) :
    M AccountService AccountError unit :=
  if String.eqb (st_transaction_type t) "deposit"
  then Service.deposit_money new_v4 now tx (st_account_id t) (st_amount t)
  else if String.eqb (st_transaction_type t) "withdraw"
  then Service.withdraw_money new_v4 now tx (st_account_id t) (st_amount t)
  else throw (InvalidAmount (st_amount t)).

(** The loop of [batch_transactions]; [new_v4], [clock] and [tx] give what the
    [i]-th transaction draws. *)
Fixpoint batch_loop (new_v4 : nat -> nat -> Uuid) (clock : nat -> Z) (tx : nat -> Uuid) (i : nat)
    (transactions : list SingleTransaction) (acc : BatchTransactionResponse) :
    M AccountService AccountError BatchTransactionResponse :=
  match transactions with
  | [] => ret acc
  | t :: rest =>
      let! result := attempt (transact (new_v4 i) (clock i) (tx i) t) in
      batch_loop new_v4 clock tx (S i) rest
        (match (result : AccountError + unit) with
         | inr _ => {| br_successful := S (br_successful acc); br_failed := br_failed acc;
                       br_errors := br_errors acc |}
         | inl e => {| br_successful := br_successful acc; br_failed := S (br_failed acc);
                       br_errors := br_errors acc ++
                         ["Account " +:+ to_string (st_account_id t) +:+ ": " +:+ to_string e] |}
         end)
  end.

(** [semaphore.acquire()]: waits without a permit.  The permit is dropped when
    the handler returns. *)
Definition with_permit {A} (m : M AppState Rejection A) : M AppState Rejection A :=
  fun s =>
    match app_permits s with
    | O => (Hang, s)
    | S n => let '(r, s') := m (put_permits n s) in (r, put_permits (S (app_permits s')) s')
    end.

(** [batch_transactions]. *)
Definition batch_transactions (new_v4 : nat -> nat -> Uuid) (clock : nat -> Z) (tx : nat -> Uuid)
    (request : BatchTransactionRequest) : M AppState Rejection BatchTransactionResponse :=
  with_permit (on_service (json 500)
    (batch_loop new_v4 clock tx 0 (bq_transactions request)
       {| br_successful := 0; br_failed := 0; br_errors := [] |})).

(** ** Batches *)

(** Every transaction is counted once, and every failure has its message. *)
Lemma batch_loop_counts new_v4 clock tx i ts acc s r s' :
  batch_loop new_v4 clock tx i ts acc s = (Ok r, s') ->
  br_successful r + br_failed r = br_successful acc + br_failed acc + length ts /\
  length (br_errors r) + br_failed acc = length (br_errors acc) + br_failed r.
Proof.
  revert i acc s. induction ts as [| t ts IH]; intros i acc s; simpl.
  - unfold ret. intros. simplify_eq. lia.
  - intros (x & s1 & _ & Hk)%bind_ok. apply IH in Hk as [Hn He].
    destruct x as [e | []]; simpl in *; rewrite ?length_app in *; simpl in *; lia.
Qed.

Context `{!DecimalLaws} `{!RepositoryContract}.

(** A transaction over histories that leave room for another version. *)
Lemma transact_refused new_v4 now tx t s L :
  service_holds s L -> (Z.of_nat (length (L (st_account_id t))) < i64_max)%Z ->
  is_ok (fst (transact new_v4 now tx t s)) = false.
Proof.
  intros Hh Hlen. unfold transact, Service.deposit_money, Service.withdraw_money.
  repeat case_match; try done; unfold bind; rewrite refuse_duplicate_spec;
    destruct (sv_command_cache s !! _); try done; by eapply change_refused.
Qed.

Lemma transact_keeps new_v4 now tx t : err_keeps (transact new_v4 now tx t).
Proof.
  unfold transact, Service.deposit_money, Service.withdraw_money. repeat case_match.
  - apply err_keeps_seq; [ intros s0 L0; apply refuse_keeps | intros _; apply change_err_keeps ].
  - apply err_keeps_seq; [ intros s0 L0; apply refuse_keeps | intros _; apply change_err_keeps ].
  - intros s L e s' Hh Ht. unfold throw in Ht. by simplify_eq.
Qed.

Lemma batch_loop_refused new_v4 clock tx i ts acc s L r s' :
  service_holds s L -> (forall id, Z.of_nat (length (L id)) < i64_max)%Z ->
  batch_loop new_v4 clock tx i ts acc s = (Ok r, s') ->
  br_successful r = br_successful acc /\ service_holds s' L.
Proof.
  intros Hh Hlen. revert i acc s Hh. induction ts as [| t ts IH]; intros i acc s Hh; simpl.
  { unfold ret. intros. by simplify_eq. }
  intros (x & s1 & Hx & Hk)%bind_ok. unfold attempt in Hx.
  pose proof (transact_refused (new_v4 i) (clock i) (tx i) t s L Hh (Hlen _)) as Hno.
  pose proof (transact_keeps (new_v4 i) (clock i) (tx i) t s L) as Hkeep.
  destruct (transact _ _ _ t s) as [[u | e | | ] s2]; simplify_eq/=.
  apply IH in Hk; [ exact Hk | exact (Hkeep e s1 Hh eq_refl) ].
Qed.

(** C38. A batch answers for each of its transactions exactly once, with one
    message per failure, and gives its permit back; over a store that keeps its
    contract every transaction of every batch fails and the histories are as
    before, although the answer is [200 OK]. *)
Theorem batch_reports_every_transaction new_v4 clock tx q s r s' :
  batch_transactions new_v4 clock tx q s = (Ok r, s') ->
  br_successful r + br_failed r = length (bq_transactions q) /\
  length (br_errors r) = br_failed r /\ app_permits s' = app_permits s /\
  (forall L, service_holds (app_service s) L -> (forall id, Z.of_nat (length (L id)) < i64_max)%Z ->
     br_successful r = 0 /\ service_holds (app_service s') L).
Proof.
  unfold batch_transactions, with_permit. destruct (app_permits s) as [| n] eqn:Hp; [ done |].
  unfold on_service, on_err, zoom. simpl.
  destruct (batch_loop _ _ _ _ _ _ _) as [[r0 | | | ] v] eqn:Hb; intros; simplify_eq/=.
  pose proof (batch_loop_counts _ _ _ _ _ _ _ _ _ Hb) as [Hn He]. simpl in *.
  split_and!; [ lia | lia | done |]. intros L Hh Hlen.
  by apply (batch_loop_refused _ _ _ _ _ _ _ _ _ _ Hh Hlen) in Hb.
Qed.

(** ** The rate limit of account creation *)

(** Creations one after the other, each with the identifiers it draws. *)
Record creation : Type := {
  cn_time : Z;
  cn_account_id : Uuid;
  cn_draw : Uuid;
  cn_tx : Uuid;
  cn_payload : CreateAccountRequest
}.

Definition run_creation (c : creation) : M AppState Rejection CreateAccountResponse :=
  create_account (cn_time c) (cn_account_id c) (cn_draw c) (cn_tx c) (cn_payload c).

Fixpoint run_creations (cs : list creation) (s : AppState) : list (res Rejection CreateAccountResponse) :=
  match cs with
  | [] => []
  | c :: rest => let '(r, s1) := run_creation c s in r :: run_creations rest s1
  end.

Definition rate_limited : res Rejection CreateAccountResponse :=
  Err (TextRejection 400 "Rate limit exceeded").

(** The middleware [init_all_services] builds ([parse_str] is the uuid crate's),
    with the limiter in any state. *)
Definition middleware_with (parse_str : string -> option Uuid) (limiter : FixedWindow.RateLimiter) :
    Validation.RequestMiddleware :=
  Validation.middleware_register_validator "withdraw_money" (Validation.TransactionValidator parse_str)
    (Validation.middleware_register_validator "deposit_money" (Validation.TransactionValidator parse_str)
       (Validation.middleware_register_validator "create_account" Validation.AccountCreationValidator
          {| Validation.rate_limiter := limiter;
             Validation.request_validator := Validation.RequestValidator_new |})).

(** Every message of [AccountError] is another one. *)
Lemma account_error_text (e : AccountError) : to_string e <> "Rate limit exceeded".
Proof. by destruct e. Qed.

(** A creation's answer is the rate limit's exactly when the limiter refuses the
    client "unknown". *)
Lemma run_creation_limited parse_str limiter c s r s' :
  app_middleware s = middleware_with parse_str limiter -> run_creation c s = (r, s') ->
  let '(ok, limiter') := FixedWindow.check_rate_limit (cn_time c) "unknown" limiter in
  app_middleware s' = middleware_with parse_str limiter' /\ (r = rate_limited <-> ok = false).
Proof.
  intros Hm. unfold run_creation, create_account, bind at 1, Validation.process_request. rewrite Hm.
  cbn [Validation.client_id create_request_context]. change (get_client_id ∅) with "unknown".
  cbn [Validation.rate_limiter Validation.middleware_register_validator middleware_with].
  destruct (FixedWindow.check_rate_limit _ _ limiter) as [[] limiter']; simpl negb; cbv iota beta.
  2:{ intros Hr. unfold throw in Hr. by simplify_eq/=. }
  erewrite Validation.validate_request_rule by (simpl; apply lookup_insert_Some; right;
    split; [ done | apply lookup_insert_Some; right; split; [ done | apply lookup_insert_eq ] ]).
  unfold Validation.AccountCreationValidator. simpl.
  destruct (Validation.is_valid _) eqn:Hv; simpl; intros Hr.
  - unfold on_service, on_err, zoom, bind, ret in Hr. simpl in Hr.
    destruct (Service.create_account _ _ _ _ _ _ _) as [[u | e | | ] v]; simplify_eq/=;
      (split; [ done |]); (split; [| done ]); unfold rate_limited; intros; simplify_eq/=.
    by destruct (account_error_text e).
  - unfold throw in Hr. simplify_eq/=. split; [ done |]. split; [| done ].
    unfold rate_limited. intros Heq. exfalso. revert Heq Hv. clear.
    unfold Validation.check_field. simpl.
    destruct (Validation.empty_name _), (Validation.negative _); simpl; discriminate.
Qed.

(** The answers of the limiter to one client's calls. *)
Lemma run_creations_limited parse_str cs limiter s :
  app_middleware s = middleware_with parse_str limiter ->
  Forall2 (fun r (ok : bool) => r = rate_limited <-> ok = false) (run_creations cs s)
    (fst (FixedWindow.run (map (fun t => (t, "unknown")) (map cn_time cs)) limiter)).
Proof.
  revert limiter s. induction cs as [| c cs IH]; intros limiter s Hm; simpl; [ constructor |].
  destruct (run_creation c s) as [r s1] eqn:Hr.
  pose proof (run_creation_limited _ _ _ _ _ _ Hm Hr) as Hl.
  destruct (FixedWindow.check_rate_limit _ _ limiter) as [ok limiter']. destruct Hl as [Hm' Hok].
  specialize (IH limiter' s1 Hm'). destruct (FixedWindow.run _ limiter') as [oks l2]. by constructor.
Qed.

(** The rate limit of account creation is one for all clients: the handler
    builds the request's context from an empty header map, so every request
    counts for the client "unknown", and of all the creations within one
    window of the first exactly those after the first [requests_per_minute] are
    answered 400, "Rate limit exceeded", whoever sent them. *)
Theorem creation_limit_is_global parse_str cfg c cs s i r :
  app_middleware s = middleware_with parse_str (FixedWindow.RateLimiter_new cfg) ->
  (0 < FixedWindow.burst_size cfg)%Z -> (0 <= FixedWindow.requests_per_minute cfg <= u32_max)%Z ->
  (0 < FixedWindow.window_size cfg)%Z ->
  Forall (fun c' => (cn_time c' - cn_time c < FixedWindow.window_size cfg)%Z) cs ->
  run_creations (c :: cs) s !! i = Some r ->
  (r = rate_limited <-> (FixedWindow.requests_per_minute cfg <= Z.of_nat i)%Z).
Proof.
  intros Hm Hb Hl Hw Hall Hi.
  pose proof (run_creations_limited _ (c :: cs) _ _ Hm) as Hf2.
  change (map cn_time (c :: cs)) with (cn_time c :: map cn_time cs) in Hf2.
  rewrite FixedWindow.run_one_client in Hf2.
  rewrite FixedWindow.window_admits in Hf2; [| done | done | done | lia |].
  - destruct (Forall2_lookup_l _ _ _ _ _ Hf2 Hi) as (ok & Hok & ->).
    rewrite list_lookup_imap in Hok. apply fmap_Some in Hok as (t & _ & ->).
    apply Z.ltb_ge.
  - simpl. constructor; [ lia |]. apply Forall_map. by apply (Forall_impl _ _ _ Hall).
Qed.

End Web.

(** ** Routes *)
Inductive Method : Type := GET | HEAD | POST | PUT | OtherMethod (name : string).

Inductive Endpoint : Type :=
| EpRegister | EpLogin | EpLogout | EpCreateAccount | EpGetAccount | EpDepositMoney
| EpWithdrawMoney | EpGetAllAccounts | EpGetAccountTransactions | EpHealthCheck | EpMetrics
| EpBatchTransactions.

(** A segment of a route's path: itself, or [{id}]. *)
Inductive Segment : Type := Lit (s : string) | Id.

#[global] Instance method_eq_dec : EqDecision Method.
Proof. solve_decision. Defined.

#[global] Instance segment_eq_dec : EqDecision Segment.
Proof. solve_decision. Defined.

Record Route : Type := {
  rt_path : list Segment;
  rt_method : Method;
  rt_endpoint : Endpoint
}.

Definition route (path : list Segment) (method : Method) (endpoint : Endpoint) : Route :=
  {| rt_path := path; rt_method := method; rt_endpoint := endpoint |}.

Definition api (path : list Segment) : list Segment := Lit "api" :: path.

Definition account (operation : string) : list Segment := api [Lit "accounts"; Id; Lit operation].

(** [create_router] of routes.rs. *)
Definition create_router : list Route :=
  [ route (api [Lit "auth"; Lit "register"]) POST EpRegister;
    route (api [Lit "auth"; Lit "login"]) POST EpLogin;
    route (api [Lit "auth"; Lit "logout"]) POST EpLogout;
    route (api [Lit "accounts"]) POST EpCreateAccount;
    route (api [Lit "accounts"; Id]) GET EpGetAccount;
    route (account "deposit") PUT EpDepositMoney;
    route (account "withdraw") PUT EpWithdrawMoney;
    route (api [Lit "accounts"]) GET EpGetAllAccounts;
    route (account "transactions") GET EpGetAccountTransactions;
    route (api [Lit "health"]) GET EpHealthCheck;
    route (api [Lit "metrics"]) GET EpMetrics;
    route (api [Lit "transactions"; Lit "batch"]) POST EpBatchTransactions ].

(** The router [main] serves. *)
Definition main_router : list Route :=
  [ route (api [Lit "auth"; Lit "register"]) POST EpRegister;
    route (api [Lit "auth"; Lit "login"]) POST EpLogin;
    route (api [Lit "auth"; Lit "logout"]) POST EpLogout;
    route (api [Lit "accounts"]) POST EpCreateAccount;
    route (api [Lit "accounts"; Id]) GET EpGetAccount;
    route (account "deposit") POST EpDepositMoney;
    route (account "withdraw") POST EpWithdrawMoney;
    route (account "transactions") GET EpGetAccountTransactions;
    route (api [Lit "transactions"; Lit "batch"]) POST EpBatchTransactions;
    route (api [Lit "health"]) GET EpHealthCheck;
    route (api [Lit "metrics"]) GET EpMetrics ].

(** axum's choice of a handler for a request, its path cut at the slashes: a
    parameter takes one segment that is not empty, a HEAD request goes to the
    GET handler, a path no route has goes to the fallback (the static files). *)
Inductive Dispatch : Type :=
| Handled (endpoint : Endpoint) (params : list string)
| MethodNotAllowed
| Fallback.

Fixpoint match_path (pattern : list Segment) (path : list string) : option (list string) :=
  match pattern, path with
  | [], [] => Some []
  | Lit l :: pattern', s :: path' => if String.eqb l s then match_path pattern' path' else None
  | Id :: pattern', s :: path' =>
      if String.eqb s "" then None
      else option_map (cons s) (match_path pattern' path')
  | _, _ => None
  end.

Definition serves (route_method method : Method) : bool :=
  bool_decide (route_method = method) || (bool_decide (route_method = GET) && bool_decide (method = HEAD)).

(** The routes that have the path. *)
Definition hits (router : list Route) (path : list string) : list (Route * list string) :=
  flat_map (fun r => match match_path (rt_path r) path with
                     | Some params => [(r, params)]
                     | None => []
                     end) router.

Definition choose (method : Method) (found : list (Route * list string)) : Dispatch :=
  match found with
  | [] => Fallback
  | _ => match List.find (fun h => serves (rt_method h.1) method) found with
         | Some (r, params) => Handled (rt_endpoint r) params
         | None => MethodNotAllowed
         end
  end.

Definition dispatch (router : list Route) (method : Method) (path : list string) : Dispatch :=
  choose method (hits router path).

(** Where the two tables disagree. *)
Definition moved (method : Method) (path : list string) : Prop :=
  (path = ["api"; "accounts"] /\ (method = GET \/ method = HEAD)) \/
  (exists id op, id <> "" /\ (op = "deposit" \/ op = "withdraw") /\
     path = ["api"; "accounts"; id; op] /\ (method = POST \/ method = PUT)).

(** Split on the first literal a segment is compared with. *)
#[local] Arguments String.eqb : simpl never.

Ltac split_segment :=
  match goal with
  | |- context [ String.eqb (String ?x ?l) (String ?y ?s) ] =>
      let b := eval compute in (String.eqb (String x l) (String y s)) in
      change (String.eqb (String x l) (String y s)) with b; lazy iota
  | |- context [ String.eqb ?l ?s ] => is_var s; destruct (String.eqb_spec l s); [ subst s |]; lazy iota
  | |- context [ String.eqb ?s ?l ] => is_var s; destruct (String.eqb_spec s l); [ subst s |]; lazy iota
  end.

Lemma routers_differ_only method path :
  dispatch main_router method path <> dispatch create_router method path -> moved method path.
Proof.
  unfold dispatch.
  destruct path as [| a [| b [| c [| d [| e path] ] ] ] ]; lazy -[String.eqb app choose not moved];
    repeat split_segment; simpl.
  all: destruct method; lazy -[not moved]; try (intros Hne; destruct (Hne eq_refl)); unfold moved; eauto 10.
Qed.

(** The table of routes.rs and the one the server runs answer every request
    alike except these: listing the accounts (GET and HEAD of /api/accounts)
    exists only in routes.rs, and depositing and withdrawing are PUT there but
    POST in the server. *)
Theorem routers_differ_exactly method path :
  dispatch main_router method path <> dispatch create_router method path <-> moved method path.
Proof.
  split; [ apply routers_differ_only |].
  intros [ [-> [-> | ->] ] | (id & op & Hid & [-> | ->] & -> & [-> | ->]) ]; simpl; try done;
    cbv -[String.eqb]; by rewrite (proj2 (String.eqb_neq id "") Hid).
Qed.

(** ** Witnesses: the services of [ServiceWitness] and [AuthWitness] *)
Module WebWitness.
Import ScaleZero PlainSerde StoreWitness HandlersWitness ServiceWitness AuthWitness.

#[export] Instance whole_units : DecimalFloat := {|
  dec_from_f64 := fun _ => Some (amt 1);
  dec_to_f64 := fun _ => None
|}.

Definition limits : FixedWindow.RateLimitConfig :=
  {| FixedWindow.requests_per_minute := 1; FixedWindow.burst_size := 1;
     FixedWindow.window_size := 60; FixedWindow.max_clients := 10 |}.

Definition app : AppState :=
  AppState_new ServiceWitness.service
    (middleware_with (fun _ => None) (FixedWindow.RateLimiter_new limits)) 2 AuthWitness.service.

(** A deposit, a withdrawal from the same account and a type no one knows. *)
Definition three : BatchTransactionRequest :=
  {| bq_transactions :=
       [ {| st_account_id := 1%N; st_amount := amt 10; st_transaction_type := "deposit" |};
         {| st_account_id := 1%N; st_amount := amt 5; st_transaction_type := "withdraw" |};
         {| st_account_id := 1%N; st_amount := amt 5; st_transaction_type := "transfer" |} ] |}.

Definition run_three : res Rejection BatchTransactionResponse * AppState :=
  batch_transactions (fun _ => N.of_nat) (fun _ => 1%Z) N.of_nat three app.
Definition answer : BatchTransactionResponse :=
  match fst run_three with Ok r => r | _ => {| br_successful := 9; br_failed := 0; br_errors := [] |} end.

Lemma batch_reports_every_transaction_witness :
  br_successful answer = 0 /\ br_failed answer = 3 /\ length (br_errors answer) = 3 /\
  app_permits (snd run_three) = 2.
Proof.
  destruct (batch_reports_every_transaction (fun _ => N.of_nat) (fun _ => 1%Z) N.of_nat three app answer
              (snd run_three)) as (Hn & He & Hp & Hs).
  - apply injective_projections; [ vm_compute; reflexivity | reflexivity ].
  - destruct (Hs log0) as [H0 _]; [ exact service_held | |].
    { intros id. unfold log0, LogStore.stored, memory0. destruct (decide (id = 1%N)) as [-> | Hne].
      - rewrite lookup_singleton_eq. reflexivity.
      - rewrite lookup_singleton_ne by done. reflexivity. }
    cbn [length bq_transactions three] in Hn. rewrite He. split_and!; [ exact H0 | lia.. | exact Hp ].
Defined.

Definition creates (t : Z) (id : Uuid) : creation :=
  {| cn_time := t; cn_account_id := id; cn_draw := (id + 1)%N; cn_tx := (id + 2)%N;
     cn_payload := {| cq_owner_name := "carol"; cq_initial_balance := f64_of_u64 1 |} |}.

(** The second client is told that the limit is exceeded. *)
Lemma creation_limit_is_global_witness :
  nth 1 (run_creations [creates 0 10%N; creates 5 20%N] app) Panic = rate_limited.
Proof.
  apply (creation_limit_is_global (fun _ => None) limits (creates 0 10%N) [creates 5 20%N] app 1
           (nth 1 (run_creations [creates 0 10%N; creates 5 20%N] app) Panic));
    try reflexivity; [ split; discriminate | ].
  constructor; [ reflexivity | constructor ].
Defined.

End WebWitness.
