(* ===== verification/KafkaClient.v ===== *)
(** The Kafka client (src/src/infrastructure/kafka_abstraction.rs), its metrics
    (kafka_metrics.rs) and the dead-letter message (kafka_dlq.rs).

    [KafkaClient] has one operation per call into rdkafka; [Cluster] is the state
    behind them, the topics and the consumers.  [KafkaLaws] states what Kafka
    and librdkafka document: a send that reports success has appended the
    record to its topic, to a partition the topic has; one that fails may or
    may not have; a consumer is handed records of the topics it subscribed to;
    a stream of messages does not end.  A producer or a consumer is a handle, so
    the clones the program passes around are one client.  What the derived
    [Serialize] and [Deserialize] of the messages write and read is
    [*_to_value] and [*_from_value]; a date is an instant, its text the chrono
    crate's ([DateTimeText]). *)
From S2P Require Import Prelude.
From S2P Require Import DecimalSpec.
From S2P Require Import Account.
From S2P Require Import Codec.
From S2P Require Import Cache.
From stdpp Require Import base tactics list gmap strings pretty.
From Stdlib Require Import ZArith Lia SpecFloat DecimalString DecimalZ.

(** ** Errors *)

(** [rdkafka::error::KafkaError]: the variants the program tells apart, with the
    text of their error code, and the others with their text. *)
Inductive KafkaError : Type :=
| ClientCreation (msg : string)
| MessageProduction (code : string)
| MessageConsumption (code : string)
| OtherKafkaError (shown : string).

Inductive BankingKafkaError : Type :=
| ConnectionError (msg : string)
| ProducerError (msg : string)
| ConsumerError (msg : string)
| KafkaSerializationError (msg : string)
| DeserializationError (msg : string)
| CacheInvalidationError (msg : string)
| EventProcessingError (msg : string)
| ConfigurationError (msg : string)
| TimeoutError (msg : string)
| Unknown (msg : string).

#[global] Instance BankingKafkaError_display : Display BankingKafkaError := fun e =>
  match e with
  | ConnectionError msg => "Connection error: " +:+ msg
  | ProducerError msg => "Producer error: " +:+ msg
  | ConsumerError msg => "Consumer error: " +:+ msg
  | KafkaSerializationError msg => "Serialization error: " +:+ msg
  | DeserializationError msg => "Deserialization error: " +:+ msg
  | CacheInvalidationError msg => "Cache invalidation error: " +:+ msg
  | EventProcessingError msg => "Event processing error: " +:+ msg
  | ConfigurationError msg => "Configuration error: " +:+ msg
  | TimeoutError msg => "Timeout error: " +:+ msg
  | Unknown msg => "Unknown error: " +:+ msg
  end.

(** [impl From<KafkaError>]. *)
Definition from_kafka (error : KafkaError) : BankingKafkaError :=
  match error with
  | ClientCreation e => ConnectionError e
  | MessageProduction e => ProducerError e
  | MessageConsumption e => ConsumerError e
  | OtherKafkaError shown => Unknown shown
  end.

(** [impl From<serde_json::Error>]. *)
Definition from_serde `{Display SerdeError} (error : SerdeError) : BankingKafkaError :=
  KafkaSerializationError (to_string error).

(** ** Configuration *)
Record KafkaConfig : Type := {
  kc_enabled : bool;
  kc_bootstrap_servers : string;
  kc_group_id : string;
  kc_topic_prefix : string;
  kc_producer_acks : Z;
  kc_producer_retries : Z;
  kc_consumer_max_poll_interval_ms : Z;
  kc_consumer_session_timeout_ms : Z;
  kc_consumer_max_poll_records : Z;
  kc_security_protocol : string;
  kc_sasl_mechanism : string;
  kc_ssl_ca_location : option string;
  kc_auto_offset_reset : string;
  kc_cache_invalidation_topic : string;
  kc_event_topic : string
}.

Definition KafkaConfig_default : KafkaConfig :=
  {| kc_enabled := true; kc_bootstrap_servers := "localhost:9092"; kc_group_id := "banking-es-group";
     kc_topic_prefix := "banking-es"; kc_producer_acks := 1; kc_producer_retries := 3;
     kc_consumer_max_poll_interval_ms := 300000; kc_consumer_session_timeout_ms := 10000;
     kc_consumer_max_poll_records := 500; kc_security_protocol := "PLAINTEXT";
     kc_sasl_mechanism := "PLAIN"; kc_ssl_ca_location := None; kc_auto_offset_reset := "earliest";
     kc_cache_invalidation_topic := "banking-es-cache-invalidation";
     kc_event_topic := "banking-es-events" |}.

Definition events_topic (c : KafkaConfig) : string := kc_topic_prefix c +:+ "-events".
Definition cache_topic (c : KafkaConfig) : string := kc_topic_prefix c +:+ "-cache".
Definition dlq_topic (c : KafkaConfig) : string := kc_topic_prefix c +:+ "-dlq".

(** ** Metrics: one counter per field of [KafkaMetrics] *)
Inductive Counter : Type :=
| messages_sent | send_errors | send_latency | batch_size | compression_ratio
| messages_consumed | consume_errors | consume_latency | consumer_lag | rebalance_count
| events_processed | processing_errors | processing_latency | version_conflicts | cache_updates
| cache_update_errors
| dlq_messages | dlq_retries | dlq_retry_success | dlq_retry_failures
| memory_usage | cpu_usage | thread_count | connection_count.

#[global] Instance counter_eq_dec : EqDecision Counter.
Proof. solve_decision. Defined.

Definition KafkaMetrics : Type := Counter -> Z.

Definition KafkaMetrics_default : KafkaMetrics := fun _ => 0%Z.

(** [fetch_add] on an [AtomicU64]: wraps. *)
Definition fetch_add (c : Counter) (n : Z) (m : KafkaMetrics) : KafkaMetrics :=
  fun c' => if decide (c' = c) then wrap_u64 (m c + n) else m c'.

(** [duration.as_millis() as u64]: the low 64 bits. *)
Definition record_send_latency (millis : Z) : KafkaMetrics -> KafkaMetrics :=
  fetch_add send_latency (wrap_u64 millis).

Definition record_consume_latency (millis : Z) : KafkaMetrics -> KafkaMetrics :=
  fetch_add consume_latency (wrap_u64 millis).

Definition record_processing_latency (millis : Z) : KafkaMetrics -> KafkaMetrics :=
  fetch_add processing_latency (wrap_u64 millis).

(** [if count > 0 { total as f64 / count as f64 } else { 0.0 }]. *)
Definition ratio (total count : Z) : f64 :=
  if (0 <? count)%Z then f64_div (f64_of_u64 total) (f64_of_u64 count) else f64_of_u64 0.

Definition get_average_send_latency (m : KafkaMetrics) : f64 := ratio (m send_latency) (m messages_sent).

Definition get_average_consume_latency (m : KafkaMetrics) : f64 :=
  ratio (m consume_latency) (m messages_consumed).

Definition get_average_processing_latency (m : KafkaMetrics) : f64 :=
  ratio (m processing_latency) (m events_processed).

Definition get_error_rate (m : KafkaMetrics) : f64 :=
  let errors := wrap_u64 (m send_errors + m consume_errors + m processing_errors) in
  let total := wrap_u64 (m messages_sent + m messages_consumed + m events_processed) in
  ratio errors total.

Definition get_dlq_retry_success_rate (m : KafkaMetrics) : f64 := ratio (m dlq_retry_success) (m dlq_retries).

(** ** rdkafka *)
Record FutureRecord `{JsonText} : Type := {
  fr_topic : string;
  fr_key : string;
  fr_payload : Bytes;
  fr_partition : option Z
}.

Record Message `{JsonText} : Type := {
  msg_key : option string;
  msg_payload : option Bytes
}.

Definition message_of `{JsonText} (r : FutureRecord) : Message :=
  {| msg_key := Some (fr_key r); msg_payload := Some (fr_payload r) |}.

(** [timeout(.., stream.next()).await]. *)
Inductive Polled `{JsonText} : Type :=
| Delivered (msg : Message)
| PollError (e : KafkaError)
| StreamEnd
| TimedOut.

Class KafkaClient `{JsonText} : Type := {
  Cluster : Type;
  (** [ClientConfig::create] with its settings: a new handle *)
  k_create_producer : list (string * string) -> M Cluster KafkaError nat;
  k_create_consumer : list (string * string) -> M Cluster KafkaError nat;
  k_send : nat -> FutureRecord -> M Cluster KafkaError unit;
  k_subscribe : nat -> list string -> M Cluster KafkaError unit;
  (** [assign] of one partition of a topic *)
  k_assign : nat -> string -> Z -> M Cluster KafkaError unit;
  (** [stream.next()] within a timeout, and without one *)
  k_poll : nat -> Cluster -> Polled * Cluster;
  k_next : nat -> Cluster -> option (KafkaError + Message) * Cluster;
  (** [{:?}] *)
  k_debug : KafkaError -> string;
  k_display :: Display KafkaError
}.

(** [topic_log] has the records of a topic, [subscribed] a consumer's topics. *)
Class KafkaLaws `{KafkaClient} : Type := {
  topic_log : Cluster -> string -> list Message;
  subscribed : Cluster -> nat -> list string;
  partitions : Cluster -> string -> Z;
  k_send_topic : forall h r c t,
    topic_log (snd (k_send h r c)) t = topic_log c t \/
    t = fr_topic r /\ topic_log (snd (k_send h r c)) t = topic_log c t ++ [message_of r];
  k_send_ok : forall h r c c', k_send h r c = (Ok tt, c') ->
    topic_log c' (fr_topic r) = topic_log c (fr_topic r) ++ [message_of r];
  k_send_partition : forall h r c c' p, k_send h r c = (Ok tt, c') -> fr_partition r = Some p ->
    p = (-1)%Z \/ (0 <= p < partitions c (fr_topic r))%Z;
  k_send_subscribed : forall h r c n, subscribed (snd (k_send h r c)) n = subscribed c n;
  k_subscribe_ok : forall h ts c c', k_subscribe h ts c = (Ok tt, c') ->
    (forall t, topic_log c' t = topic_log c t) /\ subscribed c' h = ts;
  k_poll_keeps : forall h c t n,
    topic_log (snd (k_poll h c)) t = topic_log c t /\ subscribed (snd (k_poll h c)) n = subscribed c n;
  k_poll_msg : forall h c m c', k_poll h c = (Delivered m, c') ->
    exists t, t ∈ subscribed c h /\ m ∈ topic_log c t;
  k_next_some : forall h c, is_Some (fst (k_next h c))
}.

(** ** Messages *)
Record EventBatch `{DecimalOps} : Type := {
  eb_account_id : Uuid;
  eb_events : list AccountEvent;
  eb_version : Z;
  eb_timestamp : Z
}.

Inductive CacheInvalidationType : Type :=
| AccountUpdate | TransactionUpdate | FullInvalidation | PartialInvalidation.

Record CacheInvalidationMessage : Type := {
  ci_account_id : Uuid;
  ci_invalidation_type : CacheInvalidationType;
  ci_timestamp : Z;
  ci_reason : string
}.

Record DeadLetterMessage `{DecimalOps} : Type := {
  dm_account_id : Uuid;
  dm_events : list AccountEvent;
  dm_version : Z;
  dm_original_timestamp : Z;
  dm_failure_reason : string;
  dm_retry_count : Z;
  dm_last_retry : option Z
}.

Section Kafka.
Context `{SerdeOps} `{KafkaClient} `{DateTimeText}.
Context `{!Display SerdeError, !Display Uuid}.

(** ** Encodings *)
Definition as_date (v : Value) : res SerdeError Z :=
  let? s := as_str v in ok_or (InvalidType "DateTime") (dt_from_string s).

Definition as_u32 (v : Value) : res SerdeError Z :=
  match v with
  | VNumber z => if ((0 <=? z) && (z <=? u32_max))%Z then Ok z else Err (InvalidType "u32")
  | _ => Err (InvalidType "u32")
  end.

Definition events_value (es : list AccountEvent) : Value := VArray (map event_to_value es).

Fixpoint events_from_values (vs : list Value) : res SerdeError (list AccountEvent) :=
  match vs with
  | [] => Ok []
  | v :: rest =>
      let? e := event_from_value v in
      let? es := events_from_values rest in
      Ok (e :: es)
  end.

Definition as_events (v : Value) : res SerdeError (list AccountEvent) :=
  match v with
  | VArray vs => events_from_values vs
  | _ => Err (InvalidType "sequence")
  end.

(** A field of a struct, decoded. *)
Definition read {A} (o : list (string * Value)) (name : string) (decode : Value -> res SerdeError A) :
    res SerdeError A :=
  let? v := get_field name o in decode v.

(** A field of type [Option<_>]: absent or [null] is [None]. *)
Definition read_option {A} (o : list (string * Value)) (name : string)
    (decode : Value -> res SerdeError A) : res SerdeError (option A) :=
  match get_field name o with
  | Ok VNull => Ok None
  | Ok v => let? a := decode v in Ok (Some a)
  | _ => Ok None
  end.

Definition batch_to_value (b : EventBatch) : Value :=
  VObject [("account_id", uuid_value (eb_account_id b)); ("events", events_value (eb_events b));
           ("version", VNumber (eb_version b)); ("timestamp", date_value (eb_timestamp b))].

Definition batch_from_value (v : Value) : res SerdeError EventBatch :=
  let? o := as_object v in
  let? account_id := read o "account_id" as_uuid in
  let? events := read o "events" as_events in
  let? version := read o "version" as_i64 in
  let? timestamp := read o "timestamp" as_date in
  Ok {| eb_account_id := account_id; eb_events := events; eb_version := version;
        eb_timestamp := timestamp |}.

Definition invalidation_name (t : CacheInvalidationType) : string :=
  match t with
  | AccountUpdate => "AccountUpdate"
  | TransactionUpdate => "TransactionUpdate"
  | FullInvalidation => "FullInvalidation"
  | PartialInvalidation => "PartialInvalidation"
  end.

Definition as_invalidation (v : Value) : res SerdeError CacheInvalidationType :=
  let? s := as_str v in
  if String.eqb s "AccountUpdate" then Ok AccountUpdate
  else if String.eqb s "TransactionUpdate" then Ok TransactionUpdate
  else if String.eqb s "FullInvalidation" then Ok FullInvalidation
  else if String.eqb s "PartialInvalidation" then Ok PartialInvalidation
  else Err (UnknownVariant s).

Definition invalidation_to_value (m : CacheInvalidationMessage) : Value :=
  VObject [("account_id", uuid_value (ci_account_id m));
           ("invalidation_type", VString (invalidation_name (ci_invalidation_type m)));
           ("timestamp", date_value (ci_timestamp m)); ("reason", VString (ci_reason m))].

Definition invalidation_from_value (v : Value) : res SerdeError CacheInvalidationMessage :=
  let? o := as_object v in
  let? account_id := read o "account_id" as_uuid in
  let? invalidation_type := read o "invalidation_type" as_invalidation in
  let? timestamp := read o "timestamp" as_date in
  let? reason := read o "reason" as_str in
  Ok {| ci_account_id := account_id; ci_invalidation_type := invalidation_type;
        ci_timestamp := timestamp; ci_reason := reason |}.

Definition letter_to_value (m : DeadLetterMessage) : Value :=
  VObject [("account_id", uuid_value (dm_account_id m)); ("events", events_value (dm_events m));
           ("version", VNumber (dm_version m));
           ("original_timestamp", date_value (dm_original_timestamp m));
           ("failure_reason", VString (dm_failure_reason m));
           ("retry_count", VNumber (dm_retry_count m));
           ("last_retry", match dm_last_retry m with Some t => date_value t | None => VNull end)].

Definition letter_from_value (v : Value) : res SerdeError DeadLetterMessage :=
  let? o := as_object v in
  let? account_id := read o "account_id" as_uuid in
  let? events := read o "events" as_events in
  let? version := read o "version" as_i64 in
  let? original_timestamp := read o "original_timestamp" as_date in
  let? failure_reason := read o "failure_reason" as_str in
  let? retry_count := read o "retry_count" as_u32 in
  let? last_retry := read_option o "last_retry" as_date in
  Ok {| dm_account_id := account_id; dm_events := events; dm_version := version;
        dm_original_timestamp := original_timestamp; dm_failure_reason := failure_reason;
        dm_retry_count := retry_count; dm_last_retry := last_retry |}.

(** ** The producer *)
Record KafkaProducer : Type := { kp_producer : option nat; kp_config : KafkaConfig }.

(** [KafkaProducer::new]. *)
Definition KafkaProducer_new (config : KafkaConfig) : M Cluster BankingKafkaError KafkaProducer :=
  if negb (kc_enabled config) then ret {| kp_producer := None; kp_config := config |}
  else
    let! h := on_err from_kafka (k_create_producer
      [("bootstrap.servers", kc_bootstrap_servers config); ("acks", pretty (kc_producer_acks config));
       ("retries", pretty (kc_producer_retries config))]) in
    ret {| kp_producer := Some h; kp_config := config |}.

(** [if !self.config.enabled || self.producer.is_none() { return Ok(()) }], the
    record, and [map_err(|(e, _)| ProducerError(format!("{:?}", e)))]. *)
Definition produce (p : KafkaProducer) (r : FutureRecord) : M Cluster BankingKafkaError unit :=
  if negb (kc_enabled (kp_config p)) then ret tt
  else
    match kp_producer p with
    | None => ret tt
    | Some h => on_err (fun e => ProducerError (k_debug e)) (k_send h r)
    end.

(** [account_id.as_u128() as i32]. *)
Definition partition_of (id : Uuid) : Z := ((Z.of_N id + 2 ^ 31) mod 2 ^ 32 - 2 ^ 31)%Z.

Definition record (topic : string) (id : Uuid) (v : Value) : FutureRecord :=
  {| fr_topic := topic; fr_key := to_string id; fr_payload := json_to_vec v;
     fr_partition := Some (partition_of id) |}.

(** [KafkaProducer::send_event_batch]. *)
Definition send_event_batch (now : Z) (p : KafkaProducer) (account_id : Uuid)
    (events : list AccountEvent) (version : Z) : M Cluster BankingKafkaError unit :=
  produce p (record (events_topic (kp_config p)) account_id
    (batch_to_value {| eb_account_id := account_id; eb_events := events; eb_version := version;
                       eb_timestamp := now |})).

(** [KafkaProducer::send_cache_update]. *)
Definition send_cache_update (p : KafkaProducer) (account_id : Uuid) (account : Account) :
    M Cluster BankingKafkaError unit :=
  produce p (record (cache_topic (kp_config p)) account_id (account_to_value account)).

(** [KafkaProducer::send_dlq_message]. *)
Definition send_dlq_message (p : KafkaProducer) (message : DeadLetterMessage) :
    M Cluster BankingKafkaError unit :=
  produce p (record (dlq_topic (kp_config p)) (dm_account_id message) (letter_to_value message)).

(** [KafkaProducer::send_cache_invalidation]. *)
Definition send_cache_invalidation (now : Z) (p : KafkaProducer) (account_id : Uuid)
    (invalidation_type : CacheInvalidationType) (reason : string) : M Cluster BankingKafkaError unit :=
  produce p {| fr_topic := kc_cache_invalidation_topic (kp_config p); fr_key := to_string account_id;
               fr_payload := json_to_vec (invalidation_to_value
                 {| ci_account_id := account_id; ci_invalidation_type := invalidation_type;
                    ci_timestamp := now; ci_reason := reason |});
               fr_partition := None |}.

(** ** The consumer *)
Record KafkaConsumer : Type := { kc_consumer : option nat; kc_config : KafkaConfig }.

(** [KafkaConsumer::new]. *)
Definition KafkaConsumer_new (config : KafkaConfig) : M Cluster BankingKafkaError KafkaConsumer :=
  if negb (kc_enabled config) then ret {| kc_consumer := None; kc_config := config |}
  else
    let! h := on_err from_kafka (k_create_consumer
      [("bootstrap.servers", kc_bootstrap_servers config); ("group.id", kc_group_id config);
       ("enable.auto.commit", "false");
       ("max.poll.interval.ms", pretty (kc_consumer_max_poll_interval_ms config));
       ("session.timeout.ms", pretty (kc_consumer_session_timeout_ms config))]) in
    ret {| kc_consumer := Some h; kc_config := config |}.

(** The handle of a consumer that is enabled. *)
Definition handle (c : KafkaConsumer) : option nat :=
  if kc_enabled (kc_config c) then kc_consumer c else None.

Definition subscribe_to (c : KafkaConsumer) (topic : string) : M Cluster BankingKafkaError unit :=
  match handle c with
  | None => ret tt
  | Some h => on_err from_kafka (k_subscribe h [topic])
  end.

(** [KafkaConsumer::subscribe_to_events] and [subscribe_to_cache]. *)
Definition subscribe_to_events (c : KafkaConsumer) : M Cluster BankingKafkaError unit :=
  subscribe_to c (events_topic (kc_config c)).

Definition subscribe_to_cache (c : KafkaConsumer) : M Cluster BankingKafkaError unit :=
  subscribe_to c (cache_topic (kc_config c)).

(** The loop of [get_last_processed_version], for at most [fuel] messages. *)
Fixpoint last_version_loop (fuel : nat) (h : nat) (account_id : Uuid) (version : Z) :
    M Cluster BankingKafkaError Z :=
  match fuel with
  | O => fun c => (Hang, c)
  | S fuel => fun c =>
      match k_next h c with
      | (None, c) => (Ok version, c)
      | (Some (inl e), c) => (Err (from_kafka e), c)
      | (Some (inr msg), c) =>
          let version :=
            match msg_key msg, msg_payload msg with
            | Some key, Some payload =>
                if String.eqb key (to_string account_id) then
                  match (let? v := json_from_slice payload in batch_from_value v) with
                  | Ok batch => eb_version batch
                  | _ => version
                  end
                else version
            | _, _ => version
            end in
          last_version_loop fuel h account_id version c
      end
  end.

(** [KafkaConsumer::get_last_processed_version]. *)
Definition consumer_last_processed_version (fuel : nat) (c : KafkaConsumer) (account_id : Uuid) :
    M Cluster BankingKafkaError Z :=
  match handle c with
  | None => ret 0%Z
  | Some h =>
      on_err from_kafka (k_assign h (events_topic (kc_config c)) 0) ;;;
      last_version_loop fuel h account_id 0
  end.

(** One poll: a message without a payload is an error, [decode] reads the
    payload, and [failed] is the error for what the stream reports. *)
Definition poll {A} (decode : Value -> res SerdeError A) (bad : SerdeError -> BankingKafkaError)
    (failed : KafkaError -> BankingKafkaError) (c : KafkaConsumer) :
    M Cluster BankingKafkaError (option A) :=
  match handle c with
  | None => ret None
  | Some h => fun s =>
      match k_poll h s with
      | (Delivered msg, s) =>
          (let? payload := ok_or (ConsumerError "Empty message payload") (msg_payload msg) in
           let? a := map_err bad (let? v := json_from_slice payload in decode v) in
           Ok (Some a), s)
      | (PollError e, s) => (Err (failed e), s)
      | (StreamEnd, s) => (Ok None, s)
      | (TimedOut, s) => (Ok None, s)
      end
  end.

Definition undecodable (_ : SerdeError) : BankingKafkaError := ConsumerError "Failed to deserialize message".

Definition consumer_error (e : KafkaError) : BankingKafkaError := ConsumerError (to_string e).

(** [KafkaConsumer::poll_events]. *)
Definition poll_events : KafkaConsumer -> M Cluster BankingKafkaError (option EventBatch) :=
  poll batch_from_value undecodable from_kafka.

(** [KafkaConsumer::poll_cache_updates]. *)
Definition poll_cache_updates : KafkaConsumer -> M Cluster BankingKafkaError (option Account) :=
  poll account_from_value undecodable consumer_error.

(** [KafkaConsumer::poll_cache_invalidations]. *)
Definition poll_cache_invalidations :
    KafkaConsumer -> M Cluster BankingKafkaError (option CacheInvalidationMessage) :=
  poll invalidation_from_value from_serde consumer_error.

(** [KafkaConsumer::poll_dlq_message]. *)
Definition poll_dlq_message : KafkaConsumer -> M Cluster BankingKafkaError (option DeadLetterMessage) :=
  poll letter_from_value from_serde consumer_error.

(** ** Lemmas: the messages read back *)
Lemma produce_enabled p r h :
  kc_enabled (kp_config p) = true -> kp_producer p = Some h ->
  produce p r = on_err (fun e => ProducerError (k_debug e)) (k_send h r).
Proof. intros He Hh. unfold produce. by rewrite He, Hh. Qed.

Context `{!SerdeLaws} `{!JsonLaws} `{!DateTimeLaws}.

Lemma as_date_value t : as_date (date_value t) = Ok t.
Proof. unfold as_date, date_value. simpl. by rewrite dt_round_trip. Qed.

Lemma as_events_value es : as_events (events_value es) = Ok es.
Proof.
  unfold as_events, events_value. induction es as [| e es IH]; [ done |]. simpl.
  by rewrite event_round_trip_eq; simpl; rewrite IH.
Qed.

Lemma as_invalidation_value t : as_invalidation (VString (invalidation_name t)) = Ok t.
Proof. by destruct t. Qed.

Ltac decode :=
  unfold read, read_option; cbn -[as_uuid as_events as_date as_invalidation as_i64 as_u32];
  repeat (first [ rewrite as_uuid_value | rewrite as_events_value | rewrite as_date_value
                | rewrite as_invalidation_value ];
          cbn -[as_uuid as_events as_date as_invalidation as_i64 as_u32]).

Lemma batch_round_trip b : batch_from_value (batch_to_value b) = Ok b.
Proof. unfold batch_from_value, batch_to_value. decode. by destruct b. Qed.

Lemma invalidation_round_trip m : invalidation_from_value (invalidation_to_value m) = Ok m.
Proof. unfold invalidation_from_value, invalidation_to_value. decode. by destruct m. Qed.

Lemma letter_round_trip m :
  (0 <= dm_retry_count m <= u32_max)%Z -> letter_from_value (letter_to_value m) = Ok m.
Proof.
  intros Hr. unfold letter_from_value, letter_to_value. decode. unfold as_u32.
  destruct (Z.leb_spec 0 (dm_retry_count m)), (Z.leb_spec (dm_retry_count m) u32_max); try lia.
  simpl. by destruct m as [? ? ? ? ? ? [t |]]; simpl; rewrite ?as_date_value.
Qed.

(** Neither message is read as the other: a batch has no [original_timestamp], a
    dead letter no [timestamp]. *)
Lemma batch_is_no_letter b :
  letter_from_value (batch_to_value b) = Err (MissingField "original_timestamp").
Proof. unfold letter_from_value, batch_to_value. decode. done. Qed.

Lemma letter_is_no_batch m : batch_from_value (letter_to_value m) = Err (MissingField "timestamp").
Proof. unfold batch_from_value, letter_to_value. decode. done. Qed.

(** ** The topics *)
Context `{!KafkaLaws}.

Definition payload_of (id : Uuid) (v : Value) : Message :=
  {| msg_key := Some (to_string id); msg_payload := Some (json_to_vec v) |}.

Definition batch_message (b : EventBatch) : Message := payload_of (eb_account_id b) (batch_to_value b).

Definition letter_message (m : DeadLetterMessage) : Message :=
  payload_of (dm_account_id m) (letter_to_value m).

Definition account_message (id : Uuid) (a : Account) : Message := payload_of id (account_to_value a).

(** A producer that sends. *)
Definition sends (p : KafkaProducer) : Prop :=
  kc_enabled (kp_config p) = true /\ is_Some (kp_producer p).

(** A send: the topic it is for gains the record when it succeeds, and no other
    record in any case; no other topic changes. *)
Lemma produce_ok p r c c' :
  sends p -> produce p r c = (Ok tt, c') ->
  topic_log c' (fr_topic r) = topic_log c (fr_topic r) ++ [message_of r].
Proof.
  intros [He [h Hh] ] Hs. rewrite (produce_enabled _ _ _ He Hh) in Hs. apply on_err_ok in Hs.
  by eapply k_send_ok.
Qed.

Lemma produce_other p r c t :
  t <> fr_topic r -> topic_log (snd (produce p r c)) t = topic_log c t.
Proof.
  intros Hne. unfold produce. destruct (kc_enabled _); [| done ]. destruct (kp_producer p) as [h |]; [| done ].
  simpl. unfold on_err. pose proof (k_send_topic h r c t) as Ht. destruct (k_send h r c). simpl in *.
  by destruct Ht as [Ht | [Ht _] ].
Qed.

Lemma produce_appends p r c c' :
  produce p r c = (Ok tt, c') ->
  topic_log c' (fr_topic r) = topic_log c (fr_topic r) \/
  topic_log c' (fr_topic r) = topic_log c (fr_topic r) ++ [message_of r].
Proof.
  unfold produce, ret. destruct (kc_enabled _); simpl; [| intros; simplify_eq; by left ].
  destruct (kp_producer p) as [h |]; [| intros; simplify_eq; by left ].
  intros Hs%on_err_ok. right. by eapply k_send_ok.
Qed.

Lemma produce_subscribed p r c n : subscribed (snd (produce p r c)) n = subscribed c n.
Proof.
  unfold produce. destruct (kc_enabled _); [| done ]. destruct (kp_producer p) as [h |]; [| done ].
  simpl. unfold on_err. pose proof (k_send_subscribed h r c n) as Ht. by destruct (k_send h r c).
Qed.

(** What a poll answers, when every record of the consumer's topics has the form
    [enc a]. *)
Lemma poll_reads {A X} (decode : Value -> res SerdeError A) bad failed cons h c c' o t
    (enc : X -> Message) (xs : list X) :
  handle cons = Some h -> subscribed c h = [t] -> topic_log c t = map enc xs ->
  poll decode bad failed cons c = (Ok (Some o), c') ->
  exists x payload, x ∈ xs /\ msg_payload (enc x) = Some payload /\
    (let? v := json_from_slice payload in decode v) = Ok o.
Proof.
  intros Hh Hsub Hlog. unfold poll. rewrite Hh.
  destruct (k_poll h c) as [ [msg | e | | ] c1] eqn:Hp; intros; simplify_eq/=.
  destruct (k_poll_msg _ _ _ _ Hp) as (t' & Ht' & Hin). rewrite Hsub in Ht'.
  apply list_elem_of_singleton in Ht' as ->. rewrite Hlog in Hin.
  apply list_elem_of_In, in_map_iff in Hin as (x & <- & Hx%list_elem_of_In).
  destruct (msg_payload (enc x)) as [payload |] eqn:Hpay; [| done ]. simpl in *.
  destruct (res_bind (json_from_slice payload) decode) as [a | | | ] eqn:Hdec; simplify_eq/=.
  exists x, payload. done.
Qed.

(** C25. A batch that was sent is polled as it was sent: a send that reports
    success puts exactly that batch at the end of the events topic, and a
    consumer of the topic is handed, batch for batch, what was sent, account,
    events, version and time. *)
Theorem polled_batches_were_sent p now id es v c c1 bs cons h c2 b c3 :
  sends p -> topic_log c (events_topic (kp_config p)) = map batch_message bs ->
  send_event_batch now p id es v c = (Ok tt, c1) ->
  let sent := bs ++ [ {| eb_account_id := id; eb_events := es; eb_version := v; eb_timestamp := now |} ] in
  topic_log c1 (events_topic (kp_config p)) = map batch_message sent /\
  (handle cons = Some h -> subscribed c2 h = [events_topic (kp_config p)] ->
   topic_log c2 (events_topic (kp_config p)) = map batch_message sent ->
   poll_events cons c2 = (Ok (Some b), c3) -> b ∈ sent).
Proof.
  intros Hp Hlog Hsend sent. split.
  - apply (produce_ok _ _ _ _ Hp) in Hsend. simpl in Hsend. rewrite Hsend, Hlog.
    unfold sent. by rewrite map_app.
  - intros Hh Hsub Hlog2 Hpoll.
    destruct (poll_reads _ _ _ _ _ _ _ _ _ _ _ Hh Hsub Hlog2 Hpoll) as (x & payload & Hx & Hpay & Hdec).
    simplify_eq/=. rewrite json_round_trip in Hdec. simpl in Hdec. rewrite batch_round_trip in Hdec.
    by simplify_eq.
Qed.

(** A consumer of batches is never handed a dead letter. *)
Lemma no_letter_among_batches cons h c t bs o c' :
  handle cons = Some h -> subscribed c h = [t] -> topic_log c t = map batch_message bs ->
  poll_dlq_message cons c = (Ok o, c') -> o = None.
Proof.
  intros Hh Hsub Hlog Hpoll. destruct o as [m |]; [| done ].
  destruct (poll_reads _ _ _ _ _ _ _ _ _ _ _ Hh Hsub Hlog Hpoll) as (x & payload & Hx & Hpay & Hdec).
  simplify_eq/=. rewrite json_round_trip in Hdec. simpl in Hdec. by rewrite batch_is_no_letter in Hdec.
Qed.

(** ** Partitions *)
Lemma partition_fits id n :
  (0 < n < 2 ^ 31)%Z ->
  (partition_of id = -1 \/ 0 <= partition_of id < n)%Z <->
  (Z.of_N id mod 2 ^ 32 = 2 ^ 32 - 1 \/ Z.of_N id mod 2 ^ 32 < n)%Z.
Proof.
  intros Hn. unfold partition_of.
  pose proof (Z.mod_pos_bound (Z.of_N id) (2 ^ 32) ltac:(lia)) as Hr.
  set (r := (Z.of_N id mod 2 ^ 32)%Z) in *.
  assert ((Z.of_N id + 2 ^ 31) mod 2 ^ 32 = (r + 2 ^ 31) mod 2 ^ 32)%Z as ->.
  { unfold r. by rewrite Zplus_mod_idemp_l. }
  destruct (Z.lt_ge_cases (r + 2 ^ 31) (2 ^ 32)).
  - rewrite Z.mod_small by lia. lia.
  - replace ((r + 2 ^ 31) mod 2 ^ 32)%Z with (r + 2 ^ 31 - 2 ^ 32)%Z; [ lia |].
    apply (Z.mod_unique_pos _ _ 1); lia.
Qed.

(** The partition is the identifier's low 32 bits, so an account can be
    sent about only when they are less than the number of partitions of the
    topic (or all ones, which librdkafka reads as "any"): a send of a batch, a
    cache update or a dead letter for any other account fails. *)
Theorem sends_only_for_low_identifiers p id now es v a m c :
  sends p -> dm_account_id m = id ->
  (forall t, 0 < partitions c t < 2 ^ 31)%Z ->
  (forall t, partitions c t <= Z.of_N id mod 2 ^ 32 < 2 ^ 32 - 1)%Z ->
  is_ok (fst (send_event_batch now p id es v c)) = false /\
  is_ok (fst (send_cache_update p id a c)) = false /\
  is_ok (fst (send_dlq_message p m c)) = false.
Proof.
  intros [He [h Hh] ] <- Hn Hid.
  assert (forall t v, is_ok (fst (produce p (record t (dm_account_id m) v) c)) = false) as Hno.
  { intros t v0. rewrite (produce_enabled _ _ _ He Hh). unfold on_err.
    destruct (k_send h _ c) as [ [ [] | e | | ] c'] eqn:Hs; try done.
    pose proof (k_send_partition _ _ _ _ _ Hs eq_refl) as Hpart. simpl in Hpart.
    apply partition_fits in Hpart; [| done ]. specialize (Hid t). lia. }
  split_and!; apply Hno.
Qed.

End Kafka.

(** ** Witnesses: topics in memory, some of them down *)
Module KafkaWitness.
Import ScaleZero PlainSerde CacheWitness.

#[export] Instance dates : DateTimeText := {|
  dt_to_string := fun t => NilEmpty.string_of_int (Z.to_int t);
  dt_from_string := fun s => option_map Z.of_int (NilEmpty.int_of_string s)
|}.

#[export] Instance dates_laws : DateTimeLaws.
Proof. intros t. simpl. by rewrite NilEmpty.isi; simpl; rewrite DecimalZ.of_to. Qed.

#[export] Instance uuids : Display Uuid := uuid_to_string.

Record memory : Type := {
  logs : gmap string (list Message);
  subscriptions : gmap nat (list string);
  positions : gmap nat nat;
  down : list string
}.

Definition log_of (c : memory) (t : string) : list Message := default [] (logs c !! t).

Definition fits (p : option Z) : bool :=
  match p with
  | Some p => ((p =? -1) || (0 <=? p) && (p <? 16))%Z
  | None => true
  end.

Definition mem_send (h : nat) (r : FutureRecord) : M memory KafkaError unit := fun c =>
  if fits (fr_partition r) && negb (bool_decide (fr_topic r ∈ down c))
  then (Ok tt, {| logs := <[fr_topic r := log_of c (fr_topic r) ++ [message_of r]]> (logs c);
                  subscriptions := subscriptions c; positions := positions c; down := down c |})
  else (Err (MessageProduction "unknown partition"), c).

Definition mem_subscribe (h : nat) (ts : list string) : M memory KafkaError unit :=
  modify (fun c => {| logs := logs c; subscriptions := <[h := ts]> (subscriptions c);
                      positions := positions c; down := down c |}).

(** The next record of the consumer's topics, one topic after the other. *)
Definition mem_records (c : memory) (h : nat) : list Message :=
  flat_map (log_of c) (default [] (subscriptions c !! h)).

Definition mem_poll (h : nat) (c : memory) : Polled * memory :=
  let n := default 0 (positions c !! h) in
  match mem_records c h !! n with
  | Some m => (Delivered m, {| logs := logs c; subscriptions := subscriptions c;
                               positions := <[h := S n]> (positions c); down := down c |})
  | None => (TimedOut, c)
  end.

Definition mem_next (h : nat) (c : memory) : option (KafkaError + Message) * memory :=
  match mem_poll h c with
  | (Delivered m, c') => (Some (inr m), c')
  | (_, c') => (Some (inl (OtherKafkaError "disconnected")), c')
  end.

#[export] Instance broker : KafkaClient := {|
  Cluster := memory;
  k_create_producer := fun _ => ret 0;
  k_create_consumer := fun _ => ret 0;
  k_send := mem_send;
  k_subscribe := mem_subscribe;
  k_assign := fun h t _ => mem_subscribe h [t];
  k_poll := mem_poll;
  k_next := mem_next;
  k_debug := fun _ => "error";
  k_display := fun _ => "error"
|}.

#[export] Instance broker_laws : KafkaLaws.
Proof.
  refine {| topic_log := log_of : @Cluster _ broker -> string -> list Message;
            subscribed := (fun c h => default [] (subscriptions c !! h)) : @Cluster _ broker -> nat -> list string;
            partitions := fun (_ : @Cluster _ broker) _ => 16%Z |}; simpl.
  - intros h r c t. unfold mem_send. destruct (_ && _); simpl; [| by left ].
    unfold log_of. simpl. destruct (decide (t = fr_topic r)) as [-> | Hne].
    + right. by rewrite lookup_insert_eq.
    + left. by rewrite lookup_insert_ne.
  - intros h r c c' Hs. unfold mem_send in Hs. destruct (_ && _); simplify_eq. unfold log_of. simpl.
    by rewrite lookup_insert_eq.
  - intros h r c c' p Hs Hp. unfold mem_send, fits in Hs. rewrite Hp in Hs.
    destruct (Z.eqb_spec p (-1)), (Z.leb_spec 0 p), (Z.ltb_spec p 16); simplify_eq/=; lia.
  - intros h r c n. unfold mem_send. by destruct (_ && _).
  - intros h ts c c' Hs. unfold mem_subscribe, modify in Hs. simplify_eq/=. by rewrite lookup_insert_eq.
  - intros h c t n. unfold mem_poll. by destruct (mem_records c h !! _).
  - intros h c m c' Hp. unfold mem_poll in Hp. destruct (mem_records c h !! _) as [m' |] eqn:Hm; simplify_eq.
    apply list_elem_of_lookup_2, list_elem_of_In, in_flat_map in Hm as (t & Ht & Hin).
    exists t. by rewrite !list_elem_of_In.
  - intros h c. unfold mem_next, mem_poll. by destruct (mem_records c h !! _); eexists.
Defined.

Definition cluster (down : list string) : @Cluster _ broker :=
  {| logs := ∅; subscriptions := ∅; positions := ∅; down := down |}.

Definition producer : KafkaProducer := {| kp_producer := Some 0; kp_config := KafkaConfig_default |}.
Definition consumer : KafkaConsumer := {| kc_consumer := Some 0; kc_config := KafkaConfig_default |}.

#[export] Instance serde_text : Display SerdeError := fun _ => "serde".

Lemma producer_sends : sends producer.
Proof. split; [ done | by eexists ]. Qed.

Definition deposit : AccountEvent := EvMoneyDeposited 1%N (amt 10) 7%N.

Definition sent_one : @Cluster _ broker :=
  snd (send_event_batch 100 producer 1%N [deposit] 2 (cluster [])).

Definition listening : @Cluster _ broker := snd (subscribe_to_events consumer sent_one).

Definition the_batch : EventBatch :=
  {| eb_account_id := 1%N; eb_events := [deposit]; eb_version := 2; eb_timestamp := 100 |}.

Lemma polled_batches_were_sent_witness :
  topic_log sent_one "banking-es-events" = [batch_message the_batch] /\
  fst (poll_events consumer listening) = Ok (Some the_batch) /\ the_batch ∈ [the_batch].
Proof.
  destruct (polled_batches_were_sent producer 100 1%N [deposit] 2 (cluster []) sent_one [] consumer 0
              listening the_batch (snd (poll_events consumer listening)) producer_sends)
    as [Hlog Hpoll].
  { reflexivity. }
  { apply injective_projections; reflexivity. }
  split; [ exact Hlog |]. split; [ reflexivity |].
  apply Hpoll; [ reflexivity.. |]. apply injective_projections; reflexivity.
Defined.

(** Sixteen partitions, and an account that ends in 0x00000010. *)
Lemma sends_only_for_low_identifiers_witness :
  is_ok (fst (send_event_batch 0 producer (2 ^ 64 + 16)%N [deposit] 2 (cluster []))) = false.
Proof.
  apply (sends_only_for_low_identifiers producer (2 ^ 64 + 16)%N 0 [deposit] 2
           (Account_default 1%N)
           {| dm_account_id := (2 ^ 64 + 16)%N; dm_events := []; dm_version := 0;
              dm_original_timestamp := 0; dm_failure_reason := ""; dm_retry_count := 0;
              dm_last_retry := None |} (cluster []) producer_sends);
    [ reflexivity | intros t; simpl; lia | intros t; simpl; vm_compute; split; congruence ].
Defined.

End KafkaWitness.
