(* ===== verification/KafkaDlq.v ===== *)
(** The dead-letter queue (src/src/infrastructure/kafka_dlq.rs) and the state the
    Kafka components share.

    [World] is that state: the cluster behind the producer and the consumer, the
    metrics, the stores behind their traits and the recovery's own state; the
    components hold clones and [Arc]s of them.  [w_slept] records the delays, in
    milliseconds.  Errors are [anyhow] errors, their texts.  [process_dlq] is the
    method of the struct, which loops for ever; its loop is cut after [fuel]
    turns, with the result [Hang].  [trait_process_dlq] is the method of
    [DeadLetterQueueTrait], which takes one message. *)
From S2P Require Import Prelude.
From S2P Require Import DecimalSpec.
From S2P Require Import Account.
From S2P Require Import Codec.
From S2P Require Import EventsDb.
From S2P Require Import EventStore.
From S2P Require Import EventStoreFacts.
From S2P Require Import Repository.
From S2P Require Import Handlers.
From S2P Require Import Cache.
From S2P Require Import Service.
From S2P Require Import KafkaClient.
From stdpp Require Import base tactics list gmap strings.
From Stdlib Require Import ZArith Lia.

(** [RecoveryState] of kafka_recovery.rs. *)
Record RecoveryState : Type := {
  rs_is_recovering : bool;
  rs_last_processed_offset : Z;
  rs_recovery_start_time : option Z;
  rs_accounts_in_recovery : list Uuid
}.

Definition RecoveryState_default : RecoveryState :=
  {| rs_is_recovering := false; rs_last_processed_offset := 0; rs_recovery_start_time := None;
     rs_accounts_in_recovery := [] |}.

(** [2u32.pow(n)]: an operator on integers, which wraps. *)
Definition pow2_u32 (n : Z) : Z := wrap_u32 (2 ^ n).

Definition duration_max : Z := u64_max * 1000 + 999.

(** A duration times a [u32]: panics on overflow. *)
Definition mul_duration {E} (d k : Z) : res E Z :=
  if (d * k <=? duration_max)%Z then Ok (d * k)%Z else Panic.

Section Dlq.
Context `{SerdeOps} `{KafkaClient} `{DateTimeText}.
Context `{!Display SqlxError, !Display SerdeError, !Display Uuid}.
Context `{!EventStoreTrait} `{!ProjectionStoreTrait} `{!CacheServiceTrait}.

Record World : Type := {
  w_cluster : Cluster;
  w_metrics : KafkaMetrics;
  w_slept : list Z;
  w_store : Store;
  w_projections : Proj;
  w_cache : CacheState;
  w_recovery : RecoveryState
}.

Definition put_cluster (c : Cluster) (w : World) : World :=
  {| w_cluster := c; w_metrics := w_metrics w; w_slept := w_slept w; w_store := w_store w;
     w_projections := w_projections w; w_cache := w_cache w; w_recovery := w_recovery w |}.

Definition put_metrics (m : KafkaMetrics) (w : World) : World :=
  {| w_cluster := w_cluster w; w_metrics := m; w_slept := w_slept w; w_store := w_store w;
     w_projections := w_projections w; w_cache := w_cache w; w_recovery := w_recovery w |}.

Definition put_slept (l : list Z) (w : World) : World :=
  {| w_cluster := w_cluster w; w_metrics := w_metrics w; w_slept := l; w_store := w_store w;
     w_projections := w_projections w; w_cache := w_cache w; w_recovery := w_recovery w |}.

Definition put_store (s : Store) (w : World) : World :=
  {| w_cluster := w_cluster w; w_metrics := w_metrics w; w_slept := w_slept w; w_store := s;
     w_projections := w_projections w; w_cache := w_cache w; w_recovery := w_recovery w |}.

Definition put_projections (p : Proj) (w : World) : World :=
  {| w_cluster := w_cluster w; w_metrics := w_metrics w; w_slept := w_slept w; w_store := w_store w;
     w_projections := p; w_cache := w_cache w; w_recovery := w_recovery w |}.

Definition put_cache_state (c : CacheState) (w : World) : World :=
  {| w_cluster := w_cluster w; w_metrics := w_metrics w; w_slept := w_slept w; w_store := w_store w;
     w_projections := w_projections w; w_cache := c; w_recovery := w_recovery w |}.

Definition put_recovery (r : RecoveryState) (w : World) : World :=
  {| w_cluster := w_cluster w; w_metrics := w_metrics w; w_slept := w_slept w; w_store := w_store w;
     w_projections := w_projections w; w_cache := w_cache w; w_recovery := r |}.

(** Calls of the client and the stores, with [?]. *)
Definition on_cluster {A} (m : M Cluster BankingKafkaError A) : M World string A :=
  on_err to_string (zoom w_cluster put_cluster m).

Definition on_event_store {A} (m : M Store EventStoreError A) : M World string A :=
  on_err to_string (zoom w_store put_store m).

Definition on_projections {A} (m : M Proj string A) : M World string A :=
  zoom w_projections put_projections m.

Definition on_cache_service {A} (m : M CacheState string A) : M World string A :=
  zoom w_cache put_cache_state m.

Definition count {E} (c : Counter) (n : Z) : M World E unit :=
  modify (fun w => put_metrics (fetch_add c n (w_metrics w)) w).

Definition sleep {E} (d : Z) : M World E unit := modify (fun w => put_slept (w_slept w ++ [d]) w).

(** ** The queue *)
Record DeadLetterQueue : Type := {
  dq_producer : KafkaProducer;
  dq_consumer : KafkaConsumer;
  dq_max_retries : Z;
  dq_initial_retry_delay : Z
}.

Definition DeadLetterQueue_new (producer : KafkaProducer) (consumer : KafkaConsumer)
    (max_retries initial_retry_delay : Z) : DeadLetterQueue :=
  {| dq_producer := producer; dq_consumer := consumer; dq_max_retries := max_retries;
     dq_initial_retry_delay := initial_retry_delay |}.

Definition new_letter (now : Z) (account_id : Uuid) (events : list AccountEvent) (version : Z)
    (failure_reason : string) : DeadLetterMessage :=
  {| dm_account_id := account_id; dm_events := events; dm_version := version;
     dm_original_timestamp := now; dm_failure_reason := failure_reason; dm_retry_count := 0;
     dm_last_retry := None |}.

(** [DeadLetterQueue::send_to_dlq], and the trait's, which does not count. *)
Definition send_to_dlq (now : Z) (q : DeadLetterQueue) (account_id : Uuid)
    (events : list AccountEvent) (version : Z) (failure_reason : string) : M World string unit :=
  on_cluster (send_dlq_message (dq_producer q)
    (new_letter now account_id events version failure_reason)) ;;;
  count dlq_messages 1.

Definition trait_send_to_dlq (now : Z) (q : DeadLetterQueue) (account_id : Uuid)
    (events : list AccountEvent) (version : Z) (failure_reason : string) : M World string unit :=
  on_cluster (send_dlq_message (dq_producer q)
    (new_letter now account_id events version failure_reason)).

(** [DeadLetterQueue::retry_message]. *)
Definition retry_message (now : Z) (q : DeadLetterQueue) (message : DeadLetterMessage) :
    M World string unit :=
  on_cluster (send_event_batch now (dq_producer q) (dm_account_id message) (dm_events message)
    (dm_version message)).

(** [self.initial_retry_delay * 2u32.pow(message.retry_count)]. *)
Definition backoff {E} (q : DeadLetterQueue) (message : DeadLetterMessage) : res E Z :=
  mul_duration (dq_initial_retry_delay q) (pow2_u32 (dm_retry_count message)).

(** [updated_message], with [retry_count += 1] below [max_retries]. *)
Definition next_letter (now : Z) (message : DeadLetterMessage) : DeadLetterMessage :=
  {| dm_account_id := dm_account_id message; dm_events := dm_events message;
     dm_version := dm_version message; dm_original_timestamp := dm_original_timestamp message;
     dm_failure_reason := dm_failure_reason message;
     dm_retry_count := wrap_u32 (dm_retry_count message + 1); dm_last_retry := Some now |}.

(** One turn of the loop of [process_dlq]. *)
Definition dlq_turn (now : Z) (q : DeadLetterQueue) : M World string unit :=
  let! polled := on_cluster (poll_dlq_message (dq_consumer q)) in
  match polled with
  | None => ret tt
  | Some message =>
      if (dq_max_retries q <=? dm_retry_count message)%Z then ret tt
      else
        count dlq_retries 1 ;;;
        let! delay := lift (backoff q message) in
        sleep delay ;;;
        let! retried := attempt (retry_message now q message) in
        match (retried : string + unit) with
        | inr _ => count dlq_retry_success 1
        | inl _ =>
            count dlq_retry_failures 1 ;;;
            on_cluster (send_dlq_message (dq_producer q) (next_letter now message))
        end
  end.

(** [DeadLetterQueue::process_dlq]; [clock] gives the time of each turn. *)
Fixpoint process_dlq (fuel : nat) (clock : nat -> Z) (q : DeadLetterQueue) : M World string unit :=
  match fuel with
  | O => fun w => (Hang, w)
  | S fuel => dlq_turn (clock fuel) q ;;; process_dlq fuel clock q
  end.

(** [process_dlq] of [DeadLetterQueueTrait]. *)
Definition trait_process_dlq (now : Z) (q : DeadLetterQueue) : M World string unit :=
  let! polled := on_cluster (poll_dlq_message (dq_consumer q)) in
  match polled with
  | None => ret tt
  | Some message =>
      if (dq_max_retries q <=? dm_retry_count message)%Z then ret tt
      else
        let! delay := lift (backoff q message) in
        sleep delay ;;;
        retry_message now q message
  end.

(** ** What a turn does *)
Context `{!KafkaLaws}.

Lemma topics_differ (prefix a b : string) : a <> b -> prefix +:+ a <> prefix +:+ b.
Proof. intros Hne. induction prefix as [| x prefix IH]; simpl; [ done |]. by intros [=]. Qed.

Lemma snoc_neq {A} (l : list A) x : l <> l ++ [x].
Proof. intros Heq%(f_equal length). rewrite length_app in Heq. simpl in Heq. lia. Qed.

Lemma dlq_is_not_events c : dlq_topic c <> events_topic c.
Proof. by apply topics_differ. Qed.

Definition dlq_log (q : DeadLetterQueue) (w : World) : list Message :=
  topic_log (w_cluster w) (dlq_topic (kp_config (dq_producer q))).

Lemma on_cluster_ok {A} (m : M Cluster BankingKafkaError A) w a w' :
  on_cluster m w = (Ok a, w') -> exists c, m (w_cluster w) = (Ok a, c) /\ w' = put_cluster c w.
Proof.
  intros Hm%on_err_ok. unfold zoom in Hm. destruct (m (w_cluster w)) as [r c]. simplify_eq. eauto.
Qed.

Lemma poll_logs {A} (decode : Value -> res SerdeError A) bad failed cons c t :
  topic_log (snd (poll decode bad failed cons c)) t = topic_log c t.
Proof.
  unfold poll. destruct (handle cons) as [h |]; [| done ].
  pose proof (k_poll_keeps h c t 0) as [Hk _]. by destruct (k_poll h c) as [ [] ?].
Qed.

Lemma retry_keeps_dlq now q m w : dlq_log q (snd (retry_message now q m w)) = dlq_log q w.
Proof.
  unfold retry_message, on_cluster, on_err, zoom, dlq_log.
  pose proof (produce_other (dq_producer q)
    (record (events_topic (kp_config (dq_producer q))) (dm_account_id m)
       (batch_to_value {| eb_account_id := dm_account_id m; eb_events := dm_events m;
                          eb_version := dm_version m; eb_timestamp := now |}))
    (w_cluster w) _ (dlq_is_not_events _)) as Hp.
  unfold send_event_batch. by destruct (produce _ _ _).
Qed.

(** A turn that polls [m] and leaves another letter on the topic. *)
Lemma turn_requeues now q w m c w' d x :
  poll_dlq_message (dq_consumer q) (w_cluster w) = (Ok (Some m), c) ->
  dlq_turn now q w = (Ok tt, w') ->
  w_slept w' = w_slept w ++ [d] -> dlq_log q w' = dlq_log q w ++ [x] ->
  (dm_retry_count m < dq_max_retries q)%Z /\ backoff (E := string) q m = Ok d /\
  x = letter_message (next_letter now m).
Proof.
  intros Hpoll Hturn Hslept Hlog. unfold dlq_turn in Hturn.
  apply bind_ok in Hturn as (o & w1 & (c1 & Hp & ->)%on_cluster_ok & Hk). rewrite Hpoll in Hp. simplify_eq.
  assert (dlq_log q (put_cluster c1 w) = dlq_log q w) as Hkeep.
  { unfold dlq_log. simpl. pose proof (poll_logs letter_from_value from_serde consumer_error (dq_consumer q)
      (w_cluster w) (dlq_topic (kp_config (dq_producer q)))) as Hl. unfold poll_dlq_message in Hpoll.
    by rewrite Hpoll in Hl. }
  destruct (Z.leb_spec (dq_max_retries q) (dm_retry_count m)).
  { unfold ret in Hk. simplify_eq. by destruct (snoc_neq (w_slept w) d). }
  split; [ done |]. unfold count at 1 in Hk. rewrite modify_step in Hk. apply bind_ok in Hk as (delay & w2 & Hd & Hk).
  unfold lift in Hd. assert (backoff (E := string) q m = Ok delay) as Hdelay by congruence.
  injection Hd as _ <-.
  unfold sleep in Hk. rewrite modify_step in Hk.
  apply bind_ok in Hk as (retried & w3 & Hr & Hk).
  match type of Hr with attempt _ ?w0 = _ =>
    pose proof (retry_keeps_dlq now q m w0) as Hrk; unfold attempt in Hr;
    assert (w_slept (snd (retry_message now q m w0)) = w_slept w ++ [delay]) as Hrs
      by (unfold retry_message, on_cluster, on_err, zoom; by destruct (send_event_batch _ _ _ _ _ _));
    destruct (retry_message now q m w0) as [ [u | e | | ] w4] end; simplify_eq/=.
  - unfold count, modify in Hk. simplify_eq. unfold dlq_log in *. simpl in *. rewrite Hrk, Hkeep in Hlog. by apply snoc_neq in Hlog.
  - unfold count in Hk. rewrite modify_step in Hk.
    apply on_cluster_ok in Hk as (c4 & Hs & ->). unfold dlq_log in *. simpl in *.
    split; [ rewrite Hrs in Hslept; apply app_inj_2 in Hslept as [_ Hslept]; [ by simplify_eq | done ] |].
    destruct (produce_appends _ _ _ _ Hs) as [Hsame | Happ]; simpl in *.
    + rewrite Hsame, Hrk, Hkeep in Hlog. by apply snoc_neq in Hlog.
    + rewrite Happ, Hrk, Hkeep in Hlog. by apply app_inj_2 in Hlog as [_ [= <-]].
Qed.

(** ** The life of a dead letter *)
Context `{!SerdeLaws} `{!JsonLaws} `{!DateTimeLaws}.

(** [retry_count] is a [u32]. *)
Definition letter_typed (m : DeadLetterMessage) : Prop := (0 <= dm_retry_count m <= u32_max)%Z.

Lemma letter_message_inj m n :
  letter_typed m -> letter_typed n -> letter_message m = letter_message n -> m = n.
Proof.
  intros Hm Hn Heq. assert (json_to_vec (letter_to_value m) = json_to_vec (letter_to_value n)) as Hj
    by (unfold letter_message, payload_of in Heq; congruence).
  apply (f_equal json_from_slice) in Hj. rewrite !json_round_trip in Hj.
  apply (f_equal (fun r => res_bind r letter_from_value)) in Hj. cbn [res_bind] in Hj.
  rewrite !letter_round_trip in Hj by done. congruence.
Qed.

(** A turn of the loop polls [m], waits [d] and puts [m'] on the topic. *)
Definition requeues (q : DeadLetterQueue) (m : DeadLetterMessage) (d : Z) (m' : DeadLetterMessage) : Prop :=
  letter_typed m' /\
  exists now w c w',
    poll_dlq_message (dq_consumer q) (w_cluster w) = (Ok (Some m), c) /\
    dlq_turn now q w = (Ok tt, w') /\ w_slept w' = w_slept w ++ [d] /\
    dlq_log q w' = dlq_log q w ++ [letter_message m'].

(** Retry after retry, with the delays waited. *)
Inductive retry_chain (q : DeadLetterQueue) : DeadLetterMessage -> list Z -> DeadLetterMessage -> Prop :=
| chain_done m : retry_chain q m [] m
| chain_retry m d m1 ds m' : requeues q m d m1 -> retry_chain q m1 ds m' -> retry_chain q m (d :: ds) m'.

Definition same_work (m m' : DeadLetterMessage) : Prop :=
  dm_account_id m' = dm_account_id m /\ dm_events m' = dm_events m /\ dm_version m' = dm_version m.

Lemma wrap_u32_typed z : (0 <= wrap_u32 z <= u32_max)%Z.
Proof. unfold wrap_u32, u32_max. pose proof (Z.mod_pos_bound z (2 ^ 32)). lia. Qed.

Lemma requeues_next q m d m' :
  (dq_max_retries q <= u32_max)%Z -> (0 <= dm_retry_count m)%Z -> requeues q m d m' ->
  (dm_retry_count m < dq_max_retries q)%Z /\ dm_retry_count m' = (dm_retry_count m + 1)%Z /\
  d = (dq_initial_retry_delay q * pow2_u32 (dm_retry_count m))%Z /\ same_work m m'.
Proof.
  intros Hmax Hr (Hty & now & w & c & w' & Hpoll & Hturn & Hs & Hl).
  destruct (turn_requeues _ _ _ _ _ _ _ _ Hpoll Hturn Hs Hl) as (Hlt & Hd & Hm').
  apply letter_message_inj in Hm' as ->; [| done | apply wrap_u32_typed ]. split_and!; [ done | | | done ].
  - simpl. unfold wrap_u32, u32_max in *. rewrite Z.mod_small; lia.
  - unfold backoff, mul_duration in Hd. by destruct (_ <=? _)%Z; simplify_eq.
Qed.

Lemma retry_chain_bounded q m ds m' :
  (dq_max_retries q <= u32_max)%Z -> (0 <= dm_retry_count m <= dq_max_retries q)%Z ->
  retry_chain q m ds m' ->
  (dm_retry_count m + Z.of_nat (length ds) <= dq_max_retries q)%Z /\
  ds = map (fun k => dq_initial_retry_delay q * pow2_u32 k)%Z
         (seqZ (dm_retry_count m) (Z.of_nat (length ds))) /\
  dm_retry_count m' = (dm_retry_count m + Z.of_nat (length ds))%Z /\ same_work m m'.
Proof.
  intros Hmax Hr Hc. induction Hc as [m | m d m1 ds m' Hq Hc IH]; [ simpl; split_and!; lia || done |].
  destruct (requeues_next q m d m1 Hmax ltac:(lia) Hq) as (Hlt & Hn & -> & Hw).
  destruct IH as (Hlen & Hds & Hlast & Hw'); [ lia |]. rewrite Hn in *.
  cbn [length]. split_and!; [ lia | | lia | unfold same_work in *; intuition congruence ].
  rewrite seqZ_cons by lia. cbn [map]. f_equal. rewrite Hds at 1. f_equal. f_equal; lia.
Qed.

(** C26. A dead letter is retried at most [max_retries] times, whatever fails and
    whatever else the queue holds: along any chain of turns that poll a letter
    and put it back the delays are the initial delay, twice it, four times it
    and so on (from the 32nd on the factor, a [u32], has wrapped to zero), there
    are no more of them than [max_retries], and the letter keeps its account,
    events and version. *)
Theorem dead_letter_retries_bounded q m ds m' :
  (0 <= dq_max_retries q <= u32_max)%Z -> dm_retry_count m = 0%Z -> retry_chain q m ds m' ->
  (Z.of_nat (length ds) <= dq_max_retries q)%Z /\
  ds = map (fun k => dq_initial_retry_delay q * pow2_u32 k)%Z (seqZ 0 (Z.of_nat (length ds))) /\
  dm_retry_count m' = Z.of_nat (length ds) /\
  dm_account_id m' = dm_account_id m /\ dm_events m' = dm_events m /\ dm_version m' = dm_version m.
Proof.
  intros Hmax Hz Hc. destruct (retry_chain_bounded q m ds m' ltac:(lia) ltac:(lia) Hc) as (Hl & Hd & Hn & Hw).
  rewrite Hz in *. split_and!; [ lia | done | lia | apply Hw.. ].
Qed.

(** ** Completion *)

(** [process_dlq] never completes: whatever the queue holds, no run of it
    returns [Ok]; it goes on for ever or ends with an error.  So the recovery
    strategy that calls it never reports success either. *)
Theorem process_dlq_never_completes fuel clock q w :
  is_ok (fst (process_dlq fuel clock q w)) = false.
Proof.
  revert w. induction fuel as [| fuel IH]; intros w; [ done |]. simpl. unfold bind.
  by destruct (dlq_turn (clock fuel) q w) as [ [ [] | e | | ] w1].
Qed.

(** The dead letters are never read: the queue polls the consumer that is
    subscribed to the events, so on a topic of batches it finds no letter; a
    call of the trait's [process_dlq] then ends without a retry or fails, and
    no turn of the loop waits, sends or counts anything. *)
Theorem dead_letters_never_read now q h w bs :
  handle (dq_consumer q) = Some h ->
  subscribed (w_cluster w) h = [events_topic (kc_config (dq_consumer q))] ->
  topic_log (w_cluster w) (events_topic (kc_config (dq_consumer q))) = map batch_message bs ->
  (exists c, snd (trait_process_dlq now q w) = put_cluster c w /\
     forall t, topic_log c t = topic_log (w_cluster w) t) /\
  snd (dlq_turn now q w) = snd (trait_process_dlq now q w).
Proof.
  intros Hh Hsub Hlog. unfold trait_process_dlq, dlq_turn, bind, on_cluster, on_err, zoom.
  pose proof (fun o c' => no_letter_among_batches (dq_consumer q) h (w_cluster w) _ bs o c' Hh Hsub Hlog) as Hno.
  pose proof (poll_logs letter_from_value from_serde consumer_error (dq_consumer q) (w_cluster w)) as Hl.
  fold poll_dlq_message in Hl.
  destruct (poll_dlq_message (dq_consumer q) (w_cluster w)) as [ [o | e | | ] c] eqn:Hp; simpl in *;
    [ rewrite (Hno o c eq_refl) in *; simpl | ..]; (split; [ eauto | done ]).
Qed.

End Dlq.

(** ** Witnesses: the events topic is down *)
Module DlqWitness.
Import ScaleZero PlainSerde StoreWitness LogStore HandlersWitness ServiceWitness CacheWitness KafkaWitness.

Definition world (c : @Cluster _ broker) : World :=
  {| w_cluster := c; w_metrics := KafkaMetrics_default; w_slept := [];
     w_store := memory0 : @Store _ log_store; w_projections := [] : @Proj _ quick_projections;
     w_cache := tt : @CacheState _ no_cache; w_recovery := RecoveryState_default |}.

Definition queue : DeadLetterQueue := DeadLetterQueue_new producer consumer 3 1000.

Definition letter : DeadLetterMessage := new_letter 100 1%N [deposit] 2 "boom".

(** The letter is on the topic and the consumer reads it. *)
Definition start : World :=
  snd (send_to_dlq 100 queue 1%N [deposit] 2 "boom"
    (world (snd (mem_subscribe 0 ["banking-es-dlq"] (cluster ["banking-es-events"]))))).

Definition turned : World := snd (dlq_turn 200 queue start).

Lemma with_fst {A B} (x : A * B) a : fst x = a -> x = (a, snd x).
Proof. by intros <-; destruct x. Qed.

Ltac run_turn now w :=
  split; [ split; vm_compute; discriminate |];
  exists now, w; eexists; exists (snd (dlq_turn now queue w));
  split_and!;
    [ apply with_fst; reflexivity | apply with_fst; vm_compute; reflexivity
    | vm_compute; reflexivity | vm_compute; reflexivity ].

Lemma first_retry : requeues queue letter 1000 (next_letter 200 letter).
Proof. run_turn 200%Z start. Qed.

Lemma second_retry : requeues queue (next_letter 200 letter) 2000 (next_letter 300 (next_letter 200 letter)).
Proof. run_turn 300%Z turned. Qed.

Lemma dead_letter_retries_bounded_witness :
  retry_chain queue letter [1000; 2000]%Z (next_letter 300 (next_letter 200 letter)) /\ (2 <= 3)%Z.
Proof.
  assert (retry_chain queue letter [1000; 2000]%Z (next_letter 300 (next_letter 200 letter))) as Hc.
  { econstructor; [ exact first_retry |]. econstructor; [ exact second_retry | constructor ]. }
  assert (0 <= dq_max_retries queue <= u32_max)%Z as Hmax by (split; vm_compute; discriminate).
  destruct (dead_letter_retries_bounded queue letter _ _ Hmax eq_refl Hc) as [Hlen _].
  split; [ exact Hc | exact Hlen ].
Defined.

(** The processor's own set-up: the consumer is subscribed to the events. *)
Definition processing : World := world listening.

Lemma dead_letters_never_read_witness :
  is_ok (fst (trait_process_dlq 0 queue processing)) = false /\
  snd (dlq_turn 0 queue processing) = snd (trait_process_dlq 0 queue processing).
Proof.
  split; [ reflexivity |].
  apply (dead_letters_never_read 0 queue 0 processing [the_batch]); reflexivity.
Defined.

End DlqWitness.
