(* ===== verification/KafkaRecovery.v ===== *)
(** Recovery (src/src/infrastructure/{kafka_recovery,kafka_recovery_strategies}.rs):
    reading the histories and sending them to Kafka again.

    [KafkaRecovery] walks over the projected accounts; [start_recovery] is the
    method of the struct and [trait_start_recovery] that of
    [KafkaRecoveryTrait].  [RecoveryStrategies] are the five strategies an
    operator can run.  Replays and [Account::default] start at [blank]. *)
From S2P Require Import Prelude.
From S2P Require Import DecimalSpec.
From S2P Require Import Account.
From S2P Require Import Codec.
From S2P Require Import EventsDb.
From S2P Require Import EventStore.
From S2P Require Import EventStoreFacts.
From S2P Require Import Repository.
From S2P Require Import Handlers.
From S2P Require Import Cache.
From S2P Require Import Projections.
From S2P Require Import Service.
From S2P Require Import KafkaClient.
From S2P Require Import KafkaDlq.
From stdpp Require Import base tactics list gmap strings.
From Stdlib Require Import ZArith Lia.

Inductive RecoveryStrategy : Type :=
| FullReplay | IncrementalReplay | SelectiveReplay | CacheOnly | DLQOnly.

Section Recovery.
Context `{SerdeOps} `{KafkaClient} `{DateTimeText}.
Context `{!Display SqlxError, !Display SerdeError, !Display Uuid}.
Context `{!EventStoreTrait} `{!ProjectionStoreTrait} `{!CacheServiceTrait}.

(** [.context("Failed to deserialize event")?]. *)
Definition decode_event (event : Event) : res string AccountEvent :=
  map_err (fun _ => "Failed to deserialize event") (event_from_value (ev_event_data event)).

(** [serde_json::from_value(..)?] and [account.apply_event(..)], event by event. *)
Fixpoint rebuild (account : Account) (events : list Event) : res string Account :=
  match events with
  | [] => Ok account
  | event :: rest =>
      let? account_event := decode_event event in
      let? account := or_panic (apply_event account account_event) in
      rebuild account rest
  end.

(** Each event of a list as a batch of its own, with its own version; [sent_at] is
    the clock when the batch of an account and a version is sent. *)
Fixpoint resend (sent_at : Uuid -> Z -> Z) (producer : KafkaProducer) (account_id : Uuid) (events : list Event) :
    M World string unit :=
  match events with
  | [] => ret tt
  | event :: rest =>
      let! account_event := lift (decode_event event) in
      on_cluster (send_event_batch (sent_at account_id (ev_version event)) producer account_id
        [account_event] (ev_version event)) ;;;
      sleep 100 ;;;
      resend sent_at producer account_id rest
  end.

(** ** [KafkaRecovery] *)
Record KafkaRecovery : Type := {
  kr_producer : KafkaProducer;
  kr_consumer : KafkaConsumer;
  kr_dlq : DeadLetterQueue
}.

Definition KafkaRecovery_new (producer : KafkaProducer) (consumer : KafkaConsumer)
    (dlq : DeadLetterQueue) : KafkaRecovery :=
  {| kr_producer := producer; kr_consumer := consumer; kr_dlq := dlq |}.

Definition set_recovery {E} (f : RecoveryState -> RecoveryState) : M World E unit :=
  modify (fun w => put_recovery (f (w_recovery w)) w).

(** [verify_account_events]. *)
Definition verify_account_events (account : Account) : M World string unit :=
  let! stored_events := on_event_store (st_get_events (acc_id account) None) in
  let! replayed_account := lift (rebuild (blank (acc_id account)) stored_events) in
  if account_eqb replayed_account account then ret tt
  else throw "Account state mismatch after event replay".

(** [replay_account_events]. *)
Definition replay_account_events (sent_at : Uuid -> Z -> Z) (r : KafkaRecovery) (account : Account) : M World string unit :=
  let! stored_events := on_event_store (st_get_events (acc_id account) None) in
  resend sent_at (kr_producer r) (acc_id account) stored_events.

(** [update_account_cache]. *)
Definition update_account_cache (r : KafkaRecovery) (account : Account) : M World string unit :=
  on_cluster (send_cache_update (kr_producer r) (acc_id account) account).

(** [handle_inconsistent_account] and [handle_replay_failure]. *)
Definition handle_inconsistent_account (now : Z) (r : KafkaRecovery) (account : Account) (error : string) :
    M World string unit :=
  send_to_dlq now (kr_dlq r) (acc_id account) [] (acc_version account)
    ("Event consistency check failed: " +:+ error).

Definition handle_replay_failure (now : Z) (r : KafkaRecovery) (account : Account) (error : string) :
    M World string unit :=
  send_to_dlq now (kr_dlq r) (acc_id account) [] (acc_version account) ("Event replay failed: " +:+ error).

(** The loop of [handle_cache_update_failure], with [tries] left. *)
Fixpoint cache_update_loop (tries : nat) (retry_count : Z) (r : KafkaRecovery) (account : Account) :
    M World string unit :=
  match tries with
  | O => ret tt
  | S tries =>
      let! updated := attempt (update_account_cache r account) in
      match (updated : string + unit) with
      | inr _ => ret tt
      | inl e =>
          let retry_count := (retry_count + 1)%Z in
          if (retry_count =? 3)%Z then throw e
          else sleep (100 * 2 ^ retry_count) ;;; cache_update_loop tries retry_count r account
      end
  end.

(** [handle_cache_update_failure]. *)
Definition handle_cache_update_failure (r : KafkaRecovery) (account : Account) : M World string unit :=
  cache_update_loop 3 0 r account.

(** The body of the loop of [perform_recovery]. *)
Definition recover_account (now : Z) (sent_at : Uuid -> Z -> Z) (r : KafkaRecovery) (projection : AccountProjection) :
    M World string unit :=
  set_recovery (fun s => {| rs_is_recovering := rs_is_recovering s;
    rs_last_processed_offset := rs_last_processed_offset s;
    rs_recovery_start_time := rs_recovery_start_time s;
    rs_accounts_in_recovery := rs_accounts_in_recovery s ++ [ap_id projection] |}) ;;;
  let! events := on_event_store (st_get_events (ap_id projection) None) in
  let! account := lift (rebuild (blank (ap_id projection)) events) in
  let! verified := attempt (verify_account_events account) in
  match (verified : string + unit) with
  | inl e => handle_inconsistent_account now r account e
  | inr _ =>
      let! replayed := attempt (replay_account_events sent_at r account) in
      match (replayed : string + unit) with
      | inl e => handle_replay_failure now r account e
      | inr _ =>
          let! updated := attempt (update_account_cache r account) in
          match (updated : string + unit) with
          | inl _ => handle_cache_update_failure r account
          | inr _ =>
              set_recovery (fun s => {| rs_is_recovering := rs_is_recovering s;
                rs_last_processed_offset := rs_last_processed_offset s;
                rs_recovery_start_time := rs_recovery_start_time s;
                rs_accounts_in_recovery :=
                  filter (fun id => id <> acc_id account) (rs_accounts_in_recovery s) |})
          end
      end
  end.

Fixpoint recover_accounts (now : Z) (sent_at : Uuid -> Z -> Z) (r : KafkaRecovery)
    (projections : list AccountProjection) :
    M World string unit :=
  match projections with
  | [] => ret tt
  | p :: rest => recover_account now sent_at r p ;;; recover_accounts now sent_at r rest
  end.

(** [perform_recovery]. *)
Definition perform_recovery (now : Z) (sent_at : Uuid -> Z -> Z) (r : KafkaRecovery) :
    M World string unit :=
  let! account_projections := on_projections pj_get_all_accounts in
  recover_accounts now sent_at r account_projections.

Definition mark_recovering (now : Z) (s : RecoveryState) : RecoveryState :=
  {| rs_is_recovering := true; rs_last_processed_offset := rs_last_processed_offset s;
     rs_recovery_start_time := Some now; rs_accounts_in_recovery := rs_accounts_in_recovery s |}.

Definition mark_recovered (s : RecoveryState) : RecoveryState :=
  {| rs_is_recovering := false; rs_last_processed_offset := rs_last_processed_offset s;
     rs_recovery_start_time := None; rs_accounts_in_recovery := [] |}.

(** [KafkaRecovery::start_recovery]. *)
Definition start_recovery (now : Z) (sent_at : Uuid -> Z -> Z) (r : KafkaRecovery) : M World string unit :=
  let! recovering := gets (fun w => rs_is_recovering (w_recovery w)) in
  if recovering : bool then ret tt
  else
    set_recovery (mark_recovering now) ;;;
    perform_recovery now sent_at r ;;;
    set_recovery mark_recovered.

(** [start_recovery] of [KafkaRecoveryTrait]. *)
Definition trait_start_recovery (now : Z) (sent_at : Uuid -> Z -> Z) (r : KafkaRecovery) : M World string unit :=
  let! recovering := gets (fun w => rs_is_recovering (w_recovery w)) in
  if recovering : bool then ret tt
  else
    set_recovery (mark_recovering now) ;;;
    perform_recovery now sent_at r.

(** [get_recovery_status]; [elapsed] is [start.elapsed()]. *)
Definition get_recovery_status (elapsed : Z -> Z) (w : World) : bool * list Uuid * Z :=
  (rs_is_recovering (w_recovery w), rs_accounts_in_recovery (w_recovery w),
   default 0%Z (option_map elapsed (rs_recovery_start_time (w_recovery w)))).

(** ** [RecoveryStrategies] *)
Record RecoveryStrategies : Type := {
  st_producer : KafkaProducer;
  st_consumer : KafkaConsumer;
  st_dlq : DeadLetterQueue
}.

Definition RecoveryStrategies_new (producer : KafkaProducer) (consumer : KafkaConsumer)
    (dlq : DeadLetterQueue) : RecoveryStrategies :=
  {| st_producer := producer; st_consumer := consumer; st_dlq := dlq |}.

(** The accounts a strategy is for. *)
Definition accounts_for (account_id : option Uuid) : M World string (list Account) :=
  match account_id with
  | Some id =>
      let! account := on_event_store (st_get_account id) in
      let! account := lift (ok_or ("Account " +:+ to_string id +:+ " not found") account) in
      ret [account]
  | None => on_event_store st_get_all_accounts
  end.

Fixpoint for_accounts (body : Account -> M World string unit) (accounts : list Account) :
    M World string unit :=
  match accounts with
  | [] => ret tt
  | a :: rest => body a ;;; for_accounts body rest
  end.

Definition over_accounts (account_id : option Uuid) (body : Account -> M World string unit) :
    M World string unit :=
  let! accounts := accounts_for account_id in for_accounts body accounts.

(** [full_replay]. *)
Definition full_replay (sent_at : Uuid -> Z -> Z) (s : RecoveryStrategies) (account_id : option Uuid) :
    M World string unit :=
  over_accounts account_id (fun account =>
    let! events := on_event_store (st_get_events (acc_id account) None) in
    resend sent_at (st_producer s) (acc_id account) events).

(** [get_last_processed_version]. *)
Definition get_last_processed_version (fuel : nat) (s : RecoveryStrategies) (account_id : Uuid) :
    M World string Z :=
  on_err (fun e => "Failed to get last processed version: " +:+ e)
    (on_cluster (consumer_last_processed_version fuel (st_consumer s) account_id)).

(** [incremental_replay]. *)
Definition incremental_replay (fuel : nat) (sent_at : Uuid -> Z -> Z) (s : RecoveryStrategies)
    (account_id : option Uuid) : M World string unit :=
  over_accounts account_id (fun account =>
    let! last_processed_version := get_last_processed_version fuel s (acc_id account) in
    let! events := on_event_store (st_get_events (acc_id account) (Some last_processed_version)) in
    resend sent_at (st_producer s) (acc_id account) events).

(** The loop of [selective_replay] over an account's events: the batch collected
    is sent when a version is skipped, and at the end. *)
Fixpoint selective_loop (sent_at : Uuid -> Z -> Z) (producer : KafkaProducer) (account_id : Uuid)
    (current_version : Z) (batch : list AccountEvent) (events : list Event) : M World string unit :=
  match events with
  | [] =>
      match batch with
      | [] => ret tt
      | _ :: _ => on_cluster (send_event_batch (sent_at account_id current_version) producer account_id batch
               current_version)
      end
  | event :: rest =>
      let! batch :=
        (if negb (ev_version event =? wrap_i64 (current_version + 1))%Z then
           match batch with
           | [] => ret batch
           | _ :: _ =>
               on_cluster (send_event_batch (sent_at account_id current_version) producer account_id batch
               current_version) ;;; ret []
           end
         else ret batch) in
      let! account_event := lift (decode_event event) in
      selective_loop sent_at producer account_id (ev_version event) (batch ++ [account_event]) rest
  end.

(** [selective_replay]. *)
Definition selective_replay (sent_at : Uuid -> Z -> Z) (s : RecoveryStrategies) (account_id : option Uuid) :
    M World string unit :=
  over_accounts account_id (fun account =>
    let! events := on_event_store (st_get_events (acc_id account) None) in
    selective_loop sent_at (st_producer s) (acc_id account) 0 [] events).

(** [cache_only_recovery]. *)
Definition cache_only_recovery (s : RecoveryStrategies) (account_id : option Uuid) : M World string unit :=
  over_accounts account_id (fun account =>
    on_cluster (send_cache_update (st_producer s) (acc_id account) account)).

(** [dlq_recovery]: the struct's [process_dlq]. *)
Definition dlq_recovery (fuel : nat) (clock : nat -> Z) (s : RecoveryStrategies) : M World string unit :=
  process_dlq fuel clock (st_dlq s).

(** [execute_recovery]. *)
Definition execute_recovery (fuel : nat) (clock : nat -> Z) (sent_at : Uuid -> Z -> Z)
    (s : RecoveryStrategies) (strategy : RecoveryStrategy) (account_id : option Uuid) : M World string unit :=
  match strategy with
  | FullReplay => full_replay sent_at s account_id
  | IncrementalReplay => incremental_replay fuel sent_at s account_id
  | SelectiveReplay => selective_replay sent_at s account_id
  | CacheOnly => cache_only_recovery s account_id
  | DLQOnly => dlq_recovery fuel clock s
  end.

(** ** Lemmas: what is sent *)
Context `{!KafkaLaws} `{!SerdeLaws}.

(** The stores and the recovery's state are not touched. *)
Definition only_kafka (w w' : World) : Prop :=
  w_store w' = w_store w /\ w_projections w' = w_projections w /\ w_cache w' = w_cache w /\
  w_recovery w' = w_recovery w.

#[local] Instance only_kafka_pre : PreOrder only_kafka.
Proof. split; [ done | intros ???; unfold only_kafka; intuition congruence ]. Qed.

Lemma on_cluster_only {A} (m : M Cluster BankingKafkaError A) : respects only_kafka (on_cluster m).
Proof. intros w. unfold on_cluster, on_err, zoom. by destruct (m (w_cluster w)). Qed.

Lemma count_only {E} c n : respects only_kafka (count (E := E) c n).
Proof. done. Qed.

Lemma sleep_only {E} d : respects only_kafka (sleep (E := E) d).
Proof. done. Qed.

#[local] Hint Resolve on_cluster_only count_only sleep_only : bank.

Lemma resend_only sent_at p id evs : respects only_kafka (resend sent_at p id evs).
Proof. induction evs as [| ev evs IH]; simpl; respects_tac. Qed.

Definition events_log (p : KafkaProducer) (w : World) : list Message :=
  topic_log (w_cluster w) (events_topic (kp_config p)).

Definition cache_log (p : KafkaProducer) (w : World) : list Message :=
  topic_log (w_cluster w) (cache_topic (kp_config p)).

Lemma send_batch_ok now p id es v w w' :
  sends p -> on_cluster (send_event_batch now p id es v) w = (Ok tt, w') ->
  events_log p w' = events_log p w ++
    [batch_message {| eb_account_id := id; eb_events := es; eb_version := v; eb_timestamp := now |}].
Proof. intros Hp (c & Hs & ->)%on_cluster_ok. exact (produce_ok _ _ _ _ Hp Hs). Qed.

(** A history as single events, numbered after [v]. *)
Fixpoint single_batches (sent_at : Uuid -> Z -> Z) (id : Uuid) (v : Z) (es : list AccountEvent) :
    list EventBatch :=
  match es with
  | [] => []
  | e :: rest =>
      {| eb_account_id := id; eb_events := [e]; eb_version := (v + 1)%Z;
         eb_timestamp := sent_at id (v + 1)%Z |} :: single_batches sent_at id (v + 1) rest
  end.

Lemma single_batches_events sent_at id v es :
  map eb_events (single_batches sent_at id v es) = map (fun e => [e]) es.
Proof. revert v. induction es as [| e es IH]; intros v; simpl; [ done |]. by rewrite IH. Qed.

Lemma single_batches_lookup sent_at id es i b :
  single_batches sent_at id 0 es !! i = Some b ->
  exists e, es !! i = Some e /\
    b = {| eb_account_id := id; eb_events := [e]; eb_version := Z.of_nat (S i);
           eb_timestamp := sent_at id (Z.of_nat (S i)) |}.
Proof.
  enough (forall v, single_batches sent_at id v es !! i = Some b ->
    exists e, es !! i = Some e /\
      b = {| eb_account_id := id; eb_events := [e]; eb_version := (v + Z.of_nat (S i))%Z;
             eb_timestamp := sent_at id (v + Z.of_nat (S i))%Z |}) as Hgen by apply (Hgen 0%Z).
  revert i. induction es as [| e es IH]; intros i v Hi; [ done |].
  destruct i as [| i]; simpl in Hi; [ simplify_eq; by exists e |].
  apply IH in Hi as (x & Hx & ->). exists x. split; [ done |].
  by replace (v + 1 + Z.of_nat (S i))%Z with (v + Z.of_nat (S (S i)))%Z by lia.
Qed.

(** Events read from a store that keeps its contract. *)
Definition numbered (v : Z) (es : list AccountEvent) (evs : list Event) : Prop :=
  map ev_event_data evs = map event_to_value es /\ map ev_version evs = seqZ (v + 1) (Z.of_nat (length es)).

Lemma numbered_cons v es ev evs :
  numbered v es (ev :: evs) ->
  exists e es', es = e :: es' /\ decode_event ev = Ok e /\ ev_version ev = (v + 1)%Z /\ numbered (v + 1) es' evs.
Proof.
  intros [Hd Hv]. destruct es as [| e es]; [ done |]. cbn [map length] in *.
  rewrite seqZ_cons in Hv by lia. injection Hd as Hd Hds. injection Hv as Hv Hvs.
  exists e, es. unfold decode_event. rewrite Hd, event_round_trip_eq. split_and!; [ done | done | done |].
  split; [ done |]. rewrite Hvs. f_equal; lia.
Qed.

Lemma numbered_nil v es : numbered v es [] -> es = [].
Proof. intros [Hd _]. by destruct es. Qed.

Lemma resend_sends sent_at p id v es evs w w' :
  sends p -> numbered v es evs -> resend sent_at p id evs w = (Ok tt, w') ->
  events_log p w' = events_log p w ++ map batch_message (single_batches sent_at id v es).
Proof.
  intros Hp. revert v es w. induction evs as [| ev evs IH]; intros v es w Hn; simpl.
  { intros Hr. unfold ret in Hr. simplify_eq. rewrite (numbered_nil _ _ Hn). by rewrite app_nil_r. }
  apply numbered_cons in Hn as (e & es' & -> & Hdec & Hver & Hn'). intros Hr.
  apply bind_ok in Hr as (x & w1 & Hx & Hr). unfold lift in Hx. rewrite Hdec in Hx. simplify_eq.
  apply bind_ok in Hr as ([] & w2 & Hsend & Hr). apply (send_batch_ok _ _ _ _ _ _ _ Hp) in Hsend.
  unfold sleep in Hr. rewrite modify_step in Hr. rewrite (IH _ _ _ Hn' Hr). unfold events_log in *. simpl.
  rewrite Hsend, Hver, <- app_assoc. done.
Qed.

Lemma selective_sends sent_at p id v es batch evs w w' :
  sends p -> numbered v es evs -> (0 <= v)%Z -> (v + Z.of_nat (length es) <= i64_max)%Z ->
  selective_loop sent_at p id v batch evs w = (Ok tt, w') -> batch ++ es <> [] ->
  events_log p w' = events_log p w ++
    [batch_message {| eb_account_id := id; eb_events := batch ++ es;
                      eb_version := (v + Z.of_nat (length es))%Z;
                      eb_timestamp := sent_at id (v + Z.of_nat (length es))%Z |}].
Proof.
  intros Hp. revert v es batch w. induction evs as [| ev evs IH]; intros v es batch w Hn Hv Hlen; simpl.
  { rewrite (numbered_nil _ _ Hn), app_nil_r, Z.add_0_r. intros Hs Hne. destruct batch as [| b batch]; [ done |].
    by apply (send_batch_ok _ _ _ _ _ _ _ Hp) in Hs. }
  apply numbered_cons in Hn as (e & es' & -> & Hdec & Hver & Hn'). intros Hs Hne.
  cbn [length] in *. rewrite Hver, wrap_i64_id in Hs by (unfold in_i64, i64_max in *; lia).
  rewrite Z.eqb_refl in Hs. cbn [negb] in Hs.
  rewrite (bind_step _ _ _ _ _ (eq_refl : ret batch w = (Ok batch, w))) in Hs.
  apply bind_ok in Hs as (x & w1 & Hx & Hs). unfold lift in Hx. rewrite Hdec in Hx. simplify_eq.
  rewrite (IH _ _ _ _ Hn' ltac:(lia) ltac:(lia) Hs) by (by destruct batch).
  rewrite <- app_assoc. simpl.
  replace (v + Z.of_nat (S (length es')))%Z with (v + 1 + Z.of_nat (length es'))%Z by lia. done.
Qed.

(** ** Properties *)

(** Recovery under way stays so. *)
Definition same_flag (w w' : World) : Prop :=
  rs_is_recovering (w_recovery w') = rs_is_recovering (w_recovery w).

#[local] Instance same_flag_pre : PreOrder same_flag.
Proof. split; [ done | intros ???; unfold same_flag; congruence ]. Qed.

Lemma only_kafka_flag {E A} (m : M World E A) : respects only_kafka m -> respects same_flag m.
Proof. intros Hm w. destruct (Hm w) as (_ & _ & _ & Hr). unfold same_flag. by rewrite Hr. Qed.

Lemma on_event_store_flag {A} (m : M Store EventStoreError A) : respects same_flag (on_event_store m).
Proof. intros w. unfold on_event_store, on_err, zoom. by destruct (m (w_store w)). Qed.

Lemma on_projections_flag {A} (m : M Proj string A) : respects same_flag (on_projections m).
Proof. intros w. unfold on_projections, zoom. by destruct (m (w_projections w)). Qed.

Lemma set_recovery_flag {E} f :
  (forall s, rs_is_recovering (f s) = rs_is_recovering s) -> respects same_flag (set_recovery (E := E) f).
Proof. intros Hf w. apply Hf. Qed.

#[local] Hint Resolve only_kafka_flag on_event_store_flag on_projections_flag set_recovery_flag
  resend_only : bank.

Lemma cache_update_loop_only n k r a : respects only_kafka (cache_update_loop n k r a).
Proof. revert k. induction n as [| n IH]; intros k; simpl; unfold update_account_cache; respects_tac. Qed.

#[local] Hint Resolve cache_update_loop_only : bank.

Lemma recover_account_flag now sent_at r p : respects same_flag (recover_account now sent_at r p).
Proof.
  unfold recover_account, handle_inconsistent_account, handle_replay_failure, handle_cache_update_failure,
    send_to_dlq, verify_account_events, replay_account_events, update_account_cache.
  respects_tac; by apply set_recovery_flag.
Qed.

Lemma perform_recovery_flag now sent_at r : respects same_flag (perform_recovery now sent_at r).
Proof.
  unfold perform_recovery. apply respects_bind; [ apply _ | auto with bank |]. intros ps.
  induction ps as [| p ps IH]; simpl; [ by apply respects_ret, _ |].
  apply respects_bind; [ apply _ | apply recover_account_flag | intros _; exact IH ].
Qed.

(** Through its trait recovery runs once and never again: [start_recovery]
    of the trait marks the recovery as running and nothing takes the mark back,
    so whatever the first call did every later call returns [Ok] and does
    nothing.  The struct's own method takes the mark back only on success. *)
Theorem trait_recovery_runs_once now sent_at r w now' sent_at' :
  let w1 := snd (trait_start_recovery now sent_at r w) in
  rs_is_recovering (w_recovery w1) = true /\
  trait_start_recovery now' sent_at' r w1 = (Ok tt, w1) /\
  (rs_is_recovering (w_recovery w) = false ->
   let o := start_recovery now sent_at r w in
   rs_is_recovering (w_recovery (snd o)) = negb (is_ok (fst o))).
Proof.
  intros w1. assert (rs_is_recovering (w_recovery w1) = true) as Hflag.
  { unfold w1, trait_start_recovery, gets, bind at 1. destruct (rs_is_recovering (w_recovery w)) eqn:Hr.
    - exact Hr.
    - unfold set_recovery. rewrite modify_step. by rewrite perform_recovery_flag. }
  split_and!; [ done | |].
  - unfold trait_start_recovery, gets, bind at 1. by rewrite Hflag.
  - intros Hf o.
    assert (o = bind (perform_recovery now sent_at r) (fun _ => set_recovery mark_recovered)
                  (put_recovery (mark_recovering now (w_recovery w)) w)) as ->.
    { unfold o, start_recovery, gets, bind at 1. by rewrite Hf. }
    pose proof (perform_recovery_flag now sent_at r (put_recovery (mark_recovering now (w_recovery w)) w)) as Hp.
    unfold bind. destruct (perform_recovery now sent_at r _) as [ [ [] | e | | ] w2]; done.
Qed.

(** C27. Incremental recovery never completes: with Kafka enabled the last
    processed version is looked up by reading a stream that does not end, so
    for an account of the store no run of the strategy returns [Ok]. *)
Theorem incremental_replay_never_completes fuel sent_at s h id w a st' :
  handle (st_consumer s) = Some h -> st_get_account id (w_store w) = (Ok (Some a), st') ->
  is_ok (fst (incremental_replay fuel sent_at s (Some id) w)) = false.
Proof.
  intros Hh Ha. unfold incremental_replay, over_accounts, accounts_for.
  assert (forall n v c, is_ok (fst (last_version_loop n h (acc_id a) v c)) = false) as Hloop.
  { induction n as [| n IH]; intros v c; [ done |]. simpl.
    destruct (k_next_some h c) as [x Hx]. destruct (k_next h c) as [o c1]. simpl in Hx. subst o.
    by destruct x as [e | msg]. }
  unfold bind, on_event_store, on_err, zoom, lift. rewrite Ha. simpl.
  unfold bind, get_last_processed_version, on_cluster, on_err, zoom, consumer_last_processed_version.
  rewrite Hh. unfold bind, on_err. simpl.
  destruct (k_assign h _ 0 (w_cluster w)) as [ [ [] | e | | ] c1]; try done. simpl.
  specialize (Hloop fuel 0%Z c1). by destruct (last_version_loop fuel h (acc_id a) 0 c1) as [ [] c2].
Qed.

End Recovery.

(** ** Witnesses *)
Module RecoveryWitness.
Import ScaleZero PlainSerde StoreWitness LogStore HandlersWitness ServiceWitness CacheWitness KafkaWitness
  DlqWitness.

Definition recovery : KafkaRecovery := KafkaRecovery_new producer consumer queue.

Definition strategies : RecoveryStrategies := RecoveryStrategies_new producer consumer queue.

Definition sent_at (id : Uuid) (version : Z) : Z := version.

(** Kafka is reachable, and still the second recovery does nothing. *)
Lemma trait_recovery_runs_once_witness :
  let w1 := snd (trait_start_recovery 1 sent_at recovery processing) in
  trait_start_recovery 2 sent_at recovery w1 = (Ok tt, w1) /\
  rs_is_recovering (w_recovery (snd (start_recovery 1 sent_at recovery processing))) = false.
Proof.
  destruct (trait_recovery_runs_once 1 sent_at recovery processing 2 sent_at) as (_ & Htwice & Hown).
  split; [ exact Htwice |]. rewrite (Hown eq_refl). reflexivity.
Defined.

Lemma incremental_replay_never_completes_witness :
  is_ok (fst (incremental_replay 50 sent_at strategies (Some 1%N) processing)) = false.
Proof.
  apply (incremental_replay_never_completes 50 sent_at strategies 0 1%N processing HandlersWitness.alice
           (memory0 : @Store _ log_store)); reflexivity.
Defined.

End RecoveryWitness.
