(* ===== verification/KafkaProcessor.v ===== *)
(** The event processor (src/src/infrastructure/kafka_event_processor.rs) and the
    updater of the L1 cache (src/src/infrastructure/l1_cache_updater.rs).

    [processing_turn] is one turn of the endless loop of [start_processing] and
    [update_turn] one of [L1CacheUpdater::start]; the loops are cut after [fuel]
    turns with the result [Hang].  The task [start_processing] spawns for the
    dead letters is one call of [trait_process_dlq]; the methods it calls on the
    monitoring and tracing traits have empty bodies.  [processing_state] is
    never read or written. *)
From S2P Require Import Prelude.
From S2P Require Import DecimalSpec.
From S2P Require Import Account.
From S2P Require Import Codec.
From S2P Require Import EventsDb.
From S2P Require Import EventStore.
From S2P Require Import EventStoreFacts.
From S2P Require Import Repository.
From S2P Require Import Handlers.
From S2P Require Import Cache.
From S2P Require Import Projections.
From S2P Require Import Service.
From S2P Require Import KafkaClient.
From S2P Require Import KafkaDlq.
From S2P Require Import KafkaRecovery.
From stdpp Require Import base tactics list gmap strings.
From Stdlib Require Import ZArith Lia SpecFloat.

(** [0.1_f64]. *)
Definition f64_tenth : f64 := S754_finite false 7205759403792794 (-56).

(** [KafkaEventProcessor::should_trigger_recovery]. *)
Definition should_trigger_recovery (m : KafkaMetrics) : bool :=
  f64_ltb f64_tenth (get_error_rate m) || (1000 <? m consumer_lag)%Z.

Record ProcessingMetrics : Type := {
  pm_error_rate : f64;
  pm_average_processing_latency : f64;
  pm_average_consume_latency : f64;
  pm_dlq_retry_success_rate : f64;
  pm_consumer_lag : Z;
  pm_events_processed : Z;
  pm_processing_errors : Z
}.

(** [KafkaEventProcessor::get_processing_metrics]. *)
Definition get_processing_metrics (m : KafkaMetrics) : ProcessingMetrics :=
  {| pm_error_rate := get_error_rate m;
     pm_average_processing_latency := get_average_processing_latency m;
     pm_average_consume_latency := get_average_consume_latency m;
     pm_dlq_retry_success_rate := get_dlq_retry_success_rate m;
     pm_consumer_lag := m consumer_lag; pm_events_processed := m events_processed;
     pm_processing_errors := m processing_errors |}.

Section Processor.
Context `{SerdeOps} `{KafkaClient} `{DateTimeText}.
Context `{!Display SqlxError, !Display SerdeError, !Display Uuid}.
Context `{!EventStoreTrait} `{!ProjectionStoreTrait} `{!CacheServiceTrait}.

Record KafkaEventProcessor : Type := {
  ke_producer : KafkaProducer;
  ke_consumer : KafkaConsumer;
  ke_dlq : DeadLetterQueue;
  ke_recovery : KafkaRecovery;
  ke_recovery_strategies : RecoveryStrategies
}.

(** [KafkaEventProcessor::new]: one producer and one consumer for all parts. *)
Definition KafkaEventProcessor_new (config : KafkaConfig) : M World string KafkaEventProcessor :=
  let! producer := on_cluster (KafkaProducer_new config) in
  let! consumer := on_cluster (KafkaConsumer_new config) in
  let dlq := DeadLetterQueue_new producer consumer 3 1000 in
  ret {| ke_producer := producer; ke_consumer := consumer; ke_dlq := dlq;
         ke_recovery := KafkaRecovery_new producer consumer dlq;
         ke_recovery_strategies := RecoveryStrategies_new producer consumer dlq |}.

(** The projected account with the batch applied, at the version after it. *)
Definition account_after (batch : EventBatch) (p : AccountProjection) : Account :=
  {| acc_id := ap_id p; acc_owner_name := ap_owner_name p; acc_balance := ap_balance p;
     acc_is_active := ap_is_active p;
     acc_version := wrap_i64 (eb_version batch + Z.of_nat (length (eb_events batch))) |}.

(** [batch.events.iter().enumerate()] with [batch.version + i as i64]. *)
Definition versioned_events (batch : EventBatch) : list (Z * AccountEvent) :=
  imap (fun i event => (wrap_i64 (eb_version batch + Z.of_nat i), event)) (eb_events batch).

(** [KafkaEventProcessor::process_batch]; [elapsed] is the time it took. *)
Definition process_batch (elapsed : Z) (k : KafkaEventProcessor) (batch : EventBatch) :
    M World string unit :=
  on_event_store (st_save_events (eb_account_id batch) (eb_events batch) (eb_version batch)) ;;;
  on_cache_service (ca_set_account_events (eb_account_id batch) (versioned_events batch) None) ;;;
  let! account := on_projections (pj_get_account (eb_account_id batch)) in
  (match (account : option AccountProjection) with
   | Some account_proj =>
       let! account_proj := lift (or_panic (projection_apply_events account_proj (eb_events batch))) in
       let account := account_after batch account_proj in
       on_cache_service (ca_set_account account (Some 3600%Z)) ;;;
       on_cluster (send_cache_update (ke_producer k) (eb_account_id batch) account) ;;;
       count cache_updates 1
   | None => ret tt
   end) ;;;
  count processing_latency (wrap_u64 elapsed).

(** One turn of [start_processing]: [now] for a dead letter, [waited] and
    [elapsed] the times of the poll and of the processing. *)
Definition processing_turn (now : Z) (sent_at : Uuid -> Z -> Z) (waited elapsed : Z)
    (k : KafkaEventProcessor) : M World string unit :=
  let! polled := attempt (on_cluster (poll_events (ke_consumer k))) in
  match (polled : string + option EventBatch) with
  | inr (Some batch) =>
      count messages_consumed 1 ;;;
      count consume_latency (wrap_u64 waited) ;;;
      let! processed := attempt (process_batch elapsed k batch) in
      match (processed : string + unit) with
      | inr _ => count events_processed (Z.of_nat (length (eb_events batch)))
      | inl e =>
          count processing_errors 1 ;;;
          trait_send_to_dlq now (ke_dlq k) (eb_account_id batch) (eb_events batch) (eb_version batch)
            ("Batch processing failed: " +:+ e)
      end
  | inr None => ret tt
  | inl _ =>
      count consume_errors 1 ;;;
      let! trigger := gets (fun w => should_trigger_recovery (w_metrics w)) in
      if trigger : bool then
        let! _ := attempt (E := string) (trait_start_recovery now sent_at (ke_recovery k)) in
        ret tt
      else ret tt
  end.

Fixpoint processing_loop (fuel : nat) (clock : nat -> Z) (sent_at : Uuid -> Z -> Z)
    (waited elapsed : nat -> Z) (k : KafkaEventProcessor) : M World string unit :=
  match fuel with
  | O => fun w => (Hang, w)
  | S fuel =>
      processing_turn (clock fuel) sent_at (waited fuel) (elapsed fuel) k ;;;
      processing_loop fuel clock sent_at waited elapsed k
  end.

(** [KafkaEventProcessor::start_processing]. *)
Definition start_processing (fuel : nat) (clock : nat -> Z) (sent_at : Uuid -> Z -> Z)
    (waited elapsed : nat -> Z) (k : KafkaEventProcessor) : M World string unit :=
  on_cluster (subscribe_to_events (ke_consumer k)) ;;;
  processing_loop fuel clock sent_at waited elapsed k.

(** [KafkaEventProcessor::execute_recovery_strategy]. *)
Definition execute_recovery_strategy (fuel : nat) (clock : nat -> Z) (sent_at : Uuid -> Z -> Z)
    (k : KafkaEventProcessor) (strategy : RecoveryStrategy) (account_id : option Uuid) :
    M World string unit :=
  execute_recovery fuel clock sent_at (ke_recovery_strategies k) strategy account_id.

(** ** [L1CacheUpdater] *)
Record L1CacheUpdater : Type := { l1_consumer : KafkaConsumer }.

Definition L1CacheUpdater_new (config : KafkaConfig) : M World string L1CacheUpdater :=
  let! consumer := on_cluster (KafkaConsumer_new config) in
  ret {| l1_consumer := consumer |}.

(** One turn of [L1CacheUpdater::start]: failures are logged. *)
Definition update_turn (u : L1CacheUpdater) : M World string unit :=
  let! polled := attempt (on_cluster (poll_cache_updates (l1_consumer u))) in
  match (polled : string + option Account) with
  | inr (Some account) =>
      let! _ := attempt (E := string) (on_cache_service (ca_set_account account None)) in
      let! _ := attempt (E := string) (on_cache_service (ca_delete_account_events (acc_id account))) in
      ret tt
  | inr None => ret tt
  | inl _ => ret tt
  end.

Fixpoint update_loop (fuel : nat) (u : L1CacheUpdater) : M World string unit :=
  match fuel with
  | O => fun w => (Hang, w)
  | S fuel => update_turn u ;;; update_loop fuel u
  end.

(** [L1CacheUpdater::start]. *)
Definition start_updater (fuel : nat) (u : L1CacheUpdater) : M World string unit :=
  on_cluster (subscribe_to_cache (l1_consumer u)) ;;; update_loop fuel u.

(** ** Lemmas *)
Context `{!KafkaLaws}.

Definition same_store (w w' : World) : Prop := w_store w' = w_store w.

#[local] Instance same_store_pre : PreOrder same_store.
Proof. split; [ done | intros ???; unfold same_store; congruence ]. Qed.

Lemma on_cluster_store {A} (m : M Cluster BankingKafkaError A) : respects same_store (on_cluster m).
Proof. intros w. unfold on_cluster, on_err, zoom. by destruct (m (w_cluster w)). Qed.

Lemma on_cache_store {A} (m : M CacheState string A) : respects same_store (on_cache_service m).
Proof. intros w. unfold on_cache_service, zoom. by destruct (m (w_cache w)). Qed.

Lemma on_projections_store {A} (m : M Proj string A) : respects same_store (on_projections m).
Proof. intros w. unfold on_projections, zoom. by destruct (m (w_projections w)). Qed.

Lemma count_store {E} c n : respects same_store (count (E := E) c n).
Proof. done. Qed.

#[local] Hint Resolve on_cluster_store on_cache_store on_projections_store count_store : bank.

(** Of the store, [process_batch] does the save and nothing else. *)
Lemma process_batch_store elapsed k b w :
  w_store (snd (process_batch elapsed k b w)) =
  snd (st_save_events (eb_account_id b) (eb_events b) (eb_version b) (w_store w)).
Proof.
  unfold process_batch. unfold bind at 1, on_event_store at 1, on_err at 1, zoom at 1.
  destruct (st_save_events _ _ _ (w_store w)) as [ [ [] | e | | ] st]; try done. simpl map_err. cbv iota beta.
  match goal with |- w_store (snd (?m ?w0)) = _ =>
    assert (respects same_store m) as Hm by respects_tac; exact (Hm w0) end.
Qed.

Lemma process_batch_saved elapsed k b w w' :
  process_batch elapsed k b w = (Ok tt, w') ->
  exists st, st_save_events (eb_account_id b) (eb_events b) (eb_version b) (w_store w) = (Ok tt, st).
Proof.
  intros ([] & w1 & Hs & _)%bind_ok. unfold on_event_store in Hs. apply on_err_ok in Hs.
  unfold zoom in Hs. destruct (st_save_events _ _ _ _) as [ [ [] | | | ] st]; simplify_eq. eauto.
Qed.

(** The topics of the dead letters and of the batches are left as they are. *)
Definition same_topic (t : string) (w w' : World) : Prop :=
  topic_log (w_cluster w') t = topic_log (w_cluster w) t.

#[local] Instance same_topic_pre t : PreOrder (same_topic t).
Proof. split; [ done | intros ???; unfold same_topic; congruence ]. Qed.

Lemma on_event_store_topic {A} t (m : M Store EventStoreError A) : respects (same_topic t) (on_event_store m).
Proof. intros w. unfold on_event_store, on_err, zoom. by destruct (m (w_store w)). Qed.

Lemma on_cache_topic {A} t (m : M CacheState string A) : respects (same_topic t) (on_cache_service m).
Proof. intros w. unfold on_cache_service, zoom. by destruct (m (w_cache w)). Qed.

Lemma on_projections_topic {A} t (m : M Proj string A) : respects (same_topic t) (on_projections m).
Proof. intros w. unfold on_projections, zoom. by destruct (m (w_projections w)). Qed.

Lemma count_topic {E} t c n : respects (same_topic t) (count (E := E) c n).
Proof. done. Qed.

Lemma send_cache_topic t p id a :
  t <> cache_topic (kp_config p) -> respects (same_topic t) (on_cluster (send_cache_update p id a)).
Proof.
  intros Hne w. unfold on_cluster, on_err, zoom, same_topic.
  pose proof (produce_other p (record (cache_topic (kp_config p)) id (account_to_value a)) (w_cluster w) t Hne).
  unfold send_cache_update. by destruct (produce _ _ _).
Qed.

#[local] Hint Resolve on_event_store_topic on_cache_topic on_projections_topic count_topic send_cache_topic : bank.

Lemma process_batch_topic t elapsed k b :
  t <> cache_topic (kp_config (ke_producer k)) -> respects (same_topic t) (process_batch elapsed k b).
Proof. intros Hne. unfold process_batch. respects_tac. Qed.

Context `{!DecimalLaws} `{!SerdeLaws} `{!EventStoreContract}.

(** A batch that is processed was for the current version and is recorded. *)
Lemma processed_recorded elapsed k b w w' L :
  holds (w_store w) L -> eb_events b <> [] -> process_batch elapsed k b w = (Ok tt, w') ->
  eb_version b = Z.of_nat (length (L (eb_account_id b))) /\
  holds (w_store w') (append (eb_account_id b) (eb_events b) L).
Proof.
  intros Hh Hne Hb. destruct (process_batch_saved _ _ _ _ _ Hb) as [st Hs].
  destruct (save_events_sound _ _ _ _ _ _ Hh Hne Hs) as [Hv Hst]. split; [ done |].
  pose proof (process_batch_store elapsed k b w) as Hw. rewrite Hb, Hs in Hw. simpl in Hw. by rewrite Hw.
Qed.

(** The account [process_batch] caches is the replay's. *)
Lemma account_after_replay b p p' a a' es :
  ap_id p = eb_account_id b -> eb_version b = Z.of_nat (length es) ->
  apply_events (blank (eb_account_id b)) es = Some a -> apply_events a (eb_events b) = Some a' ->
  shows p' a' -> ap_id p' = ap_id p -> account_after b p' = a'.
Proof.
  intros Hid Hv Hrep Ha' (Ho & Hbal & Hact) Hpid.
  assert (in_i64 (acc_version (blank (eb_account_id b)))) as Hz by (unfold in_i64, i64_max; simpl; lia).
  pose proof (apply_events_version _ _ _ Hz Hrep) as Hva.
  assert (in_i64 (acc_version a)) as Hia by (rewrite Hva; auto with bank).
  pose proof (apply_events_version _ _ _ Hia Ha') as Hv'.
  pose proof (apply_events_id _ _ _ Ha') as Hi'. pose proof (apply_events_id _ _ _ Hrep) as Hi.
  unfold account_after. destruct a' as [i' o' b' c' v']. simpl in *.
  rewrite Hv', Hva, Hv, wrap_i64_add_l. simpl. f_equal; congruence.
Qed.

(** ** Properties *)

(** C22. Processing a batch extends the account's history and publishes its
    replay: a batch of events that is processed was for exactly the current
    version, the store's history is extended by its events, and where the
    projection showed the replay of the history before, the account sent to the
    caches is the replay of the extended history, version included. *)
Theorem processed_batch_extends_replay elapsed k b w w' L :
  holds (w_store w) L -> eb_events b <> [] ->
  (Z.of_nat (length (L (eb_account_id b))) + Z.of_nat (length (eb_events b)) <= i64_max)%Z ->
  process_batch elapsed k b w = (Ok tt, w') ->
  let id := eb_account_id b in
  eb_version b = Z.of_nat (length (L id)) /\ holds (w_store w') (append id (eb_events b) L) /\
  (forall p pr a, pj_get_account id (w_projections w) = (Ok (Some p), pr) -> ap_id p = id ->
     apply_events (blank id) (L id) = Some a -> shows p a -> sends (ke_producer k) ->
     exists a', apply_events (blank id) (L id ++ eb_events b) = Some a' /\
       cache_log (ke_producer k) w' = cache_log (ke_producer k) w ++ [account_message id a']).
Proof.
  intros Hh Hne Hlen Hb id. destruct (processed_recorded _ _ _ _ _ _ Hh Hne Hb) as [Hv Hst].
  destruct (process_batch_saved _ _ _ _ _ Hb) as [st Hs].
  split_and!; [ done | done |].
  intros p pr a Hget Hid Hrep Hsh Hp.
  unfold process_batch in Hb. apply bind_ok in Hb as ([] & w1 & Hw1 & Hb).
  unfold on_event_store, on_err, zoom in Hw1. rewrite Hs in Hw1. simpl in Hw1.
  assert (w1 = put_store st w) as -> by congruence.
  apply bind_ok in Hb as ([] & w2 & Hw2 & Hb).
  unfold on_cache_service, zoom in Hw2. destruct (ca_set_account_events _ _ _ _) as [rc ca] in Hw2.
  assert (w2 = put_cache_state ca (put_store st w)) as -> by congruence.
  apply bind_ok in Hb as (o & w3 & Hw3 & Hb).
  unfold on_projections, zoom in Hw3. simpl in Hw3. fold id in Hw3. rewrite Hget in Hw3. simplify_eq/=.
  apply bind_ok in Hb as ([] & w4 & Hb & Hlat).
  apply bind_ok in Hb as (p' & w5 & Hp' & Hb). unfold lift in Hp'.
  destruct (projection_apply_events p (eb_events b)) as [p1 |] eqn:Happ; simplify_eq/=.
  pose proof (projection_follows p a (eb_events b) Hsh) as Hf. rewrite Happ in Hf.
  destruct (apply_events a (eb_events b)) as [a' |] eqn:Ha'; [| done ]. destruct Hf as [(Ho & Hbal & Hact) Hpid].
  exists a'. split; [ by rewrite apply_events_app, Hrep |].
  pose proof (account_after_replay b p p' a a' _ Hid Hv Hrep Ha' (conj Ho (conj Hbal Hact)) Hpid) as Hacc.
  rewrite Hacc in Hb. apply bind_ok in Hb as ([] & w6 & Hw6 & Hb).
  unfold on_cache_service, zoom in Hw6. destruct (ca_set_account _ _ _) as [rc2 ca2] in Hw6. simplify_eq.
  apply bind_ok in Hb as ([] & w7 & (c7 & Hsend & ->)%on_cluster_ok & Hcnt).
  unfold count, modify in Hcnt, Hlat. simplify_eq. unfold cache_log. simpl.
  exact (produce_ok _ _ _ _ Hp Hsend).
Qed.

(** A batch for another version than the current one is refused. *)
Lemma stale_batch_refused elapsed k b w L :
  holds (w_store w) L -> eb_events b <> [] ->
  eb_version b <> Z.of_nat (length (L (eb_account_id b))) ->
  is_ok (fst (process_batch elapsed k b w)) = false /\
  holds (w_store (snd (process_batch elapsed k b w))) L.
Proof.
  intros Hh Hne Hv.
  assert (is_ok (fst (st_save_events (eb_account_id b) (eb_events b) (eb_version b) (w_store w))) = false) as Hno.
  { destruct (st_save_events _ _ _ _) as [ [ [] | | | ] st] eqn:Hs; try done.
    by destruct (save_events_sound _ _ _ _ _ _ Hh Hne Hs). }
  split; [| rewrite process_batch_store; apply save_events_keeps; auto ].
  destruct (process_batch elapsed k b w) as [ [ [] | | | ] w'] eqn:Hb; try done.
  destruct (process_batch_saved _ _ _ _ _ Hb) as [st Hs]. by rewrite Hs in Hno.
Qed.

(** C24. A batch delivered again is not recorded again: once it has been
    processed, in every later state whose history of the account goes on from
    there processing it fails and leaves the histories as they are. *)
Theorem redelivered_batch_not_recorded elapsed k b w w1 L w2 L2 elapsed2 :
  holds (w_store w) L -> eb_events b <> [] -> process_batch elapsed k b w = (Ok tt, w1) ->
  holds (w_store w2) L2 ->
  append (eb_account_id b) (eb_events b) L (eb_account_id b) `prefix_of` L2 (eb_account_id b) ->
  is_ok (fst (process_batch elapsed2 k b w2)) = false /\
  holds (w_store (snd (process_batch elapsed2 k b w2))) L2.
Proof.
  intros Hh Hne Hb Hh2 [more Hmore].
  destruct (processed_recorded _ _ _ _ _ _ Hh Hne Hb) as [Hv _].
  apply stale_batch_refused; [ done | done |]. rewrite Hmore, Hv. unfold append. rewrite decide_True by done.
  rewrite !length_app. destruct (eb_events b); [ done |]. simpl. lia.
Qed.

(** Recovery writes the last event again: a full replay of an account sends
    its history event by event, each with its own version, where the processor
    expects the number of the events before; so of the batches sent all but
    the last are refused and change nothing, and if the last is processed the
    history has its last event twice. *)
Theorem full_replay_repeats_last_event sent_at r account w w' L :
  holds (w_store w) L -> sends (kr_producer r) ->
  (Z.of_nat (length (L (acc_id account))) <= i64_max)%Z ->
  replay_account_events sent_at r account w = (Ok tt, w') ->
  let id := acc_id account in
  exists batches,
    events_log (kr_producer r) w' = events_log (kr_producer r) w ++ map batch_message batches /\
    map eb_events batches = map (fun e => [e]) (L id) /\
    forall i b elapsed k w2 w3, batches !! i = Some b -> holds (w_store w2) L ->
      process_batch elapsed k b w2 = (Ok tt, w3) ->
      exists before e, L id = before ++ [e] /\ i = length before /\
        holds (w_store w3) (append id [e] L).
Proof.
  intros Hh Hp Hlen Hr id. unfold replay_account_events in Hr.
  apply bind_ok in Hr as (evs & w1 & Hget & Hr). unfold on_event_store in Hget. apply on_err_ok in Hget.
  unfold zoom in Hget. destruct (st_get_events _ None (w_store w)) as [re st] eqn:Hs. simplify_eq.
  pose proof (get_events_sound _ _ _ _ _ Hh Hs) as Hd.
  pose proof (get_events_versions _ _ _ _ _ Hh Hs Hlen) as Hv.
  exists (single_batches sent_at id 0 (L id)). split_and!.
  - by apply (resend_sends sent_at (kr_producer r) id 0 (L id) evs _ _ Hp (conj Hd Hv) Hr).
  - by apply single_batches_events.
  - intros i b elapsed k w2 w3 Hi Hh2 Hb. apply single_batches_lookup in Hi as (e & He & Hbe). subst b.
    apply (processed_recorded _ _ _ _ _ _ Hh2) in Hb as [Hver Hst]; [| done ]. simpl in Hver, Hst.
    pose proof (lookup_lt_Some _ _ _ He) as Hlt. exists (take i (L id)), e.
    assert (S i = length (L id)) as Hl by (unfold id in *; lia).
    split_and!; [| rewrite length_take; lia | done ].
    rewrite <- (take_drop i (L id)) at 1. f_equal. rewrite (drop_S _ _ _ He). f_equal.
    apply drop_ge. lia.
Qed.

(** The selective strategy writes the whole history again: the store numbers
    the events of an account without a gap, so the strategy sends them all as
    one batch with the current version, and if that is processed the history
    is followed by a copy of itself. *)
Theorem selective_replay_repeats_history sent_at s account_id account w st' w' L :
  holds st' L -> sends (st_producer s) ->
  st_get_account account_id (w_store w) = (Ok (Some account), st') -> acc_id account = account_id ->
  L account_id <> [] -> (Z.of_nat (length (L account_id)) <= i64_max)%Z ->
  selective_replay sent_at s (Some account_id) w = (Ok tt, w') ->
  exists b, events_log (st_producer s) w' = events_log (st_producer s) w ++ [batch_message b] /\
    eb_account_id b = account_id /\ eb_events b = L account_id /\
    forall elapsed k w2 w3, holds (w_store w2) L -> process_batch elapsed k b w2 = (Ok tt, w3) ->
      holds (w_store w3) (append account_id (L account_id) L).
Proof.
  intros Hh' Hp Hacc Hid Hne Hlen Hr. unfold selective_replay, over_accounts, accounts_for in Hr.
  apply bind_ok in Hr as (accs & w1 & Ha & Hr). unfold bind, on_event_store, on_err, zoom in Ha.
  rewrite Hacc in Ha. simpl in Ha. unfold lift, ret in Ha. simplify_eq. simpl in Hr.
  apply bind_ok in Hr as ([] & w2 & Hr & Hret). unfold ret in Hret. simplify_eq.
  apply bind_ok in Hr as (evs & w1 & Hget & Hr). unfold on_event_store in Hget. apply on_err_ok in Hget.
  unfold zoom in Hget. simpl in Hget. destruct (st_get_events _ None st') as [re st] eqn:Hs. simplify_eq.
  pose proof (get_events_sound _ _ _ _ _ Hh' Hs) as Hd.
  pose proof (get_events_versions _ _ _ _ _ Hh' Hs Hlen) as Hv.
  assert (numbered 0 (L (acc_id account)) evs) as Hn by done.
  eexists. split_and!;
    [ exact (selective_sends _ _ _ 0 _ [] _ _ _ Hp Hn ltac:(lia) ltac:(lia) Hr Hne) | done | done |].
  intros elapsed k w2 w3 Hh2 Hb. by apply (processed_recorded _ _ _ _ _ _ Hh2) in Hb as [_ Hst].
Qed.

Lemma process_batch_keeps elapsed k b w L :
  holds (w_store w) L -> eb_events b <> [] ->
  holds (w_store (snd (process_batch elapsed k b w))) L \/
  holds (w_store (snd (process_batch elapsed k b w))) (append (eb_account_id b) (eb_events b) L).
Proof.
  intros Hh Hne. rewrite process_batch_store.
  pose proof (save_events_keeps (w_store w) L (eb_account_id b) (eb_events b) (eb_version b) Hh) as Hk.
  destruct (st_save_events _ _ _ (w_store w)) as [ [ [] | | | ] st] eqn:Hs; simpl in *; auto.
  right. by eapply save_events_sound.
Qed.

(** C23. No polled batch is lost while the loop goes on: a turn that polls a batch
    and returns has either processed it, so that it is recorded and no dead
    letter was sent, or sent a dead letter with exactly its account, events and
    version; in the second case the events may have been recorded all the
    same. *)
Theorem polled_batch_not_lost now sent_at waited elapsed k w b c L w' :
  holds (w_store w) L -> eb_events b <> [] ->
  dq_producer (ke_dlq k) = ke_producer k -> sends (ke_producer k) ->
  poll_events (ke_consumer k) (w_cluster w) = (Ok (Some b), c) ->
  processing_turn now sent_at waited elapsed k w = (Ok tt, w') ->
  let recorded := append (eb_account_id b) (eb_events b) L in
  (holds (w_store w') recorded /\ dlq_log (ke_dlq k) w' = dlq_log (ke_dlq k) w) \/
  ((holds (w_store w') L \/ holds (w_store w') recorded) /\
   exists reason, dlq_log (ke_dlq k) w' = dlq_log (ke_dlq k) w ++
     [letter_message (new_letter now (eb_account_id b) (eb_events b) (eb_version b) reason)]).
Proof.
  intros Hh Hne Hdq Hp Hpoll Hturn recorded. unfold processing_turn in Hturn.
  assert (exists w1, w_store w1 = w_store w /\ dlq_log (ke_dlq k) w1 = dlq_log (ke_dlq k) w /\
    bind (attempt (process_batch elapsed k b)) (fun processed : string + unit =>
      match processed with
      | inr _ => count events_processed (Z.of_nat (length (eb_events b)))
      | inl e => count processing_errors 1 ;;;
          trait_send_to_dlq now (ke_dlq k) (eb_account_id b) (eb_events b) (eb_version b)
            ("Batch processing failed: " +:+ e)
      end) w1 = (Ok tt, w')) as (w1 & Hst & Hlog & Hk).
  { unfold bind at 1, attempt at 1, on_cluster at 1, on_err at 1, zoom at 1 in Hturn.
    pose proof (poll_logs batch_from_value undecodable from_kafka (ke_consumer k) (w_cluster w)
      (dlq_topic (kp_config (dq_producer (ke_dlq k))))) as Hl.
    unfold poll_events in Hpoll, Hturn. rewrite Hpoll in Hl, Hturn. simpl in Hturn.
    unfold count at 1 2 in Hturn. rewrite !modify_step in Hturn. eexists. split_and!; [| | exact Hturn ]; done. }
  apply bind_ok in Hk as (x & w2 & Hx & Hk). unfold attempt in Hx.
  pose proof (process_batch_keeps elapsed k b w1 L) as Hkeep.
  assert (dlq_log (ke_dlq k) (snd (process_batch elapsed k b w1)) = dlq_log (ke_dlq k) w1) as Hdlq.
  { apply (process_batch_topic (dlq_topic (kp_config (dq_producer (ke_dlq k)))) elapsed k b).
    rewrite Hdq. by apply topics_differ. }
  destruct (process_batch elapsed k b w1) as [ [ [] | e | | ] w3] eqn:Hb; simplify_eq/=.
  - left. unfold count, modify in Hk. simplify_eq. simpl. split.
    + rewrite <- Hst in Hh. by apply (processed_recorded elapsed k b w1).
    + unfold dlq_log in *. simpl. congruence.
  - right. unfold count in Hk. rewrite modify_step in Hk.
    apply on_cluster_ok in Hk as (c4 & Hs & ->). simpl. rewrite Hst in Hkeep. split; [ by apply Hkeep |].
    exists ("Batch processing failed: " +:+ e). unfold dlq_log in *. simpl in *. rewrite Hdq in *.
    rewrite (produce_ok _ _ _ _ Hp Hs). simpl. by rewrite Hdlq, Hlog.
Qed.

End Processor.

(** ** Witnesses: alice's account, projected *)
Module ProcessorWitness.
Import ScaleZero PlainSerde StoreWitness LogStore HandlersWitness ServiceWitness CacheWitness KafkaWitness
  DlqWitness RecoveryWitness.

Definition alice_row : AccountProjection :=
  {| ap_id := 1%N; ap_owner_name := "alice"; ap_balance := amt 150; ap_is_active := true;
     ap_created_at := 0; ap_updated_at := 0 |}.

#[local] Instance projected : ProjectionStoreTrait := {|
  Proj := unit;
  pj_get_account := fun id => ret (if (id =? 1)%N then Some alice_row else None);
  pj_get_all_accounts := ret [alice_row];
  pj_get_account_transactions := fun _ => ret [];
  pj_upsert_accounts_batch := fun _ => ret tt;
  pj_insert_transactions_batch := fun _ => ret tt
|}.

Definition before : @World _ _ _ log_store projected no_cache :=
  {| w_cluster := listening; w_metrics := KafkaMetrics_default; w_slept := [];
     w_store := memory0 : @Store _ log_store; w_projections := tt : @Proj _ projected;
     w_cache := tt : @CacheState _ no_cache; w_recovery := RecoveryState_default |}.

Definition processor : KafkaEventProcessor :=
  {| ke_producer := producer; ke_consumer := consumer; ke_dlq := queue; ke_recovery := recovery;
     ke_recovery_strategies := strategies |}.

Lemma before_holds : holds (w_store before) log0.
Proof. exact log0_held. Defined.

Lemma the_batch_processed :
  process_batch 5 processor the_batch before = (Ok tt, snd (process_batch 5 processor the_batch before)).
Proof. apply with_fst. vm_compute. reflexivity. Defined.

Lemma processed_batch_extends_replay_witness :
  eb_version the_batch = 2%Z /\
  exists a', apply_events (blank 1%N) (log0 1%N ++ [deposit]) = Some a' /\
    cache_log producer (snd (process_batch 5 processor the_batch before))
      = cache_log producer before ++ [account_message 1%N a'].
Proof.
  destruct (processed_batch_extends_replay 5 processor the_batch before
              (snd (process_batch 5 processor the_batch before)) log0 before_holds)
    as (Hv & _ & Hcache); [ discriminate | vm_compute; discriminate | exact the_batch_processed |].
  split; [ exact Hv |].
  apply (Hcache alice_row tt HandlersWitness.alice);
    [ reflexivity | reflexivity | reflexivity | repeat split | exact producer_sends ].
Defined.

Lemma redelivered_batch_not_recorded_witness :
  is_ok (fst (process_batch 6 processor the_batch (snd (process_batch 5 processor the_batch before)))) = false.
Proof.
  apply (redelivered_batch_not_recorded 5 processor the_batch before _ log0 _
           (append 1%N [deposit] log0) 6 before_holds ltac:(discriminate) the_batch_processed).
  - apply (processed_recorded 5 processor the_batch before _ log0 before_holds ltac:(discriminate)
             the_batch_processed).
  - reflexivity.
Defined.

Lemma full_replay_repeats_last_event_witness :
  exists batches, map eb_events batches = map (fun e => [e]) opening.
Proof.
  destruct (full_replay_repeats_last_event sent_at recovery HandlersWitness.alice before
              (snd (replay_account_events sent_at recovery HandlersWitness.alice before)) log0
              before_holds producer_sends) as (batches & _ & Hev & _).
  - vm_compute. discriminate.
  - apply with_fst. vm_compute. reflexivity.
  - exists batches. exact Hev.
Defined.

Lemma selective_replay_repeats_history_witness : exists b, eb_account_id b = 1%N /\ eb_events b = opening.
Proof.
  destruct (selective_replay_repeats_history sent_at strategies 1%N HandlersWitness.alice before
              (memory0 : @Store _ log_store)
              (snd (selective_replay sent_at strategies (Some 1%N) before)) log0
              before_holds producer_sends) as (b & _ & Hid & Hev & _);
    [ reflexivity | reflexivity | discriminate | vm_compute; discriminate
    | apply with_fst; vm_compute; reflexivity |].
  exists b. split; [ exact Hid | exact Hev ].
Defined.

Lemma polled_batch_not_lost_witness :
  let w' := snd (processing_turn 7 sent_at 1 5 processor before) in
  holds (w_store w') (append 1%N [deposit] log0) \/
  exists reason, dlq_log queue w' = dlq_log queue before ++
    [letter_message (new_letter 7 1%N [deposit] 2 reason)].
Proof.
  destruct (polled_batch_not_lost 7 sent_at 1 5 processor before the_batch
              (snd (poll_events consumer (w_cluster before))) log0
              (snd (processing_turn 7 sent_at 1 5 processor before)) before_holds)
    as [ [Hrec _] | [_ Hletter] ];
    [ discriminate | reflexivity | exact producer_sends | apply with_fst; reflexivity
    | apply with_fst; vm_compute; reflexivity | left; exact Hrec | right; exact Hletter ].
Defined.

End ProcessorWitness.
