(* ===== verification/KafkaMonitoring.v ===== *)
(** Monitoring of the Kafka components (src/src/infrastructure/kafka_monitoring.rs).

    The methods of [MonitoringDashboard] over the counters of [KafkaMetrics];
    the methods of [MonitoringDashboardTrait], which are the ones the event
    processor calls, have empty bodies.  Times are
    milliseconds. *)
From S2P Require Import Prelude.
From S2P Require Import KafkaClient.
From S2P Require Import KafkaProcessor.
From stdpp Require Import base tactics list strings pretty.
From Stdlib Require Import ZArith Lia SpecFloat Sorted.

(** ** Data *)
Inductive AlertSeverity : Type := AlertInfo | AlertWarning | AlertCritical.

Inductive ServiceStatus : Type := Healthy | Degraded | Unhealthy.

Record Alert : Type := {
  al_severity : AlertSeverity;
  al_message : string;
  al_timestamp : Z;
  al_metric_name : string;
  al_threshold : f64;
  al_current_value : f64
}.

Record MetricsSnapshot : Type := {
  ms_error_rate : f64;
  ms_processing_latency : f64;
  ms_consumer_lag : Z;
  ms_memory_usage : Z;
  ms_cpu_usage : Z;
  ms_events_processed : Z;
  ms_dlq_size : Z
}.

Record TimeSeriesPoint : Type := { ts_timestamp : Z; ts_metrics : MetricsSnapshot }.

Record ComponentHealth : Type := { ch_name : string; ch_status : ServiceStatus; ch_details : string }.

Record HealthStatus : Type := {
  hs_status : ServiceStatus;
  hs_last_check : Z;
  hs_components : list ComponentHealth
}.

Record MonitoringDashboard : Type := {
  md_metrics : KafkaMetrics;
  md_time_series_data : list TimeSeriesPoint;
  md_alerts : list Alert;
  md_health_status : HealthStatus
}.

Record MetricsSummary : Type := {
  mm_current_error_rate : f64;
  mm_current_processing_latency : f64;
  mm_current_consumer_lag : Z;
  mm_current_memory_usage : Z;
  mm_current_cpu_usage : Z;
  mm_total_events_processed : Z;
  mm_total_errors : Z;
  mm_dlq_size : Z;
  mm_active_alerts : nat;
  mm_health_status : ServiceStatus
}.

(** ** Methods *)

(** [MonitoringDashboard::new]. *)
Definition MonitoringDashboard_new (now : Z) (metrics : KafkaMetrics) : MonitoringDashboard :=
  {| md_metrics := metrics; md_time_series_data := []; md_alerts := [];
     md_health_status := {| hs_status := Healthy; hs_last_check := now; hs_components := [] |} |}.

Definition snapshot (m : KafkaMetrics) : MetricsSnapshot :=
  {| ms_error_rate := get_error_rate m; ms_processing_latency := get_average_processing_latency m;
     ms_consumer_lag := m consumer_lag; ms_memory_usage := m memory_usage; ms_cpu_usage := m cpu_usage;
     ms_events_processed := m events_processed; ms_dlq_size := m dlq_messages |}.

Definition day : Z := 24 * 60 * 60 * 1000.

(** [MonitoringDashboard::record_metrics]. *)
Definition record_metrics (now : Z) (d : MonitoringDashboard) : MonitoringDashboard :=
  {| md_metrics := md_metrics d;
     md_time_series_data := filter (fun p => (now - day < ts_timestamp p)%Z)
       (md_time_series_data d ++ [ {| ts_timestamp := now; ts_metrics := snapshot (md_metrics d) |} ]);
     md_alerts := md_alerts d; md_health_status := md_health_status d |}.

Definition f64_1e9 : f64 := f64_of_u64 1000000000.

Definition error_alert (now : Z) (m : KafkaMetrics) : list Alert :=
  let error_rate := get_error_rate m in
  if f64_ltb f64_tenth error_rate then
    [ {| al_severity := AlertCritical;
         al_message := "High error rate: " +:+ fixed 2 (f64_mul error_rate (f64_of_u64 100)) +:+ "%";
         al_timestamp := now; al_metric_name := "error_rate"; al_threshold := f64_tenth;
         al_current_value := error_rate |} ]
  else [].

Definition lag_alert (now : Z) (m : KafkaMetrics) : list Alert :=
  if (1000 <? m consumer_lag)%Z then
    [ {| al_severity := AlertWarning; al_message := "High consumer lag: " +:+ pretty (m consumer_lag);
         al_timestamp := now; al_metric_name := "consumer_lag"; al_threshold := f64_of_u64 1000;
         al_current_value := f64_of_u64 (m consumer_lag) |} ]
  else [].

Definition memory_alert (now : Z) (m : KafkaMetrics) : list Alert :=
  if (1000000000 <? m memory_usage)%Z then
    [ {| al_severity := AlertWarning;
         al_message := "High memory usage: " +:+ fixed 2 (f64_div (f64_of_u64 (m memory_usage)) f64_1e9)
                         +:+ "GB";
         al_timestamp := now; al_metric_name := "memory_usage"; al_threshold := f64_1e9;
         al_current_value := f64_of_u64 (m memory_usage) |} ]
  else [].

(** [MonitoringDashboard::check_alerts]. *)
Definition check_alerts (now : Z) (d : MonitoringDashboard) : MonitoringDashboard :=
  let m := md_metrics d in
  {| md_metrics := m; md_time_series_data := md_time_series_data d;
     md_alerts := md_alerts d ++ error_alert now m ++ lag_alert now m ++ memory_alert now m;
     md_health_status := md_health_status d |}.

(** A component checked against its limit. *)
Definition component (name details : string) (value limit : Z) : ComponentHealth :=
  {| ch_name := name; ch_status := if (limit <? value)%Z then Degraded else Healthy;
     ch_details := details +:+ pretty value |}.

(** [overall_status], set to [Degraded] by each component over its limit. *)
Definition overall (components : list ComponentHealth) : ServiceStatus :=
  foldl (fun s c => match ch_status c with Degraded => Degraded | _ => s end) Healthy components.

Definition health_components (m : KafkaMetrics) : list ComponentHealth :=
  [component "Kafka Producer" "Send errors: " (m send_errors) 100;
   component "Kafka Consumer" "Consume errors: " (m consume_errors) 100;
   component "Dead Letter Queue" "DLQ size: " (m dlq_messages) 1000].

(** [MonitoringDashboard::update_health_status]. *)
Definition update_health_status (now : Z) (d : MonitoringDashboard) : MonitoringDashboard :=
  let components := health_components (md_metrics d) in
  {| md_metrics := md_metrics d; md_time_series_data := md_time_series_data d; md_alerts := md_alerts d;
     md_health_status := {| hs_status := overall components; hs_last_check := now;
                            hs_components := components |} |}.

(** [MonitoringDashboard::get_metrics_summary]. *)
Definition get_metrics_summary (d : MonitoringDashboard) : MetricsSummary :=
  let latest := option_map ts_metrics (last (md_time_series_data d)) in
  let m := md_metrics d in
  {| mm_current_error_rate := default (f64_of_u64 0) (option_map ms_error_rate latest);
     mm_current_processing_latency := default (f64_of_u64 0) (option_map ms_processing_latency latest);
     mm_current_consumer_lag := default 0%Z (option_map ms_consumer_lag latest);
     mm_current_memory_usage := default 0%Z (option_map ms_memory_usage latest);
     mm_current_cpu_usage := default 0%Z (option_map ms_cpu_usage latest);
     mm_total_events_processed := m events_processed; mm_total_errors := m processing_errors;
     mm_dlq_size := m dlq_messages; mm_active_alerts := length (md_alerts d);
     mm_health_status := hs_status (md_health_status d) |}.

(** The trait's methods. *)
Definition trait_record_metrics (d : MonitoringDashboard) : MonitoringDashboard := d.
Definition trait_check_alerts (d : MonitoringDashboard) : MonitoringDashboard := d.
Definition trait_update_health_status (d : MonitoringDashboard) : MonitoringDashboard := d.

(** ** Properties *)

(** What the dashboard watches: a counter over its limit. *)
Definition over_limit (m : KafkaMetrics) : Prop :=
  (100 < m send_errors \/ 100 < m consume_errors \/ 1000 < m dlq_messages)%Z.

(** The service is reported degraded exactly when a counter is over its limit, and
    never unhealthy, whatever was reported before. *)
Lemma degraded_exactly now d :
  let s := hs_status (md_health_status (update_health_status now d)) in
  (s = Degraded <-> over_limit (md_metrics d)) /\ s <> Unhealthy.
Proof.
  simpl. unfold over_limit, overall, health_components, component. simpl.
  destruct (Z.ltb_spec 100 (md_metrics d send_errors)), (Z.ltb_spec 100 (md_metrics d consume_errors)),
    (Z.ltb_spec 1000 (md_metrics d dlq_messages)); (split; [ split; intros; done || lia | discriminate ]).
Qed.

(** A round of the three methods. *)
Definition round (now : Z) (d : MonitoringDashboard) : MonitoringDashboard :=
  update_health_status now (check_alerts now (record_metrics now d)).

Fixpoint rounds (times : list Z) (d : MonitoringDashboard) : MonitoringDashboard :=
  match times with
  | [] => d
  | now :: rest => rounds rest (round now d)
  end.

Lemma rounds_series times d :
  StronglySorted Z.le times ->
  Forall (fun p => Forall (Z.le (ts_timestamp p)) times) (md_time_series_data d) ->
  map ts_timestamp (md_time_series_data (rounds times d)) =
  match last times with
  | None => map ts_timestamp (md_time_series_data d)
  | Some t => filter (fun x => (t - day < x)%Z) (map ts_timestamp (md_time_series_data d) ++ times)
  end.
Proof.
  intros Hs. revert d. induction Hs as [| now times Hs IH Hall]; intros d Hd; [ done |].
  cbn [rounds]. rewrite IH; clear IH.
  - cbn [round update_health_status check_alerts record_metrics md_time_series_data].
    assert (forall t, (now <= t)%Z -> forall l,
      filter (fun x => (t - day < x)%Z) (map ts_timestamp (filter (fun p => (now - day < ts_timestamp p)%Z) l))
      = filter (fun x => (t - day < x)%Z) (map ts_timestamp l)) as Hf.
    { intros t Ht. induction l as [| p l IHl]; [ done |]. rewrite filter_cons. cbn [map].
      destruct (decide (now - day < ts_timestamp p)%Z); cbn [map]; rewrite ?filter_cons, IHl; [ done |].
      rewrite decide_False by lia. done. }
    assert (forall l, map ts_timestamp (filter (fun p => (now - day < ts_timestamp p)%Z) l)
      = filter (fun x => (now - day < x)%Z) (map ts_timestamp l)) as Hf0.
    { induction l as [| p l IHl]; [ done |]. rewrite !filter_cons. cbn [map].
      destruct (decide (now - day < ts_timestamp p)%Z) as [Hp | Hp]; cbn [map];
        [ rewrite filter_cons_True by done | rewrite filter_cons_False by done ]; by rewrite IHl. }
    destruct (last times) as [t |] eqn:Hl.
    + assert (now <= t)%Z as Ht.
      { rewrite last_lookup in Hl. apply list_elem_of_lookup_2 in Hl. by apply (proj1 (Forall_forall _ _) Hall). }
      rewrite last_cons, Hl, filter_app, (Hf t Ht), <- filter_app, map_app, <- app_assoc. done.
    + apply last_None in Hl as ->. cbn [last]. by rewrite Hf0, map_app.
  - apply Forall_forall. intros p Hp. cbn [round update_health_status check_alerts record_metrics
      md_time_series_data] in Hp. apply list_elem_of_filter in Hp as [_ Hp].
    apply elem_of_app in Hp as [Hp | Hp].
    + pose proof (proj1 (Forall_forall _ _) Hd p Hp) as Hx. by inversion Hx.
    + apply list_elem_of_singleton in Hp as ->. done.
Qed.

(** The time series is the last day: after any rounds with the clock going
    forward it holds one point for each round of the last twenty-four hours, in
    order, and no other. *)
Theorem series_is_the_last_day start metrics times t :
  StronglySorted Z.le times -> last times = Some t ->
  map ts_timestamp (md_time_series_data (rounds times (MonitoringDashboard_new start metrics)))
  = filter (fun x => (t - day < x)%Z) times.
Proof. intros Hs Hl. rewrite rounds_series by done. by rewrite Hl. Qed.

Lemma series_is_the_last_day_witness :
  map ts_timestamp (md_time_series_data
    (rounds [0; 60000; 86400000; 86430000]%Z (MonitoringDashboard_new 0 KafkaMetrics_default)))
  = [60000; 86400000; 86430000]%Z.
Proof.
  rewrite (series_is_the_last_day 0 KafkaMetrics_default [0; 60000; 86400000; 86430000]%Z 86430000);
    [ reflexivity | repeat constructor; lia | reflexivity ].
Defined.
