(* ===== verification/KafkaTracing.v ===== *)
(** Tracing of the Kafka components (src/src/infrastructure/kafka_tracing.rs).

    A method writes lines to the log inside a span, so it is the list of [Line]s
    it writes.  [TracingTrait] is the trait through which the event processor
    traces; [kafka_tracing] its implementation, whose bodies are empty.
    [Telemetry] is what the set-up of tracing leaves in the process: the global
    subscriber, set once by [main] (src/src/main.rs) or by the method
    [init_tracing], and the tracer provider that method installs and [drop] shuts
    down.  Whether the Jaeger agent can be installed is the crate's. *)
From S2P Require Import Prelude.
From S2P Require Import DecimalSpec.
From S2P Require Import Account.
From S2P Require Import Codec.
From S2P Require Import KafkaClient.
From S2P Require Import KafkaProcessor.
From S2P Require Import KafkaMonitoring.
From stdpp Require Import base tactics list strings pretty.
From Stdlib Require Import ZArith Lia SpecFloat.

Inductive Level : Type := Info | Warn | Error.

#[global] Instance level_eq_dec : EqDecision Level.
Proof. solve_decision. Defined.

(** A span with its fields. *)
Record Span : Type := { sp_name : string; sp_fields : list (string * string) }.

Record Line : Type := { ln_level : Level; ln_span : Span; ln_text : string }.

Definition in_span (s : Span) (lines : list (Level * string)) : list Line :=
  map (fun l => {| ln_level := fst l; ln_span := s; ln_text := snd l |}) lines.

Definition when (b : bool) (level : Level) (text : string) : list (Level * string) :=
  if b then [(level, text)] else [].

Definition f64_1e6 : f64 := f64_of_u64 1000000.

Section Tracing.
Context `{SerdeOps} `{!Display Decimal}.

(** The line of one event of [trace_event_processing]. *)
Definition event_text (event : AccountEvent) : string :=
  match event with
  | EvAccountCreated _ _ _ => "Processing AccountCreated event"
  | EvMoneyDeposited _ amount _ => "Processing MoneyDeposited event: " +:+ to_string amount
  | EvMoneyWithdrawn _ amount _ => "Processing MoneyWithdrawn event: " +:+ to_string amount
  | EvAccountClosed _ reason => "Processing AccountClosed event: " +:+ reason
  end.

(** [KafkaTracing::trace_event_processing]. *)
Definition trace_event_processing (account_id : Uuid) (events : list AccountEvent) (version : Z) : list Line :=
  in_span {| sp_name := "process_events";
             sp_fields := [("account_id", uuid_to_string account_id);
                           ("event_count", pretty (length events)); ("version", pretty version)] |}
    ((Info, "Processing events for account " +:+ uuid_to_string account_id)
       :: map (fun event => (Info, event_text event)) events).

(** [KafkaTracing::trace_dlq_operation]. *)
Definition trace_dlq_operation (account_id : Uuid) (operation : string) (retry_count : Z) : list Line :=
  in_span {| sp_name := "dlq_operation";
             sp_fields := [("account_id", uuid_to_string account_id); ("operation", operation);
                           ("retry_count", pretty retry_count)] |}
    [(Info, "DLQ operation '" +:+ operation +:+ "' for account " +:+ uuid_to_string account_id
              +:+ " (retry " +:+ pretty retry_count +:+ ")")].

(** [{:?}] of an [Option<Uuid>]. *)
Definition debug_uuid (o : option Uuid) : string :=
  match o with
  | Some id => "Some(" +:+ uuid_to_string id +:+ ")"
  | None => "None"
  end.

(** [KafkaTracing::trace_recovery_operation]. *)
Definition trace_recovery_operation (strategy : string) (account_id : option Uuid) (status : string) : list Line :=
  in_span {| sp_name := "recovery_operation";
             sp_fields := [("strategy", strategy); ("account_id", debug_uuid account_id); ("status", status)] |}
    [(Info, "Recovery operation '" +:+ strategy +:+ "' for account " +:+ debug_uuid account_id
              +:+ ": " +:+ status)].

(** [KafkaTracing::trace_error]. *)
Definition trace_error (error context : string) : list Line :=
  in_span {| sp_name := "error"; sp_fields := [("context", context); ("error", error)] |}
    [(Error, "Error in " +:+ context +:+ ": " +:+ error)].

(** ** [KafkaTracingTrait] *)
Record TracingTrait : Type := {
  tt_init_tracing : res string unit;
  tt_trace_event_processing : Uuid -> list AccountEvent -> Z -> list Line;
  tt_trace_error : string -> string -> list Line;
  tt_trace_metrics : list Line;
  tt_trace_performance_metrics : list Line;
  tt_trace_recovery_operation : string -> option Uuid -> string -> list Line
}.

(** [impl KafkaTracingTrait for KafkaTracing]. *)
Definition kafka_tracing : TracingTrait := {|
  tt_init_tracing := Ok tt;
  tt_trace_event_processing := fun _ _ _ => [];
  tt_trace_error := fun _ _ => [];
  tt_trace_metrics := [];
  tt_trace_performance_metrics := [];
  tt_trace_recovery_operation := fun _ _ _ => []
|}.

End Tracing.

(** [KafkaTracing::trace_metrics]. *)
Definition trace_metrics (m : KafkaMetrics) : list Line :=
  let error_rate := get_error_rate m in
  let processing_latency := get_average_processing_latency m in
  let percent := fixed 2 (f64_mul error_rate (f64_of_u64 100)) in
  in_span {| sp_name := "metrics_snapshot"; sp_fields := [] |}
    ((Info, "Metrics snapshot: error_rate=" +:+ percent +:+ "%, processing_latency="
              +:+ fixed 2 processing_latency +:+ "ms, consumer_lag=" +:+ pretty (m consumer_lag))
       :: when (f64_ltb f64_tenth error_rate) Warn ("High error rate detected: " +:+ percent +:+ "%")
       ++ when (1000 <? m consumer_lag)%Z Warn ("High consumer lag detected: " +:+ pretty (m consumer_lag))).

(** [KafkaTracing::trace_performance_metrics]. *)
Definition trace_performance_metrics (m : KafkaMetrics) : list Line :=
  let cpu := fixed 1 (f64_div (f64_of_u64 (m cpu_usage)) (f64_of_u64 100)) in
  in_span {| sp_name := "performance_metrics"; sp_fields := [] |}
    ((Info, "Performance metrics: memory=" +:+ fixed 2 (f64_div (f64_of_u64 (m memory_usage)) f64_1e6)
              +:+ "MB, cpu=" +:+ cpu +:+ "%, threads=" +:+ pretty (m thread_count))
       :: when (1000000000 <? m memory_usage)%Z Warn
            ("High memory usage: " +:+ fixed 2 (f64_div (f64_of_u64 (m memory_usage)) f64_1e9) +:+ "GB")
       ++ when (80 <? m cpu_usage)%Z Warn ("High CPU usage: " +:+ cpu +:+ "%")).

(** ** The subscriber of the process *)

(** [tracing_subscriber::fmt()] with its options. *)
Record FmtOptions : Type := {
  fmt_max_level : Level;
  fmt_target : bool;
  fmt_thread_ids : bool;
  fmt_file : bool;
  fmt_line_number : bool
}.

Inductive Sampler : Type := AlwaysOn.

(** [opentelemetry_jaeger::new_agent_pipeline()] with its options. *)
Record JaegerPipeline : Type := {
  jp_service_name : string;
  jp_endpoint : string;
  jp_sampler : Sampler;
  jp_resource : list (string * string)
}.

(** The formatting subscriber, or the registry with a filter and the
    OpenTelemetry layer. *)
Inductive Subscriber : Type :=
| FmtSubscriber (o : FmtOptions)
| Registry (env_filter : string) (tracer : JaegerPipeline).

Record Telemetry : Type := {
  tl_subscriber : option Subscriber;
  tl_provider : option JaegerPipeline
}.

Definition set_provider (p : option JaegerPipeline) (t : Telemetry) : Telemetry :=
  {| tl_subscriber := tl_subscriber t; tl_provider := p |}.

(** [.init()]: panics when the process has a subscriber. *)
Definition subscriber_init (s : Subscriber) : M Telemetry string unit := fun t =>
  match tl_subscriber t with
  | Some _ => (Panic, t)
  | None => (Ok tt, {| tl_subscriber := Some s; tl_provider := tl_provider t |})
  end.

(** The set-up at the start of [main]. *)
Definition main_tracing : M Telemetry string unit :=
  subscriber_init (FmtSubscriber {| fmt_max_level := Info; fmt_target := false; fmt_thread_ids := true;
                                    fmt_file := true; fmt_line_number := true |}).

Definition jaeger_pipeline : JaegerPipeline :=
  {| jp_service_name := "banking-es-kafka"; jp_endpoint := "localhost:6831"; jp_sampler := AlwaysOn;
     jp_resource := [("service.name", "banking-es-kafka"); ("deployment.environment", "production")] |}.

(** [KafkaTracing::init_tracing]; [install_batch] says whether the agent can be
    installed, [default_env] is the filter the environment gives, if it is valid. *)
Definition init_tracing (install_batch : JaegerPipeline -> res string unit) (default_env : option string) :
    M Telemetry string unit :=
  lift (install_batch jaeger_pipeline) ;;;
  modify (set_provider (Some jaeger_pipeline)) ;;;
  subscriber_init (Registry (default "info,banking_es=debug" default_env) jaeger_pipeline).

(** [impl Drop for KafkaTracing]. *)
Definition drop_tracing : Telemetry -> Telemetry := set_provider None.

Definition warnings (lines : list Line) : list string :=
  map ln_text (filter (fun l => ln_level l = Warn) lines).

(** ** Facts *)
Lemma warnings_in_span s lines :
  warnings (in_span s lines) = map snd (filter (fun l => fst l = Warn) lines).
Proof.
  unfold warnings, in_span. induction lines as [| [l t] lines IH]; [ done |]. cbn [map].
  rewrite !filter_cons. simpl. destruct (decide (l = Warn)); simpl; by rewrite IH.
Qed.

Lemma warnings_when b text : filter (fun l => fst l = Warn) (when b Warn text) = when b Warn text.
Proof. by destruct b. Qed.

(** A trace says as many things as there are events, and one more. *)
Lemma event_lines `{SerdeOps} `{!Display Decimal} id events version :
  map ln_text (trace_event_processing id events version)
    = ("Processing events for account " +:+ uuid_to_string id) :: map event_text events.
Proof. unfold trace_event_processing, in_span. simpl. f_equal. by rewrite !map_map. Qed.

(** The log warns where the dashboard alerts and where recovery starts: the
    metrics trace has a warning exactly when recovery would be triggered, it has
    one per alert on the error rate or the lag, and the performance trace has the
    dashboard's own message for the memory, with one more warning for a processor
    use above 80 that no alert corresponds to. *)
Theorem warnings_match_alerts now m :
  (warnings (trace_metrics m) = [] <-> should_trigger_recovery m = false) /\
  length (warnings (trace_metrics m)) = length (error_alert now m ++ lag_alert now m) /\
  warnings (trace_performance_metrics m)
    = map al_message (memory_alert now m) ++
      (if (80 <? m cpu_usage)%Z
       then ["High CPU usage: " +:+ fixed 1 (f64_div (f64_of_u64 (m cpu_usage)) (f64_of_u64 100)) +:+ "%"] else []).
Proof.
  unfold trace_metrics, trace_performance_metrics, should_trigger_recovery, error_alert, lag_alert, memory_alert.
  cbv zeta. rewrite !warnings_in_span, !filter_cons. cbn [fst]. rewrite !decide_False by done.
  rewrite !filter_app, !warnings_when.
  destruct (f64_ltb f64_tenth (get_error_rate m)), (1000 <? m consumer_lag)%Z, (1000000000 <? m memory_usage)%Z,
    (80 <? m cpu_usage)%Z; simpl; done.
Qed.

(** A processor use of 81 per cent is reported as less than one. *)
Example cpu_warning_text :
  warnings (trace_performance_metrics (fun c => match c with cpu_usage => 81%Z | _ => 0%Z end))
    = ["High CPU usage: 0.8%"].
Proof. vm_compute. reflexivity. Qed.

(** The subscriber of a process is set once: after the set-up of [main] the
    method [init_tracing] never succeeds (it reports that the agent cannot be
    installed, or panics), and the log stays the one [main] has set. *)
Theorem subscriber_set_once install_batch default_env t t' :
  main_tracing t = (Ok tt, t') ->
  is_ok (fst (init_tracing install_batch default_env t')) = false /\
  tl_subscriber (snd (init_tracing install_batch default_env t')) = tl_subscriber t' /\
  tl_subscriber t = None.
Proof.
  unfold main_tracing, subscriber_init. destruct (tl_subscriber t) eqn:Ht; intros Hm; simplify_eq/=.
  unfold init_tracing, bind, lift, modify. by destruct (install_batch jaeger_pipeline).
Qed.

(** With a working agent the call through the struct would end the process. *)
Example init_tracing_panics :
  let t := snd (main_tracing {| tl_subscriber := None; tl_provider := None |}) in
  fst (init_tracing (fun _ => Ok tt) None t) = Panic.
Proof. reflexivity. Qed.
