(* ===== verification/KafkaSettings.v ===== *)
(** The settings of src/src/infrastructure/kafka_config.rs: the records, their
    defaults, and the JSON their derived [Serialize] and [Deserialize] read and
    write.

    The file is not a module of the crate; the settings the program uses are
    those of [KafkaClient.KafkaConfig].  A field is written and read by the
    [codec] of its type: an [Option] is [null] or its value and may be missing, an
    integer is refused outside its width.  [KafkaSettings] is the source's
    [KafkaConfig], renamed beside the other one. *)
From S2P Require Import Prelude.
From S2P Require Import DecimalSpec.
From S2P Require Import Account.
From S2P Require Import Codec.
From stdpp Require Import base tactics list strings.
From Stdlib Require Import ZArith Lia.

(** ** Fields *)

(** How the derived code writes a field, reads it, and what it takes for one that
    is missing. *)
Record codec (A : Type) : Type := {
  cd_write : A -> Value;
  cd_read : Value -> res SerdeError A;
  cd_missing : option A
}.
Arguments cd_write {A} c.
Arguments cd_read {A} c.
Arguments cd_missing {A} c.

Definition string_codec : codec string :=
  {| cd_write := VString; cd_read := as_str; cd_missing := None |}.

Definition bool_codec : codec bool :=
  {| cd_write := VBool; cd_read := as_bool; cd_missing := None |}.

(** An integer of [w] bits, signed. *)
Definition in_width (w : Z) (z : Z) : bool := ((- 2 ^ (w - 1) <=? z) && (z <? 2 ^ (w - 1)))%Z.

Definition int_codec (w : Z) (name : string) : codec Z :=
  {| cd_write := VNumber;
     cd_read := fun v =>
       match v with
       | VNumber z => if in_width w z then Ok z else Err (InvalidType name)
       | _ => Err (InvalidType name)
       end;
     cd_missing := None |}.

Definition i32_codec : codec Z := int_codec 32 "i32".
Definition i64_codec : codec Z := int_codec 64 "i64".

Definition option_codec {A} (c : codec A) : codec (option A) :=
  {| cd_write := fun o => match o with Some a => cd_write c a | None => VNull end;
     cd_read := fun v =>
       match v with
       | VNull => Ok None
       | _ => let? a := cd_read c v in Ok (Some a)
       end;
     cd_missing := Some None |}.

(** A property of the value, if there is one. *)
Definition option_all {A} (p : A -> bool) (o : option A) : bool :=
  match o with
  | Some a => p a
  | None => true
  end.

Definition read_field {A} (c : codec A) (name : string) (o : list (string * Value)) :
    res SerdeError A :=
  match get_field name o with
  | Ok v => cd_read c v
  | _ => ok_or (MissingField name) (cd_missing c)
  end.

(** ** [KafkaConfig] *)
Record KafkaSettings : Type := {
  ks_bootstrap_servers : string;
  ks_group_id : string;
  ks_client_id : string;
  ks_topic_prefix : string;
  ks_auto_offset_reset : string;
  ks_enable_auto_commit : bool;
  ks_session_timeout_ms : Z;
  ks_heartbeat_interval_ms : Z;
  ks_max_poll_interval_ms : Z;
  ks_max_poll_records : Z;
  ks_retry_backoff_ms : Z;
  ks_retry_count : Z;
  ks_request_timeout_ms : Z;
  ks_socket_timeout_ms : Z;
  ks_security_protocol : string;
  ks_sasl_mechanism : option string;
  ks_sasl_username : option string;
  ks_sasl_password : option string;
  ks_ssl_ca_location : option string;
  ks_ssl_certificate_location : option string;
  ks_ssl_key_location : option string;
  ks_ssl_key_password : option string
}.

(** [KafkaConfig::default]. *)
Definition KafkaSettings_default : KafkaSettings :=
  {| ks_bootstrap_servers := "localhost:9092"; ks_group_id := "banking-es-group";
     ks_client_id := "banking-es-client"; ks_topic_prefix := "banking-es";
     ks_auto_offset_reset := "earliest"; ks_enable_auto_commit := true;
     ks_session_timeout_ms := 30000; ks_heartbeat_interval_ms := 10000;
     ks_max_poll_interval_ms := 300000; ks_max_poll_records := 500; ks_retry_backoff_ms := 100;
     ks_retry_count := 3; ks_request_timeout_ms := 30000; ks_socket_timeout_ms := 30000;
     ks_security_protocol := "PLAINTEXT"; ks_sasl_mechanism := None; ks_sasl_username := None;
     ks_sasl_password := None; ks_ssl_ca_location := None; ks_ssl_certificate_location := None;
     ks_ssl_key_location := None; ks_ssl_key_password := None |}.

Definition kafka_settings_to_value (c : KafkaSettings) : Value :=
  VObject [("bootstrap_servers", cd_write string_codec (ks_bootstrap_servers c));
           ("group_id", cd_write string_codec (ks_group_id c));
           ("client_id", cd_write string_codec (ks_client_id c));
           ("topic_prefix", cd_write string_codec (ks_topic_prefix c));
           ("auto_offset_reset", cd_write string_codec (ks_auto_offset_reset c));
           ("enable_auto_commit", cd_write bool_codec (ks_enable_auto_commit c));
           ("session_timeout_ms", cd_write i32_codec (ks_session_timeout_ms c));
           ("heartbeat_interval_ms", cd_write i32_codec (ks_heartbeat_interval_ms c));
           ("max_poll_interval_ms", cd_write i32_codec (ks_max_poll_interval_ms c));
           ("max_poll_records", cd_write i32_codec (ks_max_poll_records c));
           ("retry_backoff_ms", cd_write i32_codec (ks_retry_backoff_ms c));
           ("retry_count", cd_write i32_codec (ks_retry_count c));
           ("request_timeout_ms", cd_write i32_codec (ks_request_timeout_ms c));
           ("socket_timeout_ms", cd_write i32_codec (ks_socket_timeout_ms c));
           ("security_protocol", cd_write string_codec (ks_security_protocol c));
           ("sasl_mechanism", cd_write (option_codec string_codec) (ks_sasl_mechanism c));
           ("sasl_username", cd_write (option_codec string_codec) (ks_sasl_username c));
           ("sasl_password", cd_write (option_codec string_codec) (ks_sasl_password c));
           ("ssl_ca_location", cd_write (option_codec string_codec) (ks_ssl_ca_location c));
           ("ssl_certificate_location", cd_write (option_codec string_codec) (ks_ssl_certificate_location c));
           ("ssl_key_location", cd_write (option_codec string_codec) (ks_ssl_key_location c));
           ("ssl_key_password", cd_write (option_codec string_codec) (ks_ssl_key_password c))].

Definition kafka_settings_from_value (v : Value) : res SerdeError KafkaSettings :=
  let? o := as_object v in
  let? bootstrap_servers := read_field string_codec "bootstrap_servers" o in
  let? group_id := read_field string_codec "group_id" o in
  let? client_id := read_field string_codec "client_id" o in
  let? topic_prefix := read_field string_codec "topic_prefix" o in
  let? auto_offset_reset := read_field string_codec "auto_offset_reset" o in
  let? enable_auto_commit := read_field bool_codec "enable_auto_commit" o in
  let? session_timeout_ms := read_field i32_codec "session_timeout_ms" o in
  let? heartbeat_interval_ms := read_field i32_codec "heartbeat_interval_ms" o in
  let? max_poll_interval_ms := read_field i32_codec "max_poll_interval_ms" o in
  let? max_poll_records := read_field i32_codec "max_poll_records" o in
  let? retry_backoff_ms := read_field i32_codec "retry_backoff_ms" o in
  let? retry_count := read_field i32_codec "retry_count" o in
  let? request_timeout_ms := read_field i32_codec "request_timeout_ms" o in
  let? socket_timeout_ms := read_field i32_codec "socket_timeout_ms" o in
  let? security_protocol := read_field string_codec "security_protocol" o in
  let? sasl_mechanism := read_field (option_codec string_codec) "sasl_mechanism" o in
  let? sasl_username := read_field (option_codec string_codec) "sasl_username" o in
  let? sasl_password := read_field (option_codec string_codec) "sasl_password" o in
  let? ssl_ca_location := read_field (option_codec string_codec) "ssl_ca_location" o in
  let? ssl_certificate_location := read_field (option_codec string_codec) "ssl_certificate_location" o in
  let? ssl_key_location := read_field (option_codec string_codec) "ssl_key_location" o in
  let? ssl_key_password := read_field (option_codec string_codec) "ssl_key_password" o in
  Ok {| ks_bootstrap_servers := bootstrap_servers; ks_group_id := group_id;
        ks_client_id := client_id; ks_topic_prefix := topic_prefix;
        ks_auto_offset_reset := auto_offset_reset; ks_enable_auto_commit := enable_auto_commit;
        ks_session_timeout_ms := session_timeout_ms;
        ks_heartbeat_interval_ms := heartbeat_interval_ms;
        ks_max_poll_interval_ms := max_poll_interval_ms; ks_max_poll_records := max_poll_records;
        ks_retry_backoff_ms := retry_backoff_ms; ks_retry_count := retry_count;
        ks_request_timeout_ms := request_timeout_ms; ks_socket_timeout_ms := socket_timeout_ms;
        ks_security_protocol := security_protocol; ks_sasl_mechanism := sasl_mechanism;
        ks_sasl_username := sasl_username; ks_sasl_password := sasl_password;
        ks_ssl_ca_location := ssl_ca_location;
        ks_ssl_certificate_location := ssl_certificate_location;
        ks_ssl_key_location := ssl_key_location; ks_ssl_key_password := ssl_key_password |}.

(** The integers have their widths. *)
Definition kafka_settings_typed (c : KafkaSettings) : bool :=
  in_width 32 (ks_session_timeout_ms c) && in_width 32 (ks_heartbeat_interval_ms c) &&
    in_width 32 (ks_max_poll_interval_ms c) && in_width 32 (ks_max_poll_records c) &&
    in_width 32 (ks_retry_backoff_ms c) && in_width 32 (ks_retry_count c) &&
    in_width 32 (ks_request_timeout_ms c) && in_width 32 (ks_socket_timeout_ms c).

(** ** [KafkaProducerConfig] *)
Record KafkaProducerConfig : Type := {
  kp_bootstrap_servers : string;
  kp_client_id : string;
  kp_acks : string;
  kp_retries : Z;
  kp_retry_backoff_ms : Z;
  kp_request_timeout_ms : Z;
  kp_socket_timeout_ms : Z;
  kp_security_protocol : string;
  kp_sasl_mechanism : option string;
  kp_sasl_username : option string;
  kp_sasl_password : option string;
  kp_ssl_ca_location : option string;
  kp_ssl_certificate_location : option string;
  kp_ssl_key_location : option string;
  kp_ssl_key_password : option string
}.

(** [KafkaProducerConfig::default]. *)
Definition KafkaProducerConfig_default : KafkaProducerConfig :=
  {| kp_bootstrap_servers := "localhost:9092"; kp_client_id := "banking-es-producer";
     kp_acks := "all"; kp_retries := 3; kp_retry_backoff_ms := 100; kp_request_timeout_ms := 30000;
     kp_socket_timeout_ms := 30000; kp_security_protocol := "PLAINTEXT"; kp_sasl_mechanism := None;
     kp_sasl_username := None; kp_sasl_password := None; kp_ssl_ca_location := None;
     kp_ssl_certificate_location := None; kp_ssl_key_location := None;
     kp_ssl_key_password := None |}.

Definition kafka_producer_config_to_value (c : KafkaProducerConfig) : Value :=
  VObject [("bootstrap_servers", cd_write string_codec (kp_bootstrap_servers c));
           ("client_id", cd_write string_codec (kp_client_id c));
           ("acks", cd_write string_codec (kp_acks c));
           ("retries", cd_write i32_codec (kp_retries c));
           ("retry_backoff_ms", cd_write i32_codec (kp_retry_backoff_ms c));
           ("request_timeout_ms", cd_write i32_codec (kp_request_timeout_ms c));
           ("socket_timeout_ms", cd_write i32_codec (kp_socket_timeout_ms c));
           ("security_protocol", cd_write string_codec (kp_security_protocol c));
           ("sasl_mechanism", cd_write (option_codec string_codec) (kp_sasl_mechanism c));
           ("sasl_username", cd_write (option_codec string_codec) (kp_sasl_username c));
           ("sasl_password", cd_write (option_codec string_codec) (kp_sasl_password c));
           ("ssl_ca_location", cd_write (option_codec string_codec) (kp_ssl_ca_location c));
           ("ssl_certificate_location", cd_write (option_codec string_codec) (kp_ssl_certificate_location c));
           ("ssl_key_location", cd_write (option_codec string_codec) (kp_ssl_key_location c));
           ("ssl_key_password", cd_write (option_codec string_codec) (kp_ssl_key_password c))].

Definition kafka_producer_config_from_value (v : Value) : res SerdeError KafkaProducerConfig :=
  let? o := as_object v in
  let? bootstrap_servers := read_field string_codec "bootstrap_servers" o in
  let? client_id := read_field string_codec "client_id" o in
  let? acks := read_field string_codec "acks" o in
  let? retries := read_field i32_codec "retries" o in
  let? retry_backoff_ms := read_field i32_codec "retry_backoff_ms" o in
  let? request_timeout_ms := read_field i32_codec "request_timeout_ms" o in
  let? socket_timeout_ms := read_field i32_codec "socket_timeout_ms" o in
  let? security_protocol := read_field string_codec "security_protocol" o in
  let? sasl_mechanism := read_field (option_codec string_codec) "sasl_mechanism" o in
  let? sasl_username := read_field (option_codec string_codec) "sasl_username" o in
  let? sasl_password := read_field (option_codec string_codec) "sasl_password" o in
  let? ssl_ca_location := read_field (option_codec string_codec) "ssl_ca_location" o in
  let? ssl_certificate_location := read_field (option_codec string_codec) "ssl_certificate_location" o in
  let? ssl_key_location := read_field (option_codec string_codec) "ssl_key_location" o in
  let? ssl_key_password := read_field (option_codec string_codec) "ssl_key_password" o in
  Ok {| kp_bootstrap_servers := bootstrap_servers; kp_client_id := client_id; kp_acks := acks;
        kp_retries := retries; kp_retry_backoff_ms := retry_backoff_ms;
        kp_request_timeout_ms := request_timeout_ms; kp_socket_timeout_ms := socket_timeout_ms;
        kp_security_protocol := security_protocol; kp_sasl_mechanism := sasl_mechanism;
        kp_sasl_username := sasl_username; kp_sasl_password := sasl_password;
        kp_ssl_ca_location := ssl_ca_location;
        kp_ssl_certificate_location := ssl_certificate_location;
        kp_ssl_key_location := ssl_key_location; kp_ssl_key_password := ssl_key_password |}.

(** The integers have their widths. *)
Definition kafka_producer_config_typed (c : KafkaProducerConfig) : bool :=
  in_width 32 (kp_retries c) && in_width 32 (kp_retry_backoff_ms c) &&
    in_width 32 (kp_request_timeout_ms c) && in_width 32 (kp_socket_timeout_ms c).

(** ** [KafkaConsumerConfig] *)
Record KafkaConsumerConfig : Type := {
  kn_bootstrap_servers : string;
  kn_group_id : string;
  kn_client_id : string;
  kn_auto_offset_reset : string;
  kn_enable_auto_commit : bool;
  kn_session_timeout_ms : Z;
  kn_heartbeat_interval_ms : Z;
  kn_max_poll_interval_ms : Z;
  kn_max_poll_records : Z;
  kn_security_protocol : string;
  kn_sasl_mechanism : option string;
  kn_sasl_username : option string;
  kn_sasl_password : option string;
  kn_ssl_ca_location : option string;
  kn_ssl_certificate_location : option string;
  kn_ssl_key_location : option string;
  kn_ssl_key_password : option string
}.

(** [KafkaConsumerConfig::default]. *)
Definition KafkaConsumerConfig_default : KafkaConsumerConfig :=
  {| kn_bootstrap_servers := "localhost:9092"; kn_group_id := "banking-es-group";
     kn_client_id := "banking-es-consumer"; kn_auto_offset_reset := "earliest";
     kn_enable_auto_commit := true; kn_session_timeout_ms := 30000;
     kn_heartbeat_interval_ms := 10000; kn_max_poll_interval_ms := 300000;
     kn_max_poll_records := 500; kn_security_protocol := "PLAINTEXT"; kn_sasl_mechanism := None;
     kn_sasl_username := None; kn_sasl_password := None; kn_ssl_ca_location := None;
     kn_ssl_certificate_location := None; kn_ssl_key_location := None;
     kn_ssl_key_password := None |}.

Definition kafka_consumer_config_to_value (c : KafkaConsumerConfig) : Value :=
  VObject [("bootstrap_servers", cd_write string_codec (kn_bootstrap_servers c));
           ("group_id", cd_write string_codec (kn_group_id c));
           ("client_id", cd_write string_codec (kn_client_id c));
           ("auto_offset_reset", cd_write string_codec (kn_auto_offset_reset c));
           ("enable_auto_commit", cd_write bool_codec (kn_enable_auto_commit c));
           ("session_timeout_ms", cd_write i32_codec (kn_session_timeout_ms c));
           ("heartbeat_interval_ms", cd_write i32_codec (kn_heartbeat_interval_ms c));
           ("max_poll_interval_ms", cd_write i32_codec (kn_max_poll_interval_ms c));
           ("max_poll_records", cd_write i32_codec (kn_max_poll_records c));
           ("security_protocol", cd_write string_codec (kn_security_protocol c));
           ("sasl_mechanism", cd_write (option_codec string_codec) (kn_sasl_mechanism c));
           ("sasl_username", cd_write (option_codec string_codec) (kn_sasl_username c));
           ("sasl_password", cd_write (option_codec string_codec) (kn_sasl_password c));
           ("ssl_ca_location", cd_write (option_codec string_codec) (kn_ssl_ca_location c));
           ("ssl_certificate_location", cd_write (option_codec string_codec) (kn_ssl_certificate_location c));
           ("ssl_key_location", cd_write (option_codec string_codec) (kn_ssl_key_location c));
           ("ssl_key_password", cd_write (option_codec string_codec) (kn_ssl_key_password c))].

Definition kafka_consumer_config_from_value (v : Value) : res SerdeError KafkaConsumerConfig :=
  let? o := as_object v in
  let? bootstrap_servers := read_field string_codec "bootstrap_servers" o in
  let? group_id := read_field string_codec "group_id" o in
  let? client_id := read_field string_codec "client_id" o in
  let? auto_offset_reset := read_field string_codec "auto_offset_reset" o in
  let? enable_auto_commit := read_field bool_codec "enable_auto_commit" o in
  let? session_timeout_ms := read_field i32_codec "session_timeout_ms" o in
  let? heartbeat_interval_ms := read_field i32_codec "heartbeat_interval_ms" o in
  let? max_poll_interval_ms := read_field i32_codec "max_poll_interval_ms" o in
  let? max_poll_records := read_field i32_codec "max_poll_records" o in
  let? security_protocol := read_field string_codec "security_protocol" o in
  let? sasl_mechanism := read_field (option_codec string_codec) "sasl_mechanism" o in
  let? sasl_username := read_field (option_codec string_codec) "sasl_username" o in
  let? sasl_password := read_field (option_codec string_codec) "sasl_password" o in
  let? ssl_ca_location := read_field (option_codec string_codec) "ssl_ca_location" o in
  let? ssl_certificate_location := read_field (option_codec string_codec) "ssl_certificate_location" o in
  let? ssl_key_location := read_field (option_codec string_codec) "ssl_key_location" o in
  let? ssl_key_password := read_field (option_codec string_codec) "ssl_key_password" o in
  Ok {| kn_bootstrap_servers := bootstrap_servers; kn_group_id := group_id;
        kn_client_id := client_id; kn_auto_offset_reset := auto_offset_reset;
        kn_enable_auto_commit := enable_auto_commit; kn_session_timeout_ms := session_timeout_ms;
        kn_heartbeat_interval_ms := heartbeat_interval_ms;
        kn_max_poll_interval_ms := max_poll_interval_ms; kn_max_poll_records := max_poll_records;
        kn_security_protocol := security_protocol; kn_sasl_mechanism := sasl_mechanism;
        kn_sasl_username := sasl_username; kn_sasl_password := sasl_password;
        kn_ssl_ca_location := ssl_ca_location;
        kn_ssl_certificate_location := ssl_certificate_location;
        kn_ssl_key_location := ssl_key_location; kn_ssl_key_password := ssl_key_password |}.

(** The integers have their widths. *)
Definition kafka_consumer_config_typed (c : KafkaConsumerConfig) : bool :=
  in_width 32 (kn_session_timeout_ms c) && in_width 32 (kn_heartbeat_interval_ms c) &&
    in_width 32 (kn_max_poll_interval_ms c) && in_width 32 (kn_max_poll_records c).

(** ** [KafkaTopicConfig] *)
Record KafkaTopicConfig : Type := {
  kt_name : string;
  kt_partitions : Z;
  kt_replication_factor : Z;
  kt_retention_ms : option Z;
  kt_retention_bytes : option Z;
  kt_cleanup_policy : option string;
  kt_min_insync_replicas : option Z;
  kt_max_message_bytes : option Z
}.

(** [KafkaTopicConfig::default]. *)
Definition KafkaTopicConfig_default : KafkaTopicConfig :=
  {| kt_name := "banking-es-topic"; kt_partitions := 1; kt_replication_factor := 1;
     kt_retention_ms := Some (7 * 24 * 60 * 60 * 1000)%Z; kt_retention_bytes := None;
     kt_cleanup_policy := Some "delete"; kt_min_insync_replicas := Some 1%Z;
     kt_max_message_bytes := Some 1048576%Z |}.

Definition kafka_topic_config_to_value (c : KafkaTopicConfig) : Value :=
  VObject [("name", cd_write string_codec (kt_name c));
           ("partitions", cd_write i32_codec (kt_partitions c));
           ("replication_factor", cd_write i32_codec (kt_replication_factor c));
           ("retention_ms", cd_write (option_codec i64_codec) (kt_retention_ms c));
           ("retention_bytes", cd_write (option_codec i64_codec) (kt_retention_bytes c));
           ("cleanup_policy", cd_write (option_codec string_codec) (kt_cleanup_policy c));
           ("min_insync_replicas", cd_write (option_codec i32_codec) (kt_min_insync_replicas c));
           ("max_message_bytes", cd_write (option_codec i32_codec) (kt_max_message_bytes c))].

Definition kafka_topic_config_from_value (v : Value) : res SerdeError KafkaTopicConfig :=
  let? o := as_object v in
  let? name := read_field string_codec "name" o in
  let? partitions := read_field i32_codec "partitions" o in
  let? replication_factor := read_field i32_codec "replication_factor" o in
  let? retention_ms := read_field (option_codec i64_codec) "retention_ms" o in
  let? retention_bytes := read_field (option_codec i64_codec) "retention_bytes" o in
  let? cleanup_policy := read_field (option_codec string_codec) "cleanup_policy" o in
  let? min_insync_replicas := read_field (option_codec i32_codec) "min_insync_replicas" o in
  let? max_message_bytes := read_field (option_codec i32_codec) "max_message_bytes" o in
  Ok {| kt_name := name; kt_partitions := partitions; kt_replication_factor := replication_factor;
        kt_retention_ms := retention_ms; kt_retention_bytes := retention_bytes;
        kt_cleanup_policy := cleanup_policy; kt_min_insync_replicas := min_insync_replicas;
        kt_max_message_bytes := max_message_bytes |}.

(** The integers have their widths. *)
Definition kafka_topic_config_typed (c : KafkaTopicConfig) : bool :=
  in_width 32 (kt_partitions c) && in_width 32 (kt_replication_factor c) &&
    option_all (in_width 64) (kt_retention_ms c) &&
    option_all (in_width 64) (kt_retention_bytes c) &&
    option_all (in_width 32) (kt_min_insync_replicas c) &&
    option_all (in_width 32) (kt_max_message_bytes c).

(** ** Round trips *)

(** Reading what was written gives it back. *)
Definition faithful {A} (c : codec A) (a : A) : Prop := cd_read c (cd_write c a) = Ok a.

Lemma string_faithful s : faithful string_codec s.
Proof. done. Qed.

Lemma bool_faithful b : faithful bool_codec b.
Proof. done. Qed.

Lemma int_faithful w name z : in_width w z = true -> faithful (int_codec w name) z.
Proof. unfold faithful. simpl. by intros ->. Qed.

Lemma i32_faithful z : in_width 32 z = true -> faithful i32_codec z.
Proof. apply int_faithful. Qed.

(** A codec that never writes [null] can be made optional. *)
Definition visible {A} (c : codec A) : Prop := forall a, cd_write c a <> VNull.

Lemma option_faithful {A} (c : codec A) o :
  visible c -> (forall a, o = Some a -> faithful c a) -> faithful (option_codec c) o.
Proof.
  intros Hv Hf. destruct o as [a |]; [| done ]. unfold faithful. simpl.
  pose proof (Hv a) as Hn. specialize (Hf a eq_refl). unfold faithful in Hf.
  destruct (cd_write c a); try done; by rewrite Hf.
Qed.

Lemma option_string_faithful o : faithful (option_codec string_codec) o.
Proof. by apply option_faithful. Qed.

Lemma option_int_faithful w name o :
  option_all (in_width w) o = true -> faithful (option_codec (int_codec w name)) o.
Proof. intros Ho. apply option_faithful; [ done |]. intros a ->. by apply int_faithful. Qed.

Lemma option_i32_faithful o : option_all (in_width 32) o = true -> faithful (option_codec i32_codec) o.
Proof. apply option_int_faithful. Qed.

Lemma option_i64_faithful o : option_all (in_width 64) o = true -> faithful (option_codec i64_codec) o.
Proof. apply option_int_faithful. Qed.

#[local] Hint Resolve string_faithful bool_faithful i32_faithful option_string_faithful
  option_i32_faithful option_i64_faithful : bank.

(** A field at the front of the object, and one behind others. *)
Lemma read_field_here {A} (c : codec A) name a o :
  faithful c a -> read_field c name ((name, cd_write c a) :: o) = Ok a.
Proof. intros Hf. unfold read_field. simpl. by rewrite String.eqb_refl. Qed.

Lemma read_field_there {A} (c : codec A) name k v o :
  k <> name -> read_field c name ((k, v) :: o) = read_field c name o.
Proof. intros Hk. unfold read_field. simpl. by rewrite (proj2 (String.eqb_neq _ _) Hk). Qed.

Lemma res_bind_step {E A B} (r : res E A) (f : A -> res E B) a y :
  r = Ok a -> f a = y -> res_bind r f = y.
Proof. by intros -> <-. Qed.

Lemma read_field_skip {A} (c : codec A) name k v o r :
  k <> name -> read_field c name o = r -> read_field c name ((k, v) :: o) = r.
Proof. intros Hk <-. by apply read_field_there. Qed.

(** Read the fields of an object just written, one by one. *)
Ltac read_fields :=
  apply (res_bind_step _ _ _ _ eq_refl); cbv beta;
  repeat (eapply res_bind_step;
          [ repeat (apply read_field_skip; [ discriminate |]); apply read_field_here; auto with bank |];
          cbv beta).

Ltac split_typed Ht :=
  repeat match type of Ht with _ && _ = true => apply andb_true_iff in Ht as [Ht ?] end.

Lemma settings_read_back c :
  kafka_settings_typed c = true -> kafka_settings_from_value (kafka_settings_to_value c) = Ok c.
Proof.
  unfold kafka_settings_typed. intros Ht. split_typed Ht.
  unfold kafka_settings_from_value, kafka_settings_to_value. read_fields. by destruct c.
Qed.

Lemma producer_read_back c :
  kafka_producer_config_typed c = true ->
  kafka_producer_config_from_value (kafka_producer_config_to_value c) = Ok c.
Proof.
  unfold kafka_producer_config_typed. intros Ht. split_typed Ht.
  unfold kafka_producer_config_from_value, kafka_producer_config_to_value. read_fields. by destruct c.
Qed.

Lemma consumer_read_back c :
  kafka_consumer_config_typed c = true ->
  kafka_consumer_config_from_value (kafka_consumer_config_to_value c) = Ok c.
Proof.
  unfold kafka_consumer_config_typed. intros Ht. split_typed Ht.
  unfold kafka_consumer_config_from_value, kafka_consumer_config_to_value. read_fields. by destruct c.
Qed.

Lemma topic_read_back c :
  kafka_topic_config_typed c = true ->
  kafka_topic_config_from_value (kafka_topic_config_to_value c) = Ok c.
Proof.
  unfold kafka_topic_config_typed. intros Ht. split_typed Ht.
  unfold kafka_topic_config_from_value, kafka_topic_config_to_value. read_fields. by destruct c.
Qed.

(** ** What is read has its widths *)
Lemma read_i32_width name o z : read_field i32_codec name o = Ok z -> in_width 32 z = true.
Proof. unfold read_field. simpl. intros Hr. run; done. Qed.

Lemma read_option_width w t name o z :
  read_field (option_codec (int_codec w t)) name o = Ok z -> option_all (in_width w) z = true.
Proof. unfold read_field. simpl. unfold res_bind. intros Hr. run; done. Qed.

Ltac read_inv Hr :=
  repeat (let x := fresh "x" in let Hx := fresh "Hx" in apply res_bind_ok in Hr as (x & Hx & Hr)).

Ltac widths :=
  repeat match goal with |- _ && _ = true => apply andb_true_iff; split end;
  first [ eapply read_i32_width; eassumption | eapply read_option_width; eassumption ].

Lemma settings_read_typed v c : kafka_settings_from_value v = Ok c -> kafka_settings_typed c = true.
Proof.
  unfold kafka_settings_from_value, kafka_settings_typed. intros Hr. read_inv Hr. injection Hr as <-.
  cbn -[in_width option_all andb]. widths.
Qed.

Lemma producer_read_typed v c :
  kafka_producer_config_from_value v = Ok c -> kafka_producer_config_typed c = true.
Proof.
  unfold kafka_producer_config_from_value, kafka_producer_config_typed. intros Hr. read_inv Hr.
  injection Hr as <-. cbn -[in_width option_all andb]. widths.
Qed.

Lemma consumer_read_typed v c :
  kafka_consumer_config_from_value v = Ok c -> kafka_consumer_config_typed c = true.
Proof.
  unfold kafka_consumer_config_from_value, kafka_consumer_config_typed. intros Hr. read_inv Hr.
  injection Hr as <-. cbn -[in_width option_all andb]. widths.
Qed.

Lemma topic_read_typed v c :
  kafka_topic_config_from_value v = Ok c -> kafka_topic_config_typed c = true.
Proof.
  unfold kafka_topic_config_from_value, kafka_topic_config_typed. intros Hr. read_inv Hr.
  injection Hr as <-. cbn -[in_width option_all andb]. widths.
Qed.

(** The settings that can be written and read back are exactly those whose
    integers have the widths of their types, for each of the four records. *)
Theorem kafka_settings_round_trip c p n t :
  (kafka_settings_from_value (kafka_settings_to_value c) = Ok c <-> kafka_settings_typed c = true) /\
  (kafka_producer_config_from_value (kafka_producer_config_to_value p) = Ok p <->
   kafka_producer_config_typed p = true) /\
  (kafka_consumer_config_from_value (kafka_consumer_config_to_value n) = Ok n <->
   kafka_consumer_config_typed n = true) /\
  (kafka_topic_config_from_value (kafka_topic_config_to_value t) = Ok t <->
   kafka_topic_config_typed t = true).
Proof.
  repeat split.
  - apply settings_read_typed.
  - apply settings_read_back.
  - apply producer_read_typed.
  - apply producer_read_back.
  - apply consumer_read_typed.
  - apply consumer_read_back.
  - apply topic_read_typed.
  - apply topic_read_back.
Qed.

(** The defaults of the producer and of the consumer are those of the common
    settings, where they have the same field but the name of the client. *)
Example defaults_agree :
  kp_bootstrap_servers KafkaProducerConfig_default = ks_bootstrap_servers KafkaSettings_default /\
  kp_retries KafkaProducerConfig_default = ks_retry_count KafkaSettings_default /\
  kp_request_timeout_ms KafkaProducerConfig_default = ks_request_timeout_ms KafkaSettings_default /\
  kn_group_id KafkaConsumerConfig_default = ks_group_id KafkaSettings_default /\
  kn_session_timeout_ms KafkaConsumerConfig_default = ks_session_timeout_ms KafkaSettings_default /\
  kn_max_poll_records KafkaConsumerConfig_default = ks_max_poll_records KafkaSettings_default /\
  kt_retention_ms KafkaTopicConfig_default = Some 604800000%Z.
Proof. repeat split. Qed.

(** A topic with its name, partitions and replication only: the rest is absent. *)
Example short_topic_read :
  kafka_topic_config_from_value
    (VObject [("name", VString "t"); ("partitions", VNumber 2); ("replication_factor", VNumber 1)])
  = Ok {| kt_name := "t"; kt_partitions := 2; kt_replication_factor := 1; kt_retention_ms := None;
          kt_retention_bytes := None; kt_cleanup_policy := None; kt_min_insync_replicas := None;
          kt_max_message_bytes := None |}.
Proof. reflexivity. Qed.
