(* ===== verification/Scaling.v ===== *)
(** Instance scaling (src/src/infrastructure/scaling.rs) and the application's
    defaults (src/src/infrastructure/config.rs).

    [ScalingManager] keeps the registered instances, when it last scaled and,
    in [sm_actions], the scalings it logs, which is all [scale_up] and
    [scale_down] do.  [scaling_step] has the operations other tasks call and the
    periodic check, in any order.  The order in which the [DashMap] of instances
    is walked is its own ([iter]); times are milliseconds. *)
From S2P Require Import Prelude.
From S2P Require Import DecimalSpec.
From S2P Require Import Account.
From S2P Require Import Codec.
From S2P Require Import RedisGuard.
From S2P Require Import Cache.
From S2P Require Import Auth.
From stdpp Require Import base tactics list gmap strings.
From Stdlib Require Import ZArith Lia SpecFloat Sorted.

(** ** config.rs *)
Record AppConfig : Type := {
  app_database_pool_size : Z;
  app_max_concurrent_operations : Z;
  app_max_requests_per_second : Z;
  app_batch_flush_interval_ms : Z;
  app_cache_size : Z;
  app_port : Z
}.

Definition AppConfig_default : AppConfig :=
  {| app_database_pool_size := 10; app_max_concurrent_operations := 100;
     app_max_requests_per_second := 1000; app_batch_flush_interval_ms := 100;
     app_cache_size := 1000; app_port := 3000 |}.

(** ** Instances *)
Inductive InstanceStatus : Type := Active | Starting | Stopping | Failed.

#[global] Instance status_eq_dec : EqDecision InstanceStatus.
Proof. solve_decision. Defined.

Record InstanceMetrics : Type := {
  im_cpu_usage : f64;
  im_memory_usage : f64;
  im_request_count : Z;
  im_error_count : Z;
  im_latency_ms : Z
}.

Definition InstanceMetrics_default : InstanceMetrics :=
  {| im_cpu_usage := f64_of_u64 0; im_memory_usage := f64_of_u64 0; im_request_count := 0;
     im_error_count := 0; im_latency_ms := 0 |}.

Record ServiceInstance : Type := {
  si_id : string;
  si_host : string;
  si_port : Z;
  si_status : InstanceStatus;
  si_metrics : InstanceMetrics;
  si_shard_assignments : list Z;
  si_last_heartbeat : Z
}.

Record ScalingConfig : Type := {
  min_instances : nat;
  max_instances : nat;
  scale_up_threshold : f64;
  scale_down_threshold : f64;
  cooldown_period : Z;
  health_check_interval : Z;
  instance_timeout : Z
}.

(** [0.8_f64] and [0.3_f64]. *)
Definition f64_0_8 : f64 := S754_finite false 7205759403792794 (-53).
Definition f64_0_3 : f64 := S754_finite false 5404319552844595 (-54).

Definition ScalingConfig_default : ScalingConfig :=
  {| min_instances := 2; max_instances := 10; scale_up_threshold := f64_0_8;
     scale_down_threshold := f64_0_3; cooldown_period := 300000; health_check_interval := 30000;
     instance_timeout := 60000 |}.

(** [#[derive(Serialize)]]. *)
Definition status_name (s : InstanceStatus) : string :=
  match s with
  | Active => "Active"
  | Starting => "Starting"
  | Stopping => "Stopping"
  | Failed => "Failed"
  end.

Definition metrics_to_value (m : InstanceMetrics) : Value :=
  VObject [("cpu_usage", f64_to_value (im_cpu_usage m)); ("memory_usage", f64_to_value (im_memory_usage m));
           ("request_count", VNumber (im_request_count m)); ("error_count", VNumber (im_error_count m));
           ("latency_ms", VNumber (im_latency_ms m))].

Definition instance_to_value `{DateTimeText} (i : ServiceInstance) : Value :=
  VObject [("id", VString (si_id i)); ("host", VString (si_host i)); ("port", VNumber (si_port i));
           ("status", VString (status_name (si_status i))); ("metrics", metrics_to_value (si_metrics i));
           ("shard_assignments", VArray (map VNumber (si_shard_assignments i)));
           ("last_heartbeat", date_value (si_last_heartbeat i))].

Inductive ScalingAction : Type := ScaledUp | ScaledDown (id : string).

Abbreviation Instances := (gmap string ServiceInstance).

Section Scaling.
Context `{RedisCommands} `{DateTimeText} `{Chrono} `{!Display RedisError}.
Context (iter : Instances -> list ServiceInstance).

Record ScalingManager : Type := {
  sm_redis_client : Redis;
  sm_config : ScalingConfig;
  sm_instances : Instances;
  sm_last_scale_time : Z;
  sm_metrics : InstanceMetrics;
  sm_instance_id : option string;
  sm_port : Z;
  sm_actions : list (Z * ScalingAction)
}.

(** [ScalingManager::new]. *)
Definition ScalingManager_new (now : Z) (redis_client : Redis) (config : ScalingConfig) : ScalingManager :=
  {| sm_redis_client := redis_client; sm_config := config; sm_instances := ∅; sm_last_scale_time := now;
     sm_metrics := InstanceMetrics_default; sm_instance_id := None;
     sm_port := app_port AppConfig_default; sm_actions := [] |}.

Definition put_sm_redis (r : Redis) (s : ScalingManager) : ScalingManager :=
  {| sm_redis_client := r; sm_config := sm_config s; sm_instances := sm_instances s;
     sm_last_scale_time := sm_last_scale_time s; sm_metrics := sm_metrics s;
     sm_instance_id := sm_instance_id s; sm_port := sm_port s; sm_actions := sm_actions s |}.

Definition put_instances (m : Instances) (s : ScalingManager) : ScalingManager :=
  {| sm_redis_client := sm_redis_client s; sm_config := sm_config s; sm_instances := m;
     sm_last_scale_time := sm_last_scale_time s; sm_metrics := sm_metrics s;
     sm_instance_id := sm_instance_id s; sm_port := sm_port s; sm_actions := sm_actions s |}.

(** The action logged, and [*last_scale_time.write().await = now]. *)
Definition scaled (now : Z) (a : ScalingAction) (s : ScalingManager) : ScalingManager :=
  {| sm_redis_client := sm_redis_client s; sm_config := sm_config s; sm_instances := sm_instances s;
     sm_last_scale_time := now; sm_metrics := sm_metrics s; sm_instance_id := sm_instance_id s;
     sm_port := sm_port s; sm_actions := sm_actions s ++ [(now, a)] |}.

Definition on_redis {A} (m : M Redis RedisError A) : M ScalingManager string A :=
  on_err to_string (zoom sm_redis_client put_sm_redis m).

(** [SETEX instance:<id> 60 <json>]. *)
Definition publish (id : string) (i : ServiceInstance) : M ScalingManager string unit :=
  on_redis r_connect ;;;
  on_redis (r_set_ex ("instance:" +:+ id) (json_to_vec (instance_to_value i)) 60).

(** [ScalingManager::register_instance]. *)
Definition register_instance (i : ServiceInstance) : M ScalingManager string unit :=
  publish (si_id i) i ;;;
  modify (fun s => put_instances (<[si_id i := i]> (sm_instances s)) s).

(** [ScalingManager::update_instance_metrics]: the entry is changed before it is
    published. *)
Definition update_instance_metrics (now : Z) (instance_id : string) (m : InstanceMetrics) :
    M ScalingManager string unit :=
  let! found := gets (fun s => sm_instances s !! instance_id) in
  match found with
  | Some i =>
      let i := {| si_id := si_id i; si_host := si_host i; si_port := si_port i; si_status := si_status i;
                  si_metrics := m; si_shard_assignments := si_shard_assignments i;
                  si_last_heartbeat := now |} in
      modify (fun s => put_instances (<[instance_id := i]> (sm_instances s)) s) ;;;
      publish instance_id i
  | None => ret tt
  end.

(** [chrono::Duration::from_std(..)?]. *)
Definition from_std (d : Z) : res string Z :=
  if (chrono_max_duration <? d)%Z then Err "OutOfRangeError" else Ok d.

Definition active (m : Instances) : list ServiceInstance :=
  filter (fun i => si_status i = Active) (iter m).

(** [.sum()] and the average of the active instances. *)
Definition average (usage : InstanceMetrics -> f64) (l : list ServiceInstance) : f64 :=
  f64_div (foldl (fun acc i => f64_add acc (usage (si_metrics i))) (f64_of_u64 0) l)
    (f64_of_u64 (Z.of_nat (length l))).

(** [scale_up] and [scale_down]: what they log. *)
Definition scale_up : res string ScalingAction := Ok ScaledUp.

Definition scale_down (m : Instances) : res string ScalingAction :=
  match active m with
  | i :: _ => Ok (ScaledDown (si_id i))
  | [] => Err "No active instance found to scale down"
  end.

(** [ScalingManager::check_and_scale]. *)
Definition check_and_scale (now : Z) : M ScalingManager string unit := fun s =>
  match from_std (cooldown_period (sm_config s)) with
  | Ok cooldown =>
      if (now - sm_last_scale_time s <? cooldown)%Z then (Ok tt, s)
      else
        let c := sm_config s in
        let instances := active (sm_instances s) in
        let avg_cpu := average im_cpu_usage instances in
        let avg_memory := average im_memory_usage instances in
        let act (r : res string ScalingAction) :=
          match r with
          | Ok a => (Ok tt, scaled now a s)
          | Err e => (Err e, s)
          | Panic => (Panic, s)
          | Hang => (Hang, s)
          end in
        if f64_ltb (scale_up_threshold c) avg_cpu || f64_ltb (scale_up_threshold c) avg_memory then
          if (length instances <? max_instances c)%nat then act scale_up else (Ok tt, s)
        else if f64_ltb avg_cpu (scale_down_threshold c) && f64_ltb avg_memory (scale_down_threshold c) then
          if (min_instances c <? length instances)%nat then act (scale_down (sm_instances s)) else (Ok tt, s)
        else (Ok tt, s)
  | Err e => (Err e, s)
  | Panic => (Panic, s)
  | Hang => (Hang, s)
  end.

(** [now.signed_duration_since(i.last_heartbeat) > from_std(timeout).unwrap()]. *)
Definition stale (now timeout : Z) (i : ServiceInstance) : bool := (timeout <? now - si_last_heartbeat i)%Z.

(** [ScalingManager::cleanup_failed_instances]: the duration is converted for
    each instance, and [unwrap] panics on one that is too long. *)
Definition cleanup_failed_instances (now : Z) : M ScalingManager string unit := fun s =>
  let timeout := instance_timeout (sm_config s) in
  match iter (sm_instances s) with
  | [] => (Ok tt, s)
  | all =>
      if (chrono_max_duration <? timeout)%Z then (Panic, s)
      else
        let failed_instances := map si_id (filter (fun i => stale now timeout i = true) all) in
        (Ok tt, put_instances (remove_keys failed_instances (sm_instances s)) s)
  end.

(** [get_metrics], [get_instance_metrics], [get_instance_id] and the two counts,
    which are constants. *)
Definition get_metrics (s : ScalingManager) : InstanceMetrics := sm_metrics s.

Definition get_instance_id (new_v4 : string) (s : ScalingManager) : string :=
  default new_v4 (sm_instance_id s).

Definition get_total_instances (_ : ScalingManager) : nat := 1.
Definition get_active_instances (_ : ScalingManager) : nat := 1.

(** ** The operations in any order; the turns of [start_scaling_manager] are
    [step_check]. *)
Inductive scaling_step (now : Z) (s : ScalingManager) : ScalingManager -> Prop :=
| step_register i : scaling_step now s (snd (register_instance i s))
| step_update id m : scaling_step now s (snd (update_instance_metrics now id m s))
| step_check : scaling_step now s (snd (check_and_scale now s))
| step_cleanup : scaling_step now s (snd (cleanup_failed_instances now s)).

(** Steps with the clock going forward, from a manager made at [start]. *)
Inductive scaling_run (start : Z) (s0 : ScalingManager) : Z -> ScalingManager -> Prop :=
| run_start : scaling_run start s0 start s0
| run_step now s now' s' :
    scaling_run start s0 now s -> (now <= now')%Z -> scaling_step now' s s' ->
    scaling_run start s0 now' s'.

(** ** Lemmas *)

(** The configuration and the scalings are as before. *)
Definition same_scaling (s s' : ScalingManager) : Prop :=
  sm_config s' = sm_config s /\ sm_last_scale_time s' = sm_last_scale_time s /\
  sm_actions s' = sm_actions s.

#[local] Instance same_scaling_pre : PreOrder same_scaling.
Proof. split; [ done | intros ???; unfold same_scaling; intuition congruence ]. Qed.

Lemma on_redis_same {A} (m : M Redis RedisError A) : respects same_scaling (on_redis m).
Proof. intros s. unfold on_redis, on_err, zoom. by destruct (m (sm_redis_client s)). Qed.

#[local] Hint Resolve on_redis_same : bank.

Lemma register_same i : respects same_scaling (register_instance i).
Proof. unfold register_instance, publish. respects_tac. done. Qed.

Lemma update_same now id m : respects same_scaling (update_instance_metrics now id m).
Proof. unfold update_instance_metrics, publish. respects_tac. done. Qed.

Lemma cleanup_same now : respects same_scaling (cleanup_failed_instances now).
Proof. intros s. unfold cleanup_failed_instances. by destruct (iter _); [| case_match ]. Qed.

Lemma no_instance_no_average usage : average usage [] = S754_nan.
Proof. done. Qed.

Lemma ltb_nan x : f64_ltb x S754_nan = false /\ f64_ltb S754_nan x = false.
Proof. split; by destruct x as [[] | [] | | [] ? ?]. Qed.

(** What one check does. *)
Definition justified (s : ScalingManager) (a : ScalingAction) : Prop :=
  let instances := active (sm_instances s) in
  match a with
  | ScaledUp => 0 < length instances < max_instances (sm_config s)
  | ScaledDown id =>
      min_instances (sm_config s) < length instances /\ exists i, i ∈ instances /\ si_id i = id
  end.

Lemma check_outcome now s r s' :
  check_and_scale now s = (r, s') ->
  s' = s \/ exists a, r = Ok tt /\ s' = scaled now a s /\ justified s a /\
    (cooldown_period (sm_config s) <= now - sm_last_scale_time s)%Z.
Proof.
  unfold check_and_scale, from_std. destruct (chrono_max_duration <? _)%Z; [ intros; simplify_eq; by left |].
  destruct (Z.ltb_spec (now - sm_last_scale_time s) (cooldown_period (sm_config s)));
    [ intros; simplify_eq; by left |].
  destruct (f64_ltb _ _ || f64_ltb _ _) eqn:Hup.
  - destruct (Nat.ltb_spec (length (active (sm_instances s))) (max_instances (sm_config s)));
      intros; simplify_eq/=; [| by left ].
    right. eexists. split_and!; [ done | done | | lia ]. simpl. split; [| done ].
    destruct (active (sm_instances s)) as [| i l]; [| simpl; lia ].
    rewrite !no_instance_no_average in Hup. by rewrite !(proj1 (ltb_nan _)) in Hup.
  - destruct (_ && _); [| intros; simplify_eq; by left ].
    destruct (Nat.ltb_spec (min_instances (sm_config s)) (length (active (sm_instances s))));
      [| intros; simplify_eq; by left ].
    unfold scale_down. destruct (active (sm_instances s)) as [| i l] eqn:Ha; simpl in *; [ lia |].
    intros; simplify_eq. right. eexists. split_and!; [ done | done | | lia ]. simpl. rewrite Ha.
    split; [ simpl; lia |]. exists i. split; [ left | done ].
Qed.

(** ** Properties *)

(** A check scales only with reason: it either changes nothing, or logs one
    scaling, and then it succeeds, the cooldown is over, and it is up with at
    least one and fewer than [max_instances] active instances, or down with
    more than [min_instances], naming an active one.  With no active instance
    it never scales up, whatever [min_instances] asks for: the averages are
    not numbers. *)
Theorem check_scales_with_reason now s :
  let o := check_and_scale now s in
  (snd o = s \/ exists a, o = (Ok tt, scaled now a s) /\ justified s a /\
     (cooldown_period (sm_config s) <= now - sm_last_scale_time s)%Z) /\
  (active (sm_instances s) = [] -> snd o = s).
Proof.
  intros o. destruct o as [r s'] eqn:Ho. unfold o in Ho. apply check_outcome in Ho.
  split; [ destruct Ho as [-> | (a & -> & -> & Hj & Hc)]; [ by left | right; eauto ] |].
  intros Hnone. destruct Ho as [-> | (a & _ & _ & Hj & _)]; [ done |]. unfold justified in Hj.
  rewrite Hnone in Hj. destruct a; simpl in Hj; [ lia |]. destruct Hj as [? _]. lia.
Qed.

(** The moments of scaling, the first being the manager's creation. *)
Definition spaced (start : Z) (s : ScalingManager) : Prop :=
  let times := start :: map fst (sm_actions s) in
  last times = Some (sm_last_scale_time s) /\
  forall i t t', times !! i = Some t -> times !! S i = Some t' ->
    (cooldown_period (sm_config s) <= t' - t)%Z.

Lemma spaced_same start s s' : same_scaling s s' -> spaced start s -> spaced start s'.
Proof. intros (Hc & Hl & Ha). unfold spaced. by rewrite Hc, Hl, Ha. Qed.

Lemma spaced_scaled start now a s :
  (cooldown_period (sm_config s) <= now - sm_last_scale_time s)%Z -> spaced start s ->
  spaced start (scaled now a s).
Proof.
  intros Hc [Hl Hs]. unfold spaced. simpl sm_actions. rewrite map_app.
  change (map fst [(now, a)]) with [now]. rewrite app_comm_cons. split.
  - by rewrite last_snoc.
  - generalize dependent (start :: map fst (sm_actions s)). intros times Hl Hs i t t' Ht Ht'.
    pose proof (lookup_lt_Some _ _ _ Ht') as Hlt. rewrite length_app in Hlt. simpl in Hlt.
    rewrite lookup_app_l in Ht by lia.
    destruct (decide (S i < length times)) as [Hin | Hout].
    + rewrite lookup_app_l in Ht' by done. by apply (Hs i).
    + assert (S i = length times) as Hi by lia. rewrite lookup_app_r in Ht' by lia.
      rewrite Hi, Nat.sub_diag in Ht'. simplify_eq/=.
      rewrite last_lookup in Hl. replace (pred (length times)) with i in Hl by lia.
      assert (t = sm_last_scale_time s) by congruence. simpl. lia.
Qed.

Lemma run_spaced start s0 now s :
  spaced start s0 -> scaling_run start s0 now s -> spaced start s /\ sm_config s = sm_config s0.
Proof.
  intros H0' Hr. induction Hr as [| now s now' s' _ [IH Hcfg] _ Hst]; [ done |].
  destruct Hst as [i | id m | |].
  - pose proof (register_same i s) as Hs. split; [ by eapply spaced_same | by rewrite (proj1 Hs) ].
  - pose proof (update_same now' id m s) as Hs. split; [ by eapply spaced_same | by rewrite (proj1 Hs) ].
  - destruct (check_and_scale now' s) as [r s1] eqn:Hck. simpl.
    apply check_outcome in Hck as [-> | (a & _ & -> & _ & Hcool)]; [ done |].
    split; [ by apply spaced_scaled | done ].
  - pose proof (cleanup_same now' s) as Hs. split; [ by eapply spaced_same | by rewrite (proj1 Hs) ].
Qed.

(** C35. Scalings keep their distance: in every run of the manager, whatever is
    registered, reported and cleaned up in between, two successive scalings lie
    at least the cooldown period apart, and the first that long after the start. *)
Theorem scalings_keep_distance start r cfg now s i t t' :
  scaling_run start (ScalingManager_new start r cfg) now s ->
  (start :: map fst (sm_actions s)) !! i = Some t ->
  (start :: map fst (sm_actions s)) !! S i = Some t' ->
  (cooldown_period cfg <= t' - t)%Z.
Proof.
  intros Hr Ht Ht'. destruct (run_spaced start (ScalingManager_new start r cfg) now s) as [ [_ Hs] Hcfg];
    [ split; [ done |] | done |].
  - intros [| [| j]] x x'; simpl; done.
  - rewrite Hcfg in Hs. by apply (Hs i).
Qed.

(** ** Instances are filed under their own identifier *)
Definition keyed (s : ScalingManager) : Prop :=
  forall id i, sm_instances s !! id = Some i -> si_id i = id.

Lemma keyed_insert id i (s : ScalingManager) :
  si_id i = id -> keyed s -> keyed (put_instances (<[id := i]> (sm_instances s)) s).
Proof.
  intros Hid Hk id' i'. simpl. destruct (decide (id = id')) as [-> | Hne].
  - rewrite lookup_insert_eq. congruence.
  - rewrite lookup_insert_ne by done. apply Hk.
Qed.

Lemma keyed_same s s' : sm_instances s' = sm_instances s -> keyed s -> keyed s'.
Proof. unfold keyed. by intros ->. Qed.

Lemma publish_instances id i s : sm_instances (snd (publish id i s)) = sm_instances s.
Proof.
  unfold publish, bind, on_redis, on_err, zoom. destruct (r_connect _) as [ [] r1]; try done. simpl.
  by destruct (r_set_ex _ _ _ r1).
Qed.

Lemma step_keyed now s s' : scaling_step now s s' -> keyed s -> keyed s'.
Proof.
  intros [i | id m | |] Hk.
  - unfold register_instance, bind. pose proof (publish_instances (si_id i) i s) as Hp.
    destruct (publish (si_id i) i s) as [ [] s1]; simpl in *; try by eapply keyed_same.
    apply keyed_insert; [ done | by eapply keyed_same ].
  - unfold update_instance_metrics, gets, bind at 1. destruct (sm_instances s !! id) as [i |] eqn:Hi; [| done ].
    unfold bind, modify. eapply keyed_same; [ apply publish_instances |].
    apply keyed_insert; [ exact (Hk id i Hi) | done ].
  - destruct (check_and_scale now s) as [r s1] eqn:Hck. simpl.
    apply check_outcome in Hck as [-> | (a & _ & -> & _)]; [ done | by eapply keyed_same ].
  - unfold cleanup_failed_instances. destruct (iter (sm_instances s)); [ done |]. case_match; [ done |].
    intros id i Hi. simpl in Hi. apply lookup_remove_keys in Hi as [_ Hi]. by apply Hk.
Qed.

Lemma run_keyed start s0 now s : keyed s0 -> scaling_run start s0 now s -> keyed s.
Proof. intros Hk Hr. induction Hr; [ done | by eapply step_keyed ]. Qed.

(** Cleaning up removes exactly the instances whose last heartbeat is older
    than the timeout: in every run of the manager, with a timeout chrono can
    represent, an instance is still registered afterwards if and only if it was
    before and is not stale. *)
Theorem cleanup_removes_exactly_stale start r cfg now s later id i :
  (forall m, iter m ≡ₚ map snd (map_to_list m)) ->
  scaling_run start (ScalingManager_new start r cfg) now s ->
  (instance_timeout (sm_config s) <= chrono_max_duration)%Z ->
  sm_instances (snd (cleanup_failed_instances later s)) !! id = Some i <->
  sm_instances s !! id = Some i /\ stale later (instance_timeout (sm_config s)) i = false.
Proof.
  intros Hiter Hr Ht. assert (keyed s) as Hk.
  { eapply run_keyed; [| exact Hr ]. intros ? ?. simpl. by rewrite lookup_empty. }
  assert (forall x, x ∈ iter (sm_instances s) <-> sm_instances s !! si_id x = Some x) as Hin.
  { intros x. rewrite Hiter, list_elem_of_In, in_map_iff. split.
    - intros ([k y] & <- & Hkv%list_elem_of_In). apply elem_of_map_to_list in Hkv. simpl.
      by rewrite (Hk k y Hkv).
    - intros Hx. exists (si_id x, x). split; [ done |]. by apply list_elem_of_In, elem_of_map_to_list. }
  unfold cleanup_failed_instances. destruct (iter (sm_instances s)) as [| x l] eqn:Hl.
  { simpl. split; [| by intros [? _] ]. intros Hi. exfalso. pose proof (Hk id i Hi) as <-.
    apply Hin in Hi. by apply elem_of_nil in Hi. }
  destruct (Z.ltb_spec chrono_max_duration (instance_timeout (sm_config s))); [ lia |]. cbn [snd sm_instances put_instances].
  rewrite lookup_remove_keys, list_elem_of_In, in_map_iff. split.
  - intros [Hno Hi]. split; [ done |]. apply not_true_is_false. intros Hst. apply Hno.
    exists i. split; [ by apply Hk |]. apply list_elem_of_In, list_elem_of_filter. split; [ done |].
    apply Hin. by rewrite (Hk id i Hi).
  - intros [Hi Hst]. split; [| done ]. intros (y & Hy & Hf). apply list_elem_of_In, list_elem_of_filter in Hf as [Hsy Hyl].
    apply Hin in Hyl. rewrite Hy, Hi in Hyl. simplify_eq. congruence.
Qed.

End Scaling.

(** ** Witnesses: one busy instance *)
Module ScalingWitness.
Import ScaleZero PlainSerde CacheWitness.

#[export] Instance range : Chrono :=
  {| chrono_max_duration := 10 ^ 18; chrono_min_utc := - 10 ^ 18; chrono_max_utc := 10 ^ 18 |}.

#[export] Instance no_dates : DateTimeText :=
  {| dt_to_string := fun _ => ""; dt_from_string := fun _ => None |}.

#[export] Instance no_text : Display RedisError := fun _ => "".

Definition walk (m : Instances) : list ServiceInstance := map snd (map_to_list m).

Definition config : ScalingConfig :=
  {| min_instances := 2; max_instances := 10; scale_up_threshold := f64_0_8;
     scale_down_threshold := f64_0_3; cooldown_period := 10; health_check_interval := 5;
     instance_timeout := 50 |}.

Definition busy : ServiceInstance :=
  {| si_id := "a"; si_host := "localhost"; si_port := 3000; si_status := Active;
     si_metrics := {| im_cpu_usage := f64_of_u64 1; im_memory_usage := f64_of_u64 1;
                      im_request_count := 0; im_error_count := 0; im_latency_ms := 0 |};
     si_shard_assignments := []; si_last_heartbeat := 0 |}.

Definition start : ScalingManager := ScalingManager_new 0 (∅ : @Redis text server) config.
Definition s1 : ScalingManager := snd (register_instance busy start).
Definition s2 : ScalingManager := snd (check_and_scale walk 10 s1).
Definition s3 : ScalingManager := snd (check_and_scale walk 15 s2).
Definition s4 : ScalingManager := snd (check_and_scale walk 20 s3).

Lemma walked : scaling_run walk 0 start 20 s4.
Proof.
  apply (run_step _ _ _ 15 s3); [| lia | apply step_check ].
  apply (run_step _ _ _ 10 s2); [| lia | apply step_check ].
  apply (run_step _ _ _ 0 s1); [| lia | apply step_check ].
  apply (run_step _ _ _ 0 start); [ apply run_start | lia | apply step_register ].
Qed.

(** It scales at 10 and at 20, and not at 15. *)
Lemma scalings_keep_distance_witness :
  sm_actions s4 = [(10%Z, ScaledUp); (20%Z, ScaledUp)] /\ (10 <= 20 - 10)%Z.
Proof.
  split; [ vm_compute; reflexivity |].
  apply (scalings_keep_distance walk 0 (∅ : @Redis text server) config 20 s4 1 10 20 walked);
    vm_compute; reflexivity.
Defined.

(** Its heartbeat is forgotten after fifty milliseconds. *)
Lemma cleanup_removes_exactly_stale_witness :
  sm_instances (snd (cleanup_failed_instances walk 51 s4)) !! "a" = None /\
  sm_instances (snd (cleanup_failed_instances walk 50 s4)) !! "a" = Some busy.
Proof.
  split; [ vm_compute; reflexivity |].
  apply (cleanup_removes_exactly_stale walk 0 (∅ : @Redis text server) config 20 s4 50 "a" busy);
    [ reflexivity | exact walked | vm_compute; discriminate |].
  split; vm_compute; reflexivity.
Defined.

End ScalingWitness.
