(* ===== verification/Reporters.v ===== *)
(** The metrics reporters: the line each background task logs at every tick
    ([EventStore::metrics_reporter] and [monitor_connection_pool] of
    event_store.rs, [ProjectionStore::metrics_reporter] of projections.rs,
    [AccountRepository::start_metrics_reporter] of repository.rs, the task of
    [AccountService::new] of services.rs).

    A line is a function of the counters; the atomics are read one after the
    other, with no update in between.  Integer arithmetic on counters wraps. *)
From S2P Require Import Prelude.
From S2P Require Import DecimalSpec.
From S2P Require Import Account.
From S2P Require Import Codec.
From S2P Require Import EventsDb.
From S2P Require Import EventStore.
From S2P Require Import StoreHealth.
From S2P Require Import Repository.
From S2P Require Import Projections.
From S2P Require Import Service.
From stdpp Require Import base tactics list relations gmap strings pretty.
From Stdlib Require Import ZArith Lia SpecFloat.

(** ** The lines *)

(** [EventStore::metrics_reporter]. *)
Definition store_report (m : EventStoreMetrics) : string :=
  let processed := m_events_processed m in
  let failed := m_events_failed m in
  let success_rate :=
    if (0 <? processed)%Z then
      f64_mul (f64_div (f64_of_u64 (wrap_u64 (processed - failed))) (f64_of_u64 processed)) (f64_of_u64 100)
    else f64_of_u64 0 in
  let cache_hit_rate := percentage (m_cache_hits m) (wrap_u64 (m_cache_hits m + m_cache_misses m)) in
  "EventStore Metrics - Processed: " +:+ pretty processed +:+ ", Failed: " +:+ pretty failed +:+ ", Success: "
    +:+ fixed 2 success_rate +:+ "%, Batches: " +:+ pretty (m_batch_count m) +:+ ", Cache Hit Rate: "
    +:+ fixed 2 cache_hit_rate +:+ "%".

(** [avg_query_time], in milliseconds. *)
Definition avg_query_time (m : ProjectionMetrics) : f64 :=
  f64_div (f64_of_u64 (pm_query_duration m)) (f64_of_u64 1000).

(** [ProjectionStore::metrics_reporter]. *)
Definition projections_report (m : ProjectionMetrics) : string :=
  let hit_rate := percentage (pm_cache_hits m) (wrap_u64 (pm_cache_hits m + pm_cache_misses m)) in
  "Projection Metrics - Cache Hit Rate: " +:+ fixed 1 hit_rate +:+ "%, Batch Updates: "
    +:+ pretty (pm_batch_updates m) +:+ ", Errors: " +:+ pretty (pm_errors m) +:+ ", Avg Query Time: "
    +:+ fixed 2 (avg_query_time m) +:+ "ms".

(** [AccountRepository::start_metrics_reporter]. *)
Definition repository_report (m : RepositoryMetrics) : string :=
  let hit_rate := percentage (rm_cache_hits m) (wrap_u64 (rm_cache_hits m + rm_cache_misses m)) in
  "Repository Metrics - Cache Hit Rate: " +:+ fixed 1 hit_rate +:+ "%, Batch Flushes: "
    +:+ pretty (rm_batch_flushes m) +:+ ", Events Processed: " +:+ pretty (rm_events_processed m) +:+ ", Errors: "
    +:+ pretty (rm_errors m).

(** The reporter of [AccountService::new]: [100.0] without any command. *)
Definition service_report (m : ServiceMetrics) : string :=
  let total_commands := wrap_u64 (sm_commands_processed m + sm_commands_failed m) in
  let success_rate :=
    if (0 <? total_commands)%Z then percentage (sm_commands_processed m) total_commands else f64_of_u64 100 in
  "Service metrics: processed=" +:+ pretty (sm_commands_processed m) +:+ ", failed="
    +:+ pretty (sm_commands_failed m) +:+ ", success_rate=" +:+ fixed 2 success_rate +:+ "%".

Section PoolReport.
Context `{EventsDb}.
Context (pool_size pool_num_idle : Db -> Z).

(** [EventStore::monitor_connection_pool]. *)
Definition pool_report (s : EventStore) : string :=
  let stats := pool_stats pool_size pool_num_idle s in
  let m := EventStore.get_metrics s in
  "Connection Pool Stats - Total: " +:+ pretty (fst stats) +:+ ", Idle: " +:+ pretty (snd stats) +:+ ", Active: "
    +:+ pretty (wrap_u32 (fst stats - snd stats)) +:+ ", Acquire Time: " +:+ pretty (m_connection_acquire_time m)
    +:+ "ms, Errors: " +:+ pretty (m_connection_acquire_errors m) +:+ ", Reuse: "
    +:+ pretty (m_connection_reuse_count m) +:+ ", Timeouts: " +:+ pretty (m_connection_timeout_count m)
    +:+ ", Avg Lifetime: " +:+ pretty (m_connection_lifetime m / 1000)%Z +:+ "s".

(** The report and [get_metrics] compute the same rates. *)
Lemma store_report_rates s :
  store_report (es_metrics s)
    = "EventStore Metrics - Processed: " +:+ pretty (m_events_processed (EventStore.get_metrics s)) +:+ ", Failed: "
      +:+ pretty (m_events_failed (EventStore.get_metrics s)) +:+ ", Success: "
      +:+ fixed 2 (m_success_rate (EventStore.get_metrics s)) +:+ "%, Batches: "
      +:+ pretty (m_batch_count (EventStore.get_metrics s)) +:+ ", Cache Hit Rate: "
      +:+ fixed 2 (m_cache_hit_rate (EventStore.get_metrics s)) +:+ "%".
Proof.
  unfold store_report, EventStore.get_metrics, percentage. cbn [m_events_processed m_events_failed m_success_rate
    m_batch_count m_cache_hit_rate m_cache_hits m_cache_misses].
  by destruct (0 <? m_events_processed (es_metrics s))%Z.
Qed.

End PoolReport.

(** ** What the projections report as an average *)

(** What one operation of the projections counts: hits, misses, batches and the
    microseconds it took. *)
Abbreviation counted := (Z * Z * Z * Z)%type.

Definition count_all (cs : list counted) (m : ProjectionMetrics) : ProjectionMetrics :=
  foldl (fun m '(hits, misses, batches, duration) => add_metrics hits misses batches duration m) m cs.

Definition total_time (cs : list counted) : Z := foldr (fun c t => snd c + t)%Z 0%Z cs.

Lemma count_all_duration cs m :
  in_u64 (pm_query_duration m) ->
  pm_query_duration (count_all cs m) = wrap_u64 (pm_query_duration m + total_time cs).
Proof.
  revert m. induction cs as [| [ [ [h k] b] t] cs IH]; intros m Hm; simpl.
  - by rewrite Z.add_0_r, wrap_u64_id.
  - rewrite IH by apply wrap_u64_range. simpl. unfold wrap_u64. rewrite Zplus_mod_idemp_l. f_equal. lia.
Qed.

(** The average query time the projections report is the time of all queries
    together. *)
Theorem reported_average_is_total cs :
  (0 <= total_time cs <= u64_max)%Z ->
  avg_query_time (count_all cs ProjectionMetrics_default)
    = f64_div (f64_of_u64 (total_time cs)) (f64_of_u64 1000).
Proof. intros Ht. unfold avg_query_time. rewrite count_all_duration by done. simpl. by rewrite wrap_u64_id. Qed.

(** Four queries of a millisecond each are reported as four on average. *)
Example average_of_four :
  projections_report (count_all (replicate 4 (0, 1, 0, 1000)%Z) ProjectionMetrics_default)
    = "Projection Metrics - Cache Hit Rate: 0.0%, Batch Updates: 0, Errors: 0, Avg Query Time: 4.00ms".
Proof. vm_compute. reflexivity. Qed.

(** ** The repository's counters *)
Section RepositoryReport.
Context `{SerdeOps} `{!Display SqlxError, !Display SerdeError} `{!EventStoreTrait}.

Definition same_metrics : relation AccountRepository := fun r r' => repo_metrics r' = repo_metrics r.

#[local] Instance same_metrics_pre : PreOrder same_metrics.
Proof. split; [ done | intros ???; unfold same_metrics; congruence ]. Qed.

Lemma on_store_metrics {A} (m : M Store EventStoreError A) : respects same_metrics (on_store m).
Proof. intros r. unfold on_store, zoom. by destruct (m (repo_event_store r)). Qed.

Lemma get_by_id_metrics draw id : respects same_metrics (get_by_id draw id).
Proof. unfold get_by_id. respects_tac. apply on_store_metrics. Qed.

(** An operation of the repository. *)
Inductive repo_op : Type :=
| OpSave (account : Account) (events : list AccountEvent)
| OpSaveImmediate (account : Account) (events : list AccountEvent)
| OpSaveBatched (account_id : Uuid) (expected_version : Z) (events : list AccountEvent)
| OpGetById (draw id : Uuid)
| OpFlushAll.

Definition after_op (o : repo_op) (r : AccountRepository) : AccountRepository :=
  match o with
  | OpSave a es => snd (save a es r)
  | OpSaveImmediate a es => snd (save_immediate a es r)
  | OpSaveBatched id v es => snd (save_batched id v es r)
  | OpGetById draw id => snd (get_by_id draw id r)
  | OpFlushAll => snd (flush_all r)
  end.

(** The repository's report never changes: no operation updates its counters. *)
Theorem repository_report_constant ops store :
  repository_report (repo_metrics (foldl (fun r o => after_op o r) (AccountRepository_new store) ops))
    = "Repository Metrics - Cache Hit Rate: 0.0%, Batch Flushes: 0, Events Processed: 0, Errors: 0".
Proof.
  assert (forall ops r, repo_metrics (foldl (fun r o => after_op o r) r ops) = repo_metrics r) as Hsame.
  { clear ops. intros ops. induction ops as [| o ops IH]; intros r; simpl; [ done |]. rewrite IH.
    destruct o; simpl; [ apply (on_store_metrics _ r) | apply (on_store_metrics _ r) | apply (on_store_metrics _ r)
      | apply (get_by_id_metrics draw id r) | done ]. }
  rewrite Hsame. vm_compute. reflexivity.
Qed.

End RepositoryReport.
