(* ===== verification/Startup.v ===== *)
(** Start-up (src/src/infrastructure/init.rs and src/src/main.rs): the settings
    read from the environment and the context of the running services.

    [env] is the environment ([std::env::var]).  [parse_int], [parse_bool] and
    [parse_f64] are Rust's [str::parse] at the types of the settings.  The
    configurations are those of the components.  A background task is its
    handle: how many [Arc]s share it and, once the task has ended, its result.
    Connecting to PostgreSQL, Redis and Kafka, and the server itself, are left
    to the crates. *)
From S2P Require Import Prelude.
From S2P Require Import DecimalSpec.
From S2P Require Import Account.
From S2P Require Import Codec.
From S2P Require Import EventsDb.
From S2P Require Import EventStore.
From S2P Require Import Repository.
From S2P Require Import Cache.
From S2P Require Import Projections.
From S2P Require Import Service.
From S2P Require Import RateLimit.
From S2P Require Import Auth.
From S2P Require Import Web.
From S2P Require Import KafkaClient.
From S2P Require Import Scaling.
From stdpp Require Import base tactics list gmap strings pretty.
From Stdlib Require Import ZArith Lia SpecFloat Ascii.

(** ** [str::parse] *)
Definition digit (c : ascii) : option Z :=
  let n := Z.of_nat (nat_of_ascii c) in
  if ((48 <=? n) && (n <=? 57))%Z then Some (n - 48)%Z else None.

(** The digits of the whole string after [acc]. *)
Fixpoint read_digits (acc : Z) (s : string) : option Z :=
  match s with
  | EmptyString => Some acc
  | String c rest =>
      match digit c with
      | Some d => read_digits (acc * 10 + d) rest
      | None => None
      end
  end.

Definition parse_digits (s : string) : option Z :=
  match s with
  | EmptyString => None
  | _ => read_digits 0 s
  end.

Definition in_range (lo hi : Z) (z : Z) : option Z := if ((lo <=? z) && (z <=? hi))%Z then Some z else None.

(** An integer of the type with the range [lo .. hi]: a plus is allowed, and a
    minus for a signed type. *)
Definition parse_int (lo hi : Z) (s : string) : option Z :=
  match s with
  | String "+" rest => parse_digits rest ≫= in_range lo hi
  | String "-" rest =>
      if (lo <? 0)%Z then parse_digits rest ≫= (fun z => in_range lo hi (- z)) else None
  | _ => parse_digits s ≫= in_range lo hi
  end.

Definition parse_bool (s : string) : option bool :=
  if String.eqb s "true" then Some true else if String.eqb s "false" then Some false else None.

(** The digits a string starts with: their value after [acc], their number, and
    the rest. *)
Fixpoint take_digits (acc : Z) (n : nat) (s : string) : Z * nat * string :=
  match s with
  | EmptyString => (acc, n, s)
  | String c rest =>
      match digit c with
      | Some d => take_digits (acc * 10 + d) (S n) rest
      | None => (acc, n, s)
      end
  end.

(** [m * 10 ^ e] rounded to the nearest [f64], ties to even. *)
Definition f64_of_decimal (m e : Z) : f64 :=
  match m with
  | Zpos _ =>
      if (0 <=? e)%Z then binary_normalize 53 1024 (m * 10 ^ e) 0 false
      else
        let '(q, e', l) := SFdiv_core_binary 53 1024 m 0 (10 ^ (- e)) 0 in
        binary_round_aux 53 1024 false q e' l
  | _ => S754_zero false
  end.

Definition exponent (s : string) : option Z :=
  match s with
  | EmptyString => Some 0%Z
  | String c rest =>
      if (Ascii.eqb c "e" || Ascii.eqb c "E")%char then
        match rest with
        | String "+" ds => parse_digits ds
        | String "-" ds => option_map Z.opp (parse_digits ds)
        | ds => parse_digits ds
        end
      else None
  end.

Definition lower (c : ascii) : ascii :=
  let n := nat_of_ascii c in
  if ((65 <=? n) && (n <=? 90))%nat then ascii_of_nat (n + 32) else c.

Fixpoint lowercase (s : string) : string :=
  match s with
  | EmptyString => EmptyString
  | String c rest => String (lower c) (lowercase rest)
  end.

Definition parse_unsigned_f64 (s : string) : option f64 :=
  let '(whole, n, rest) := take_digits 0 0 s in
  let '(value, k, rest) :=
    match rest with
    | String "." frac => let '(v, k, rest) := take_digits whole 0 frac in (v, k, rest)
    | _ => (whole, 0, rest)
    end in
  match n + k with
  | O =>
      if String.eqb (lowercase s) "inf" || String.eqb (lowercase s) "infinity" then Some (S754_infinity false)
      else if String.eqb (lowercase s) "nan" then Some S754_nan else None
  | S _ => option_map (fun e => f64_of_decimal value (e - Z.of_nat k)) (exponent rest)
  end.

Definition parse_f64 (s : string) : option f64 :=
  match s with
  | String "+" rest => parse_unsigned_f64 rest
  | String "-" rest => option_map SFopp (parse_unsigned_f64 rest)
  | _ => parse_unsigned_f64 s
  end.

Definition i16_range : Z * Z := (- 2 ^ 15, 2 ^ 15 - 1)%Z.
Definition i32_range : Z * Z := (- 2 ^ 31, 2 ^ 31 - 1)%Z.
Definition i64_range : Z * Z := (- 2 ^ 63, 2 ^ 63 - 1)%Z.
Definition u32_range : Z * Z := (0, u32_max)%Z.
Definition u64_range : Z * Z := (0, u64_max)%Z.

(** ** Settings *)
Section Settings.
Variable env : string -> option string.

(** [std::env::var(name).unwrap_or_else(|_| text.to_string())]. *)
Definition var (name text : string) : string := default text (env name).

(** The same with [.parse().unwrap_or(fallback)]. *)
Definition setting {A} (parse : string -> option A) (name text : string) (fallback : A) : A :=
  default fallback (parse (var name text)).

Definition int_setting (range : Z * Z) (name text : string) (fallback : Z) : Z :=
  setting (parse_int range.1 range.2) name text fallback.

Definition usize_setting (name text : string) (fallback : Z) : nat :=
  Z.to_nat (int_setting u64_range name text fallback).

(** [AuthConfig]. *)
Definition auth_config : AuthConfig :=
  {| jwt_secret := var "JWT_SECRET" "default_secret";
     refresh_token_secret := var "REFRESH_TOKEN_SECRET" "default_refresh_secret";
     access_token_expiry := int_setting i64_range "ACCESS_TOKEN_EXPIRY" "3600" 3600;
     refresh_token_expiry := int_setting i64_range "REFRESH_TOKEN_EXPIRY" "604800" 604800;
     rate_limit_requests := int_setting u32_range "RATE_LIMIT_REQUESTS" "1000" 1000;
     rate_limit_window := int_setting u32_range "RATE_LIMIT_WINDOW" "60" 60;
     max_failed_attempts := int_setting u32_range "MAX_FAILED_ATTEMPTS" "5" 5;
     lockout_duration_minutes := int_setting u32_range "LOCKOUT_DURATION_MINUTES" "30" 30 |}.

(** [ProjectionConfig], with the other fields of its default. *)
Definition projection_config : ProjectionConfig :=
  let d := ProjectionConfig_default in
  {| pc_cache_ttl_secs := pc_cache_ttl_secs d; pc_batch_size := pc_batch_size d;
     pc_batch_timeout_ms := pc_batch_timeout_ms d;
     pc_max_connections := int_setting u32_range "PROJECTION_MAX_CONNECTIONS" "5" 5;
     pc_min_connections := int_setting u32_range "PROJECTION_MIN_CONNECTIONS" "1" 1;
     pc_acquire_timeout_secs := pc_acquire_timeout_secs d; pc_idle_timeout_secs := pc_idle_timeout_secs d;
     pc_max_lifetime_secs := pc_max_lifetime_secs d |}.

(** [CacheConfig]; its durations are in seconds. *)
Definition cache_config : CacheConfig :=
  {| cc_default_ttl := int_setting u64_range "CACHE_DEFAULT_TTL" "3600" 3600;
     cc_max_size := usize_setting "CACHE_MAX_SIZE" "5000" 5000;
     cc_shard_count := usize_setting "CACHE_SHARD_COUNT" "8" 8;
     cc_warmup_batch_size := usize_setting "CACHE_WARMUP_BATCH_SIZE" "50" 50;
     cc_warmup_interval := int_setting u64_range "CACHE_WARMUP_INTERVAL" "300" 300;
     cc_eviction_policy := LRU |}.

(** The middleware's [RateLimitConfig]; the window is in milliseconds. *)
Definition rate_limit_config : FixedWindow.RateLimitConfig :=
  {| FixedWindow.requests_per_minute := int_setting u32_range "RATE_LIMIT_REQUESTS_PER_MINUTE" "100" 100;
     FixedWindow.burst_size := int_setting u32_range "RATE_LIMIT_BURST_SIZE" "20" 20;
     FixedWindow.window_size := int_setting u64_range "RATE_LIMIT_WINDOW_SIZE" "60" 60 * 1000;
     FixedWindow.max_clients := usize_setting "RATE_LIMIT_MAX_CLIENTS" "500" 500 |}.

(** [0.2_f64]. *)
Definition f64_0_2 : f64 := S754_finite false 7205759403792794 (-55).

(** [ScalingConfig]. *)
Definition scaling_config : ScalingConfig :=
  {| min_instances := usize_setting "SCALING_MIN_INSTANCES" "1" 1;
     max_instances := usize_setting "SCALING_MAX_INSTANCES" "5" 5;
     scale_up_threshold := setting parse_f64 "SCALING_UP_THRESHOLD" "0.8" f64_0_8;
     scale_down_threshold := setting parse_f64 "SCALING_DOWN_THRESHOLD" "0.2" f64_0_2;
     cooldown_period := int_setting u64_range "SCALING_COOLDOWN_PERIOD" "300" 300 * 1000;
     health_check_interval := int_setting u64_range "SCALING_HEALTH_CHECK_INTERVAL" "30" 30 * 1000;
     instance_timeout := int_setting u64_range "SCALING_INSTANCE_TIMEOUT" "60" 60 * 1000 |}.

(** [KafkaConfig]. *)
Definition kafka_config : KafkaConfig :=
  {| kc_enabled := setting parse_bool "KAFKA_ENABLED" "true" true;
     kc_bootstrap_servers := var "KAFKA_BOOTSTRAP_SERVERS" "localhost:9092";
     kc_group_id := var "KAFKA_GROUP_ID" "banking-es-group";
     kc_topic_prefix := var "KAFKA_TOPIC_PREFIX" "banking-es";
     kc_producer_acks := int_setting i16_range "KAFKA_PRODUCER_ACKS" "1" 1;
     kc_producer_retries := int_setting i32_range "KAFKA_PRODUCER_RETRIES" "3" 3;
     kc_consumer_max_poll_interval_ms :=
       int_setting i32_range "KAFKA_CONSUMER_MAX_POLL_INTERVAL_MS" "300000" 300000;
     kc_consumer_session_timeout_ms :=
       int_setting i32_range "KAFKA_CONSUMER_SESSION_TIMEOUT_MS" "10000" 10000;
     kc_consumer_max_poll_records := int_setting i32_range "KAFKA_CONSUMER_MAX_POLL_RECORDS" "250" 250;
     kc_security_protocol := var "KAFKA_SECURITY_PROTOCOL" "PLAINTEXT";
     kc_sasl_mechanism := var "KAFKA_SASL_MECHANISM" "PLAIN";
     kc_ssl_ca_location := env "KAFKA_SSL_CA_LOCATION";
     kc_auto_offset_reset := var "KAFKA_AUTO_OFFSET_RESET" "earliest";
     kc_cache_invalidation_topic := var "KAFKA_CACHE_INVALIDATION_TOPIC" "banking-es-cache-invalidation";
     kc_event_topic := var "KAFKA_EVENT_TOPIC" "banking-es-events" |}.

(** The request middleware with its validators. *)
Definition init_middleware (parse_str : string -> option Uuid) : Validation.RequestMiddleware :=
  middleware_with parse_str (FixedWindow.RateLimiter_new rate_limit_config).

(** The port [main] listens on. *)
Definition port : Z := int_setting (0, 2 ^ 16 - 1)%Z "PORT" "3000" 3000.

End Settings.

(** ** The background tasks and their context *)

(** A [JoinHandle] behind an [Arc]: the number of [Arc]s, and how the task
    ended, [Err] for a panic or an abort, once it has. *)
Record TaskHandle : Type := {
  th_refs : nat;
  th_result : option (string + unit)
}.

Record ServiceContext : Type := {
  sx_warmup_handle : TaskHandle;
  sx_l1_handle : TaskHandle
}.

Definition with_refs (n : nat) (h : TaskHandle) : TaskHandle :=
  {| th_refs := n; th_result := th_result h |}.

(** [#[derive(Clone)]]: one more [Arc] for each handle; the clone is dropped when
    its owner is done. *)
Definition clone_context (c : ServiceContext) : ServiceContext :=
  {| sx_warmup_handle := with_refs (S (th_refs (sx_warmup_handle c))) (sx_warmup_handle c);
     sx_l1_handle := with_refs (S (th_refs (sx_l1_handle c))) (sx_l1_handle c) |}.

Definition drop_context (c : ServiceContext) : ServiceContext :=
  {| sx_warmup_handle := with_refs (pred (th_refs (sx_warmup_handle c))) (sx_warmup_handle c);
     sx_l1_handle := with_refs (pred (th_refs (sx_l1_handle c))) (sx_l1_handle c) |}.

(** [handle.await]: waits for ever on a task that does not end. *)
Definition join (h : TaskHandle) : res string unit :=
  match th_result h with
  | Some (inr _) => Ok tt
  | Some (inl e) => Err e
  | None => Hang
  end.

(** [if let Some(handle) = Arc::get_mut(..) { handle.await } else { Ok(()) }]. *)
Definition get_mut_await (h : TaskHandle) : res string unit :=
  match th_refs h with
  | 1 => join h
  | _ => Ok tt
  end.

(** [ServiceContext::check_background_tasks]. *)
Definition check_background_tasks (c : ServiceContext) : res string unit :=
  let? _ := map_err (fun e => "Warmup task failed: " +:+ e) (get_mut_await (sx_warmup_handle c)) in
  map_err (fun e => "L1 cache updater task failed: " +:+ e) (get_mut_await (sx_l1_handle c)).

(** [handle.abort()]. *)
Definition abort (h : TaskHandle) : TaskHandle :=
  {| th_refs := th_refs h;
     th_result := match th_result h with Some r => Some r | None => Some (inl "cancelled") end |}.

(** [Arc::try_unwrap(handle).unwrap().await], its error logged. *)
Definition unwrap_await (h : TaskHandle) : res string unit :=
  match th_refs h with
  | 1 => match join h with Err _ => Ok tt | r => r end
  | _ => Panic
  end.

(** [ServiceContext::shutdown]. *)
Definition shutdown (c : ServiceContext) : res string unit :=
  let? _ := unwrap_await (abort (sx_l1_handle c)) in
  unwrap_await (abort (sx_warmup_handle c)).

(** [main]: the context is cloned for the shutdown before the check, which takes
    the other one; [ended] is how the tasks stand when the server stops. *)
Definition run_main (c : ServiceContext) (ended : ServiceContext -> ServiceContext) : res string unit :=
  let both := clone_context c in
  let? _ := check_background_tasks both in
  shutdown (ended (drop_context both)).

Section Warmup.
Context `{SerdeOps} `{!Display SqlxError, !Display SerdeError}.
Context `{!EventStoreTrait} `{!CacheServiceTrait}.

(** The warm-up task of [init_all_services]: failures are dropped or logged. *)
Definition warmup_task : M (Store * CacheState) string unit :=
  let! accounts := attempt (zoom fst (fun s p => (s, snd p)) st_get_all_accounts) in
  match (accounts : EventStoreError + list Account) with
  | inr accounts =>
      let! _ := attempt (E := string) (zoom snd (fun c p => (fst p, c)) (ca_warmup_cache (map acc_id accounts))) in
      ret tt
  | inl _ => ret tt
  end.

End Warmup.

(** ** Lemmas *)
(** Reading back what was printed. *)
Lemma digit_char (x : N) : (x < 10)%N -> digit (pretty_N_char x) = Some (Z.of_N x).
Proof.
  intros Hx. assert (x = 0 \/ x = 1 \/ x = 2 \/ x = 3 \/ x = 4 \/ x = 5 \/ x = 6 \/ x = 7 \/ x = 8 \/ x = 9)%N
    as Hcases by lia.
  destruct_or! Hcases; subst x; reflexivity.
Qed.

Lemma read_pretty (x : N) s : (0 < x)%N -> read_digits 0 (pretty_N_go x s) = read_digits (Z.of_N x) s.
Proof.
  revert s. induction (N.lt_wf_0 x) as [x _ IH]. intros s Hx. rewrite pretty_N_go_step by done.
  assert (x `mod` 10 < 10)%N as Hm by (apply N.mod_lt; lia).
  pose proof (N.div_mod x 10 ltac:(lia)) as Hdm.
  destruct (decide (x `div` 10 = 0)%N) as [Hz | Hnz].
  - rewrite Hz, pretty_N_go_0. cbn [read_digits]. rewrite digit_char by done. f_equal. lia.
  - rewrite IH; [| apply N.div_lt; lia | lia ]. cbn [read_digits]. rewrite digit_char by done. f_equal. lia.
Qed.

Lemma in_range_in lo hi z : (lo <= z <= hi)%Z -> in_range lo hi z = Some z.
Proof. intros Hr. unfold in_range. by rewrite !(proj2 (Z.leb_le _ _)) by lia. Qed.

Lemma digits_printed (x : N) :
  (0 < x)%N ->
  parse_digits (pretty x) = Some (Z.of_N x) /\
  forall lo hi, parse_int lo hi (pretty x) = parse_digits (pretty x) ≫= in_range lo hi.
Proof.
  intros Hx. unfold pretty, pretty_N. rewrite decide_False by lia.
  pose proof (read_pretty x "" Hx) as Hread. simpl in Hread.
  destruct (pretty_N_go x "") as [| c s] eqn:Hs; [ simplify_eq/=; lia |].
  split; [ exact Hread |]. intros lo hi.
  assert (digit c <> None) as Hc by (intros Hc; by simpl in Hread; rewrite Hc in Hread).
  unfold parse_int. destruct c as [ [] [] [] [] [] [] [] [] ]; try reflexivity; by exfalso; apply Hc.
Qed.

Lemma parse_printed lo hi (z : Z) : (lo <= z <= hi)%Z -> parse_int lo hi (pretty z) = Some z.
Proof.
  intros Hr. destruct z as [| p | p].
  - unfold parse_int. simpl. by apply in_range_in.
  - destruct (digits_printed (Npos p) ltac:(lia)) as [Hd Hi].
    change (pretty (Z.pos p)) with (pretty (Npos p)). rewrite Hi, Hd. by apply in_range_in.
  - change (pretty (Z.neg p)) with (String "-" (pretty (Npos p))). unfold parse_int.
    rewrite (proj2 (Z.ltb_lt lo 0)), (proj1 (digits_printed (Npos p) ltac:(lia))) by lia.
    by apply (in_range_in lo hi (Z.neg p)).
Qed.

(** The thresholds written in the source are the doubles the parser gives. *)
Example default_thresholds_parse :
  parse_f64 "0.8" = Some f64_0_8 /\ parse_f64 "0.2" = Some f64_0_2 /\
  parse_f64 "-1.5e1" = Some (S754_finite true 8444249301319680 (-49)) /\
  parse_f64 "NaN" = Some S754_nan /\ parse_f64 "0,8" = None.
Proof. vm_compute. repeat split. Qed.

(** ** The settings as an operator writes them down *)

(** Everything the services are configured with. *)
Record Deployment : Type := {
  dp_auth : AuthConfig;
  dp_projection : ProjectionConfig;
  dp_cache : CacheConfig;
  dp_rate_limit : FixedWindow.RateLimitConfig;
  dp_scaling : ScalingConfig;
  dp_kafka : KafkaConfig;
  dp_port : Z
}.

Definition deployment (env : string -> option string) : Deployment :=
  {| dp_auth := auth_config env; dp_projection := projection_config env;
     dp_cache := cache_config env; dp_rate_limit := rate_limit_config env;
     dp_scaling := scaling_config env; dp_kafka := kafka_config env; dp_port := port env |}.

(** A line of a file [.env]: the variable, the value wanted and the one the
    variable has in the file of the repository (src/.env; the two topics it leaves
    out are those of [KafkaConfig::default]); for a number, the range of its type
    as well. *)
Inductive line : Type :=
| LNumber (name : string) (range : Z * Z) (value shipped : Z)
| LText (name value shipped : string)
| LFlag (name : string) (value shipped : bool)
| LReal (name : string) (value shipped : f64)
| LOptional (name : string) (value : option string).

(** No text [parse] understands. *)
Definition unreadable {A} (env : string -> option string) (parse : string -> option A) (name : string) : Prop :=
  forall s, env name = Some s -> parse s = None.

(** The environment says what the line says: the variable prints the value, or it
    is unset or unreadable and the value is the one of the repository's file. *)
Definition written (env : string -> option string) (l : line) : Prop :=
  match l with
  | LNumber name range value shipped =>
      (range.1 <= value <= range.2)%Z /\
      (env name = Some (pretty value) \/
       unreadable env (parse_int range.1 range.2) name /\ value = shipped)
  | LText name value shipped => env name = Some value \/ env name = None /\ value = shipped
  | LFlag name value shipped =>
      env name = Some (if value then "true" else "false") \/
      unreadable env parse_bool name /\ value = shipped
  | LReal name value shipped =>
      (exists s, env name = Some s /\ parse_f64 s = Some value) \/
      unreadable env parse_f64 name /\ value = shipped
  | LOptional name value => env name = value
  end.

(** Durations are written in seconds and kept in milliseconds. *)
Definition LSeconds (name : string) (ms shipped : Z) : line := LNumber name u64_range (ms / 1000) shipped.

Definition LSize (name : string) (value : nat) (shipped : Z) : line :=
  LNumber name u64_range (Z.of_nat value) shipped.

(** The lines of [.env] for a deployment. *)
Definition env_file (d : Deployment) : list line :=
  let a := dp_auth d in let p := dp_projection d in let c := dp_cache d in
  let r := dp_rate_limit d in let sc := dp_scaling d in let k := dp_kafka d in
  [LNumber "PORT" (0, 2 ^ 16 - 1)%Z (dp_port d) 3000;
   LText "JWT_SECRET" (jwt_secret a) "default_secret";
   LText "REFRESH_TOKEN_SECRET" (refresh_token_secret a) "default_refresh_secret";
   LNumber "ACCESS_TOKEN_EXPIRY" i64_range (access_token_expiry a) 3600;
   LNumber "REFRESH_TOKEN_EXPIRY" i64_range (refresh_token_expiry a) 604800;
   LNumber "RATE_LIMIT_REQUESTS" u32_range (rate_limit_requests a) 1000;
   LNumber "RATE_LIMIT_WINDOW" u32_range (rate_limit_window a) 60;
   LNumber "MAX_FAILED_ATTEMPTS" u32_range (max_failed_attempts a) 5;
   LNumber "LOCKOUT_DURATION_MINUTES" u32_range (lockout_duration_minutes a) 30;
   LNumber "CACHE_DEFAULT_TTL" u64_range (cc_default_ttl c) 3600;
   LSize "CACHE_MAX_SIZE" (cc_max_size c) 5000;
   LSize "CACHE_SHARD_COUNT" (cc_shard_count c) 8;
   LSize "CACHE_WARMUP_BATCH_SIZE" (cc_warmup_batch_size c) 50;
   LNumber "CACHE_WARMUP_INTERVAL" u64_range (cc_warmup_interval c) 300;
   LNumber "PROJECTION_MAX_CONNECTIONS" u32_range (pc_max_connections p) 5;
   LNumber "PROJECTION_MIN_CONNECTIONS" u32_range (pc_min_connections p) 1;
   LNumber "RATE_LIMIT_REQUESTS_PER_MINUTE" u32_range (FixedWindow.requests_per_minute r) 100;
   LNumber "RATE_LIMIT_BURST_SIZE" u32_range (FixedWindow.burst_size r) 20;
   LSeconds "RATE_LIMIT_WINDOW_SIZE" (FixedWindow.window_size r) 60;
   LSize "RATE_LIMIT_MAX_CLIENTS" (FixedWindow.max_clients r) 500;
   LSize "SCALING_MIN_INSTANCES" (min_instances sc) 1;
   LSize "SCALING_MAX_INSTANCES" (max_instances sc) 5;
   LReal "SCALING_UP_THRESHOLD" (scale_up_threshold sc) f64_0_8;
   LReal "SCALING_DOWN_THRESHOLD" (scale_down_threshold sc) f64_0_2;
   LSeconds "SCALING_COOLDOWN_PERIOD" (cooldown_period sc) 300;
   LSeconds "SCALING_HEALTH_CHECK_INTERVAL" (health_check_interval sc) 30;
   LSeconds "SCALING_INSTANCE_TIMEOUT" (instance_timeout sc) 60;
   LFlag "KAFKA_ENABLED" (kc_enabled k) true;
   LText "KAFKA_BOOTSTRAP_SERVERS" (kc_bootstrap_servers k) "localhost:9092";
   LText "KAFKA_GROUP_ID" (kc_group_id k) "banking-es-group";
   LText "KAFKA_TOPIC_PREFIX" (kc_topic_prefix k) "banking-es";
   LNumber "KAFKA_PRODUCER_ACKS" i16_range (kc_producer_acks k) 1;
   LNumber "KAFKA_PRODUCER_RETRIES" i32_range (kc_producer_retries k) 3;
   LNumber "KAFKA_CONSUMER_MAX_POLL_INTERVAL_MS" i32_range (kc_consumer_max_poll_interval_ms k) 300000;
   LNumber "KAFKA_CONSUMER_SESSION_TIMEOUT_MS" i32_range (kc_consumer_session_timeout_ms k) 10000;
   LNumber "KAFKA_CONSUMER_MAX_POLL_RECORDS" i32_range (kc_consumer_max_poll_records k) 250;
   LText "KAFKA_SECURITY_PROTOCOL" (kc_security_protocol k) "PLAINTEXT";
   LText "KAFKA_SASL_MECHANISM" (kc_sasl_mechanism k) "PLAIN";
   LOptional "KAFKA_SSL_CA_LOCATION" (kc_ssl_ca_location k);
   LText "KAFKA_AUTO_OFFSET_RESET" (kc_auto_offset_reset k) "earliest";
   LText "KAFKA_CACHE_INVALIDATION_TOPIC" (kc_cache_invalidation_topic k) "banking-es-cache-invalidation";
   LText "KAFKA_EVENT_TOPIC" (kc_event_topic k) "banking-es-events"].

Definition whole_seconds (ms : Z) : Prop := (ms = ms / 1000 * 1000)%Z.

(** What the file cannot say is as the program has it: whole seconds, the other
    fields of the projections, the eviction policy. *)
Record expressible (d : Deployment) : Prop := {
  ex_window : whole_seconds (FixedWindow.window_size (dp_rate_limit d));
  ex_cooldown : whole_seconds (cooldown_period (dp_scaling d));
  ex_health : whole_seconds (health_check_interval (dp_scaling d));
  ex_timeout : whole_seconds (instance_timeout (dp_scaling d));
  ex_eviction : cc_eviction_policy (dp_cache d) = LRU;
  ex_projection : exists highest lowest, dp_projection d =
    {| pc_cache_ttl_secs := 300; pc_batch_size := 5 * 1000; pc_batch_timeout_ms := 20;
       pc_max_connections := highest; pc_min_connections := lowest; pc_acquire_timeout_secs := 30;
       pc_idle_timeout_secs := 600; pc_max_lifetime_secs := 1800 |}
}.

Section Reading.
Variable env : string -> option string.

(** One line read. *)
Lemma number_read name range value text fallback :
  parse_int range.1 range.2 text = Some fallback ->
  written env (LNumber name range value fallback) -> int_setting env range name text fallback = value.
Proof.
  intros Ht (Hr & [He | [Hu ->]]); unfold int_setting, setting, var.
  - rewrite He. simpl. by rewrite parse_printed.
  - destruct (env name) as [s |] eqn:He; simpl; [ by rewrite (Hu _ He) | by rewrite Ht ].
Qed.

Lemma size_read name value text fallback :
  parse_int u64_range.1 u64_range.2 text = Some fallback ->
  written env (LSize name value fallback) -> usize_setting env name text fallback = value.
Proof. intros Ht Hw. unfold usize_setting. rewrite (number_read _ _ _ _ _ Ht Hw). apply Nat2Z.id. Qed.

Lemma seconds_read name ms text fallback :
  parse_int u64_range.1 u64_range.2 text = Some fallback -> whole_seconds ms ->
  written env (LSeconds name ms fallback) -> (int_setting env u64_range name text fallback * 1000)%Z = ms.
Proof. intros Ht Hs Hw. rewrite (number_read _ _ _ _ _ Ht Hw). by rewrite <- Hs. Qed.

Lemma text_read name value fallback :
  written env (LText name value fallback) -> var env name fallback = value.
Proof. unfold var. by intros [-> | [-> ->]]. Qed.

Lemma flag_read name value text fallback :
  parse_bool text = Some fallback ->
  written env (LFlag name value fallback) -> setting env parse_bool name text fallback = value.
Proof.
  intros Ht [He | [Hu ->]]; unfold setting, var.
  - rewrite He. by destruct value.
  - destruct (env name) as [s |] eqn:He; simpl; [ by rewrite (Hu _ He) | by rewrite Ht ].
Qed.

Lemma real_read name value text fallback :
  parse_f64 text = Some fallback ->
  written env (LReal name value fallback) -> setting env parse_f64 name text fallback = value.
Proof.
  intros Ht [(s & He & Hs) | [Hu ->]]; unfold setting, var.
  - rewrite He. simpl. by rewrite Hs.
  - destruct (env name) as [s |] eqn:He; simpl; [ by rewrite (Hu _ He) | by rewrite Ht ].
Qed.

End Reading.

Create HintDb settings.
#[export] Hint Resolve number_read size_read seconds_read text_read flag_read real_read : settings.


Lemma unwrap_aborted h : th_refs h = 1 -> unwrap_await (abort h) = Ok tt.
Proof.
  intros Hr. unfold unwrap_await. simpl. rewrite Hr. unfold join. simpl.
  destruct (th_result h) as [ [e | []] |]; done.
Qed.

Lemma join_ok h : join h = Ok tt <-> th_result h = Some (inr tt).
Proof. unfold join. destruct (th_result h) as [ [e | []] |]; naive_solver. Qed.

(** The handles keep the number of their [Arc]s. *)
Definition same_refs (ended : ServiceContext -> ServiceContext) : Prop :=
  forall d, th_refs (sx_warmup_handle (ended d)) = th_refs (sx_warmup_handle d) /\
            th_refs (sx_l1_handle (ended d)) = th_refs (sx_l1_handle d).

Definition unshared (c : ServiceContext) : Prop :=
  th_refs (sx_warmup_handle c) = 1 /\ th_refs (sx_l1_handle c) = 1.

Lemma cloned_check_ok c : unshared c -> check_background_tasks (clone_context c) = Ok tt.
Proof.
  intros [Hw Hl]. unfold check_background_tasks, clone_context, get_mut_await. simpl. by rewrite Hw, Hl.
Qed.

Lemma shutdown_after_clone c ended :
  unshared c -> same_refs ended -> shutdown (ended (drop_context (clone_context c))) = Ok tt.
Proof.
  intros [Hw Hl] Hended. unfold shutdown. destruct (Hended (drop_context (clone_context c))) as [Hew Hel].
  by rewrite unwrap_aborted, unwrap_aborted by (rewrite ?Hew, ?Hel; simpl; congruence).
Qed.

(** [main] clones the context before it checks the background tasks, so no
    handle is unique and the check succeeds whatever became of the tasks, even
    when both have panicked; the program runs to its shutdown, which then does
    own the handles and returns.  On an unshared context the same check succeeds
    exactly when both tasks have ended without an error, which the cache updater
    never does. *)
Theorem startup_check_is_vacuous c ended :
  th_refs (sx_warmup_handle c) = 1 -> th_refs (sx_l1_handle c) = 1 ->
  (forall d, th_refs (sx_warmup_handle (ended d)) = th_refs (sx_warmup_handle d) /\
             th_refs (sx_l1_handle (ended d)) = th_refs (sx_l1_handle d)) ->
  check_background_tasks (clone_context c) = Ok tt /\
  run_main c ended = Ok tt /\
  (check_background_tasks c = Ok tt <->
   th_result (sx_warmup_handle c) = Some (inr tt) /\ th_result (sx_l1_handle c) = Some (inr tt)).
Proof.
  intros Hw Hl Hended. assert (unshared c) as Hc by done.
  split; [ by apply cloned_check_ok |]. split.
  - unfold run_main. cbv zeta. rewrite cloned_check_ok by done. by apply shutdown_after_clone.
  - unfold check_background_tasks, get_mut_await. rewrite Hw, Hl, <- !join_ok.
    destruct (join (sx_warmup_handle c)) as [ [] | | |], (join (sx_l1_handle c)) as [ [] | | |]; simpl; naive_solver.
Qed.

Module StartupWitness.

(** An operator changes four settings and mistypes a fifth. *)
Definition environment (name : string) : option string :=
  if String.eqb name "PORT" then Some "8080"
  else if String.eqb name "SCALING_COOLDOWN_PERIOD" then Some "45"
  else if String.eqb name "SCALING_UP_THRESHOLD" then Some "2e-1"
  else if String.eqb name "KAFKA_PRODUCER_ACKS" then Some "-1"
  else if String.eqb name "CACHE_MAX_SIZE" then Some "5_000"
  else None.

Definition wanted : Deployment :=
  {| dp_auth := auth_config (fun _ => None); dp_projection := projection_config (fun _ => None);
     dp_cache := cache_config (fun _ => None); dp_rate_limit := rate_limit_config (fun _ => None);
     dp_scaling :=
       {| min_instances := 1; max_instances := 5; scale_up_threshold := f64_0_2;
          scale_down_threshold := f64_0_2; cooldown_period := 45000; health_check_interval := 30000;
          instance_timeout := 60000 |};
     dp_kafka :=
       {| kc_enabled := true; kc_bootstrap_servers := "localhost:9092"; kc_group_id := "banking-es-group";
          kc_topic_prefix := "banking-es"; kc_producer_acks := -1; kc_producer_retries := 3;
          kc_consumer_max_poll_interval_ms := 300000; kc_consumer_session_timeout_ms := 10000;
          kc_consumer_max_poll_records := 250; kc_security_protocol := "PLAINTEXT";
          kc_sasl_mechanism := "PLAIN"; kc_ssl_ca_location := None; kc_auto_offset_reset := "earliest";
          kc_cache_invalidation_topic := "banking-es-cache-invalidation";
          kc_event_topic := "banking-es-events" |};
     dp_port := 8080 |}.

Lemma wanted_expressible : expressible wanted.
Proof. split; try reflexivity. by exists 5%Z, 1%Z. Defined.

Ltac line_holds :=
  first [ split; [ vm_compute; split; discriminate |] | idtac ];
  first [ left; reflexivity
        | left; eexists; split; [ reflexivity | vm_compute; reflexivity ]
        | right; split; [ intros s Hs; vm_compute in Hs; first [ discriminate | injection Hs as <-; reflexivity ]
                        | vm_compute; reflexivity ]
        | right; split; reflexivity
        | reflexivity ].


(** Both tasks panicked before the check. *)
Definition panicked : ServiceContext :=
  {| sx_warmup_handle := {| th_refs := 1; th_result := Some (inl "panic") |};
     sx_l1_handle := {| th_refs := 1; th_result := Some (inl "panic") |} |}.

Lemma startup_check_is_vacuous_witness :
  run_main panicked (fun d => d) = Ok tt /\ check_background_tasks panicked = Err "Warmup task failed: panic".
Proof.
  split; [| reflexivity ].
  apply (startup_check_is_vacuous panicked (fun d => d)); [ reflexivity | reflexivity | intros d; split; reflexivity ].
Defined.

End StartupWitness.
