(* ===== verification/Application.v ===== *)
(** The running application: the requests of src/src/web/handlers.rs on the
    services of src/src/application/services.rs over the components themselves,
    the event store, projections and cache of src/src/infrastructure.

    [serve] is one request of any endpoint and [serve_all] a run of them.
    [live_store], [live_projections] and [live_cache] put the components behind
    their traits for a whole run: each of their operations is at a tick of its
    own, and the clock and the identifiers it draws are those of its tick.
    [ReadOnlyRepository] is what the run needs to know of the repository, and
    [real_repository] that the one over the event store is so. *)
From S2P Require Import Prelude.
From S2P Require Import DecimalSpec.
From S2P Require Import Account.
From S2P Require Import Codec.
From S2P Require Import EventsDb.
From S2P Require Import EventStore.
From S2P Require Import EventStoreFacts.
From S2P Require Import Repository.
From S2P Require Import Handlers.
From S2P Require Import RedisGuard.
From S2P Require Import Projections.
From S2P Require Import Cache.
From S2P Require Import Service.
From S2P Require Import RateLimit.
From S2P Require Import Users.
From S2P Require Import Auth.
From S2P Require Import AuthFacts.
From S2P Require Import Web.
From stdpp Require Import base tactics list relations gmap strings.
From Stdlib Require Import ZArith Lia SpecFloat.

(** ** Requests *)
Section Requests.
Context `{SerdeOps} `{!DecimalFloat}.
Context `{!Display SqlxError, !Display SerdeError}.
Context `{!AccountRepositoryTrait} `{!ProjectionStoreTrait} `{!CacheServiceTrait}.
Context `{UsersDb} `{PasswordHashing} `{Jwt} `{AuthRedis} `{Chrono}.
Context `{!Display RedisError, !Display JwtErr, !Display Uuid}.

(** A request with what its handler draws: the time, the identifiers. *)
Inductive request : Type :=
| RqCreate (now : Z) (account_id draw tx : Uuid) (payload : CreateAccountRequest)
| RqGet (now : Z) (id : Uuid)
| RqDeposit (new_v4 : nat -> Uuid) (now : Z) (tx id : Uuid) (payload : TransactionRequest)
| RqWithdraw (new_v4 : nat -> Uuid) (now : Z) (tx id : Uuid) (payload : TransactionRequest)
| RqAll
| RqTransactions (new_v4 : nat -> Uuid) (now : Z) (account_id : Uuid)
| RqBatch (new_v4 : nat -> nat -> Uuid) (clock : nat -> Z) (tx : nat -> Uuid) (q : BatchTransactionRequest)
| RqHealth
| RqMetrics
| RqLogin (now : Z) (jti1 jti2 : string) (payload : LoginRequest)
| RqLogout (now : Z) (payload : LogoutRequest)
| RqRegister (user_id : Uuid) (salt : string) (payload : RegisterRequest).

Inductive answer : Type :=
| AnCreated (r : CreateAccountResponse)
| AnAccount (r : AccountResponse)
| AnDeposited
| AnWithdrawn
| AnAccounts (l : list AccountProjection)
| AnTransactions (l : list TransactionProjection)
| AnBatch (r : BatchTransactionResponse)
| AnHealth (status : Z)
| AnMetrics (v : Value)
| AnLogin (r : LoginResponse)
| AnLogout
| AnRegistered (u : User).

(** The handler of the endpoint. *)
Definition serve (q : request) : M AppState Rejection answer :=
  match q with
  | RqCreate now id draw tx p => let! r := Web.create_account now id draw tx p in ret (AnCreated r)
  | RqGet now id => let! r := Web.get_account now id in ret (AnAccount r)
  | RqDeposit new_v4 now tx id p => Web.deposit_money new_v4 now tx id p ;;; ret AnDeposited
  | RqWithdraw new_v4 now tx id p => Web.withdraw_money new_v4 now tx id p ;;; ret AnWithdrawn
  | RqAll => let! l := Web.get_all_accounts in ret (AnAccounts l)
  | RqTransactions new_v4 now id => let! l := Web.get_account_transactions new_v4 now id in ret (AnTransactions l)
  | RqBatch new_v4 clock tx q => let! r := batch_transactions new_v4 clock tx q in ret (AnBatch r)
  | RqHealth => ret (AnHealth health_check)
  | RqMetrics => let! v := Web.metrics in ret (AnMetrics v)
  | RqLogin now jti1 jti2 p => let! r := Web.login now jti1 jti2 p in ret (AnLogin r)
  | RqLogout now p => Web.logout now p ;;; ret AnLogout
  | RqRegister id salt p => let! u := Web.register id salt p in ret (AnRegistered u)
  end.

Fixpoint serve_all (qs : list request) (s : AppState) : list (res Rejection answer) * AppState :=
  match qs with
  | [] => ([], s)
  | q :: rest =>
      let '(r, s1) := serve q s in
      let '(rs, s2) := serve_all rest s1 in
      (r :: rs, s2)
  end.

(** The client is told that money or an account was recorded. *)
Definition reports_change (r : res Rejection answer) : bool :=
  match r with
  | Ok (AnCreated _) | Ok AnDeposited | Ok AnWithdrawn => true
  | Ok (AnBatch b) => negb (Nat.eqb (br_successful b) 0)
  | _ => false
  end.

(** ** A repository that saves nothing *)
Class ReadOnlyRepository : Type := {
  Ledger : Type;
  ledger_of : Repo -> Ledger;
  get_by_id_ledger : forall id r, ledger_of (snd (rp_get_by_id id r)) = ledger_of r;
  save_ledger : forall a es r, ledger_of (snd (rp_save a es r)) = ledger_of r;
  save_refuses : forall a es r, es <> [] -> is_ok (fst (rp_save a es r)) = false
}.

Context `{!ReadOnlyRepository}.

Definition same_ledger : relation AccountService :=
  fun s s' => ledger_of (sv_repository s') = ledger_of (sv_repository s).

#[local] Instance same_ledger_pre : PreOrder same_ledger.
Proof. split; [ done | intros ???; unfold same_ledger; congruence ]. Qed.

Lemma same_repo_ledger {E A} (m : M AccountService E A) : respects same_repo m -> respects same_ledger m.
Proof. intros Hm s. unfold same_ledger. by rewrite (Hm s). Qed.

Lemma metric_ledger {E} a b c d e f : respects same_ledger (metric (E := E) a b c d e f).
Proof. apply same_repo_ledger, metric_repo. Qed.

Lemma on_proj_ledger {A} (m : M Proj string A) : respects same_ledger (on_proj m).
Proof. apply same_repo_ledger, on_proj_repo. Qed.

Lemma on_cache_ledger {A} (m : M CacheState string A) : respects same_ledger (on_cache m).
Proof. apply same_repo_ledger, on_cache_repo. Qed.

Lemma updates_ledger new_v4 now i events :
  respects same_ledger (update_projections_from_events new_v4 now i events).
Proof. apply same_repo_ledger, update_projections_repo. Qed.

Lemma on_repo_ledger {E A} (m : M Repo E A) :
  (forall r, ledger_of (snd (m r)) = ledger_of r) -> respects same_ledger (on_repo m).
Proof. intros Hm s. unfold on_repo, zoom, same_ledger. rewrite <- (Hm (sv_repository s)). by destruct (m _). Qed.

Lemma read_ledger id : respects same_ledger (on_repo (rp_get_by_id id)).
Proof. apply on_repo_ledger, get_by_id_ledger. Qed.

Lemma write_ledger a es : respects same_ledger (on_repo (rp_save a es)).
Proof. apply on_repo_ledger, save_ledger. Qed.

#[local] Hint Resolve metric_ledger on_proj_ledger on_cache_ledger updates_ledger read_ledger write_ledger : bank.

Lemma save_counted_ledger a es : respects same_ledger (save_counted a es).
Proof. unfold save_counted. respects_tac. Qed.

Lemma refuse_ledger now id msg : respects same_ledger (refuse_duplicate now id msg).
Proof. intros s. rewrite refuse_duplicate_spec. by destruct (sv_command_cache s !! id). Qed.

#[local] Hint Resolve save_counted_ledger refuse_ledger : bank.

Lemma change_ledger new_v4 now tx id c : respects same_ledger (change_account new_v4 now tx id c).
Proof. unfold change_account. respects_tac. Qed.

#[local] Hint Resolve change_ledger : bank.

Lemma transact_ledger new_v4 now tx t : respects same_ledger (transact new_v4 now tx t).
Proof. unfold transact, Service.deposit_money, Service.withdraw_money. respects_tac. Qed.

#[local] Hint Resolve transact_ledger : bank.

Lemma batch_ledger new_v4 clock tx i ts acc : respects same_ledger (batch_loop new_v4 clock tx i ts acc).
Proof. revert i acc. induction ts as [| t ts IH]; intros i acc; simpl; respects_tac. Qed.

Lemma create_ledger now id draw tx owner b : respects same_ledger (Service.create_account now id draw tx owner b).
Proof. unfold Service.create_account. respects_tac. Qed.

(** ** No operation that saves reports success *)
Definition fails {S E A} (m : M S E A) : Prop := forall s, is_ok (fst (m s)) = false.

Lemma fails_left {S E A B} (m : M S E A) (k : A -> M S E B) : fails m -> fails (let! x := m in k x).
Proof. intros Hm s. specialize (Hm s). unfold bind. by destruct (m s) as [ [] s']. Qed.

Lemma fails_right {S E A B} (P : A -> Prop) (m : M S E A) (k : A -> M S E B) :
  (forall s a s', m s = (Ok a, s') -> P a) -> (forall a, P a -> fails (k a)) -> fails (let! x := m in k x).
Proof.
  intros HP Hk s. unfold bind. destruct (m s) as [ [a | e | | ] s1] eqn:Hm; try done. apply Hk. by eapply HP.
Qed.

Lemma fails_then {S E A B} (m : M S E A) (k : A -> M S E B) : (forall a, fails (k a)) -> fails (let! x := m in k x).
Proof. intros Hk. by apply (fails_right (fun _ => True)). Qed.

Lemma save_counted_fails a es : es <> [] -> fails (save_counted a es).
Proof.
  intros Hne s. unfold save_counted, attempt, on_repo, zoom, bind. pose proof (save_refuses a es (sv_repository s) Hne) as Hno.
  by destruct (rp_save a es (sv_repository s)) as [ [] r].
Qed.

Lemma decided_nonempty {S} tx a c (s : S) es s' :
  lift (handle_command tx a c) s = (Ok es, s') -> es <> [].
Proof.
  unfold lift. intros Hd. assert (handle_command tx a c = Ok es) as Hc by congruence.
  by destruct (handle_command_single _ _ _ _ Hc) as [e ->].
Qed.

Lemma change_fails new_v4 now tx id c : fails (change_account new_v4 now tx id c).
Proof.
  unfold change_account. apply fails_then. intros o. apply fails_then. intros a.
  apply (fails_right (fun es => es <> [])); [ intros s es s'; apply decided_nonempty |].
  intros es Hne. apply fails_then. intros a'. by apply fails_left, save_counted_fails.
Qed.

Lemma create_fails now id draw tx owner b : fails (Service.create_account now id draw tx owner b).
Proof.
  unfold Service.create_account. apply fails_then. intros [].
  apply (fails_right (fun es => es <> [])); [ intros s es s'; apply decided_nonempty |].
  intros es Hne. by apply fails_left, save_counted_fails.
Qed.

Lemma transact_fails new_v4 now tx t : fails (transact new_v4 now tx t).
Proof.
  unfold transact, Service.deposit_money, Service.withdraw_money.
  repeat case_match; [ | | by intros s ]; apply fails_then; intros _; apply change_fails.
Qed.

Lemma batch_successes new_v4 clock tx i ts acc s r s' :
  batch_loop new_v4 clock tx i ts acc s = (Ok r, s') -> br_successful r = br_successful acc.
Proof.
  revert i acc s. induction ts as [| t ts IH]; intros i acc s; simpl.
  { unfold ret. intros. by simplify_eq. }
  intros (x & s1 & Hx & Hk)%bind_ok. unfold attempt in Hx.
  pose proof (transact_fails (new_v4 i) (clock i) (tx i) t s) as Hno.
  destruct (transact _ _ _ t s) as [ [u | e | | ] s2]; simplify_eq/=. by apply IH in Hk.
Qed.

(** ** The requests *)
Definition app_ledger (s : AppState) : Ledger := ledger_of (sv_repository (app_service s)).

Definition same_app_ledger : relation AppState := fun s s' => app_ledger s' = app_ledger s.

#[local] Instance same_app_ledger_pre : PreOrder same_app_ledger.
Proof. split; [ done | intros ???; unfold same_app_ledger; congruence ]. Qed.

Lemma on_service_ledger {E A} reject (m : M AccountService AccountError A) :
  respects same_ledger m -> respects same_app_ledger (on_service (E := E) reject m).
Proof.
  intros Hm s. specialize (Hm (app_service s)). unfold on_service, on_err, zoom. by destruct (m (app_service s)).
Qed.

Lemma on_auth_ledger {A} status (m : M AuthService AuthError A) : respects same_app_ledger (on_auth status m).
Proof. intros s. unfold on_auth, on_err, zoom. by destruct (m (app_auth s)). Qed.

Lemma with_permit_ledger {A} (m : M AppState Rejection A) :
  respects same_app_ledger m -> respects same_app_ledger (with_permit m).
Proof.
  intros Hm s. unfold with_permit. destruct (app_permits s) as [| n]; [ done |].
  specialize (Hm (put_permits n s)). by destruct (m (put_permits n s)).
Qed.

#[local] Hint Resolve on_auth_ledger : bank.

Lemma serve_ledger q : respects same_app_ledger (serve q).
Proof.
  destruct q; cbn [serve]; try (apply respects_bind; [ apply _ | | intros ?; apply respects_ret; apply _ ]).
  - unfold Web.create_account. cbv zeta. apply respects_bind; [ apply _ | |].
    + intros s. by destruct (Validation.process_request _ _ _).
    + intros v. case_match; respects_tac. apply on_service_ledger, create_ledger.
  - unfold Web.get_account. respects_tac. apply on_service_ledger. unfold Service.get_account. respects_tac.
  - apply on_service_ledger. unfold Service.deposit_money. respects_tac.
  - apply on_service_ledger. unfold Service.withdraw_money. respects_tac.
  - apply on_service_ledger, on_proj_ledger.
  - apply on_service_ledger. unfold Service.get_account_transactions. respects_tac.
  - apply with_permit_ledger, on_service_ledger, batch_ledger.
  - by intros s.
  - unfold Web.metrics. respects_tac.
  - apply on_auth_ledger.
  - apply on_auth_ledger.
  - apply on_auth_ledger.
Qed.

Lemma on_service_fails {E A} reject (m : M AccountService AccountError A) :
  fails m -> fails (on_service (E := E) reject m).
Proof.
  intros Hm s. specialize (Hm (app_service s)). unfold on_service, on_err, zoom.
  by destruct (m (app_service s)) as [ [] ?].
Qed.

Lemma fails_reports (m : M AppState Rejection answer) s : fails m -> reports_change (fst (m s)) = false.
Proof. intros Hm. specialize (Hm s). by destruct (m s) as [ [] ?]. Qed.

Lemma ret_reports {A} (m : M AppState Rejection A) (f : A -> answer) s :
  (forall a, reports_change (Ok (f a)) = false) -> reports_change (fst ((let! r := m in ret (f r)) s)) = false.
Proof. intros Hf. unfold bind, ret. destruct (m s) as [ [] ?]; simpl; [ apply Hf | done.. ]. Qed.

Lemma batch_reports new_v4 clock tx q s r s' :
  batch_transactions new_v4 clock tx q s = (Ok r, s') -> br_successful r = 0%nat.
Proof.
  unfold batch_transactions, with_permit. destruct (app_permits s) as [| n]; [ done |].
  unfold on_service, on_err, zoom. destruct (batch_loop _ _ _ _ _ _ _) as [ [r0 | | | ] v] eqn:Hb;
    intros; simplify_eq/=. by apply batch_successes in Hb.
Qed.

Lemma serve_reports q s : reports_change (fst (serve q s)) = false.
Proof.
  destruct q as [ | | | | | | new_v4 clock tx q | | | | | ]; cbn [serve];
    try (by apply ret_reports); try done.
  - apply fails_reports. apply fails_left. unfold Web.create_account. cbv zeta. apply fails_then. intros v.
    case_match; [ by intros s0 |]. apply fails_left, on_service_fails, create_fails.
  - apply fails_reports, fails_left, on_service_fails, fails_then. intros _. apply change_fails.
  - apply fails_reports, fails_left, on_service_fails, fails_then. intros _. apply change_fails.
  - unfold bind. destruct (batch_transactions new_v4 clock tx q s) as [ [r | | | ] s1] eqn:Hb; try done.
    apply batch_reports in Hb. simpl. by rewrite Hb.
Qed.

Lemma serve_all_ledger qs s :
  app_ledger (snd (serve_all qs s)) = app_ledger s /\
  Forall (fun r => reports_change r = false) (fst (serve_all qs s)).
Proof.
  revert s. induction qs as [| q qs IH]; intros s; simpl; [ done |].
  pose proof (serve_ledger q s) as Hl. pose proof (serve_reports q s) as Hr. destruct (serve q s) as [r s1].
  destruct (IH s1) as [Hl1 Hr1]. destruct (serve_all qs s1) as [rs s2]. simpl in *.
  split; [ unfold same_app_ledger in Hl; congruence | by constructor ].
Qed.

End Requests.

(** ** The components over time *)

(** One operation, at the tick it happens. *)
Definition ticked {S E A} (m : nat -> M S E A) : M (nat * S) E A :=
  fun '(i, s) => let '(r, s') := m i s in (r, (Datatypes.S i, s')).

Lemma ticked_snd {S E A T} (f : S -> T) (m : nat -> M S E A) :
  (forall i s, f (snd (m i s)) = f s) -> forall c, f (snd (snd (ticked m c))) = f (snd c).
Proof. intros Hm [i s]. simpl. rewrite <- (Hm i s). by destruct (m i s). Qed.

Lemma ticked_fails {S E A} (m : nat -> M S E A) : (forall i, fails (m i)) -> fails (ticked m).
Proof. intros Hm [i s]. simpl. specialize (Hm i s). by destruct (m i s). Qed.

(** What the operations of the components draw at each tick. *)
Record Draws : Type := {
  dr_new_v4 : nat -> nat -> nat -> Uuid;
  dr_clock : nat -> nat -> nat -> Z;
  dr_channel : nat -> nat;
  dr_account : nat -> Uuid;
  dr_now : nat -> Z;
  dr_elapsed : nat -> Z;
  dr_fuel : nat -> nat
}.

Section Live.
Context `{SerdeOps} `{!DecimalFloat}.
Context `{!Display SqlxError, !Display SerdeError}.
Context `{EventsDb} `{!ProjectionsDb} `{RedisCommands} `{!Display CacheError}.
Context (d : Draws).

Definition live_store : EventStoreTrait := {|
  Store := nat * EventStore;
  st_save_events := fun id es v =>
    ticked (fun i => save_events (dr_new_v4 d i) (dr_clock d i) (dr_channel d i) (dr_now d i) id es v);
  st_get_events := fun id from => ticked (fun i => get_events (dr_elapsed d i) id from);
  st_get_current_version := fun id => ticked (fun _ => get_current_version id);
  st_get_account := fun id => ticked (fun i => EventStore.get_account (dr_account d i) (dr_elapsed d i) id);
  st_get_all_accounts := ticked (fun i => EventStore.get_all_accounts (dr_account d i) (dr_elapsed d i))
|}.

Definition live_projections : ProjectionStoreTrait :=
  let at_ i := projection_store (dr_now d i) (dr_elapsed d i) (dr_fuel d i) in
  {| Proj := nat * ProjectionStore;
     pj_get_account := fun id => ticked (fun i => @pj_get_account _ (at_ i) id);
     pj_get_all_accounts := ticked (fun i => @pj_get_all_accounts _ (at_ i));
     pj_get_account_transactions := fun id => ticked (fun i => @pj_get_account_transactions _ (at_ i) id);
     pj_upsert_accounts_batch := fun l => ticked (fun i => @pj_upsert_accounts_batch _ (at_ i) l);
     pj_insert_transactions_batch := fun l => ticked (fun i => @pj_insert_transactions_batch _ (at_ i) l) |}.

Definition live_cache : CacheServiceTrait :=
  let at_ i := cache_service (dr_now d i) in
  {| CacheState := nat * CacheService;
     ca_get_account := fun id => ticked (fun i => @ca_get_account _ (at_ i) id);
     ca_set_account := fun a ttl => ticked (fun i => @ca_set_account _ (at_ i) a ttl);
     ca_delete_account := fun id => ticked (fun i => @ca_delete_account _ (at_ i) id);
     ca_get_account_events := fun id => ticked (fun i => @ca_get_account_events _ (at_ i) id);
     ca_set_account_events := fun id es ttl => ticked (fun i => @ca_set_account_events _ (at_ i) id es ttl);
     ca_delete_account_events := fun id => ticked (fun i => @ca_delete_account_events _ (at_ i) id);
     ca_invalidate_account := fun id => ticked (fun i => @ca_invalidate_account _ (at_ i) id);
     ca_warmup_cache := fun ids => ticked (fun i => @ca_warmup_cache _ (at_ i) ids);
     ca_get_metrics := fun c => cs_metrics (snd c) |}.

(** The repository draws an identifier it then overwrites. *)
Definition live_repository (draw : Uuid) : AccountRepositoryTrait :=
  @account_repository _ _ _ _ live_store draw.

Context `{!EventsDbLaws}.

Definition repo_rows (r : @AccountRepository _ live_store) : list EventRow :=
  db_rows (es_pool (snd (repo_event_store r : nat * EventStore))).

(** The repository over the event store saves nothing. *)
Lemma real_save_rows id es v : forall s,
  db_rows (es_pool (snd (snd (@st_save_events _ live_store id es v s)))) = db_rows (es_pool (snd s)).
Proof.
  apply (ticked_snd (fun s => db_rows (es_pool s))). intros i s.
  destruct es as [| e es]; [ done |]. by apply save_events_refused.
Qed.

#[local] Instance real_repository draw : @ReadOnlyRepository _ (live_repository draw).
Proof.
  refine {| Ledger := list EventRow; ledger_of := repo_rows : @Repo _ (live_repository draw) -> _ |}.
  - intros id r. simpl. unfold repo_rows. rewrite get_by_id_store.
    apply (ticked_snd (fun s => db_rows (es_pool s))). intros i s. apply get_events_table.
  - intros a es r. simpl. unfold repo_rows, save, on_store, zoom.
    rewrite <- (real_save_rows (acc_id a) es (acc_version a) (repo_event_store r)).
    by destruct (@st_save_events _ live_store _ _ _ _).
  - intros a es r Hne. simpl. unfold save, on_store, zoom.
    pose proof (ticked_fails (fun i => save_events (dr_new_v4 d i) (dr_clock d i) (dr_channel d i) (dr_now d i)
      (acc_id a) es (acc_version a))) as Hno.
    specialize (Hno ltac:(intros i s; by apply save_events_refused) (repo_event_store r)). simpl in Hno |- *.
    by destruct (ticked _ (repo_event_store r)).
Defined.

Context `{UsersDb} `{PasswordHashing} `{Jwt} `{AuthRedis} `{Chrono}.
Context `{!Display RedisError, !Display JwtErr, !Display Uuid}.
Context (draw : Uuid).

#[local] Existing Instance live_projections.
#[local] Existing Instance live_cache.

Definition LiveApp : Type := @AppState _ (live_repository draw) live_projections live_cache _ _.

(** The rows of the events table of the running application. *)
Definition events_table (s : LiveApp) : list EventRow := repo_rows (sv_repository (app_service s)).

(** No request changes the ledger of the running application: over the event
    store, the projections and the cache of the source, whatever requests clients
    send, at whatever times and whatever the database, Redis and the random
    identifiers answer, the rows of the events table stay as they are, and no
    client is told that an account was created, money deposited or withdrawn, or a
    transaction of a batch done. *)
Theorem no_request_changes_ledger qs (s : LiveApp) :
  events_table (snd (serve_all (H2 := live_repository draw) qs s)) = events_table s /\
  Forall (fun r => reports_change r = false) (fst (serve_all (H2 := live_repository draw) qs s)).
Proof. exact (serve_all_ledger (H2 := live_repository draw) qs s). Qed.

End Live.

(** ** Witness: the components over databases and a Redis in memory *)
Module ApplicationWitness.
Import ScaleZero PlainSerde TableDb StoreWitness ProjectionsWitness CacheWitness AuthWitness.

#[export] Instance shown_cache_error : Display CacheError := fun _ => "cache".

#[export] Instance whole_units : DecimalFloat := {|
  dec_from_f64 := fun _ => Some (amt 1);
  dec_to_f64 := fun _ => None
|}.

Definition draws : Draws :=
  {| dr_new_v4 := fun i request event => N.of_nat (100 * i + 10 * request + event);
     dr_clock := fun i _ _ => Z.of_nat i; dr_channel := fun i => i; dr_account := N.of_nat;
     dr_now := Z.of_nat; dr_elapsed := fun _ => 1%Z; dr_fuel := fun _ => 5%nat |}.

Definition account_service : @AccountService _ (live_repository draws 5%N) (live_projections draws) (live_cache draws) :=
  @AccountService_new _ (live_repository draws 5%N) (live_projections draws) (live_cache draws)
    (@AccountRepository_new _ (live_store draws) ((0%nat, StoreWitness.store) : @Store _ (live_store draws)))
    ((0%nat, from_pool_with_config (∅ : @PDb _ pdb) test_config) : @Proj _ (live_projections draws))
    ((0%nat, CacheWitness.cache) : @CacheState _ (live_cache draws)).

Definition app : LiveApp draws 5%N :=
  @AppState_new _ (live_repository draws 5%N) (live_projections draws) (live_cache draws) _ _ account_service
    (middleware_with (fun _ => None) (FixedWindow.RateLimiter_new WebWitness.limits)) 2 AuthWitness.service.

(** A new account, a deposit to one the table holds, a batch, a look at it. *)
Definition day : list Application.request :=
  [RqCreate 1 10%N 11%N 12%N {| cq_owner_name := "carol"; cq_initial_balance := f64_of_u64 1 |};
   RqDeposit N.of_nat 2 13%N 1%N {| tq_amount := amt 10 |};
   RqBatch (fun _ => N.of_nat) (fun _ => 3%Z) N.of_nat
     {| bq_transactions := [{| st_account_id := 2%N; st_amount := amt 5; st_transaction_type := "withdraw" |}] |};
   RqGet 4 1%N; RqAll; RqMetrics].

Lemma no_request_changes_ledger_witness :
  events_table draws 5%N (snd (serve_all (H2 := live_repository draws 5%N) day app)) = rows /\
  map is_ok (fst (serve_all (H2 := live_repository draws 5%N) day app)) = [false; false; true; false; true; true].
Proof.
  destruct (no_request_changes_ledger draws 5%N day app) as [Hrows _].
  split; [ exact Hrows | vm_compute; reflexivity ].
Defined.

End ApplicationWitness.
