(* ===== verification/Running.v ===== *)
(** The whole program at work: the requests of [Application] together with the
    background tasks over the same event store, projections and cache, the Kafka
    event processor and its recovery, the dead-letter queue, the updater of the
    L1 cache, the warm-up and the store's own workers.

    [Running] holds each shared component once: the Kafka components see it
    through [kafka_of] and write it back through [put_kafka], so what one task
    does to a component is what the others find.  An [activity] is one request or
    one turn of a task's loop; a run is any sequence of them.  [ReadOnlyStore] is
    what the tasks need to know of the event store. *)
From S2P Require Import Prelude.
From S2P Require Import DecimalSpec.
From S2P Require Import Account.
From S2P Require Import Codec.
From S2P Require Import EventsDb.
From S2P Require Import EventStore.
From S2P Require Import EventStoreFacts.
From S2P Require Import Repository.
From S2P Require Import RedisGuard.
From S2P Require Import Projections.
From S2P Require Import Cache.
From S2P Require Import Service.
From S2P Require Import RateLimit.
From S2P Require Import Users.
From S2P Require Import Auth.
From S2P Require Import AuthFacts.
From S2P Require Import Web.
From S2P Require Import KafkaClient.
From S2P Require Import KafkaDlq.
From S2P Require Import KafkaRecovery.
From S2P Require Import KafkaProcessor.
From S2P Require Import Startup.
From S2P Require Import Application.
From stdpp Require Import base tactics list relations gmap strings.
From Stdlib Require Import ZArith Lia SpecFloat.

(** ** The tasks over a store whose table they cannot change *)
Section Tasks.
Context `{SerdeOps} `{KafkaClient} `{DateTimeText}.
Context `{!Display SqlxError, !Display SerdeError, !Display Uuid}.
Context `{!EventStoreTrait} `{!ProjectionStoreTrait} `{!CacheServiceTrait}.

Class ReadOnlyStore : Type := {
  Table : Type;
  table_of : Store -> Table;
  save_events_table : forall id es v s, table_of (snd (st_save_events id es v s)) = table_of s;
  get_events_same : forall id from s, table_of (snd (st_get_events id from s)) = table_of s;
  get_account_same : forall id s, table_of (snd (st_get_account id s)) = table_of s;
  get_all_accounts_same : forall s, table_of (snd (st_get_all_accounts s)) = table_of s
}.

Context `{!ReadOnlyStore}.

Definition same_table : relation World := fun w w' => table_of (w_store w') = table_of (w_store w).

#[local] Instance same_table_pre : PreOrder same_table.
Proof. split; [ done | intros ???; unfold same_table; congruence ]. Qed.

Lemma on_cluster_table {A} (m : M Cluster BankingKafkaError A) : respects same_table (on_cluster m).
Proof. intros w. unfold on_cluster, on_err, zoom. by destruct (m (w_cluster w)). Qed.

Lemma on_cache_service_table {A} (m : M CacheState string A) : respects same_table (on_cache_service m).
Proof. intros w. unfold on_cache_service, zoom. by destruct (m (w_cache w)). Qed.

Lemma on_projections_table {A} (m : M Proj string A) : respects same_table (on_projections m).
Proof. intros w. unfold on_projections, zoom. by destruct (m (w_projections w)). Qed.

Lemma count_table {E} c n : respects same_table (count (E := E) c n).
Proof. done. Qed.

Lemma sleep_table {E} d : respects same_table (sleep (E := E) d).
Proof. done. Qed.

Lemma set_recovery_table {E} f : respects same_table (set_recovery (E := E) f).
Proof. done. Qed.

Lemma on_event_store_table {A} (m : M Store EventStoreError A) :
  (forall s, table_of (snd (m s)) = table_of s) -> respects same_table (on_event_store m).
Proof.
  intros Hm w. unfold on_event_store, on_err, zoom, same_table. rewrite <- (Hm (w_store w)).
  by destruct (m (w_store w)).
Qed.

Lemma store_save_table id es v : respects same_table (on_event_store (st_save_events id es v)).
Proof. apply on_event_store_table. intros s. apply save_events_table. Qed.

Lemma store_events_table id from : respects same_table (on_event_store (st_get_events id from)).
Proof. apply on_event_store_table. intros s. apply get_events_same. Qed.

Lemma store_account_table id : respects same_table (on_event_store (st_get_account id)).
Proof. apply on_event_store_table. intros s. apply get_account_same. Qed.

Lemma store_accounts_table : respects same_table (on_event_store st_get_all_accounts).
Proof. apply on_event_store_table. intros s. apply get_all_accounts_same. Qed.

#[local] Hint Resolve on_cluster_table on_cache_service_table on_projections_table count_table sleep_table
  set_recovery_table store_save_table store_events_table store_account_table store_accounts_table : bank.

Lemma process_batch_table elapsed k b : respects same_table (process_batch elapsed k b).
Proof. unfold process_batch. respects_tac. Qed.

Lemma retry_table now q msg : respects same_table (retry_message now q msg).
Proof. unfold retry_message. respects_tac. Qed.

Lemma trait_dlq_table now q : respects same_table (trait_process_dlq now q).
Proof. unfold trait_process_dlq, retry_message. respects_tac. Qed.

Lemma dlq_turn_table now q : respects same_table (dlq_turn now q).
Proof. unfold dlq_turn, retry_message. respects_tac. Qed.

Lemma process_dlq_table fuel clock q : respects same_table (process_dlq fuel clock q).
Proof.
  induction fuel as [| fuel IH]; simpl; [ by intros w |]. apply respects_bind; [ apply _ | apply dlq_turn_table | done ].
Qed.

Lemma resend_table sent_at p id evs : respects same_table (resend sent_at p id evs).
Proof. induction evs as [| ev evs IH]; simpl; respects_tac. Qed.

Lemma cache_loop_table tries n r a : respects same_table (cache_update_loop tries n r a).
Proof. revert n. induction tries as [| tries IH]; intros n; simpl; unfold update_account_cache; respects_tac. Qed.

#[local] Hint Resolve process_batch_table resend_table cache_loop_table : bank.

Lemma recover_account_table now sent_at r p : respects same_table (recover_account now sent_at r p).
Proof.
  unfold recover_account, verify_account_events, replay_account_events, update_account_cache,
    handle_inconsistent_account, handle_replay_failure, handle_cache_update_failure, send_to_dlq. respects_tac.
Qed.

#[local] Hint Resolve recover_account_table : bank.

Lemma recover_accounts_table now sent_at r ps : respects same_table (recover_accounts now sent_at r ps).
Proof. induction ps as [| p ps IH]; simpl; respects_tac. Qed.

#[local] Hint Resolve recover_accounts_table : bank.

Lemma recovery_table now sent_at r : respects same_table (trait_start_recovery now sent_at r).
Proof. unfold trait_start_recovery, perform_recovery. respects_tac. Qed.

#[local] Hint Resolve recovery_table : bank.

Lemma processing_turn_table now sent_at waited elapsed k :
  respects same_table (processing_turn now sent_at waited elapsed k).
Proof. unfold processing_turn, trait_send_to_dlq. respects_tac. Qed.

Lemma update_turn_table u : respects same_table (update_turn u).
Proof. unfold update_turn. respects_tac. Qed.

Lemma for_accounts_table body accounts :
  (forall a, respects same_table (body a)) -> respects same_table (for_accounts body accounts).
Proof.
  intros Hb. induction accounts as [| a accounts IH]; simpl; [ respects_tac |].
  apply respects_bind; [ apply _ | apply Hb | done ].
Qed.

Lemma over_accounts_table o body :
  (forall a, respects same_table (body a)) -> respects same_table (over_accounts o body).
Proof.
  intros Hb. unfold over_accounts, accounts_for. apply respects_bind; [ apply _ | respects_tac |].
  intros accounts. by apply for_accounts_table.
Qed.

Lemma selective_table sent_at p id v batch evs : respects same_table (selective_loop sent_at p id v batch evs).
Proof. revert v batch. induction evs as [| ev evs IH]; intros v batch; simpl; respects_tac. Qed.

Lemma strategy_table fuel clock sent_at k strategy o :
  respects same_table (execute_recovery_strategy fuel clock sent_at k strategy o).
Proof.
  unfold execute_recovery_strategy. destruct strategy; simpl; try apply process_dlq_table;
    apply over_accounts_table; intros a; unfold get_last_processed_version; respects_tac. apply selective_table.
Qed.

End Tasks.

(** ** The running program *)
Section Running.
Context `{SerdeOps} `{!DecimalFloat}.
Context `{!Display SqlxError, !Display SerdeError}.
Context `{EventsDb} `{!ProjectionsDb} `{RedisCommands} `{!Display CacheError}.
Context `{UsersDb} `{PasswordHashing} `{Jwt} `{AuthRedis} `{Chrono} `{DateTimeText} `{!KafkaClient}.
Context `{!Display RedisError, !Display JwtErr, !Display Uuid}.
Context (d : Draws) (draw : Uuid).

#[local] Instance run_store : EventStoreTrait := live_store d.
#[local] Instance run_projections : ProjectionStoreTrait := live_projections d.
#[local] Instance run_cache : CacheServiceTrait := live_cache d.
#[local] Instance run_repository : AccountRepositoryTrait := live_repository d draw.

Record Running : Type := {
  rn_app : AppState;
  rn_cluster : Cluster;
  rn_kafka_metrics : KafkaMetrics;
  rn_slept : list Z;
  rn_recovery : RecoveryState
}.

Definition shared_store (a : AppState) : nat * EventStore := repo_event_store (sv_repository (app_service a)).

(** The event store, the projections and the cache of the account service. *)
Definition put_shared_parts (s : nat * EventStore) (p : Proj) (c : CacheState) (a : AppState) : AppState :=
  put_service (Service.put_cache c (Service.put_proj p
    (Service.put_repo (Repository.put_store (s : @Store _ (live_store d)) (sv_repository (app_service a)))
      (app_service a)))) a.

(** The world of the Kafka components. *)
Definition kafka_of (r : Running) : World :=
  {| w_cluster := rn_cluster r; w_metrics := rn_kafka_metrics r; w_slept := rn_slept r;
     w_store := shared_store (rn_app r); w_projections := sv_projections (app_service (rn_app r));
     w_cache := sv_cache_service (app_service (rn_app r)); w_recovery := rn_recovery r |}.

Definition put_kafka (w : World) (r : Running) : Running :=
  {| rn_app := put_shared_parts (w_store w) (w_projections w) (w_cache w) (rn_app r);
     rn_cluster := w_cluster w; rn_kafka_metrics := w_metrics w; rn_slept := w_slept w;
     rn_recovery := w_recovery w |}.

(** A task of the event store alone. *)
Definition on_shared_store {A} (m : M EventStore SnapshotError A) : M Running SnapshotError A :=
  zoom (fun r => snd (shared_store (rn_app r)))
    (fun s r => put_kafka (KafkaDlq.put_store ((fst (shared_store (rn_app r)), s) : @Store _ (live_store d))
                             (kafka_of r)) r) m.

Inductive activity : Type :=
| Request (q : request)
| ProcessEvents (now : Z) (sent_at : Uuid -> Z -> Z) (waited elapsed : Z) (k : KafkaEventProcessor)
| RetryLetters (now : Z) (q : DeadLetterQueue)
| Recover (fuel : nat) (clock : nat -> Z) (sent_at : Uuid -> Z -> Z) (k : KafkaEventProcessor)
    (strategy : RecoveryStrategy) (account_id : option Uuid)
| UpdateL1 (u : L1CacheUpdater)
| WarmUp
| TakeSnapshots (new_v4 : Uuid) (now : Z).

(** The warm-up task on the shared store and cache. *)
Definition warm_up : M World string unit :=
  zoom (fun w => (w_store w, w_cache w))
    (fun sc w => put_cache_state (snd sc) (KafkaDlq.put_store (fst sc) w)) warmup_task.

Definition in_background {A} (m : M World string A) (r : Running) : Running :=
  put_kafka (snd (m (kafka_of r))) r.

(** One activity: the answer of a request, if it is one. *)
Definition act (a : activity) (r : Running) : option (res Rejection answer) * Running :=
  match a with
  | Request q =>
      let '(o, s) := serve q (rn_app r) in
      (Some o, {| rn_app := s; rn_cluster := rn_cluster r; rn_kafka_metrics := rn_kafka_metrics r;
                  rn_slept := rn_slept r; rn_recovery := rn_recovery r |})
  | ProcessEvents now sent_at waited elapsed k =>
      (None, in_background (processing_turn now sent_at waited elapsed k) r)
  | RetryLetters now q => (None, in_background (trait_process_dlq now q) r)
  | Recover fuel clock sent_at k strategy o =>
      (None, in_background (execute_recovery_strategy fuel clock sent_at k strategy o) r)
  | UpdateL1 u => (None, in_background (update_turn u) r)
  | WarmUp => (None, in_background warm_up r)
  | TakeSnapshots new_v4 now => (None, snd (on_shared_store (snapshot_pass new_v4 now) r))
  end.

Fixpoint run (acts : list activity) (r : Running) : list (res Rejection answer) * Running :=
  match acts with
  | [] => ([], r)
  | a :: rest =>
      let '(o, r1) := act a r in
      let '(os, r2) := run rest r1 in
      (match o with Some x => x :: os | None => os end, r2)
  end.

(** ** The event store leaves its table alone *)
Context `{!EventsDbLaws}.

Definition same_events : relation EventStore := fun s s' => db_rows (es_pool s') = db_rows (es_pool s).

#[local] Instance same_events_pre : PreOrder same_events.
Proof. split; [ done | intros ???; unfold same_events; congruence ]. Qed.

Lemma statement_events {A} (m : M Db SqlxError A) :
  (forall x, db_rows (snd (m x)) = db_rows x) -> respects same_events (zoom es_pool put_pool m).
Proof.
  intros Hm s. unfold zoom, same_events. rewrite <- (Hm (es_pool s)). by destruct (m (es_pool s)).
Qed.

Lemma get_events_events elapsed id from : respects same_events (get_events elapsed id from).
Proof. intros s. apply get_events_table. Qed.

#[local] Hint Resolve get_events_events : bank.

Lemma get_account_events_same new_v4 elapsed id : respects same_events (EventStore.get_account new_v4 elapsed id).
Proof. unfold EventStore.get_account. respects_tac. Qed.

#[local] Hint Resolve get_account_events_same : bank.

Lemma get_accounts_events new_v4 elapsed ids : respects same_events (get_accounts new_v4 elapsed ids).
Proof. induction ids as [| id ids IH]; simpl; respects_tac. Qed.

Lemma get_all_events new_v4 elapsed : respects same_events (EventStore.get_all_accounts new_v4 elapsed).
Proof.
  unfold EventStore.get_all_accounts. apply respects_bind; [ apply _ | | intros ids; apply get_accounts_events ].
  apply respects_on_err, statement_events, db_select_aggregates_db.
Qed.

Lemma create_snapshot_events new_v4 now id : respects same_events (create_snapshot new_v4 now id).
Proof.
  unfold create_snapshot. apply respects_bind; [ apply _ | |].
  { apply respects_on_err, statement_events. intros x. apply db_select_all_events_db. }
  intros rows. case_match; [ by respects_tac |]. respects_tac; [| done ]. apply statement_events. intros x. apply db_upsert_snapshot_db.
Qed.

#[local] Hint Resolve create_snapshot_events : bank.

Lemma snapshot_tasks_events new_v4 now cs : respects same_events (snapshot_tasks new_v4 now cs).
Proof. induction cs as [| c cs IH]; simpl; respects_tac. Qed.

Lemma snapshot_pass_events new_v4 now : respects same_events (snapshot_pass new_v4 now).
Proof.
  unfold snapshot_pass. apply respects_bind; [ apply _ | respects_tac | intros config ].
  apply respects_bind; [ apply _ | | intros [ e | cs ]; [ respects_tac | apply snapshot_tasks_events ] ].
  apply respects_attempt, statement_events. intros x. apply db_select_candidates_db.
Qed.

#[local] Instance real_store : ReadOnlyStore.
Proof.
  refine {| Table := list EventRow;
            table_of := (fun s => db_rows (es_pool (snd (s : nat * EventStore)))) : @Store _ (live_store d) -> _ |}.
  - intros id es v s. apply real_save_rows.
  - intros id from s. apply (ticked_snd (fun s => db_rows (es_pool s))). intros i s0. apply get_events_table.
  - intros id s. apply (ticked_snd (fun s => db_rows (es_pool s))). intros i s0. apply get_account_events_same.
  - intros s. apply (ticked_snd (fun s => db_rows (es_pool s))). intros i s0. apply get_all_events.
Defined.

(** ** Every activity leaves the table alone *)
Definition running_table (r : Running) : list EventRow := db_rows (es_pool (snd (shared_store (rn_app r)))).

Lemma background_table {A} (m : M World string A) r :
  respects same_table m -> running_table (in_background m r) = running_table r.
Proof. intros Hm. exact (Hm (kafka_of r)). Qed.

Lemma warm_up_table : respects same_table warm_up.
Proof.
  intros w. unfold warm_up, same_table, zoom at 1, warmup_task, bind, attempt, zoom.
  pose proof (get_all_accounts_same (w_store w)) as Ha. simpl in *.
  destruct (ticked _ (w_store w)) as [ [accounts | e | | ] s1]; simpl in *; try done.
  by destruct (ticked _ (w_cache w)) as [ [ [] | e | | ] c1].
Qed.

Lemma snapshots_table new_v4 now r :
  running_table (snd (on_shared_store (snapshot_pass new_v4 now) r)) = running_table r.
Proof.
  unfold on_shared_store, zoom. pose proof (snapshot_pass_events new_v4 now (snd (shared_store (rn_app r)))) as Hp.
  by destruct (snapshot_pass new_v4 now (snd (shared_store (rn_app r)))).
Qed.

Lemma act_table a r : running_table (snd (act a r)) = running_table r.
Proof.
  destruct a as [ q | now sent_at waited elapsed k | now q | fuel clock sent_at k strategy o | u | | new_v4 now ]; simpl.
  - pose proof (serve_ledger (H2 := run_repository) (H10 := real_repository d draw) q (rn_app r)) as Hq.
    unfold running_table. destruct (serve q (rn_app r)) as [o s]. exact Hq.
  - apply background_table, processing_turn_table.
  - apply background_table, trait_dlq_table.
  - apply background_table, strategy_table.
  - apply background_table, update_turn_table.
  - apply background_table, warm_up_table.
  - apply snapshots_table.
Qed.

Lemma act_reports a r o : fst (act a r) = Some o -> reports_change o = false.
Proof.
  destruct a as [ q | | | | | | ]; simpl; try done.
  pose proof (serve_reports (H2 := run_repository) (H10 := real_repository d draw) q (rn_app r)) as Hq.
  destruct (serve q (rn_app r)) as [o' s]. simpl in *. by intros [= <-].
Qed.

Lemma run_ledger acts r :
  running_table (snd (run acts r)) = running_table r /\
  Forall (fun o => reports_change o = false) (fst (run acts r)).
Proof.
  revert r. induction acts as [| a acts IH]; intros r; simpl; [ done |].
  pose proof (act_table a r) as Ht. pose proof (act_reports a r) as Hr. destruct (act a r) as [o r1]. simpl in *.
  destruct (IH r1) as [Ht1 Hr1]. destruct (run acts r1) as [os r2]. simpl in *.
  split; [ congruence |]. destruct o as [ o |]; [| done ]. constructor; [ by apply Hr | done ].
Qed.

(** C3. Nothing the program does changes the ledger: in any run of requests and
    background tasks over the event store, projections, cache and Kafka client
    of the source, whatever the database, Redis, the brokers and the random
    identifiers answer, the rows of the events table stay as they are, and no
    client is told that an account was created, money deposited or withdrawn, or
    a transaction of a batch done. *)
Theorem no_activity_changes_ledger acts r :
  running_table (snd (run acts r)) = running_table r /\
  Forall (fun o => reports_change o = false) (fst (run acts r)).
Proof. apply run_ledger. Qed.

End Running.

(** ** Witness: a day of requests with the tasks at work *)
Module RunningWitness.
Import ScaleZero PlainSerde TableDb KafkaWitness StoreWitness ProjectionsWitness CacheWitness AuthWitness ApplicationWitness.

Definition world : Running draws 5%N :=
  {| rn_app := app : @AppState _ (run_repository draws 5%N) (run_projections draws) (run_cache draws) _ _;
     rn_cluster := cluster []; rn_kafka_metrics := KafkaMetrics_default; rn_slept := [];
     rn_recovery := RecoveryState_default |}.

Definition queue : DeadLetterQueue := DeadLetterQueue_new producer consumer 3 1000.

Definition processor : KafkaEventProcessor :=
  {| ke_producer := producer; ke_consumer := consumer; ke_dlq := queue;
     ke_recovery := KafkaRecovery_new producer consumer queue;
     ke_recovery_strategies := RecoveryStrategies_new producer consumer queue |}.

Definition busy_day : list activity :=
  WarmUp :: map Request day ++
  [Recover 5 Z.of_nat (fun _ v => v) processor FullReplay (Some 1%N); ProcessEvents 7 (fun _ v => v) 1 1 processor;
   RetryLetters 8 queue; TakeSnapshots 9%N 9; UpdateL1 {| l1_consumer := consumer |};
   Request (RqDeposit N.of_nat 10 14%N 1%N {| tq_amount := amt 10 |})].

Lemma no_activity_changes_ledger_witness :
  running_table draws 5%N (snd (run draws 5%N busy_day world)) = rows /\
  map is_ok (fst (run draws 5%N busy_day world)) = [false; false; true; false; true; true; false].
Proof.
  destruct (no_activity_changes_ledger draws 5%N busy_day world) as [Hrows _].
  split; [ exact Hrows | vm_compute; reflexivity ].
Defined.

End RunningWitness.
