(* ===== verification/Boot.v ===== *)
(** The whole start-up (src/src/infrastructure/init.rs, [init_all_services]) with
    the pools it opens ([EventStore::new_with_config] of event_store.rs and
    [ProjectionStore::new_with_config] of projections.rs).

    [Process] is the state start-up works on: the network, the two static cells
    the pools are kept in, the Kafka cluster.  [Outside] is what the sqlx and
    redis crates do: opening a pool with its options, opening a client.  The
    settings are those of [Startup], the components those of [Application], and
    [launch] is where the runs of [Running] begin. *)
From S2P Require Import Prelude.
From S2P Require Import DecimalSpec.
From S2P Require Import Account.
From S2P Require Import Codec.
From S2P Require Import EventsDb.
From S2P Require Import EventStore.
From S2P Require Import EventStoreFacts.
From S2P Require Import Repository.
From S2P Require Import RedisGuard.
From S2P Require Import Projections.
From S2P Require Import Cache.
From S2P Require Import Service.
From S2P Require Import RateLimit.
From S2P Require Import Users.
From S2P Require Import Auth.
From S2P Require Import AuthFacts.
From S2P Require Import Web.
From S2P Require Import KafkaClient.
From S2P Require Import KafkaDlq.
From S2P Require Import KafkaProcessor.
From S2P Require Import Scaling.
From S2P Require Import Startup.
From S2P Require Import Application.
From S2P Require Import Running.
From stdpp Require Import base tactics list gmap strings.
From Stdlib Require Import ZArith Lia SpecFloat.

(** [OnceCell::get_or_try_init]: a failed initialisation leaves the cell empty. *)
Definition get_or_try_init {S E A} (get : S -> option A) (put : A -> S -> S) (init : M S E A) : M S E A :=
  let! o := gets get in
  match o with
  | Some a => ret a
  | None => let! a := init in modify (put a) ;;; ret a
  end.

(** [PgPoolOptions] with the statements of [after_connect]; durations in seconds. *)
Record PoolOptions : Type := {
  po_max_connections : Z;
  po_min_connections : Z;
  po_acquire_timeout : Z;
  po_idle_timeout : Z;
  po_max_lifetime : Z;
  po_after_connect : list string
}.

Definition session_settings : list string :=
  ["SET SESSION synchronous_commit = 'off'"; "SET SESSION work_mem = '32MB'";
   "SET SESSION maintenance_work_mem = '128MB'"; "SET SESSION effective_cache_size = '2GB'";
   "SET SESSION random_page_cost = 1.1"; "SET SESSION statement_timeout = '5s'"].

Class Outside `{DecimalOps} `{EventsDb} `{!ProjectionsDb} `{UsersDb} `{RedisCommands} `{AuthRedis} : Type := {
  Net : Type;
  (** [PgPoolOptions::connect] *)
  pg_connect : PoolOptions -> string -> M Net SqlxError Db;
  pg_connect_projections : PoolOptions -> string -> M Net SqlxError PDb;
  (** the users table of a pool *)
  pg_users : Db -> UDb;
  (** [redis::Client::open]: the client of the authentication and the one behind
      [RedisClientTrait] *)
  redis_open : string -> res RedisError (ARedis * Redis)
}.

Section Boot.
Context `{SerdeOps} `{!DecimalFloat}.
Context `{EventsDb} `{!ProjectionsDb} `{RedisCommands} `{!Display CacheError}.
Context `{UsersDb} `{PasswordHashing} `{Jwt} `{AuthRedis} `{Chrono} `{DateTimeText} `{!KafkaClient}.
Context `{!Outside}.
Context `{!Display SqlxError, !Display SerdeError, !Display RedisError, !Display JwtErr, !Display Uuid}.
Context (env : string -> option string).

Record Process : Type := {
  p_net : Net;
  p_db_pool : option Db;
  p_projection_pool : option PDb;
  p_cluster : Cluster
}.

Definition put_net (n : Net) (p : Process) : Process :=
  {| p_net := n; p_db_pool := p_db_pool p; p_projection_pool := p_projection_pool p; p_cluster := p_cluster p |}.

Definition put_db_pool (d : Db) (p : Process) : Process :=
  {| p_net := p_net p; p_db_pool := Some d; p_projection_pool := p_projection_pool p; p_cluster := p_cluster p |}.

Definition put_projection_pool (d : PDb) (p : Process) : Process :=
  {| p_net := p_net p; p_db_pool := p_db_pool p; p_projection_pool := Some d; p_cluster := p_cluster p |}.

Definition set_cluster (c : Cluster) (p : Process) : Process :=
  {| p_net := p_net p; p_db_pool := p_db_pool p; p_projection_pool := p_projection_pool p; p_cluster := c |}.

(** ** The event store's pool *)
Definition store_options (config : EventStoreConfig) : PoolOptions :=
  {| po_max_connections := cfg_max_connections config; po_min_connections := cfg_min_connections config;
     po_acquire_timeout := cfg_acquire_timeout_secs config; po_idle_timeout := cfg_idle_timeout_secs config;
     po_max_lifetime := cfg_max_lifetime_secs config; po_after_connect := session_settings |}.

(** [EventStore::new]. *)
Definition EventStore_new (pool : Db) : EventStore :=
  new_with_config_and_pool pool (EventStoreConfig_default (env "DATABASE_URL")).

(** [EventStore::new_with_config]. *)
Definition new_with_config (config : EventStoreConfig) : M Process EventStoreError EventStore :=
  let! pool := get_or_try_init p_db_pool put_db_pool
    (on_err DatabaseError (zoom p_net put_net (pg_connect (store_options config) (cfg_database_url config)))) in
  ret (new_with_config_and_pool pool config).

(** [EventStore::new_with_pool_size_and_url]. *)
Definition new_with_pool_size_and_url (pool_size : Z) (database_url : string) :
    M Process EventStoreError EventStore :=
  let config := EventStoreConfig_default (env "DATABASE_URL") in
  new_with_config
    {| cfg_database_url := database_url; cfg_max_connections := pool_size;
       cfg_min_connections := cfg_min_connections config;
       cfg_acquire_timeout_secs := cfg_acquire_timeout_secs config;
       cfg_idle_timeout_secs := cfg_idle_timeout_secs config; cfg_max_lifetime_secs := cfg_max_lifetime_secs config;
       cfg_batch_size := cfg_batch_size config; cfg_batch_timeout_ms := cfg_batch_timeout_ms config;
       cfg_max_batch_queue_size := cfg_max_batch_queue_size config;
       cfg_batch_processor_count := cfg_batch_processor_count config;
       cfg_snapshot_threshold := cfg_snapshot_threshold config;
       cfg_snapshot_interval_secs := cfg_snapshot_interval_secs config;
       cfg_snapshot_cache_ttl_secs := cfg_snapshot_cache_ttl_secs config;
       cfg_max_snapshots_per_run := cfg_max_snapshots_per_run config |}.

(** [EventStore::new_with_pool_size], with [VarError::NotPresent]'s text. *)
Definition new_with_pool_size (pool_size : Z) : M Process EventStoreError EventStore :=
  let! database_url := lift (ok_or (EventStore.InternalError "DATABASE_URL not set: environment variable not found")
                               (env "DATABASE_URL")) in
  new_with_pool_size_and_url pool_size database_url.

(** ** The projections' pool *)
Definition projection_options (config : ProjectionConfig) : PoolOptions :=
  {| po_max_connections := pc_max_connections config; po_min_connections := pc_min_connections config;
     po_acquire_timeout := pc_acquire_timeout_secs config; po_idle_timeout := pc_idle_timeout_secs config;
     po_max_lifetime := pc_max_lifetime_secs config; po_after_connect := session_settings |}.

(** [ProjectionStore::new_with_config]. *)
Definition projections_new_with_config (config : ProjectionConfig) : M Process string ProjectionStore :=
  let! pool := get_or_try_init p_projection_pool put_projection_pool
    (let! database_url := lift (ok_or "DATABASE_URL environment variable is required" (env "DATABASE_URL")) in
     on_err to_string (zoom p_net put_net (pg_connect_projections (projection_options config) database_url))) in
  ret (from_pool_with_config pool config).

(** ** [init_all_services] *)
Context (d : Draws) (draw : Uuid).

#[local] Instance boot_store : EventStoreTrait := live_store d.
#[local] Instance boot_projections : ProjectionStoreTrait := live_projections d.
#[local] Instance boot_cache : CacheServiceTrait := live_cache d.
#[local] Instance boot_repository : AccountRepositoryTrait := live_repository d draw.

Record Services : Type := {
  sx_app : AppState;
  sx_scaling_manager : ScalingManager;
  sx_kafka_processor : KafkaEventProcessor;
  sx_l1_cache_updater : L1CacheUpdater;
  sx_context : ServiceContext
}.

(** The world of the Kafka components: the cluster and the shared services. *)
Definition kafka_world (store : EventStore) (projections : ProjectionStore) (cache : CacheService) (p : Process) :
    World :=
  {| w_cluster := p_cluster p; w_metrics := KafkaMetrics_default; w_slept := [];
     w_store := (0%nat, store) : @Store _ (live_store d);
     w_projections := (0%nat, projections) : @Proj _ (live_projections d);
     w_cache := (0%nat, cache) : @CacheState _ (live_cache d); w_recovery := RecoveryState_default |}.

Definition on_kafka {A} (store : EventStore) (projections : ProjectionStore) (cache : CacheService)
    (m : M World string A) : M Process string A :=
  zoom (kafka_world store projections cache) (fun w p => set_cluster (w_cluster w) p) m.

(** A task just spawned, behind its [Arc]. *)
Definition spawned : TaskHandle := {| th_refs := 1; th_result := None |}.

Definition init_all_services (now : Z) (parse_str : string -> option Uuid) : M Process string Services :=
  let! clients := lift (map_err to_string (redis_open "redis://127.0.0.1/")) in
  let! event_store := on_err to_string (new_with_pool_size 5) in
  let user_repository := pg_users (es_pool event_store) in
  let auth_service := AuthService_new (fst clients) (auth_config env) user_repository in
  let! projection_store := projections_new_with_config (projection_config env) in
  let cache_service := CacheService_new (snd clients) (cache_config env) in
  let account_repository := AccountRepository_new ((0%nat, event_store) : @Store _ (live_store d)) in
  let middleware := init_middleware env parse_str in
  let scaling_manager := ScalingManager_new now (snd clients) (scaling_config env) in
  let account_service :=
    AccountService_new (account_repository : @Repo _ (live_repository d draw))
      ((0%nat, projection_store) : @Proj _ (live_projections d))
      ((0%nat, cache_service) : @CacheState _ (live_cache d)) in
  let warmup_handle := spawned in
  let! l1_cache_updater :=
    on_kafka event_store projection_store cache_service (L1CacheUpdater_new (kafka_config env)) in
  let! kafka_processor :=
    on_kafka event_store projection_store cache_service (KafkaEventProcessor_new (kafka_config env)) in
  let l1_handle := spawned in
  ret {| sx_app := AppState_new account_service middleware 100 auth_service;
         sx_scaling_manager := scaling_manager; sx_kafka_processor := kafka_processor;
         sx_l1_cache_updater := l1_cache_updater;
         sx_context := {| sx_warmup_handle := warmup_handle; sx_l1_handle := l1_handle |} |}.

(** The program once started. *)
Definition launch (sv : Services) (p : Process) : Running d draw :=
  {| rn_app := (sx_app sv : @AppState _ (run_repository d draw) (run_projections d) (run_cache d) _ _);
     rn_cluster := p_cluster p; rn_kafka_metrics := KafkaMetrics_default; rn_slept := [];
     rn_recovery := RecoveryState_default |}.

(** ** The pools *)
Lemma get_or_try_init_ok {S E A} (get : S -> option A) put (init : M S E A) s a s' :
  (forall x s, get (put x s) = Some x) -> get_or_try_init get put init s = (Ok a, s') -> get s' = Some a.
Proof.
  intros Hput (o & s1 & Ho & Hk)%bind_ok. unfold gets in Ho. simplify_eq.
  destruct (get s1) as [b |] eqn:Hb; [ unfold ret in Hk; by simplify_eq |].
  apply bind_ok in Hk as (b & s2 & _ & Hk). apply bind_ok in Hk as ( [] & s3 & Hm & Hk).
  unfold modify, ret in *. by simplify_eq.
Qed.

Lemma get_or_try_init_again {S E A} (get : S -> option A) put (init : M S E A) s a :
  get s = Some a -> get_or_try_init get put init s = (Ok a, s).
Proof. intros Hg. unfold get_or_try_init, bind, gets, ret. by rewrite Hg. Qed.

Lemma get_or_try_init_fresh {S E A} (get : S -> option A) put (init : M S E A) s a s' :
  get s = None -> get_or_try_init get put init s = (Ok a, s') -> exists s1, init s = (Ok a, s1) /\ s' = put a s1.
Proof.
  intros Hg (o & s1 & Ho & Hk)%bind_ok. unfold gets in Ho. simplify_eq. rewrite Hg in Hk.
  apply bind_ok in Hk as (b & s2 & Hi & Hk). apply bind_ok in Hk as ( [] & s3 & Hm & Hk).
  unfold modify, ret in *. simplify_eq. eauto.
Qed.

Lemma get_or_try_init_failed {S E A} (get : S -> option A) put (init : M S E A) s :
  (forall s, get (snd (init s)) = get s) -> is_ok (fst (get_or_try_init get put init s)) = false ->
  get s = None /\ get (snd (get_or_try_init get put init s)) = None.
Proof.
  intros Hi. unfold get_or_try_init, bind, gets, modify, ret. specialize (Hi s).
  destruct (get s) as [a |] eqn:Hg; [ done |]. by destruct (init s) as [ [] s1].
Qed.

(** The pool is opened once: the first store of the process that connects
    settles the pool, and every later one, whatever its configuration says, is
    over that pool, opens no connection and keeps its own configuration; a
    failure to connect leaves nothing behind, so that a later store may connect. *)
Theorem pool_opened_once c1 c2 p :
  match new_with_config c1 p with
  | (Ok s1, p1) => p_db_pool p1 = Some (es_pool s1) /\
                   new_with_config c2 p1 = (Ok (new_with_config_and_pool (es_pool s1) c2), p1)
  | (_, p1) => p_db_pool p = None /\ p_db_pool p1 = None
  end.
Proof.
  destruct (new_with_config c1 p) as [r p1] eqn:Hc. destruct (is_ok r) eqn:Hr.
  - destruct r as [s1 | | | ]; try done. apply bind_ok in Hc as (pool & p2 & Hg & Hk). unfold ret in Hk. simplify_eq.
    apply get_or_try_init_ok in Hg; [| done ]. split; [ done |].
    unfold new_with_config. rewrite (bind_step _ _ _ _ _ (get_or_try_init_again _ _ _ _ _ Hg)). done.
  - assert (p_db_pool p = None /\ p_db_pool p1 = None) as Hnone; [| by destruct r ].
    set (init := on_err DatabaseError (zoom p_net put_net (pg_connect (store_options c1) (cfg_database_url c1)))).
    destruct (get_or_try_init_failed p_db_pool put_db_pool init p) as [Hp Hp1].
    + intros q. unfold init, on_err, zoom. by destruct (pg_connect _ _ _).
    + unfold new_with_config, bind, ret in Hc. fold init in Hc.
      destruct (get_or_try_init p_db_pool put_db_pool init p) as [ [] q]; by simplify_eq/=.
    + unfold new_with_config, bind, ret in Hc. fold init in Hc.
      destruct (get_or_try_init p_db_pool put_db_pool init p) as [ [] q]; simplify_eq/=; by split.
Qed.

(** ** What is started *)
Lemma on_kafka_pools {A} store projections cache (m : M World string A) p r p' :
  on_kafka store projections cache m p = (r, p') ->
  p_db_pool p' = p_db_pool p /\ p_projection_pool p' = p_projection_pool p.
Proof. unfold on_kafka, zoom. destruct (m _). by intros; simplify_eq. Qed.

Lemma new_with_pool_size_ok n p s p' :
  p_db_pool p = None -> new_with_pool_size n p = (Ok s, p') ->
  exists url pool net config, env "DATABASE_URL" = Some url /\
    s = new_with_config_and_pool pool config /\
    cfg_database_url config = url /\ cfg_max_connections config = n /\
    pg_connect (store_options config) url (p_net p) = (Ok pool, net) /\
    p' = put_db_pool pool (put_net net p).
Proof.
  intros Hnone (url & p1 & Hu & Hk)%bind_ok. unfold lift in Hu. simplify_eq.
  destruct (env "DATABASE_URL") as [u |]; simplify_eq/=.
  apply bind_ok in Hk as (pool & p2 & Hg & Hk). unfold ret in Hk. simplify_eq.
  apply get_or_try_init_fresh in Hg as (p3 & Hi & ->); [| done ]. apply on_err_ok in Hi. unfold zoom in Hi. simpl in Hi.
  destruct (pg_connect _ url (p_net p1)) as [r net] eqn:Hc. simplify_eq. eauto 10.
Qed.

Lemma projections_ok config p s p' :
  p_projection_pool p = None -> projections_new_with_config config p = (Ok s, p') ->
  exists url pool net, env "DATABASE_URL" = Some url /\ s = from_pool_with_config pool config /\
    pg_connect_projections (projection_options config) url (p_net p) = (Ok pool, net) /\
    p' = put_projection_pool pool (put_net net p).
Proof.
  intros Hnone (pool & p1 & Hg & Hk)%bind_ok. unfold ret in Hk. simplify_eq.
  apply get_or_try_init_fresh in Hg as (p2 & Hi & ->); [| done ].
  apply bind_ok in Hi as (url & p3 & Hu & Hi). unfold lift in Hu. simplify_eq.
  destruct (env "DATABASE_URL") as [u |]; simplify_eq/=. apply on_err_ok in Hi. unfold zoom in Hi.
  destruct (pg_connect_projections _ url (p_net p3)) as [r net] eqn:Hc. simplify_eq. eauto 10.
Qed.

Context `{!EventsDbLaws}.

(** C40. What a start-up that succeeds has started: the event store is over the
    pool opened at [DATABASE_URL] with five connections, the users of the
    authentication are in the same pool, the projections in a pool of their own at
    the same address with the connections of the environment; the web layer has
    100 permits and the settings of the environment; and whatever requests and
    background tasks then run, the events table is the one the pool was opened
    on. *)
Theorem started_application now parse_str p sv p' :
  p_db_pool p = None -> p_projection_pool p = None ->
  init_all_services now parse_str p = (Ok sv, p') ->
  exists url pool ppool config net1 net2,
    env "DATABASE_URL" = Some url /\ cfg_max_connections config = 5%Z /\ cfg_database_url config = url /\
    pg_connect (store_options config) url (p_net p) = (Ok pool, net1) /\
    pg_connect_projections (projection_options (projection_config env)) url net1 = (Ok ppool, net2) /\
    p_db_pool p' = Some pool /\ p_projection_pool p' = Some ppool /\
    app_permits (sx_app sv) = 100%nat /\ as_config (app_auth (sx_app sv)) = auth_config env /\
    as_user_repository (app_auth (sx_app sv)) = pg_users pool /\
    app_middleware (sx_app sv) = init_middleware env parse_str /\
    sm_config (sx_scaling_manager sv) = scaling_config env /\
    (forall acts, running_table d draw (snd (run d draw acts (launch sv p'))) = db_rows pool).
Proof.
  intros Hdb Hpp (clients & p1 & Hr & Hk)%bind_ok. unfold lift in Hr. simplify_eq.
  apply bind_ok in Hk as (store & p2 & Hs%on_err_ok & Hk).
  destruct (new_with_pool_size_ok _ _ _ _ Hdb Hs) as (url & pool & net1 & config & Hurl & -> & Hcu & Hmax & Hc & ->).
  apply bind_ok in Hk as (projections & p3 & Hp & Hk).
  apply projections_ok in Hp as (url' & ppool & net2 & Hurl' & -> & Hc' & ->); [| exact Hpp ].
  apply bind_ok in Hk as (l1 & p4 & Hl1 & Hk). apply bind_ok in Hk as (k & p5 & Hkp & Hk). unfold ret in Hk.
  simplify_eq. exists (cfg_database_url config), pool, ppool, config, net1, net2.
  destruct (on_kafka_pools _ _ _ _ _ _ _ Hl1) as [Hq1 Hq2]. destruct (on_kafka_pools _ _ _ _ _ _ _ Hkp) as [Hq3 Hq4].
  simpl in *. split_and!; try done; try congruence. intros acts.
  exact (proj1 (run_ledger d draw acts _)).
Qed.

(** Without [DATABASE_URL] nothing is opened, whatever the default address of
    [EventStoreConfig]. *)
Lemma startup_without_database_url now parse_str p :
  env "DATABASE_URL" = None -> is_ok (redis_open "redis://127.0.0.1/") = true ->
  init_all_services now parse_str p
    = (Err "Internal error: DATABASE_URL not set: environment variable not found", p).
Proof.
  intros Henv Hr. unfold init_all_services, bind, lift, on_err, new_with_pool_size.
  destruct (redis_open _) as [clients | | | ]; try done. unfold bind, lift. by rewrite Henv.
Qed.

(** The configuration of the event store at start-up. *)
Definition boot_config (url : string) : EventStoreConfig :=
  let c := EventStoreConfig_default (Some url) in
  {| cfg_database_url := url; cfg_max_connections := 5; cfg_min_connections := cfg_min_connections c;
     cfg_acquire_timeout_secs := cfg_acquire_timeout_secs c; cfg_idle_timeout_secs := cfg_idle_timeout_secs c;
     cfg_max_lifetime_secs := cfg_max_lifetime_secs c; cfg_batch_size := cfg_batch_size c;
     cfg_batch_timeout_ms := cfg_batch_timeout_ms c; cfg_max_batch_queue_size := cfg_max_batch_queue_size c;
     cfg_batch_processor_count := cfg_batch_processor_count c; cfg_snapshot_threshold := cfg_snapshot_threshold c;
     cfg_snapshot_interval_secs := cfg_snapshot_interval_secs c;
     cfg_snapshot_cache_ttl_secs := cfg_snapshot_cache_ttl_secs c;
     cfg_max_snapshots_per_run := cfg_max_snapshots_per_run c |}.

Lemma kafka_off_starts store projections cache p :
  kc_enabled (kafka_config env) = false ->
  is_ok (fst (on_kafka store projections cache (L1CacheUpdater_new (kafka_config env)) p)) = true /\
  is_ok (fst (on_kafka store projections cache (KafkaEventProcessor_new (kafka_config env)) p)) = true.
Proof.
  intros Hoff. unfold on_kafka, L1CacheUpdater_new, KafkaEventProcessor_new, on_cluster, on_err, zoom, bind,
    KafkaConsumer_new, KafkaProducer_new. by rewrite Hoff.
Qed.

(** What start-up needs: with Kafka switched off, [init_all_services] in a new
    process succeeds exactly when the Redis address is well formed,
    [DATABASE_URL] is set, a pool of five connections opens there and then the
    projections' pool does. *)
Theorem startup_succeeds_iff now parse_str p :
  p_db_pool p = None -> p_projection_pool p = None -> kc_enabled (kafka_config env) = false ->
  is_ok (fst (init_all_services now parse_str p)) = true <->
  is_ok (redis_open "redis://127.0.0.1/") = true /\
  exists url pool net, env "DATABASE_URL" = Some url /\
    pg_connect (store_options (boot_config url)) url (p_net p) = (Ok pool, net) /\
    is_ok (fst (pg_connect_projections (projection_options (projection_config env)) url net)) = true.
Proof.
  intros Hdb Hpp Hoff. unfold init_all_services, bind, lift, on_err. cbv zeta.
  destruct (redis_open _) as [clients | | | ]; simpl; try (split; [ done | by intros [? _] ]).
  unfold new_with_pool_size, bind, lift. destruct (env "DATABASE_URL") as [url |] eqn:Henv; simpl;
    [| split; [ done | by intros (_ & ? & ? & ? & ? & _) ] ].
  unfold new_with_pool_size_and_url, new_with_config, get_or_try_init, bind, gets, on_err, zoom. rewrite Hdb, Henv.
  cbv zeta. simpl cfg_database_url.
  fold (boot_config url).
  destruct (pg_connect (store_options (boot_config url)) url (p_net p)) as [ [pool | | | ] net] eqn:Hc; simpl;
    try (split; [ done | intros (_ & u & ? & ? & Hu & Hconn & _); injection Hu as <-; by rewrite Hc in Hconn ]).
  unfold projections_new_with_config, get_or_try_init, bind, gets, lift, on_err, zoom. simpl. rewrite Hpp, Henv. simpl.
  destruct (pg_connect_projections _ url net) as [ [ppool | | | ] net2] eqn:Hc2; simpl;
    try (split; [ done | intros (_ & u & ? & ? & Hu & Hconn & Hok); injection Hu as <-; rewrite Hc in Hconn;
      injection Hconn as <- <-; by rewrite Hc2 in Hok ]).
  unfold modify, ret. simpl.
  match goal with |- context [ on_kafka ?st ?pr ?ca (L1CacheUpdater_new _) ?q ] =>
    destruct (kafka_off_starts st pr ca q Hoff) as [Hl _];
    destruct (on_kafka st pr ca (L1CacheUpdater_new (kafka_config env)) q) as [ [l1 | | | ] q1]; try done;
    destruct (kafka_off_starts st pr ca q1 Hoff) as [_ Hk];
    destruct (on_kafka st pr ca (KafkaEventProcessor_new (kafka_config env)) q1) as [ [k | | | ] q2]; try done
  end.
  split; [| done ]. intros _. split; [ done |]. exists url, pool, net. by rewrite Hc2.
Qed.

End Boot.

(** ** Witnesses: a network that connects to what is listening *)
Module BootWitness.
Import ScaleZero PlainSerde TableDb KafkaWitness StoreWitness ProjectionsWitness CacheWitness AuthWitness ApplicationWitness.

(** The addresses that answer, and the options of the pools opened. *)
Record Wire : Type := { listening : list string; opened : list PoolOptions }.

Definition connect {A} (a : A) (o : PoolOptions) (url : string) : M Wire SqlxError A :=
  fun w => if bool_decide (url ∈ listening w)
           then (Ok a, {| listening := listening w; opened := opened w ++ [o] |})
           else (Err (OtherSqlxError "connection refused"), w).

#[export] Instance outside : Outside := {|
  Net := Wire;
  pg_connect := connect (StoreWitness.table : @Db db);
  pg_connect_projections := connect (∅ : @PDb _ pdb);
  pg_users := fun _ => empty_table;
  redis_open := fun _ => Ok ((∅ : @ARedis counters), (∅ : @Redis text server))
|}.

Definition fresh_process (urls : list string) : Process :=
  {| p_net := {| listening := urls; opened := [] |} : @Net _ _ _ _ _ _ _ outside; p_db_pool := None; p_projection_pool := None;
     p_cluster := cluster [] |}.

Definition environment (name : string) : option string :=
  if String.eqb name "DATABASE_URL" then Some "postgres://bank"
  else if String.eqb name "KAFKA_ENABLED" then Some "false" else None.

Definition booted : res string (Services draws 5%N) * Process :=
  init_all_services environment draws 5%N 0 (fun _ => None) (fresh_process ["postgres://bank"]).

Lemma pool_opened_once_witness :
  let '(_, p1) := new_with_config (boot_config "postgres://bank") (fresh_process ["postgres://bank"]) in
  new_with_config (boot_config "postgres://other") p1
    = (Ok (new_with_config_and_pool StoreWitness.table (boot_config "postgres://other")), p1) /\
  length (opened (p_net p1)) = 1%nat.
Proof.
  pose proof (pool_opened_once (boot_config "postgres://bank") (boot_config "postgres://other")
                (fresh_process ["postgres://bank"])) as Hw.
  split; [ exact (proj2 Hw) | reflexivity ].
Defined.

Lemma started_application_witness :
  match booted with
  | (Ok sv, p') => app_permits (sx_app draws 5%N sv) = 100%nat /\ map po_max_connections (opened (p_net p')) = [5; 5]%Z /\
      forall acts, running_table draws 5%N (snd (run draws 5%N acts (launch draws 5%N sv p'))) = rows
  | _ => False
  end.
Proof.
  destruct booted as [ [sv | e | | ] p'] eqn:Hb; [| discriminate Hb | discriminate Hb | discriminate Hb ].
  destruct (started_application environment draws 5%N 0 (fun _ => None) (fresh_process ["postgres://bank"]) sv p'
              eq_refl eq_refl Hb) as (url & pool & ppool & config & n1 & n2 & Hw).
  destruct Hw as (Hurl & Hmax & Hcu & Hc & Hc2 & Hp & _ & Hpermits & _ & _ & _ & _ & Htable).
  split; [ exact Hpermits |]. split.
  - injection Hb as _ <-. reflexivity.
  - intros acts. rewrite Htable. injection Hurl as <-. injection Hc as <- _. reflexivity.
Defined.

Lemma startup_succeeds_iff_witness : is_ok (fst booted) = true.
Proof.
  unfold booted.
  refine (proj2 (startup_succeeds_iff environment draws 5%N 0 (fun _ => None) (fresh_process ["postgres://bank"])
            eq_refl eq_refl _) _); [ vm_compute; reflexivity |]. split; [ reflexivity |].
  exists "postgres://bank", StoreWitness.table,
    {| listening := ["postgres://bank"]; opened := [store_options (boot_config "postgres://bank")] |}.
  split; [ reflexivity |]. split; reflexivity.
Defined.

End BootWitness.
